(* ===== verification/_CoqProject ===== *)
-Q . S2P
Prelude.v
GoLib.v
Regexp.v
IboxTypes.v
Traces.v
Fmt.v
Csi.v
KubeClient.v
IboxHttp.v
IboxHttpProofs.v
IboxMissing.v
Helper.v
StorageCommon.v
StorageCommonProofs.v
Block.v
Fc.v
Iscsi.v
Nvme.v
ScReplica.v
Json.v
JsonProofs.v
NfsApi.v
Nfs.v
NfsProofs.v
Treeq.v
Storage.v
BlockProofs.v
Controller.v
ControllerProofs.v
ValidationProofs.v
TreeqProofs.v
VolumeGroup.v
VolumeGroupProofs.v
Listing.v
ListingProofs.v
Host.v
Mount.v
Multipath.v
NfsNode.v
BlockNode.v
FcNode.v
IscsiNode.v
NvmeNode.v
Node.v
NodeKinds.v
NodeProofs.v
MountProofs.v
MultipathProofs.v
NfsNodeProofs.v
Replication.v
ReplicationProofs.v
CustomResource.v
CreatePVC.v
Iboxreplica.v
Iboxcg.v
Iboxpromote.v
Worlds.v
IboxreplicaProofs.v
IboxcgProofs.v
IboxpromoteProofs.v
Events.v
EventsProofs.v
Duration.v
MetricsTypes.v
Metrics.v
MetricsProofs.v
Cosi.v
CosiProofs.v
Driver.v
DriverProofs.v
