(* ===== verification/Prelude.v ===== *)
(** * The InfiniBox CSI driver

    A model of the driver and of the programs beside it (Go module under src/): the
    CSI controller and node services with the five protocols they serve volumes
    over, the client of the array's REST interface, the CSI add-ons, the
    controllers of the custom resources, the metrics exporter and the object
    storage driver; with the theorems that make them correct.

    ** The program

    An orchestrator calls the controller service ([service/controller.go]) once per
    cluster and the node service ([service/node.go]) on every node. A handler
    validates its request, chooses a protocol implementation
    ([storage/storageservice.go]: FC, iSCSI, NVMe, NFS or treeq) and turns the
    implementation's errors into gRPC statuses. The controller halves
    ([storage/fc], [storage/iscsi], [storage/nvme], [storage/nfs],
    [storage/treeq]) drive the array through the interface [iboxapi.Client], which
    package [iboxapi] implements over HTTP; the node halves run commands of the
    host and mount what they find. Both share [storage/common]; exports go through
    [api/nfsapiclient.go], Kubernetes through [api/clientgo].

    The add-ons ([service/csiaddons]) replicate volumes and keep them in groups. A
    storage class may ask for a replica of a new volume ([service/screplica.go]):
    the driver makes a custom resource, on which one of three controllers acts
    ([iboxreplica], [iboxcg], [iboxpromote]), which in turn makes volumes and claims
    for the remote entities ([createpvc]). [metrics] and [cosi] are programs of
    their own.

    ** How it is modelled

    A handler is a value of [prog E A]: a finite tree that returns an [A], panics,
    or asks a call of the interface [E] and goes on with any answer. The boundaries
    are
    - [IboxTypes.call]: [ibox] (the array), [kube] (the cluster) and [os]
      (environment, clock, random numbers, the process-wide mutexes, sleeping);
    - [Host.ncall]: those and the host of a node (commands, files, the mounter, the
      network);
    - [IboxHttp.http]: marshalling, sending and decoding of a request;
    - [CustomResource.rcall], [Metrics.mcall], [Cosi.s3call], [Driver.dcall]: what
      the other programs ask.
    Nothing is assumed about the answers: [runs p t o] says that some environment
    answers so that [p] asks the trace [t] and ends as [o], and a theorem about all
    runs is a theorem about every behaviour of array, cluster, host and clock,
    concurrent requests included, since another request can only be seen through
    the answers. [wp] is the weakest precondition of that relation ([wp_runs],
    [runs_wp]); [exec] runs a program in a world; [interp] implements one interface
    over another and [interp_runs] relates the two traces: with it a handler over
    [iboxapi.Client] becomes one over HTTP.

    Handlers that run side by side are lists of programs of which any takes the next
    step, as long as the mutex it asks for is free (NodeProofs). Reconciliations
    follow each other in a world that keeps resources and replicas and may fail any
    call (Worlds).

    Go's data is kept as Go has it: [int] and [int64] are [Z] with wrap-around
    written out ([i64]) where the code computes with them; strings are byte
    strings; maps are [gmap]; a nil slice, map or pointer is [None] where the code
    can tell; an error is a value of [error], with the sentinels [ErrNotFound] and
    [ErrMappingExists] and gRPC statuses, so that [errors.Is] and [status.Code] are
    functions. A nil dereference, a failed type assertion, an index out of range, a
    division by zero and [log.Fatal] are [Panic]. A global the handlers change (the
    event counters) and a receiver they change (the NFS and treeq services) are
    passed in and out.

    ** Files

    The language and its libraries:
    - Prelude: integers, errors, [prog], [runs], [wp], [exec], [interp], guards on
      traces, tactics. GoLib: [strings], [strconv], [path], [slices], [net].
      Regexp: [regexp], by derivatives, proved to decide the language of a
      pattern. Fmt: the verb [%v]. Json (+JsonProofs): [encoding/json]. Duration:
      [time.ParseDuration].
    - Traces: classes of calls (changing, locking, quiet), programs that always
      end, quiet beginnings. Worlds: histories of worlds whose calls may fail.
    Data and boundaries:
    - IboxTypes: the records of [iboxapi] and [api/types.go] and the interfaces.
      Csi: CSI messages and [common/types.go]. MetricsTypes: the answers the
      exporter reads.
    The array and the cluster:
    - IboxHttp (+IboxHttpProofs, IboxMissing): package [iboxapi].
    - KubeClient: [api/clientgo/goclient.go]. NfsApi: [api/nfsapiclient.go].
    The controller half:
    - Helper: [helper] (rounding, booleans, access modes, locks).
    - StorageCommon (+Proofs): [storage/common].
    - Block, Fc, Iscsi, Nvme (+BlockProofs): the block controllers. Block has the
      passages the three sources repeat.
    - Nfs (+NfsProofs): NFS controller and export permissions. Treeq (+Proofs):
      treeq service and controller, the class [Treeq.Interface] between them.
    - ScReplica: [service/screplica.go]. Storage: [storage/storageservice.go].
    - Controller (+ControllerProofs, ValidationProofs): [service/controller.go],
      [service/protocolsecret.go]. Listing (+Proofs): [listvolumes.go] and
      [listsnapshots.go].
    - VolumeGroup (+Proofs): [service/volumegroupcontroller.go] and
      [csiaddons/volumegroup.go]. Replication (+Proofs): [csiaddons/replication.go].
    The node half:
    - Host: the host of a node and [helper/exec.go]. Mount (+Proofs): [mount.go],
      [permissions.go], [nodeexpandvolume.go]. Multipath (+Proofs): [multipath.go].
    - NfsNode (+Proofs): [nfsnode.go], [nfsmount.go], [cleanupnfsperm.go],
      [treeqnode.go]. BlockNode, FcNode, IscsiNode, NvmeNode: the block protocols.
    - Node, NodeKinds, NodeProofs: [service/node.go], the kinds of calls each
      handler makes, and handlers side by side.
    The custom resources:
    - CustomResource: what the three controllers share. Iboxreplica, Iboxcg,
      Iboxpromote (+Proofs): the controllers. CreatePVC: [createpvc/common.go].
    The rest:
    - Events (+Proofs): [helper/customevent.go]. Driver (+Proofs): [main.go],
      [service/driver.go], [server.go], [identityserver.go], and the identity and
      the server of the add-ons.
    - Metrics (+Proofs): [metrics]. Cosi (+Proofs): [cosi].

    ** What is shown

    - Nothing is lost: block and file-system deletion only under the checks the
      code makes ([DeleteVolume_guarded], [DeleteNFSVolume_guarded],
      [DeleteTreeqVolume_guarded], [CommonUnpublishVolume_safe]); a creation that
      fails deletes exactly what it made ([CreateVolume_no_leak],
      [CreateExportPathAndAddMetadata_reverts]); on a node, unmounting removes only
      mount points that are unmounted and empty ([UnmountAndCleanUp_safe]) and no
      device of a multipath map goes before the map was flushed
      ([DetachMpathDevice_flushes]).
    - What creation, cloning, snapshots, publication, expansion and listing ask of
      the array and answer, on every branch, per protocol, and again at the level
      of the controller service, where a handler is one run of the chosen
      implementation between validation and response ([CreateVolume_spec],
      [ListSnapshots_spec] and the other theorems of those files).
    - The REST client: over HTTP every handler is a run over the interface, and what
      reaches the array are exactly the requests of its changing calls
      ([over_http_requests]); listings read every page
      ([IboxClient_lists_everything]); an object is reported missing only when the
      array said so ([IboxClient_not_found]).
    - Nodes: over every interleaving of any number of handlers only the holder of
      the mutex makes calls, and some handler can go on ([handlers_take_turns]);
      which rule a node gets in an export, when it is mounted, and which rules are
      withdrawn ([NodePublishVolume_guarded], [NodeUnpublishVolume_guarded]); the
      record of a disk is read back when it is unstaged ([staged_record_found]).
    - Replication and groups: the replica runs from one array at a time and the
      direction only changes as asked ([switching_spec]); membership changes are
      the planned moves, each at most once ([ModifyVolumeGroupMembership_spec]).
    - Custom resources: an entity never has two replicas
      ([one_replica_each_reachable]), an acceptable request is fulfilled once calls
      stop failing ([Reconcile_eventually]), and when a replica, a member or a
      promotion is made ([Reconcile_creates], [Reconcile_members],
      [Reconcile_promotes]).
    - Mutual exclusion: treeq changes and publication happen between taking and
      releasing a mutex that is released however the call ends.
    - The exporter: a gauge is set only with the labels it is registered with
      ([gauges_registered]), what is published of an array's health
      ([record_health_spec]), and which collectors a pass leaves behind
      ([record_performance_collectors]). The daily events: each count that is not
      zero is reported once, in order ([processEventCountersImpl_spec]).
    - Object storage: a bucket is created at most once and only when the service
      said it is missing ([DriverCreateBucket_guarded]); the service in memory
      stands for the real one, for requests that make sense for the buckets there
      are ([stub_stands_for_service]).
    - The start: what is served is registered, and what is declared is served
      ([main_serves]).
    - Data: [RoundUp], lock expiry, volume identifiers, mount options, storage
      class parameters, capability lists, volume objects for remote entities.

    A theorem with hypotheses is followed by a witness at a concrete input.

    ** Fuel and bounds

    The two climbs to tagged ancestors ([StorageCommon.DeleteVolume],
    [NfsApi.DeleteParentFileSystem]) take fuel, the number of objects they may
    visit: one more than the length of the chain is enough
    ([DeleteVolume_terminates], [DeleteNFSVolume_terminates]). The parser of JSON
    takes the length of its text, that of durations the number of characters
    ([components_fuel]), that of IPv6 addresses the number of groups. The loops of
    the code that count (retries, pages, rounds of a flush) are recursions on the
    count; the others are over lists. The background loops ([passes], the daily
    timers) are any number of passes. Everything else is structurally total.

    ** Not modelled

    - The start of the programs beside the driver (the main functions of the
      controllers, the exporter and the object storage driver: flags, signals,
      sockets) and the registration of reconcilers; test clients, end-to-end tests,
      mocks and generated deep copies.
    - Code nothing calls ([ChownR], [ValidateUnixPermissions],
      [BuildOffClusterClient] and the like), handlers that only answer
      Unimplemented, and the texts of fixed capabilities of CSI.
    - Logging and timing: log lines are left out, the calls made for their
      arguments are kept; so are elapsed times, the verbosity of klog and the walks
      for debugging. The address prefixes [common.Errorf] adds to error texts and
      the file and line of an [ImplementationError] are left out.
    - Below the boundaries: JSON text of the REST interface, the SDKs, client-go,
      [controllerutil] (a class with its laws), the shell. A successful read of a
      resource replaces it and a status update answers the server's object; a
      command is one step, since the executor holds a mutex while it runs, and
      leaves plain files alone where a theorem says so ([file_effect]).
    - Texts: the model of [fmt] covers what the code prints; case conversion and
      escaping are those of ASCII, other bytes are kept. A gauge keeps the integer
      or the literal it is set to, not its float64. The event counters are changed
      by one goroutine at a time. Memory exhaustion is not represented.
*)
From stdpp Require Import base strings list gmap.
From Stdlib Require Import ZArith Lia.

Declare Scope csi_scope.
Delimit Scope csi_scope with csi.
#[global] Arguments String.append !_ _ / : simpl nomatch.
Create HintDb csi.
Create Rewrite HintDb csi_rw.

(** ** Machine integers *)

(** [int64] (and [int] on the 64-bit targets the driver is built for):
    two's-complement wrap-around of a mathematical integer. *)
Definition int64_min : Z := (-9223372036854775808)%Z.
Definition int64_max : Z := 9223372036854775807%Z.
Definition i64 (z : Z) : Z :=
  ((z + 9223372036854775808) mod 18446744073709551616 - 9223372036854775808)%Z.
Definition in_i64 (z : Z) : Prop := (int64_min <= z <= int64_max)%Z.

Lemma i64_id z : in_i64 z -> i64 z = z.
Proof. unfold in_i64, int64_min, int64_max, i64. intros H. rewrite Z.mod_small; lia. Qed.
Lemma i64_range z : in_i64 (i64 z).
Proof.
  unfold in_i64, int64_min, int64_max, i64.
  pose proof (Z.mod_pos_bound (z + 9223372036854775808) 18446744073709551616). lia.
Qed.

(** Wrapping the operands changes nothing. *)
Lemma i64_add_l a b : i64 (i64 a + b) = i64 (a + b).
Proof.
  unfold i64. f_equal.
  replace ((a + 9223372036854775808) mod 18446744073709551616 - 9223372036854775808 + b + 9223372036854775808)%Z
    with ((a + 9223372036854775808) mod 18446744073709551616 + b)%Z by lia.
  rewrite Z.add_mod_idemp_l by lia. f_equal. lia.
Qed.
Lemma i64_add_r a b : i64 (a + i64 b) = i64 (a + b).
Proof. rewrite Z.add_comm, i64_add_l. f_equal. lia. Qed.
Lemma i64_sub_r a b : i64 (a - i64 b) = i64 (a - b).
Proof.
  unfold i64. f_equal.
  replace (a - ((b + 9223372036854775808) mod 18446744073709551616 - 9223372036854775808) + 9223372036854775808)%Z
    with (a + 18446744073709551616 - (b + 9223372036854775808) mod 18446744073709551616)%Z by lia.
  rewrite Zminus_mod_idemp_r.
  replace (a + 18446744073709551616 - (b + 9223372036854775808))%Z
    with (a - b + 9223372036854775808 + 0 * 18446744073709551616)%Z by lia.
  by rewrite Z.mod_add by lia.
Qed.

(** ** Go error values *)

(** gRPC status codes ([google.golang.org/grpc/codes]). *)
Inductive Code :=
| OK | Canceled | Unknown | InvalidArgument | DeadlineExceeded | NotFound
| AlreadyExists | PermissionDenied | ResourceExhausted | FailedPrecondition
| Aborted | OutOfRange | Unimplemented | Internal | Unavailable | DataLoss
| Unauthenticated.

#[export] Instance Code_eq_dec : EqDecision Code.
Proof. solve_decision. Defined.

Definition Code_String (c : Code) : string :=
  match c with
  | OK => "OK" | Canceled => "Canceled" | Unknown => "Unknown"
  | InvalidArgument => "InvalidArgument" | DeadlineExceeded => "DeadlineExceeded"
  | NotFound => "NotFound" | AlreadyExists => "AlreadyExists"
  | PermissionDenied => "PermissionDenied" | ResourceExhausted => "ResourceExhausted"
  | FailedPrecondition => "FailedPrecondition" | Aborted => "Aborted"
  | OutOfRange => "OutOfRange" | Unimplemented => "Unimplemented"
  | Internal => "Internal" | Unavailable => "Unavailable" | DataLoss => "DataLoss"
  | Unauthenticated => "Unauthenticated"
  end.

Definition Code_digits (c : Code) : string :=
  match c with
  | OK => "0" | Canceled => "1" | Unknown => "2" | InvalidArgument => "3"
  | DeadlineExceeded => "4" | NotFound => "5" | AlreadyExists => "6"
  | PermissionDenied => "7" | ResourceExhausted => "8" | FailedPrecondition => "9"
  | Aborted => "10" | OutOfRange => "11" | Unimplemented => "12" | Internal => "13"
  | Unavailable => "14" | DataLoss => "15" | Unauthenticated => "16"
  end.

(** An error value: the two sentinels of [iboxapi], an opaque text
    ([errors.New], [fmt.Errorf] without [%w]), a wrapping [fmt.Errorf] with one
    [%w], a gRPC status error and the driver's [ImplementationError]. *)
Inductive error :=
| ErrNotFound
| ErrMappingExists
| EText (msg : string)
| EWrap (pre : string) (e : error) (post : string)
| EStatus (c : Code) (msg : string)
| EImpl (c : Code) (msg : string).

#[export] Instance error_eq_dec : EqDecision error.
Proof. solve_decision. Defined.

(** [err.Error()]. The [file:line] prefix [common.Errorf] and the handlers put
    in front of a message is left out. *)
Fixpoint Error (e : error) : string :=
  match e with
  | ErrNotFound => "item not found"
  | ErrMappingExists => "mapping already exists"
  | EText m => m
  | EWrap pre e post => pre +:+ Error e +:+ post
  | EStatus c m => "rpc error: code = " +:+ Code_String c +:+ " desc = " +:+ m
  | EImpl c m => "code " +:+ Code_digits c +:+ ": " +:+ m
  end.

(** [errors.Is(err, iboxapi.ErrNotFound)] and its twin: the chain of [%w]
    wrappings is followed; a status or an implementation error hides its cause
    (the handlers never set [ImplementationError.Err]). *)
Fixpoint is_ErrNotFound (e : error) : bool :=
  match e with
  | ErrNotFound => true
  | EWrap _ e _ => is_ErrNotFound e
  | _ => false
  end.
Fixpoint is_ErrMappingExists (e : error) : bool :=
  match e with
  | ErrMappingExists => true
  | EWrap _ e _ => is_ErrMappingExists e
  | _ => false
  end.

(** [status.Error(code, common.Errorf(pre + ": %w", err).Error())], with [pre] up
    to the cause. *)
Definition status_of (code : Code) (pre : string) (err : error) : error := EStatus code (pre +:+ Error err).

(** The pair [(value, error)] a Go function returns when exactly one is
    meaningful. *)
Inductive res (A : Type) :=
| Ok (a : A)
| Err (e : error).
Arguments Ok {A} a.
Arguments Err {A} e.

Definition is_ok {A} (r : res A) : bool := match r with Ok _ => true | Err _ => false end.

Definition res_bind {A B} (r : res A) (f : A -> res B) : res B :=
  match r with Ok a => f a | Err e => Err e end.
Definition map_err {A} (f : error -> error) (r : res A) : res A :=
  match r with Ok a => Ok a | Err e => Err (f e) end.

(** ** Effectful programs *)

(** A handler is a finite tree: it returns, panics, runs out of the fuel a
    recursive definition was given, or makes one call of the interface [E] to
    its environment and goes on with the answer. *)
Inductive prog (E : Type -> Type) (A : Type) : Type :=
| Ret (a : A)
| Panic
| NoFuel
| Vis {X : Type} (e : E X) (k : X -> prog E A).
Arguments Ret {E A} a.
Arguments Panic {E A}.
Arguments NoFuel {E A}.
Arguments Vis {E A X} e k.

Inductive outcome (A : Type) :=
| Done (a : A)
| Panicked
| Exhausted.
Arguments Done {A} a.
Arguments Panicked {A}.
Arguments Exhausted {A}.

Fixpoint bind {E A B} (p : prog E A) (f : A -> prog E B) : prog E B :=
  match p with
  | Ret a => f a
  | Panic => Panic
  | NoFuel => NoFuel
  | Vis e k => Vis e (fun x => bind (k x) f)
  end.

Definition trigger {E X} (e : E X) : prog E X := Vis e (fun x => Ret x).

(** [defer]: the deferred code [d] runs when [p] returns (seeing its result)
    and when it panics. *)
Fixpoint defer {E A} (p : prog E A) (d : option A -> prog E unit) : prog E A :=
  match p with
  | Ret a => bind (d (Some a)) (fun _ => Ret a)
  | Panic => bind (d None) (fun _ => Panic)
  | NoFuel => NoFuel
  | Vis e k => Vis e (fun x => defer (k x) d)
  end.

Notation "x <- p ;; q" := (bind p (fun x => q))
  (at level 100, p at next level, right associativity,
   format "x  <-  p ;;  '//' q") : csi_scope.
Notation "p ;;; q" := (bind p (fun _ => q))
  (at level 100, q at level 200, right associativity,
   format "p ;;;  '//' q") : csi_scope.
Notation "'try' x <- p 'catch' e => h ;; q" :=
  (bind p (fun r => match r with Ok x => q | Err e => h end))
  (at level 100, x name, p at next level, e name, h at next level,
   right associativity,
   format "'try'  x  <-  p  'catch'  e  =>  h ;;  '//' q") : csi_scope.
Open Scope csi_scope.

(** ** Runs, traces and their logic *)

Inductive evt (E : Type -> Type) : Type :=
| Evt {X : Type} (e : E X) (x : X).
Arguments Evt {E X} e x.

(** [runs p t o]: some environment answers the calls of [p] so that the calls
    and answers are [t] and the outcome is [o]. The environment is arbitrary:
    other clients of the array may act between any two calls. *)
Fixpoint runs {E A} (p : prog E A) (t : list (evt E)) (o : outcome A) : Prop :=
  match p with
  | Ret a => t = [] /\ o = Done a
  | Panic => t = [] /\ o = Panicked
  | NoFuel => t = [] /\ o = Exhausted
  | Vis e k => exists x t', t = Evt e x :: t' /\ runs (k x) t' o
  end.

(** The weakest precondition of a postcondition on trace and outcome. *)
Fixpoint wp {E A} (p : prog E A) (Q : list (evt E) -> outcome A -> Prop) : Prop :=
  match p with
  | Ret a => Q [] (Done a)
  | Panic => Q [] Panicked
  | NoFuel => Q [] Exhausted
  | Vis e k => forall x, wp (k x) (fun t o => Q (Evt e x :: t) o)
  end.

(** Running against a concrete stateful environment. *)
Definition handler (E : Type -> Type) (W : Type) : Type := forall X, E X -> W -> X * W.

Fixpoint exec {E A W} (h : handler E W) (p : prog E A) (w : W)
  : list (evt E) * outcome A * W :=
  match p with
  | Ret a => ([], Done a, w)
  | Panic => ([], Panicked, w)
  | NoFuel => ([], Exhausted, w)
  | Vis e k =>
      let '(x, w') := h _ e w in
      let '(t, o, w'') := exec h (k x) w' in
      (Evt e x :: t, o, w'')
  end.

(** Implementing one interface by programs over another. *)
Fixpoint interp {E F A} (impl : forall X, E X -> prog F X) (p : prog E A) : prog F A :=
  match p with
  | Ret a => Ret a
  | Panic => Panic
  | NoFuel => NoFuel
  | Vis e k => bind (impl _ e) (fun x => interp impl (k x))
  end.

Section wp_facts.
Context {E : Type -> Type}.

Lemma wp_mono {A} (p : prog E A) (Q Q' : list (evt E) -> outcome A -> Prop) :
  wp p Q -> (forall t o, Q t o -> Q' t o) -> wp p Q'.
Proof.
  revert Q Q'. induction p as [a| | |X e k IH]; intros Q Q' Hp HQ; cbn in *; eauto.
Qed.

Lemma wp_bind {A B} (p : prog E A) (f : A -> prog E B) Q :
  wp p (fun t o => match o with
                   | Done a => wp (f a) (fun t' o' => Q (t ++ t') o')
                   | Panicked => Q t Panicked
                   | Exhausted => Q t Exhausted
                   end) ->
  wp (bind p f) Q.
Proof.
  revert Q. induction p as [a| | |X e k IH]; intros Q Hp; cbn in *; [exact Hp..|].
  intros x. apply IH, (Hp x).
Qed.

Lemma wp_bind_inv {A B} (p : prog E A) (f : A -> prog E B) Q :
  wp (bind p f) Q ->
  wp p (fun t o => match o with
                   | Done a => wp (f a) (fun t' o' => Q (t ++ t') o')
                   | Panicked => Q t Panicked
                   | Exhausted => Q t Exhausted
                   end).
Proof.
  revert Q. induction p as [a| | |X e k IH]; intros Q Hp; cbn in *; [exact Hp..|].
  intros x. exact (IH x _ (Hp x)).
Qed.

(** The logic is sound and complete for the runs. *)
Lemma wp_runs {A} (p : prog E A) Q : wp p Q -> forall t o, runs p t o -> Q t o.
Proof.
  revert Q. induction p as [a| | |X e k IH]; cbn; intros Q Hwp t o;
    try (intros [-> ->]; exact Hwp).
  intros (x & t' & -> & Hr). exact (IH x _ (Hwp x) _ _ Hr).
Qed.

Lemma runs_wp {A} (p : prog E A) (Q : list (evt E) -> outcome A -> Prop) :
  (forall t o, runs p t o -> Q t o) -> wp p Q.
Proof.
  revert Q. induction p as [a| | |X e k IH]; intros Q HQ; cbn;
    try (apply HQ; done).
  intros x. apply IH. intros t o Ht. apply HQ. cbn. eauto.
Qed.

Lemma exec_runs {A W} (h : handler E W) (p : prog E A) w t o w' :
  exec h p w = (t, o, w') -> runs p t o.
Proof.
  revert w t o w'. induction p as [a| | |X e k IH]; cbn; intros w t o w' H;
    try (by simplify_eq).
  destruct (h X e w) as [x w1] eqn:Hh.
  destruct (exec h (k x) w1) as [[t1 o1] w2] eqn:He.
  simplify_eq. eauto.
Qed.

(** Using what is known of the runs of a called program. *)
Lemma wp_call {A B} (p : prog E A) (f : A -> prog E B)
    (R : list (evt E) -> outcome A -> Prop) (Q : list (evt E) -> outcome B -> Prop) :
  (forall t o, runs p t o -> R t o) ->
  (forall t o, R t o -> match o with
                        | Done a => wp (f a) (fun t' o' => Q (t ++ t') o')
                        | Panicked => Q t Panicked
                        | Exhausted => Q t Exhausted
                        end) ->
  wp (bind p f) Q.
Proof.
  intros HR HQ. apply wp_bind, runs_wp. intros t o Ht. exact (HQ _ _ (HR _ _ Ht)).
Qed.

Lemma runs_bind_inv {A B} (p : prog E A) (f : A -> prog E B) t o :
  runs (bind p f) t o ->
  (exists a t1 t2, t = t1 ++ t2 /\ runs p t1 (Done a) /\ runs (f a) t2 o) \/
  (o = Panicked /\ runs p t Panicked) \/
  (o = Exhausted /\ runs p t Exhausted).
Proof.
  revert t o. induction p as [a| | |X e k IH]; cbn; intros t o H; [|naive_solver..|].
  - left. exists a, [], t. done.
  - destruct H as (x & t' & -> & Hr).
    destruct (IH x _ _ Hr) as [(a & t1 & t2 & -> & H1 & H2)|[[-> H]|[-> H]]].
    + left. exists a, (Evt e x :: t1), t2. split; [done|]. eauto.
    + right; left. eauto.
    + right; right. eauto.
Qed.

Lemma runs_bind {A B} (p : prog E A) (f : A -> prog E B) a t1 t2 o :
  runs p t1 (Done a) -> runs (f a) t2 o -> runs (bind p f) (t1 ++ t2) o.
Proof.
  revert t1. induction p as [a'| | |X e k IH]; cbn; intros t1 H1 H2; [naive_solver..|].
  destruct H1 as (x & t' & -> & Hr). cbn. eauto.
Qed.

Lemma runs_call_inv {X B} (c : E X) (f : X -> prog E B) t o :
  runs (bind (trigger c) f) t o -> exists x t', t = Evt c x :: t' /\ runs (f x) t' o.
Proof. intros (x & t' & -> & H). by exists x, t'. Qed.
End wp_facts.

Section try_facts.
Context {E : Type -> Type}.
(** A run that succeeds went through the step that may fail. *)
Lemma runs_try_ok {A B} (p : prog E (res A)) (f : A -> prog E (res B)) (g : error -> error) t b :
  runs (bind p (fun r => match r with Ok a => f a | Err err => Ret (Err (g err)) end)) t (Done (Ok b)) ->
  exists a t1 t2, t = t1 ++ t2 /\ runs p t1 (Done (Ok a)) /\ runs (f a) t2 (Done (Ok b)).
Proof.
  intros H. apply runs_bind_inv in H as [([a|err] & t1 & t2 & -> & H1 & H2)|[[? _]|[? _]]]; [|by destruct H2|done..].
  by exists a, t1, t2.
Qed.
Lemma runs_try_call_ok {A B} (c : E (res A)) (f : A -> prog E (res B)) (g : error -> error) t b :
  runs (bind (trigger c) (fun r => match r with Ok a => f a | Err err => Ret (Err (g err)) end)) t (Done (Ok b)) ->
  exists a t', t = Evt c (Ok a) :: t' /\ runs (f a) t' (Done (Ok b)).
Proof. intros ([a|err] & t' & -> & H); [|by destruct H]. by exists a, t'. Qed.
End try_facts.

(** Running a program against answers to some of its calls. *)
Fixpoint follow {E A} (answer : forall X, E X -> option X) (p : prog E A) : option (list (evt E) * outcome A) :=
  match p with
  | Ret a => Some ([], Done a)
  | Panic => Some ([], Panicked)
  | NoFuel => Some ([], Exhausted)
  | Vis e k => x ← answer _ e; '(t, o) ← follow answer (k x); Some (Evt e x :: t, o)
  end.
Lemma follow_runs {E A} (answer : forall X, E X -> option X) (p : prog E A) t o :
  follow answer p = Some (t, o) -> runs p t o.
Proof.
  revert t o. induction p as [a| | |X e k IH]; cbn; intros t o H; [by simplify_eq..|].
  destruct (answer X e) as [x|]; [|done]. cbn in H. destruct (follow answer (k x)) as [[t' o']|] eqn:Hk; [|done].
  cbn in H. simplify_eq. eauto.
Qed.
(** Simulation: a run of the implementation of [p] is a run of [p] with the
    same outcome, each call answered by a run of its implementation. *)
Inductive refines {E F} (impl : forall X, E X -> prog F X) : list (evt E) -> list (evt F) -> Prop :=
| refines_nil : refines impl [] []
| refines_cons X (e : E X) x t u v :
    runs (impl X e) u (Done x) -> refines impl t v ->
    refines impl (Evt e x :: t) (u ++ v).

Lemma interp_runs {E F A} (impl : forall X, E X -> prog F X) (p : prog E A) u o :
  (forall X (e : E X) u, ~ runs (impl X e) u Panicked) ->
  (forall X (e : E X) u, ~ runs (impl X e) u Exhausted) ->
  runs (interp impl p) u o -> exists t, runs p t o /\ refines impl t u.
Proof.
  intros Hnp Hnf. revert u. induction p as [a| | |X e k IH]; cbn; intros u H.
  1-3: destruct H as [-> ->]; exists []; repeat split; constructor.
  destruct (runs_bind_inv _ _ _ _ H) as [(x & u1 & u2 & -> & H1 & H2)|[[_ H1]|[_ H1]]].
  - destruct (IH x _ H2) as (t & Ht & Hr).
    exists (Evt e x :: t). split; [eauto|by constructor].
  - by destruct (Hnp _ _ _ H1).
  - by destruct (Hnf _ _ _ H1).
Qed.

(** ** Symbolic execution of a handler *)

(** [scrutinee x]: destruct the innermost thing [x] is blocked on. *)
Ltac scrutinee x :=
  lazymatch x with
  | context [match ?y with _ => _ end] => scrutinee y
  | fst ?y => is_var y; destruct y
  | snd ?y => is_var y; destruct y
  | _ => tryif is_var x then destruct x
         else let H := fresh "Hcase" in destruct x eqn:H
  end.

(** What blocks the program [p]. *)
Ltac prog_case p :=
  lazymatch p with
  | bind ?q _ => prog_case q
  | defer ?q _ => prog_case q
  | interp _ ?q => prog_case q
  | match ?x with _ => _ end => scrutinee x
  end.

Ltac wp_reduce := cbn [wp bind defer trigger fst snd].

(** One step: name an answer, or branch. [wp_run] goes to the leaves. *)
Ltac wp_step :=
  match goal with
  | |- forall _, _ => intros ?
  | |- wp ?p _ => progress wp_reduce
  | |- wp ?p _ => prog_case p
  end.
Ltac wp_run := repeat wp_step.

(** Start the proof of a statement about all runs: the postcondition is kept
    folded until a leaf is reached; [wp_leaf] unfolds it there. *)
Ltac wp_start :=
  refine (wp_runs _ _ _);
  lazymatch goal with |- wp ?p ?Q => let Post := fresh "Post" in set (Post := Q) end.
Ltac wp_leaf :=
  match goal with Post := _ |- _ => subst Post; cbn beta match end.

(** ** Guards on the events of a trace *)

(** Every event of [t] satisfies [P] of what came before it. *)
Definition guarded {E} (P : list (evt E) -> evt E -> Prop) (t : list (evt E)) : Prop :=
  forall t1 e t2, t = t1 ++ e :: t2 -> P t1 e.

Section guarded_facts.
Context {E : Type -> Type}.
Implicit Types (P : list (evt E) -> evt E -> Prop) (t : list (evt E)).

Lemma guarded_nil P : guarded P [].
Proof. intros t1 e t2 H. by destruct t1. Qed.

Lemma guarded_cons P e t :
  guarded P (e :: t) <-> P [] e /\ guarded (fun t1 => P (e :: t1)) t.
Proof.
  split.
  - intros H. split; [by apply (H [] e t)|]. intros t1 e' t2 ->. by apply (H (e :: t1) e' t2).
  - intros [H0 H] t1 e' t2 Ht. destruct t1 as [|e1 t1]; cbn in Ht; simplify_eq; [done|].
    by apply (H t1 e' t2).
Qed.

Lemma guarded_app P t t' :
  guarded P (t ++ t') <-> guarded P t /\ guarded (fun t1 => P (t ++ t1)) t'.
Proof.
  revert P. induction t as [|e t IH]; intros P; cbn.
  - split; [|tauto]. intros H. split; [apply guarded_nil|done].
  - rewrite !guarded_cons, IH. tauto.
Qed.

Lemma guarded_mono P P' t :
  (forall t1 e, P t1 e -> P' t1 e) -> guarded P t -> guarded P' t.
Proof. intros HP H t1 e t2 Ht. eauto. Qed.

(** A run behind the calls [pre]: it keeps the guard and returns. *)
Definition finished {A} P (pre t : list (evt E)) (o : outcome A) : Prop :=
  guarded (fun t1 => P (pre ++ t1)) t /\ exists r, o = Done r.

Lemma finished_bind {A B} P pre (p : prog E A) (f : A -> prog E B) :
  (forall t o, runs p t o -> finished P pre t o) ->
  (forall a t, runs p t (Done a) -> forall t' o', runs (f a) t' o' -> finished P (pre ++ t) t' o') ->
  forall t o, runs (bind p f) t o -> finished P pre t o.
Proof.
  intros Hp Hf t o Ht.
  destruct (runs_bind_inv _ _ _ _ Ht) as [(a & t1 & t2 & -> & H1 & H2)|[[-> H1]|[-> H1]]].
  - destruct (Hp _ _ H1) as [Hg _]. destruct (Hf _ _ H1 _ _ H2) as [Hg' Hr]. split; [|done].
    apply guarded_app. split; [done|]. eapply guarded_mono, Hg'. intros t' e. cbn beta. by rewrite <- app_assoc.
  - by destruct (Hp _ _ H1) as [_ [? ?]].
  - by destruct (Hp _ _ H1) as [_ [? ?]].
Qed.

Lemma finished_ret {A} P pre (a : A) t o : runs (Ret a : prog E A) t o -> finished P pre t o.
Proof. intros [-> ->]. split; [apply guarded_nil|by eexists]. Qed.

Lemma finished_call {X} P pre (c : E X) t o :
  (forall x, P pre (Evt c x)) -> runs (trigger c) t o -> finished P pre t o.
Proof.
  intros H (x & t' & -> & -> & ->). split; [|by eexists].
  apply guarded_cons. rewrite app_nil_r. split; [done|apply guarded_nil].
Qed.
End guarded_facts.

#[export] Hint Resolve guarded_nil : csi.

(** Split the guard of a concrete trace into one goal per event, and close those
    of the events the guard does not speak of. *)
Ltac split_conj := repeat match goal with |- _ /\ _ => split end.
Ltac guard_event :=
  rewrite ?guarded_cons; split_conj;
  try (intros ? [=]; fail); try exact I; try reflexivity; try apply guarded_nil.
(** An event of a concrete trace. *)
Ltac in_trace := solve [repeat first [by left | right]].

(** A concrete run, answer by answer. *)
Ltac replay :=
  repeat (hnf; lazymatch goal with
               | |- exists _ _, _ => eexists _, _; split; [reflexivity|]
               | |- _ /\ _ => split; reflexivity
               end).
