(* ===== verification/GoLib.v ===== *)
(** The functions of Go's standard library the driver's logic is written with:
    [strings], [strconv], [path], [slices] and [net.ParseIP], on byte strings,
    with the facts the components rely on. Case conversion is that of ASCII. *)
From S2P Require Import Prelude.
From stdpp Require Import base strings list.
From Stdlib Require Import ZArith Lia Ascii DecimalString DecimalFacts DecimalZ.

Local Open Scope string_scope.
Local Open Scope list_scope.

(** ** Characters *)

Definition dquote : ascii := ascii_of_nat 34.
Definition squote : ascii := ascii_of_nat 39.
Definition newline : ascii := ascii_of_nat 10.
Definition code (c : ascii) : Z := Z.of_N (N_of_ascii c).
Definition between (lo hi c : ascii) : bool := ((code lo <=? code c) && (code c <=? code hi))%Z.
Definition is_digit (c : ascii) : bool := between "0" "9" c.
Definition is_letter (c : ascii) : bool := between "a" "z" c || between "A" "Z" c.
Definition to_upper (c : ascii) : ascii :=
  if between "a" "z" c then ascii_of_N (N_of_ascii c - 32) else c.
Definition to_lower (c : ascii) : ascii :=
  if between "A" "Z" c then ascii_of_N (N_of_ascii c + 32) else c.
Definition is_space (c : ascii) : bool :=
  Ascii.eqb c " " || between (ascii_of_nat 9) (ascii_of_nat 13) c.

Fixpoint map_string (f : ascii -> ascii) (s : string) : string :=
  match s with EmptyString => "" | String c s' => String (f c) (map_string f s') end.
Fixpoint all_string (f : ascii -> bool) (s : string) : bool :=
  match s with EmptyString => true | String c s' => f c && all_string f s' end.
Fixpoint some_string (f : ascii -> bool) (s : string) : bool :=
  match s with EmptyString => false | String c s' => f c || some_string f s' end.

(** ** Package strings *)

(** [strings.Contains]. *)
Fixpoint Contains (s sub : string) : bool :=
  String.prefix sub s ||
  match s with EmptyString => false | String _ s' => Contains s' sub end.

(** [strings.Split] for a non-empty separator: [skip] counts the bytes of a
    separator still to be passed over, [acc] is the field being read. *)
Fixpoint split_at (sep s : string) (skip : nat) (acc : string) : list string :=
  match s with
  | EmptyString => [acc]
  | String c s' =>
      match skip with
      | S k => split_at sep s' k acc
      | O => if String.prefix sep s
             then acc :: split_at sep s' (String.length sep - 1) ""
             else split_at sep s' 0 (acc +:+ String c "")
      end
  end.
Definition Split (s sep : string) : list string := split_at sep s 0 "".

Definition ToUpper : string -> string := map_string to_upper.
Definition ToLower : string -> string := map_string to_lower.

Fixpoint rev_string (s acc : string) : string :=
  match s with EmptyString => acc | String c s' => rev_string s' (String c acc) end.
Fixpoint drop_while (f : ascii -> bool) (s : string) : string :=
  match s with
  | EmptyString => ""
  | String c s' => if f c then drop_while f s' else s
  end.
Definition trim_func (f : ascii -> bool) (s : string) : string :=
  rev_string (drop_while f (rev_string (drop_while f s) "")) "".
(** [strings.Trim(s, cutset)] and [strings.TrimSpace]. *)
Definition Trim (s cutset : string) : string :=
  trim_func (fun c => some_string (Ascii.eqb c) cutset) s.
Definition TrimSpace : string -> string := trim_func is_space.

(** [strings.ReplaceAll] of one byte by another. *)
Definition ReplaceByte (s : string) (old new : ascii) : string :=
  map_string (fun c => if Ascii.eqb c old then new else c) s.

(** ** Package strconv *)

Definition Itoa (z : Z) : string := NilZero.string_of_int (Z.to_int z).

Definition FormatBool (b : bool) : string := if b then "true" else "false".

(** [strconv.Quote] of a printable ASCII text without quotes or backslashes. *)
Definition Quote (s : string) : string := String dquote (s +:+ String dquote "").

Definition num_error (fn s what : string) : error :=
  EText ("strconv." +:+ fn +:+ ": parsing " +:+ Quote s +:+ ": " +:+ what).

(** Base-10 [ParseInt(s, 10, 64)]: an optional sign, then digits only. *)
Definition parse_decimal (s : string) : option Z :=
  match s with
  | String "+" s' => (fun d => Z.of_int (Decimal.Pos d)) <$> NilZero.uint_of_string s'
  | _ => Z.of_int <$> NilZero.int_of_string s
  end.

Definition parse_int (fn s : string) : res Z :=
  match parse_decimal s with
  | None => Err (num_error fn s "invalid syntax")
  | Some z => if ((int64_min <=? z) && (z <=? int64_max))%Z then Ok z
              else Err (num_error fn s "value out of range")
  end.
Definition Atoi (s : string) : res Z := parse_int "Atoi" s.
(** What [Atoi] answers beside its error. *)
Definition Atoi_value (s : string) : Z :=
  match parse_decimal s with
  | None => 0
  | Some z => Z.max int64_min (Z.min int64_max z)
  end.
Definition ParseInt10 (s : string) : res Z := parse_int "ParseInt" s.

Definition octal_digit (c : ascii) : option Z :=
  if between "0" "7" c then Some (code c - code "0")%Z else None.
Fixpoint parse_octal (s : string) (acc : Z) : option Z :=
  match s with
  | EmptyString => Some acc
  | String c s' =>
      match octal_digit c with
      | Some d => parse_octal s' (8 * acc + d)%Z
      | None => None
      end
  end.
(** [strconv.ParseUint(s, 8, 32)]. *)
Definition ParseUint8_32 (s : string) : res Z :=
  match s with
  | EmptyString => Err (num_error "ParseUint" s "invalid syntax")
  | _ => match parse_octal s 0 with
         | None => Err (num_error "ParseUint" s "invalid syntax")
         | Some z => if (z <? 4294967296)%Z then Ok z
                     else Err (num_error "ParseUint" s "value out of range")
         end
  end.

(** [strconv.ParseBool]. *)
Definition ParseBool (s : string) : res bool :=
  if bool_decide (s ∈ ["1"; "t"; "T"; "TRUE"; "true"; "True"]) then Ok true
  else if bool_decide (s ∈ ["0"; "f"; "F"; "FALSE"; "false"; "False"]) then Ok false
  else Err (num_error "ParseBool" s "invalid syntax").

(** ** Package path *)

Definition clean_step (rooted : bool) (stack : list string) (seg : string) : list string :=
  if String.eqb seg "" || String.eqb seg "." then stack
  else if String.eqb seg ".." then
    match stack with
    | [] => if rooted then [] else [".."]
    | top :: rest => if String.eqb top ".." then ".." :: stack else rest
    end
  else seg :: stack.

Fixpoint join_with (sep : string) (l : list string) : string :=
  match l with
  | [] => ""
  | [s] => s
  | s :: l' => s +:+ sep +:+ join_with sep l'
  end.

(** [path.Clean]: the shortest equivalent path, by lexical processing. *)
Definition Clean (p : string) : string :=
  let rooted := String.prefix "/" p in
  let segs := reverse (foldl (clean_step rooted) [] (Split p "/")) in
  if rooted then "/" +:+ join_with "/" segs
  else if bool_decide (segs = []) then "." else join_with "/" segs.

(** [path.Join]: empty elements are ignored. *)
Definition PathJoin (elems : list string) : string :=
  match filter (fun s => s <> "") elems with
  | [] => ""
  | l => Clean (join_with "/" l)
  end.

(** ** Package slices *)

(** [slices.Compact]: each run of equal consecutive elements becomes one. *)
Fixpoint Compact (l : list string) : list string :=
  match l with
  | x :: ((y :: _) as l') => if String.eqb x y then Compact l' else x :: Compact l'
  | _ => l
  end.

(** ** Packages net and bytes *)

(** A dotted-decimal address: four fields of at most 255, without leading
    zeros ([netip.parseIPv4Fields]). *)
Definition ipv4_field (f : string) : option Z :=
  match f with
  | EmptyString => None
  | String "0" (String _ _) => None
  | _ => if all_string is_digit f
         then match parse_decimal f with
              | Some z => if (z <=? 255)%Z then Some z else None
              | None => None
              end
         else None
  end.
Definition parse_ipv4 (s : string) : option (list Z) :=
  match Split s "." with
  | [_; _; _; _] as fields => mapM ipv4_field fields
  | _ => None
  end.

Definition hex_digit (c : ascii) : option Z :=
  if is_digit c then Some (code c - code "0")%Z
  else if between "a" "f" c then Some (code c - code "a" + 10)%Z
  else if between "A" "F" c then Some (code c - code "A" + 10)%Z
  else None.
(** The hexadecimal digits at the front of [s]: how many, their value, the rest. *)
Fixpoint hex_prefix (s : string) (n : nat) (acc : Z) : nat * Z * string :=
  match s with
  | String c s' => match hex_digit c with
                   | Some d => hex_prefix s' (S n) (16 * acc + d)%Z
                   | None => (n, acc, s)
                   end
  | EmptyString => (n, acc, s)
  end.

(** The groups of an IPv6 address ([netip.parseIPv6]): [ip] holds the bytes
    read, [ellipsis] where [::] stood. At most eight groups are read. *)
Fixpoint ipv6_groups (fuel : nat) (s : string) (ip : list Z) (ellipsis : option nat)
    : option (string * list Z * option nat) :=
  match fuel with
  | O => Some (s, ip, ellipsis)
  | S fuel =>
      let '(n, v, rest) := hex_prefix s 0 0 in
      if bool_decide (4 < n) || bool_decide (n = 0) then None
      else match rest with
      | EmptyString => Some ("", ip ++ [(v / 256)%Z; (v mod 256)%Z], ellipsis)
      | String "." _ =>
          match ellipsis, bool_decide (length ip = 12), bool_decide (length ip <= 12), parse_ipv4 s with
          | None, false, _, _ => None
          | _, _, true, Some v4 => Some ("", ip ++ v4, ellipsis)
          | _, _, _, _ => None
          end
      | String ":" (String c _ as rest') =>
          let ip' := ip ++ [(v / 256)%Z; (v mod 256)%Z] in
          match rest' with
          | String ":" tail =>
              match ellipsis, tail with
              | Some _, _ => None
              | None, EmptyString => Some ("", ip', Some (length ip'))
              | None, _ => ipv6_groups fuel tail ip' (Some (length ip'))
              end
          | _ => ipv6_groups fuel rest' ip' ellipsis
          end
      | _ => None
      end
  end.
Definition parse_ipv6 (s : string) : option (list Z) :=
  let start := match s with
               | String ":" (String ":" rest) => (rest, Some 0)
               | _ => (s, None)
               end in
  match start with
  | (EmptyString, Some _) => Some (replicate 16 0%Z)
  | (body, ell) =>
      match ipv6_groups 8 body [] ell with
      | Some (EmptyString, ip, ellipsis) =>
          match ellipsis, bool_decide (length ip < 16) with
          | None, true => None
          | Some _, false => None
          | None, false => Some ip
          | Some k, true => Some (take k ip ++ replicate (16 - length ip) 0%Z ++ drop k ip)
          end
      | _ => None
      end
  end.

(** The first of the characters that decide the kind of an address. *)
Fixpoint address_kind (s : string) : option ascii :=
  match s with
  | EmptyString => None
  | String c s' => if Ascii.eqb c "." || Ascii.eqb c ":" || Ascii.eqb c "%" then Some c else address_kind s'
  end.
(** [net.ParseIP]: 16 bytes, an IPv4 address in its mapped form; [[]] is nil. An
    address with a zone is refused. *)
Definition ParseIP (s : string) : list Z :=
  match address_kind s with
  | Some "."%char => match parse_ipv4 s with
                     | Some v4 => replicate 10 0%Z ++ [255; 255]%Z ++ v4
                     | None => []
                     end
  | Some ":"%char => if some_string (Ascii.eqb "%") s then [] else default [] (parse_ipv6 s)
  | _ => []
  end.

(** [bytes.Compare a b <= 0]. *)
Fixpoint bytes_le (a b : list Z) : bool :=
  match a, b with
  | [], _ => true
  | _ :: _, [] => false
  | x :: a', y :: b' => (x <? y)%Z || ((x =? y)%Z && bytes_le a' b')
  end.

(** ** Facts *)

Lemma app_assoc_s (a b c : string) : (a +:+ b) +:+ c = a +:+ (b +:+ c).
Proof. induction a; cbn; congruence. Qed.
Lemma app_nil_s (a : string) : a +:+ "" = a.
Proof. induction a; cbn; congruence. Qed.

Lemma prefix_app (a b : string) : String.prefix a (a +:+ b) = true.
Proof.
  induction a as [|c a IH]; cbn; [by destruct b|].
  destruct (ascii_dec c c); [exact IH|congruence].
Qed.

Lemma Contains_prefix s sub : String.prefix sub s = true -> Contains s sub = true.
Proof. intros H. destruct s; cbn in *; by rewrite H. Qed.

Lemma Contains_app (a sub b : string) : Contains (a +:+ sub +:+ b) sub = true.
Proof.
  induction a as [|c a IH]; cbn.
  - apply Contains_prefix, prefix_app.
  - by rewrite IH, orb_true_r.
Qed.

Lemma Contains_app_l (a s sub : string) : Contains s sub = true -> Contains (a +:+ s) sub = true.
Proof. intros H. induction a as [|c a IH]; cbn; [done|]. by rewrite IH, orb_true_r. Qed.

Lemma prefix_app_l (a s b : string) : String.prefix a s = true -> String.prefix a (s +:+ b) = true.
Proof.
  revert s. induction a as [|c a IH]; intros s H; [by destruct (s +:+ b)|].
  destruct s as [|c' s]; [done|]. cbn in *.
  destruct (ascii_dec c c'); [by apply IH|congruence].
Qed.

Lemma Contains_app_r (s b sub : string) : Contains s sub = true -> Contains (s +:+ b) sub = true.
Proof.
  induction s as [|c s IH]; cbn.
  - rewrite orb_false_r. intros H. destruct sub; [by destruct b|done].
  - intros [H|H]%orb_true_iff; apply orb_true_iff.
    + left. by apply (prefix_app_l sub (String c s)).
    + right. by apply IH.
Qed.

(** [mentions c s]: the byte [c] occurs in [s]. *)
Definition mentions (c : ascii) (s : string) : bool := some_string (Ascii.eqb c) s.

Lemma split_at_skip sep a b acc :
  split_at sep (a +:+ b) (String.length a) acc = split_at sep b 0 acc.
Proof. induction a as [|c a IH]; cbn; [by destruct b|exact IH]. Qed.

(** A field free of the separator's first byte is read off whole. *)
Lemma split_at_field c sep a b acc :
  mentions c a = false ->
  split_at (String c sep) (a +:+ String c sep +:+ b) 0 acc
  = (acc +:+ a) :: split_at (String c sep) b 0 "".
Proof.
  revert acc. induction a as [|x a IH]; intros acc Ha; cbn -[String.prefix].
  - change (String c sep +:+ b) with (String c sep +:+ b).
    rewrite (prefix_app (String c sep) b : String.prefix (String c sep) (String c (sep +:+ b)) = true).
    rewrite Nat.sub_0_r, split_at_skip. by rewrite app_nil_s.
  - cbn in Ha. apply orb_false_iff in Ha as [Hx Ha].
    apply Ascii.eqb_neq in Hx. cbn [String.prefix].
    destruct (ascii_dec c x) as [->|_]; [done|].
    rewrite IH by done. by rewrite app_assoc_s.
Qed.

Lemma split_at_last c sep a acc :
  mentions c a = false -> split_at (String c sep) a 0 acc = [acc +:+ a].
Proof.
  revert acc. induction a as [|x a IH]; intros acc Ha; cbn -[String.prefix].
  - by rewrite app_nil_s.
  - cbn in Ha. apply orb_false_iff in Ha as [Hx Ha].
    apply Ascii.eqb_neq in Hx. cbn [String.prefix].
    destruct (ascii_dec c x) as [->|_]; [done|].
    rewrite IH by done. by rewrite app_assoc_s.
Qed.

Lemma Split_cons c sep a b :
  mentions c a = false ->
  Split (a +:+ String c sep +:+ b) (String c sep) = a :: Split b (String c sep).
Proof. intros H. unfold Split. by rewrite split_at_field. Qed.

Lemma Split_one c sep a : mentions c a = false -> Split a (String c sep) = [a].
Proof. intros H. unfold Split. by rewrite split_at_last. Qed.

Lemma Split_nonempty s sep : Split s sep <> [].
Proof.
  unfold Split. generalize "" 0. induction s as [|c s IH]; intros acc n; cbn; [done|].
  destruct n; [|done]. destruct (match sep with "" => _ | _ => _ end); done.
Qed.

Lemma mentions_app c a b : mentions c (a +:+ b) = mentions c a || mentions c b.
Proof.
  unfold mentions. induction a as [|x a IH]; cbn; [done|]. by rewrite IH, orb_assoc.
Qed.

(** ** Decimal round trip *)

Lemma to_int_not_nil z : Z.to_int z <> Decimal.Pos Decimal.Nil /\ Z.to_int z <> Decimal.Neg Decimal.Nil.
Proof.
  destruct z as [|p|p]; cbn; split; try done; intros H; simplify_eq;
    by destruct (DecimalPos.Unsigned.to_uint_nonnil p).
Qed.

Definition decimal_char (c : ascii) : bool := is_digit c || Ascii.eqb c "-".

Lemma uint_chars d : all_string is_digit (NilEmpty.string_of_uint d) = true.
Proof. induction d; cbn; try done. Qed.

Lemma Itoa_chars z : all_string decimal_char (Itoa z) = true.
Proof.
  assert (Hd : forall d, all_string decimal_char (NilZero.string_of_uint d) = true).
  { intros d. assert (H : all_string is_digit (NilZero.string_of_uint d) = true)
      by (destruct d; try done; apply uint_chars).
    revert H. generalize (NilZero.string_of_uint d). intros s.
    induction s as [|c s IH]; cbn; [done|]. unfold decimal_char.
    destruct (is_digit c); cbn; done. }
  unfold Itoa. destruct (Z.to_int z) as [d|d]; cbn; [apply Hd|apply Hd].
Qed.

Lemma all_not_mentions f c s : all_string f s = true -> f c = false -> mentions c s = false.
Proof.
  intros H Hc. unfold mentions. induction s as [|x s IH]; cbn in *; [done|].
  apply andb_true_iff in H as [Hx H]. rewrite IH by done.
  destruct (Ascii.eqb_spec c x); [congruence|done].
Qed.

Lemma Itoa_no c z : decimal_char c = false -> mentions c (Itoa z) = false.
Proof. intros H. eapply all_not_mentions; [apply Itoa_chars|done]. Qed.

Lemma string_of_uint_cons d : exists c s, NilZero.string_of_uint d = String c s.
Proof. destruct d; cbn; eauto. Qed.

Lemma Itoa_nonempty z : Itoa z <> "".
Proof.
  unfold Itoa. destruct (Z.to_int z) as [d|d]; cbn; [|done].
  by destruct (string_of_uint_cons d) as (c & s & ->).
Qed.

Lemma parse_Itoa z : parse_decimal (Itoa z) = Some z.
Proof.
  destruct (to_int_not_nil z) as [H1 H2].
  assert (Hi : NilZero.int_of_string (Itoa z) = Some (Z.to_int z)) by by apply NilZero.isi.
  unfold parse_decimal. destruct (Itoa z) as [|c s] eqn:Hs.
  - by destruct (Itoa_nonempty z).
  - assert (Hc : decimal_char c = true).
    { pose proof (Itoa_chars z) as H. rewrite Hs in H. cbn in H.
      by apply andb_true_iff in H as [-> _]. }
    rewrite Hi. cbn. rewrite of_to.
    destruct c as [[] [] [] [] [] [] [] []]; done.
Qed.
Lemma Atoi_Itoa_inv z v : Atoi (Itoa z) = Ok v -> v = z.
Proof. unfold Atoi, parse_int. rewrite parse_Itoa. case_match; congruence. Qed.
Lemma Itoa_inj z z' : Itoa z = Itoa z' -> z = z'.
Proof. intros H. apply (f_equal parse_decimal) in H. rewrite !parse_Itoa in H. congruence. Qed.

Lemma Atoi_Itoa z : in_i64 z -> Atoi (Itoa z) = Ok z.
Proof.
  intros [Hl Hh]. unfold Atoi, parse_int. rewrite parse_Itoa.
  apply Z.leb_le in Hl, Hh. by rewrite Hl, Hh.
Qed.

Lemma Atoi_range s z : Atoi s = Ok z -> in_i64 z.
Proof.
  unfold Atoi, parse_int. destruct (parse_decimal s); [|done].
  destruct (_ && _)%Z eqn:H; [|done]. intros [= ->].
  apply andb_true_iff in H as [H1%Z.leb_le H2%Z.leb_le]. done.
Qed.

#[export] Hint Resolve Itoa_nonempty Split_nonempty : csi.
