(* ===== verification/Regexp.v ===== *)
(** Package [regexp], for the patterns the driver writes: byte classes,
    concatenation, alternation and repetition, with optional anchors at both
    ends. [MatchString] is executable (Brzozowski derivatives) and is proved to
    decide the language of the pattern. *)
From S2P Require Import Prelude GoLib.
From stdpp Require Import base strings list.
From Stdlib Require Import ZArith Lia Ascii String.

Local Open Scope string_scope.
Local Open Scope list_scope.

Inductive regex :=
| RNone
| REps
| RClass (f : ascii -> bool)
| RCat (r1 r2 : regex)
| RAlt (r1 r2 : regex)
| RStar (r : regex).

(** The language of a pattern. *)
Inductive matches : regex -> list ascii -> Prop :=
| m_eps : matches REps []
| m_class f c : f c = true -> matches (RClass f) [c]
| m_cat r1 r2 s1 s2 : matches r1 s1 -> matches r2 s2 -> matches (RCat r1 r2) (s1 ++ s2)
| m_alt_l r1 r2 s : matches r1 s -> matches (RAlt r1 r2) s
| m_alt_r r1 r2 s : matches r2 s -> matches (RAlt r1 r2) s
| m_star_nil r : matches (RStar r) []
| m_star_app r s1 s2 : matches r s1 -> matches (RStar r) s2 -> matches (RStar r) (s1 ++ s2).

Fixpoint nullable (r : regex) : bool :=
  match r with
  | RNone | RClass _ => false
  | REps | RStar _ => true
  | RCat r1 r2 => nullable r1 && nullable r2
  | RAlt r1 r2 => nullable r1 || nullable r2
  end.

Fixpoint deriv (c : ascii) (r : regex) : regex :=
  match r with
  | RNone | REps => RNone
  | RClass f => if f c then REps else RNone
  | RCat r1 r2 =>
      if nullable r1 then RAlt (RCat (deriv c r1) r2) (deriv c r2) else RCat (deriv c r1) r2
  | RAlt r1 r2 => RAlt (deriv c r1) (deriv c r2)
  | RStar r => RCat (deriv c r) (RStar r)
  end.

Fixpoint accepts (r : regex) (s : list ascii) : bool :=
  match s with
  | [] => nullable r
  | c :: s' => accepts (deriv c r) s'
  end.

(** ** Correctness of the matcher *)

Lemma nullable_matches r : nullable r = true <-> matches r [].
Proof.
  induction r as [| |f|r1 IH1 r2 IH2|r1 IH1 r2 IH2|r IH]; cbn.
  - split; [done|]. inversion 1.
  - split; [constructor|done].
  - split; [done|]. inversion 1.
  - rewrite andb_true_iff, IH1, IH2. split.
    + intros [H1 H2]. by apply (m_cat r1 r2 [] []).
    + inversion 1 as [| |? ? s1 s2 H1 H2 He Hs| | | |]; subst.
      apply app_eq_nil in Hs as [-> ->]. done.
  - rewrite orb_true_iff, IH1, IH2. split.
    + intros [H|H]; by constructor.
    + inversion 1; auto.
  - split; [constructor|done].
Qed.

Lemma matches_star_cons c s r :
  matches (RStar r) (c :: s) -> exists s1 s2, s = s1 ++ s2 /\ matches r (c :: s1) /\ matches (RStar r) s2.
Proof.
  remember (RStar r) as q eqn:Hq. remember (c :: s) as t eqn:Ht. intros H. revert Hq s Ht.
  induction H as [| | | | | |r' s1 s2 H1 _ H2 IH]; intros Hq u Ht; simplify_eq.
  destruct s1 as [|x s1]; cbn in Ht; [by apply IH|].
  simplify_eq. eauto.
Qed.

Lemma deriv_matches c r s : matches (deriv c r) s <-> matches r (c :: s).
Proof.
  revert s. induction r as [| |f|r1 IH1 r2 IH2|r1 IH1 r2 IH2|r IH]; cbn; intros s.
  - split; inversion 1.
  - split; inversion 1.
  - destruct (f c) eqn:Hf; split; inversion 1; subst; by (constructor || congruence).
  - assert (Hc : matches (RCat (deriv c r1) r2) s <->
                 exists s1 s2, s = s1 ++ s2 /\ matches r1 (c :: s1) /\ matches r2 s2).
    { split.
      - inversion 1 as [| |? ? s1 s2 H1 H2| | | |]; subst.
        apply IH1 in H1. eauto.
      - intros (s1 & s2 & -> & H1 & H2). apply IH1 in H1. by constructor. }
    assert (Hr : matches (RCat r1 r2) (c :: s) <->
                 (exists s1 s2, s = s1 ++ s2 /\ matches r1 (c :: s1) /\ matches r2 s2) \/
                 (matches r1 [] /\ matches r2 (c :: s))).
    { split.
      - inversion 1 as [| |? ? s1 s2 H1 H2 He Hs| | | |]; subst.
        destruct s1 as [|x s1]; cbn in Hs; [right|left]; simplify_eq; eauto 6.
      - intros [(s1 & s2 & -> & H1 & H2)|[H1 H2]].
        + by apply (m_cat r1 r2 (c :: s1) s2).
        + by apply (m_cat r1 r2 [] (c :: s)). }
    rewrite Hr, <- Hc, <- nullable_matches, <- IH2.
    destruct (nullable r1).
    + split; [inversion 1; auto|]. intros [H|[_ H]]; [by apply m_alt_l|by apply m_alt_r].
    + split; [auto|]. by intros [H|[? _]].
  - split.
    + inversion 1; subst; [apply m_alt_l; by apply IH1|apply m_alt_r; by apply IH2].
    + inversion 1; subst; [apply m_alt_l; by apply IH1|apply m_alt_r; by apply IH2].
  - split.
    + inversion 1 as [| |? ? s1 s2 H1 H2| | | |]; subst.
      apply IH in H1. by apply (m_star_app r (c :: s1) s2).
    + intros (s1 & s2 & -> & H1 & H2)%matches_star_cons.
      apply IH in H1. by constructor.
Qed.

Lemma accepts_matches r s : accepts r s = true <-> matches r s.
Proof.
  revert r. induction s as [|c s IH]; intros r; cbn.
  - apply nullable_matches.
  - by rewrite IH, deriv_matches.
Qed.

(** ** Patterns *)

(** A pattern: its source text, its body and whether it is anchored at the
    beginning and at the end of the text. *)
Record pattern := MkPattern {
  pattern_text : string;
  pattern_begin : bool;
  pattern_body : regex;
  pattern_end : bool
}.

Definition any_byte : regex := RStar (RClass (fun _ => true)).
Definition anchored (p : pattern) : regex :=
  RCat (if pattern_begin p then REps else any_byte)
       (RCat (pattern_body p) (if pattern_end p then REps else any_byte)).

(** [regexp.MatchString(pattern, s)]. *)
Definition MatchString (p : pattern) (s : string) : bool :=
  accepts (anchored p) (list_ascii_of_string s).

Definition RPlus (r : regex) : regex := RCat r (RStar r).
Fixpoint RLit_fold (s : string) : regex :=
  match s with
  | EmptyString => REps
  | String c s' => RCat (RClass (fun x => Ascii.eqb (to_lower x) (to_lower c))) (RLit_fold s')
  end.

(** The patterns of the storage class checks. *)
Definition re_any_line := MkPattern "\A.*\z" true (RStar (RClass (fun c => negb (Ascii.eqb c newline)))) true.
Definition re_letters := MkPattern "[a-zA-Z]+" false (RPlus (RClass is_letter)) false.
Definition re_digits := MkPattern "^\d+$" true (RPlus (RClass is_digit)) true.
Definition re_thick_thin :=
  MkPattern "(?i)\A(THICK|THIN)\z" true (RAlt (RLit_fold "THICK") (RLit_fold "THIN")) true.
Definition re_use_chap :=
  MkPattern "(?i)\A(none|chap|mutual_chap)\z" true
    (RAlt (RLit_fold "none") (RAlt (RLit_fold "chap") (RLit_fold "mutual_chap"))) true.

Lemma matches_eps s : matches REps s <-> s = [].
Proof. split; [by inversion 1|intros ->; constructor]. Qed.

Lemma matches_cat r1 r2 s :
  matches (RCat r1 r2) s <-> exists s1 s2, s = s1 ++ s2 /\ matches r1 s1 /\ matches r2 s2.
Proof.
  split; [inversion 1; subst; eauto|]. intros (s1 & s2 & -> & ? & ?). by constructor.
Qed.

Lemma matches_star_class f s : matches (RStar (RClass f)) s <-> Forall (fun c => f c = true) s.
Proof.
  split.
  - remember (RStar (RClass f)) as q eqn:Hq. intros H. revert Hq.
    induction H as [| | | | | |r s1 s2 H1 _ H2 IH]; intros Hq; simplify_eq; [constructor|].
    inversion H1; subst. constructor; auto.
  - induction 1 as [|c s Hc _ IH]; [constructor|].
    apply (m_star_app (RClass f) [c] s); [by constructor|done].
Qed.

Lemma matches_plus_class f s :
  matches (RPlus (RClass f)) s <-> s <> [] /\ Forall (fun c => f c = true) s.
Proof.
  unfold RPlus. rewrite matches_cat. split.
  - intros (s1 & s2 & -> & H1 & H2). inversion H1; subst.
    apply matches_star_class in H2. split; [done|]. by constructor.
  - intros [Hne Hf]. destruct s as [|c s]; [done|]. inversion Hf; subst.
    exists [c], s. split; [done|]. split; [by constructor|by apply matches_star_class].
Qed.

Lemma Forall_true {A} (s : list A) : Forall (fun _ => true = true) s.
Proof. induction s; by constructor. Qed.

(** What the three patterns of the NFS storage classes accept. *)
Lemma match_re_digits s :
  MatchString re_digits s = true <->
  list_ascii_of_string s <> [] /\ Forall (fun c => is_digit c = true) (list_ascii_of_string s).
Proof.
  unfold MatchString, anchored; cbn [pattern_begin pattern_body pattern_end re_digits].
  rewrite accepts_matches, matches_cat. setoid_rewrite matches_cat.
  setoid_rewrite matches_eps. rewrite <- matches_plus_class. split.
  - intros (? & ? & -> & -> & s1 & ? & -> & H & ->). by rewrite app_nil_r.
  - intros H. exists [], (list_ascii_of_string s). split; [done|]. split; [done|].
    exists (list_ascii_of_string s), []. by rewrite app_nil_r.
Qed.

Lemma match_re_letters s :
  MatchString re_letters s = true <-> Exists (fun c => is_letter c = true) (list_ascii_of_string s).
Proof.
  unfold MatchString, anchored; cbn [pattern_begin pattern_body pattern_end re_letters].
  rewrite accepts_matches, matches_cat. setoid_rewrite matches_cat. split.
  - intros (s1 & ? & -> & _ & s2 & s3 & -> & H & _).
    apply matches_plus_class in H as [Hne Hf].
    rewrite !Exists_app. right; left. destruct Hf; [done|by left].
  - intros H. apply Exists_exists in H as (c & Hin & Hc).
    apply list_elem_of_split in Hin as (l1 & l2 & ->).
    exists l1, (c :: l2). split; [done|].
    split; [apply matches_star_class, Forall_true|].
    exists [c], l2. split; [done|]. split.
    + apply matches_plus_class. split; [done|]. by repeat constructor.
    + apply matches_star_class, Forall_true.
Qed.
