(* ===== verification/IboxTypes.v ===== *)
(** Data the components exchange, and the driver's boundary.

    The records are the Go structs of [iboxapi] and [api/types.go], field for
    field ([Struct_Field]); [Struct_zero] is Go's zero value and [Struct_of]
    the zero value with some fields set (a Go composite literal). A field of
    type [any] or [float64] is a [json] value.

    [ibox] is the interface [iboxapi.Client]; [kube] is what [api/clientgo] asks client-go; [os] is the process
    environment (variables, clock, random numbers, mutexes). [call] is their
    union, the effects of every handler. *)
From S2P Require Import Prelude GoLib.
From stdpp Require Import base strings list gmap.
From Stdlib Require Import ZArith.

Local Open Scope string_scope.
Local Open Scope list_scope.

(** A decoded JSON value. *)
Inductive json :=
| JNull
| JBool (b : bool)
| JNum (literal : string)
| JStr (s : string)
| JArr (l : list json)
| JObj (m : list (string * json)).

Record Metadata := MkMetadata {
  Metadata_Ready : bool;
  Metadata_NumberOfObjects : Z;
  Metadata_PageSize : Z;
  Metadata_PagesTotal : Z;
  Metadata_Page : Z
}.
Definition Metadata_zero : Metadata := {|
  Metadata_Ready := false;
  Metadata_NumberOfObjects := 0%Z;
  Metadata_PageSize := 0%Z;
  Metadata_PagesTotal := 0%Z;
  Metadata_Page := 0%Z
|}.

Record APIError := MkAPIError {
  APIError_Code : string;
  APIError_Message : string;
  APIError_Reasons : list json;
  APIError_Severity : string;
  APIError_IsRemote : bool;
  APIError_Data : json
}.
Definition APIError_zero : APIError := {|
  APIError_Code := "";
  APIError_Message := "";
  APIError_Reasons := [];
  APIError_Severity := "";
  APIError_IsRemote := false;
  APIError_Data := JNull
|}.

Record PoolResult := MkPoolResult {
  PoolResult_VolumesCount : Z;
  PoolResult_StandardEntitiesCount : Z;
  PoolResult_UpdatedAt : Z;
  PoolResult_StandardFilesystemSnapshotsCount : Z;
  PoolResult_StandardSnapshotsCount : Z;
  PoolResult_MaxExtend : Z;
  PoolResult_AllocatedPhysicalSpace : Z;
  PoolResult_FreeVirtualSpace : Z;
  PoolResult_StandardFilesystemsCount : Z;
  PoolResult_ID : Z;
  PoolResult_ReservedCapacity : Z;
  PoolResult_FilesystemsCount : Z;
  PoolResult_SsdEnabled : bool;
  PoolResult_VvolEntitiesCount : Z;
  PoolResult_SnapshotsCount : Z;
  PoolResult_State : string;
  PoolResult_VvolVolumesCount : Z;
  PoolResult_Type : string;
  PoolResult_FreePhysicalSpace : Z;
  PoolResult_DataReductionRatio : json;
  PoolResult_TotalDiskUsage : Z;
  PoolResult_VvolSnapshotsCount : Z;
  PoolResult_ThinCapacitySavings : json;
  PoolResult_EntitiesCount : Z;
  PoolResult_PhysicalCapacityCritical : Z;
  PoolResult_StandardVolumesCount : Z;
  PoolResult_Owners : list json;
  PoolResult_CapacitySavings : json;
  PoolResult_Name : string;
  PoolResult_VirtualCapacity : Z;
  PoolResult_TenantID : Z;
  PoolResult_CreatedAt : Z;
  PoolResult_FilesystemSnapshotsCount : Z;
  PoolResult_CompressionEnabled : bool;
  PoolResult_QosPolicies : list json;
  PoolResult_PhysicalCapacityWarning : Z;
  PoolResult_PhysicalCapacity : Z;
  PoolResult_ThickCapacitySavings : json
}.
Definition PoolResult_zero : PoolResult := {|
  PoolResult_VolumesCount := 0%Z;
  PoolResult_StandardEntitiesCount := 0%Z;
  PoolResult_UpdatedAt := 0%Z;
  PoolResult_StandardFilesystemSnapshotsCount := 0%Z;
  PoolResult_StandardSnapshotsCount := 0%Z;
  PoolResult_MaxExtend := 0%Z;
  PoolResult_AllocatedPhysicalSpace := 0%Z;
  PoolResult_FreeVirtualSpace := 0%Z;
  PoolResult_StandardFilesystemsCount := 0%Z;
  PoolResult_ID := 0%Z;
  PoolResult_ReservedCapacity := 0%Z;
  PoolResult_FilesystemsCount := 0%Z;
  PoolResult_SsdEnabled := false;
  PoolResult_VvolEntitiesCount := 0%Z;
  PoolResult_SnapshotsCount := 0%Z;
  PoolResult_State := "";
  PoolResult_VvolVolumesCount := 0%Z;
  PoolResult_Type := "";
  PoolResult_FreePhysicalSpace := 0%Z;
  PoolResult_DataReductionRatio := JNull;
  PoolResult_TotalDiskUsage := 0%Z;
  PoolResult_VvolSnapshotsCount := 0%Z;
  PoolResult_ThinCapacitySavings := JNull;
  PoolResult_EntitiesCount := 0%Z;
  PoolResult_PhysicalCapacityCritical := 0%Z;
  PoolResult_StandardVolumesCount := 0%Z;
  PoolResult_Owners := [];
  PoolResult_CapacitySavings := JNull;
  PoolResult_Name := "";
  PoolResult_VirtualCapacity := 0%Z;
  PoolResult_TenantID := 0%Z;
  PoolResult_CreatedAt := 0%Z;
  PoolResult_FilesystemSnapshotsCount := 0%Z;
  PoolResult_CompressionEnabled := false;
  PoolResult_QosPolicies := [];
  PoolResult_PhysicalCapacityWarning := 0%Z;
  PoolResult_PhysicalCapacity := 0%Z;
  PoolResult_ThickCapacitySavings := JNull
|}.

Record Volume := MkVolume {
  Volume_CGID : Z;
  Volume_RmrTarget : bool;
  Volume_UpdatedAt : Z;
  Volume_NumBlocks : Z;
  Volume_Allocated : Z;
  Volume_Serial : string;
  Volume_Size : Z;
  Volume_SsdEnabled : bool;
  Volume_ID : Z;
  Volume_ParentID : Z;
  Volume_CompressionSuppressed : bool;
  Volume_Type : string;
  Volume_RmrSource : bool;
  Volume_Used : Z;
  Volume_TreeAllocated : Z;
  Volume_HasChildren : bool;
  Volume_DatasetType : string;
  Volume_Provtype : string;
  Volume_RmrSnapshotGUID : string;
  Volume_CapacitySavings : Z;
  Volume_Name : string;
  Volume_CreatedAt : Z;
  Volume_PoolID : Z;
  Volume_PoolName : string;
  Volume_CompressionEnabled : bool;
  Volume_FamilyID : Z;
  Volume_Depth : Z;
  Volume_WriteProtected : bool;
  Volume_Mapped : bool;
  Volume_LockExpiresAt : Z;
  Volume_LockState : string
}.
Definition Volume_zero : Volume := {|
  Volume_CGID := 0%Z;
  Volume_RmrTarget := false;
  Volume_UpdatedAt := 0%Z;
  Volume_NumBlocks := 0%Z;
  Volume_Allocated := 0%Z;
  Volume_Serial := "";
  Volume_Size := 0%Z;
  Volume_SsdEnabled := false;
  Volume_ID := 0%Z;
  Volume_ParentID := 0%Z;
  Volume_CompressionSuppressed := false;
  Volume_Type := "";
  Volume_RmrSource := false;
  Volume_Used := 0%Z;
  Volume_TreeAllocated := 0%Z;
  Volume_HasChildren := false;
  Volume_DatasetType := "";
  Volume_Provtype := "";
  Volume_RmrSnapshotGUID := "";
  Volume_CapacitySavings := 0%Z;
  Volume_Name := "";
  Volume_CreatedAt := 0%Z;
  Volume_PoolID := 0%Z;
  Volume_PoolName := "";
  Volume_CompressionEnabled := false;
  Volume_FamilyID := 0%Z;
  Volume_Depth := 0%Z;
  Volume_WriteProtected := false;
  Volume_Mapped := false;
  Volume_LockExpiresAt := 0%Z;
  Volume_LockState := ""
|}.

Record CreateVolumeRequest := MkCreateVolumeRequest {
  CreateVolumeRequest_PoolID : Z;
  CreateVolumeRequest_VolumeSize : Z;
  CreateVolumeRequest_Name : string;
  CreateVolumeRequest_ProvisionType : string;
  CreateVolumeRequest_SSDEnabled : bool
}.
Definition CreateVolumeRequest_zero : CreateVolumeRequest := {|
  CreateVolumeRequest_PoolID := 0%Z;
  CreateVolumeRequest_VolumeSize := 0%Z;
  CreateVolumeRequest_Name := "";
  CreateVolumeRequest_ProvisionType := "";
  CreateVolumeRequest_SSDEnabled := false
|}.

Record Snapshot := MkSnapshot {
  Snapshot_SnapShotID : Z;
  Snapshot_Size : Z;
  Snapshot_SSDEnabled : bool;
  Snapshot_ParentID : Z;
  Snapshot_PoolID : Z;
  Snapshot_Name : string
}.
Definition Snapshot_zero : Snapshot := {|
  Snapshot_SnapShotID := 0%Z;
  Snapshot_Size := 0%Z;
  Snapshot_SSDEnabled := false;
  Snapshot_ParentID := 0%Z;
  Snapshot_PoolID := 0%Z;
  Snapshot_Name := ""
|}.

Record CreateSnapshotVolumeRequest := MkCreateSnapshotVolumeRequest {
  CreateSnapshotVolumeRequest_ParentID : Z;
  CreateSnapshotVolumeRequest_SnapshotName : string;
  CreateSnapshotVolumeRequest_WriteProtected : bool;
  CreateSnapshotVolumeRequest_SSDEnabled : bool;
  CreateSnapshotVolumeRequest_LockExpiresAt : Z
}.
Definition CreateSnapshotVolumeRequest_zero : CreateSnapshotVolumeRequest := {|
  CreateSnapshotVolumeRequest_ParentID := 0%Z;
  CreateSnapshotVolumeRequest_SnapshotName := "";
  CreateSnapshotVolumeRequest_WriteProtected := false;
  CreateSnapshotVolumeRequest_SSDEnabled := false;
  CreateSnapshotVolumeRequest_LockExpiresAt := 0%Z
|}.

Record Portal := MkPortal {
  Portal_Type : string;
  Portal_Tpgt : Z;
  Portal_IPAddress : string;
  Portal_VlanID : Z;
  Portal_Enabled : bool;
  Portal_Reserved : bool;
  Portal_InterfaceID : Z
}.
Definition Portal_zero : Portal := {|
  Portal_Type := "";
  Portal_Tpgt := 0%Z;
  Portal_IPAddress := "";
  Portal_VlanID := 0%Z;
  Portal_Enabled := false;
  Portal_Reserved := false;
  Portal_InterfaceID := 0%Z
|}.

Record NetworkSpaceProperty := MkNetworkSpaceProperty {
  NetworkSpaceProperty_ISCSIServer : json;
  NetworkSpaceProperty_ISCSIIqn : string;
  NetworkSpaceProperty_ISCSITCPPort : Z;
  NetworkSpaceProperty_ISCSISecurityMethod : string
}.
Definition NetworkSpaceProperty_zero : NetworkSpaceProperty := {|
  NetworkSpaceProperty_ISCSIServer := JNull;
  NetworkSpaceProperty_ISCSIIqn := "";
  NetworkSpaceProperty_ISCSITCPPort := 0%Z;
  NetworkSpaceProperty_ISCSISecurityMethod := ""
|}.

Record NetworkConfigDetails := MkNetworkConfigDetails {
  NetworkConfigDetails_Netmask : Z;
  NetworkConfigDetails_Metwork : string;
  NetworkConfigDetails_DefaultGateway : string
}.
Definition NetworkConfigDetails_zero : NetworkConfigDetails := {|
  NetworkConfigDetails_Netmask := 0%Z;
  NetworkConfigDetails_Metwork := "";
  NetworkConfigDetails_DefaultGateway := ""
|}.

Record VmacAddress := MkVmacAddress {
  VmacAddress_Role : string;
  VmacAddress_VmacAddress : string
}.
Definition VmacAddress_zero : VmacAddress := {|
  VmacAddress_Role := "";
  VmacAddress_VmacAddress := ""
|}.

Record Route := MkRoute {
  Route_Netmask : Z;
  Route_Destination : string;
  Route_ID : Z;
  Route_Gateway : string
}.
Definition Route_zero : Route := {|
  Route_Netmask := 0%Z;
  Route_Destination := "";
  Route_ID := 0%Z;
  Route_Gateway := ""
|}.

Record NetworkSpace := MkNetworkSpace {
  NetworkSpace_Properties : NetworkSpaceProperty;
  NetworkSpace_Service : string;
  NetworkSpace_TenantID : Z;
  NetworkSpace_AutomaticIPFailback : bool;
  NetworkSpace_Interfaces : json;
  NetworkSpace_RateLimit : json;
  NetworkSpace_ID : Z;
  NetworkSpace_Portals : list Portal;
  NetworkSpace_Mtu : Z;
  NetworkSpace_NetworkConfig : NetworkConfigDetails;
  NetworkSpace_Name : string;
  NetworkSpace_VmacAddresses : list VmacAddress;
  NetworkSpace_Routes : list Route
}.
Definition NetworkSpace_zero : NetworkSpace := {|
  NetworkSpace_Properties := NetworkSpaceProperty_zero;
  NetworkSpace_Service := "";
  NetworkSpace_TenantID := 0%Z;
  NetworkSpace_AutomaticIPFailback := false;
  NetworkSpace_Interfaces := JNull;
  NetworkSpace_RateLimit := JNull;
  NetworkSpace_ID := 0%Z;
  NetworkSpace_Portals := [];
  NetworkSpace_Mtu := 0%Z;
  NetworkSpace_NetworkConfig := NetworkConfigDetails_zero;
  NetworkSpace_Name := "";
  NetworkSpace_VmacAddresses := [];
  NetworkSpace_Routes := []
|}.

Record Ports := MkPorts {
  Ports_Address : string;
  Ports_Type : string;
  Ports_HostID : Z
}.
Definition Ports_zero : Ports := {|
  Ports_Address := "";
  Ports_Type := "";
  Ports_HostID := 0%Z
|}.

Record LunInfo := MkLunInfo {
  LunInfo_ID : Z;
  LunInfo_Lun : Z;
  LunInfo_CLustered : bool;
  LunInfo_VolumeID : Z;
  LunInfo_HostClusterID : Z;
  LunInfo_HostID : Z;
  LunInfo_Udid : json
}.
Definition LunInfo_zero : LunInfo := {|
  LunInfo_ID := 0%Z;
  LunInfo_Lun := 0%Z;
  LunInfo_CLustered := false;
  LunInfo_VolumeID := 0%Z;
  LunInfo_HostClusterID := 0%Z;
  LunInfo_HostID := 0%Z;
  LunInfo_Udid := JNull
|}.

Record Host := MkHost {
  Host_ID : Z;
  Host_Name : string;
  Host_Ports : list Ports;
  Host_Luns : list LunInfo;
  Host_CreatedAt : Z;
  Host_UpdatedAt : Z;
  Host_HostType : string;
  Host_SecurityMethod : string;
  Host_SecurityChapInboundUsername : json;
  Host_SecurityChapOutboundUsername : json;
  Host_Optimized : bool;
  Host_SanClientType : string;
  Host_HostClusterID : Z;
  Host_SubsystemNqn : json;
  Host_SecurityChapHasInboundSecret : bool;
  Host_SecurityChapHasOutboundSecret : bool;
  Host_TenantID : Z
}.
Definition Host_zero : Host := {|
  Host_ID := 0%Z;
  Host_Name := "";
  Host_Ports := [];
  Host_Luns := [];
  Host_CreatedAt := 0%Z;
  Host_UpdatedAt := 0%Z;
  Host_HostType := "";
  Host_SecurityMethod := "";
  Host_SecurityChapInboundUsername := JNull;
  Host_SecurityChapOutboundUsername := JNull;
  Host_Optimized := false;
  Host_SanClientType := "";
  Host_HostClusterID := 0%Z;
  Host_SubsystemNqn := JNull;
  Host_SecurityChapHasInboundSecret := false;
  Host_SecurityChapHasOutboundSecret := false;
  Host_TenantID := 0%Z
|}.

Record HostPort := MkHostPort {
  HostPort_HostID : Z;
  HostPort_PortType : string;
  HostPort_PortAddress : string
}.
Definition HostPort_zero : HostPort := {|
  HostPort_HostID := 0%Z;
  HostPort_PortType := "";
  HostPort_PortAddress := ""
|}.

Record AddPortResult := MkAddPortResult {
  AddPortResult_HostID : Z;
  AddPortResult_Type : string;
  AddPortResult_Address : string
}.
Definition AddPortResult_zero : AddPortResult := {|
  AddPortResult_HostID := 0%Z;
  AddPortResult_Type := "";
  AddPortResult_Address := ""
|}.

Record AddHostSecurityRequest := MkAddHostSecurityRequest {
  AddHostSecurityRequest_SecurityMethod : string;
  AddHostSecurityRequest_SecurityCHAPInboundUsername : string;
  AddHostSecurityRequest_SecurityCHAPInboundSecret : string;
  AddHostSecurityRequest_SecurityCHAPOutboundUsername : string;
  AddHostSecurityRequest_SecurityCHAPOutboundSecret : string
}.
Definition AddHostSecurityRequest_zero : AddHostSecurityRequest := {|
  AddHostSecurityRequest_SecurityMethod := "";
  AddHostSecurityRequest_SecurityCHAPInboundUsername := "";
  AddHostSecurityRequest_SecurityCHAPInboundSecret := "";
  AddHostSecurityRequest_SecurityCHAPOutboundUsername := "";
  AddHostSecurityRequest_SecurityCHAPOutboundSecret := ""
|}.

Record CreateHostPost := MkCreateHostPost {
  CreateHostPost_Name : string
}.
Definition CreateHostPost_zero : CreateHostPost := {|
  CreateHostPost_Name := ""
|}.

Record AddPortRequest := MkAddPortRequest {
  AddPortRequest_Type : string;
  AddPortRequest_Address : string
}.
Definition AddPortRequest_zero : AddPortRequest := {|
  AddPortRequest_Type := "";
  AddPortRequest_Address := ""
|}.

Record MapVolumeToHostRequest := MkMapVolumeToHostRequest {
  MapVolumeToHostRequest_VolumeID : Z
}.
Definition MapVolumeToHostRequest_zero : MapVolumeToHostRequest := {|
  MapVolumeToHostRequest_VolumeID := 0%Z
|}.

Record FileSystem := MkFileSystem {
  FileSystem_Type : string;
  FileSystem_Depth : Z;
  FileSystem_ID : Z;
  FileSystem_Name : string;
  FileSystem_CreatedAt : Z;
  FileSystem_UpdatedAt : Z;
  FileSystem_Mapped : bool;
  FileSystem_WriteProtected : bool;
  FileSystem_Size : Z;
  FileSystem_Provtype : string;
  FileSystem_SSDEnabled : bool;
  FileSystem_SSAExpressEnabled : bool;
  FileSystem_SSAExpressStatus : json;
  FileSystem_CompressionEnabled : bool;
  FileSystem_Serial : string;
  FileSystem_RmrTarget : bool;
  FileSystem_RmrSource : bool;
  FileSystem_RmrActiveActivePeer : bool;
  FileSystem_MobilitySource : json;
  FileSystem_RmrSnapshotGUID : json;
  FileSystem_DataSnapshotGUID : json;
  FileSystem_MgmtSnapshotGUID : json;
  FileSystem_CgSnapshotGUID : json;
  FileSystem_CgGUID : json;
  FileSystem_FamilyID : Z;
  FileSystem_LockExpiresAt : Z;
  FileSystem_ReclaimedSnapshotRemoteSystemSerial : json;
  FileSystem_SnapshotRetention : json;
  FileSystem_DatasetType : string;
  FileSystem_Used : Z;
  FileSystem_TreeAllocated : Z;
  FileSystem_Allocated : Z;
  FileSystem_CompressionSuppressed : bool;
  FileSystem_CapacitySavings : Z;
  FileSystem_CapacitySavingsPerEntity : Z;
  FileSystem_DiskUsage : Z;
  FileSystem_DataReductionRatio : json;
  FileSystem_WormLegalHold : json;
  FileSystem_WormDefaultRetention : json;
  FileSystem_WormMaxRetention : json;
  FileSystem_NfsFilesystemID : Z;
  FileSystem_AtimeMode : string;
  FileSystem_IsConsistent : bool;
  FileSystem_IsEstablished : bool;
  FileSystem_SnapdirName : string;
  FileSystem_VisibleInSnapdir : bool;
  FileSystem_SnapdirAccessible : bool;
  FileSystem_SuspendState : string;
  FileSystem_SecurityStyle : string;
  FileSystem_AtimeGranularity : Z;
  FileSystem_WormLevel : string;
  FileSystem_ParentID : Z;
  FileSystem_Modified : bool;
  FileSystem_Data : Z;
  FileSystem_PoolID : Z;
  FileSystem_CgName : json;
  FileSystem_CgID : json;
  FileSystem_HasChildren : bool;
  FileSystem_SnapshotPolicyID : json;
  FileSystem_SnapshotExpiresAt : json;
  FileSystem_CreatedBySnapshotPolicyID : json;
  FileSystem_CreatedByScheduleID : json;
  FileSystem_TenantID : Z;
  FileSystem_QosPolicyName : json;
  FileSystem_LockState : string;
  FileSystem_SnapshotPolicyName : json;
  FileSystem_CreatedBySnapshotPolicyName : json;
  FileSystem_CreatedByScheduleName : json;
  FileSystem_QosPolicyID : json;
  FileSystem_QosSharedPolicyID : json;
  FileSystem_QosSharedPolicyName : json;
  FileSystem_PoolName : string;
  FileSystem_Nguid : string;
  FileSystem_ReplicaIDs : list json;
  FileSystem_ReplicationTypes : list string;
  FileSystem_NumBlocks : Z
}.
Definition FileSystem_zero : FileSystem := {|
  FileSystem_Type := "";
  FileSystem_Depth := 0%Z;
  FileSystem_ID := 0%Z;
  FileSystem_Name := "";
  FileSystem_CreatedAt := 0%Z;
  FileSystem_UpdatedAt := 0%Z;
  FileSystem_Mapped := false;
  FileSystem_WriteProtected := false;
  FileSystem_Size := 0%Z;
  FileSystem_Provtype := "";
  FileSystem_SSDEnabled := false;
  FileSystem_SSAExpressEnabled := false;
  FileSystem_SSAExpressStatus := JNull;
  FileSystem_CompressionEnabled := false;
  FileSystem_Serial := "";
  FileSystem_RmrTarget := false;
  FileSystem_RmrSource := false;
  FileSystem_RmrActiveActivePeer := false;
  FileSystem_MobilitySource := JNull;
  FileSystem_RmrSnapshotGUID := JNull;
  FileSystem_DataSnapshotGUID := JNull;
  FileSystem_MgmtSnapshotGUID := JNull;
  FileSystem_CgSnapshotGUID := JNull;
  FileSystem_CgGUID := JNull;
  FileSystem_FamilyID := 0%Z;
  FileSystem_LockExpiresAt := 0%Z;
  FileSystem_ReclaimedSnapshotRemoteSystemSerial := JNull;
  FileSystem_SnapshotRetention := JNull;
  FileSystem_DatasetType := "";
  FileSystem_Used := 0%Z;
  FileSystem_TreeAllocated := 0%Z;
  FileSystem_Allocated := 0%Z;
  FileSystem_CompressionSuppressed := false;
  FileSystem_CapacitySavings := 0%Z;
  FileSystem_CapacitySavingsPerEntity := 0%Z;
  FileSystem_DiskUsage := 0%Z;
  FileSystem_DataReductionRatio := JNull;
  FileSystem_WormLegalHold := JNull;
  FileSystem_WormDefaultRetention := JNull;
  FileSystem_WormMaxRetention := JNull;
  FileSystem_NfsFilesystemID := 0%Z;
  FileSystem_AtimeMode := "";
  FileSystem_IsConsistent := false;
  FileSystem_IsEstablished := false;
  FileSystem_SnapdirName := "";
  FileSystem_VisibleInSnapdir := false;
  FileSystem_SnapdirAccessible := false;
  FileSystem_SuspendState := "";
  FileSystem_SecurityStyle := "";
  FileSystem_AtimeGranularity := 0%Z;
  FileSystem_WormLevel := "";
  FileSystem_ParentID := 0%Z;
  FileSystem_Modified := false;
  FileSystem_Data := 0%Z;
  FileSystem_PoolID := 0%Z;
  FileSystem_CgName := JNull;
  FileSystem_CgID := JNull;
  FileSystem_HasChildren := false;
  FileSystem_SnapshotPolicyID := JNull;
  FileSystem_SnapshotExpiresAt := JNull;
  FileSystem_CreatedBySnapshotPolicyID := JNull;
  FileSystem_CreatedByScheduleID := JNull;
  FileSystem_TenantID := 0%Z;
  FileSystem_QosPolicyName := JNull;
  FileSystem_LockState := "";
  FileSystem_SnapshotPolicyName := JNull;
  FileSystem_CreatedBySnapshotPolicyName := JNull;
  FileSystem_CreatedByScheduleName := JNull;
  FileSystem_QosPolicyID := JNull;
  FileSystem_QosSharedPolicyID := JNull;
  FileSystem_QosSharedPolicyName := JNull;
  FileSystem_PoolName := "";
  FileSystem_Nguid := "";
  FileSystem_ReplicaIDs := [];
  FileSystem_ReplicationTypes := [];
  FileSystem_NumBlocks := 0%Z
|}.

Record FileSystemSnapshotResponse := MkFileSystemSnapshotResponse {
  FileSystemSnapshotResponse_SnapshotID : Z;
  FileSystemSnapshotResponse_Name : string;
  FileSystemSnapshotResponse_DatasetType : string;
  FileSystemSnapshotResponse_ParentID : Z;
  FileSystemSnapshotResponse_Size : Z;
  FileSystemSnapshotResponse_CreatedAt : Z
}.
Definition FileSystemSnapshotResponse_zero : FileSystemSnapshotResponse := {|
  FileSystemSnapshotResponse_SnapshotID := 0%Z;
  FileSystemSnapshotResponse_Name := "";
  FileSystemSnapshotResponse_DatasetType := "";
  FileSystemSnapshotResponse_ParentID := 0%Z;
  FileSystemSnapshotResponse_Size := 0%Z;
  FileSystemSnapshotResponse_CreatedAt := 0%Z
|}.

Record CreateFileSystemRequest := MkCreateFileSystemRequest {
  CreateFileSystemRequest_AtimeMode : string;
  CreateFileSystemRequest_PoolID : Z;
  CreateFileSystemRequest_Name : string;
  CreateFileSystemRequest_Provtype : string;
  CreateFileSystemRequest_Size : Z;
  CreateFileSystemRequest_SsdEnabled : bool
}.
Definition CreateFileSystemRequest_zero : CreateFileSystemRequest := {|
  CreateFileSystemRequest_AtimeMode := "";
  CreateFileSystemRequest_PoolID := 0%Z;
  CreateFileSystemRequest_Name := "";
  CreateFileSystemRequest_Provtype := "";
  CreateFileSystemRequest_Size := 0%Z;
  CreateFileSystemRequest_SsdEnabled := false
|}.

Record FileSystemSnapshot := MkFileSystemSnapshot {
  FileSystemSnapshot_LockExpiresAt : Z;
  FileSystemSnapshot_ParentID : Z;
  FileSystemSnapshot_SnapshotName : string;
  FileSystemSnapshot_WriteProtected : bool;
  FileSystemSnapshot_SSDEnabled : bool
}.
Definition FileSystemSnapshot_zero : FileSystemSnapshot := {|
  FileSystemSnapshot_LockExpiresAt := 0%Z;
  FileSystemSnapshot_ParentID := 0%Z;
  FileSystemSnapshot_SnapshotName := "";
  FileSystemSnapshot_WriteProtected := false;
  FileSystemSnapshot_SSDEnabled := false
|}.

Record Treeq := MkTreeq {
  Treeq_ID : Z;
  Treeq_FilesystemID : Z;
  Treeq_Name : string;
  Treeq_Path : string;
  Treeq_HardCapacity : Z;
  Treeq_UsedCapacity : Z
}.
Definition Treeq_zero : Treeq := {|
  Treeq_ID := 0%Z;
  Treeq_FilesystemID := 0%Z;
  Treeq_Name := "";
  Treeq_Path := "";
  Treeq_HardCapacity := 0%Z;
  Treeq_UsedCapacity := 0%Z
|}.

Record CreateTreeqRequest := MkCreateTreeqRequest {
  CreateTreeqRequest_SoftInodes : Z;
  CreateTreeqRequest_Path : string;
  CreateTreeqRequest_HardCapacity : Z;
  CreateTreeqRequest_HardInodes : Z;
  CreateTreeqRequest_Name : string
}.
Definition CreateTreeqRequest_zero : CreateTreeqRequest := {|
  CreateTreeqRequest_SoftInodes := 0%Z;
  CreateTreeqRequest_Path := "";
  CreateTreeqRequest_HardCapacity := 0%Z;
  CreateTreeqRequest_HardInodes := 0%Z;
  CreateTreeqRequest_Name := ""
|}.

Record UpdateTreeqRequest := MkUpdateTreeqRequest {
  UpdateTreeqRequest_SoftInodes : Z;
  UpdateTreeqRequest_Path : string;
  UpdateTreeqRequest_HardCapacity : Z;
  UpdateTreeqRequest_HardInodes : Z;
  UpdateTreeqRequest_Name : string
}.
Definition UpdateTreeqRequest_zero : UpdateTreeqRequest := {|
  UpdateTreeqRequest_SoftInodes := 0%Z;
  UpdateTreeqRequest_Path := "";
  UpdateTreeqRequest_HardCapacity := 0%Z;
  UpdateTreeqRequest_HardInodes := 0%Z;
  UpdateTreeqRequest_Name := ""
|}.

Record Permissions := MkPermissions {
  Permissions_Access : string;
  Permissions_NoRootSquash : bool;
  Permissions_Client : string
}.
Definition Permissions_zero : Permissions := {|
  Permissions_Access := "";
  Permissions_NoRootSquash := false;
  Permissions_Client := ""
|}.

Record ExportPathRef := MkExportPathRef {
  ExportPathRef_InnerPath : string;
  ExportPathRef_PrefWrite : Z;
  ExportPathRef_PrefRead : Z;
  ExportPathRef_MaxRead : Z;
  ExportPathRef_PrefReaddir : Z;
  ExportPathRef_TransportProtocols : string;
  ExportPathRef_FilesystemID : Z;
  ExportPathRef_MaxWrite : Z;
  ExportPathRef_PrivilegedPort : bool;
  ExportPathRef_ExportPath : string;
  ExportPathRef_Permissions : list Permissions;
  ExportPathRef_SnapdirVisible : bool
}.
Definition ExportPathRef_zero : ExportPathRef := {|
  ExportPathRef_InnerPath := "";
  ExportPathRef_PrefWrite := 0%Z;
  ExportPathRef_PrefRead := 0%Z;
  ExportPathRef_MaxRead := 0%Z;
  ExportPathRef_PrefReaddir := 0%Z;
  ExportPathRef_TransportProtocols := "";
  ExportPathRef_FilesystemID := 0%Z;
  ExportPathRef_MaxWrite := 0%Z;
  ExportPathRef_PrivilegedPort := false;
  ExportPathRef_ExportPath := "";
  ExportPathRef_Permissions := [];
  ExportPathRef_SnapdirVisible := false
|}.

Record Export := MkExport {
  Export_InnerPath : string;
  Export_PrefWrite : Z;
  Export_BitFileID : bool;
  Export_PrefRead : Z;
  Export_MaxRead : Z;
  Export_Permissions : list Permissions;
  Export_TenantID : Z;
  Export_CreatedAt : Z;
  Export_PrefReaddir : Z;
  Export_Enabled : bool;
  Export_UpdatedAt : Z;
  Export_MakeAllUsersAnonymous : bool;
  Export_SnapdirVisible : bool;
  Export_TransportProtocols : string;
  Export_AnonymousGID : Z;
  Export_AnonymousUID : Z;
  Export_FilesystemID : Z;
  Export_MaxWrite : Z;
  Export_PrivilegedPort : bool;
  Export_ID : Z;
  Export_ExportPath : string
}.
Definition Export_zero : Export := {|
  Export_InnerPath := "";
  Export_PrefWrite := 0%Z;
  Export_BitFileID := false;
  Export_PrefRead := 0%Z;
  Export_MaxRead := 0%Z;
  Export_Permissions := [];
  Export_TenantID := 0%Z;
  Export_CreatedAt := 0%Z;
  Export_PrefReaddir := 0%Z;
  Export_Enabled := false;
  Export_UpdatedAt := 0%Z;
  Export_MakeAllUsersAnonymous := false;
  Export_SnapdirVisible := false;
  Export_TransportProtocols := "";
  Export_AnonymousGID := 0%Z;
  Export_AnonymousUID := 0%Z;
  Export_FilesystemID := 0%Z;
  Export_MaxWrite := 0%Z;
  Export_PrivilegedPort := false;
  Export_ID := 0%Z;
  Export_ExportPath := ""
|}.

Record CreateExportRequest := MkCreateExportRequest {
  CreateExportRequest_FilesystemID : Z;
  CreateExportRequest_Name : string;
  CreateExportRequest_TransportProtocols : string;
  CreateExportRequest_PrivilegedPort : bool;
  CreateExportRequest_ExportPath : string;
  CreateExportRequest_Permissionsput : list (gmap string json);
  CreateExportRequest_SnapdirVisible : bool
}.
Definition CreateExportRequest_zero : CreateExportRequest := {|
  CreateExportRequest_FilesystemID := 0%Z;
  CreateExportRequest_Name := "";
  CreateExportRequest_TransportProtocols := "";
  CreateExportRequest_PrivilegedPort := false;
  CreateExportRequest_ExportPath := "";
  CreateExportRequest_Permissionsput := [];
  CreateExportRequest_SnapdirVisible := false
|}.

Record UpdateExportPathRef := MkUpdateExportPathRef {
  UpdateExportPathRef_Permissions : list Permissions
}.
Definition UpdateExportPathRef_zero : UpdateExportPathRef := {|
  UpdateExportPathRef_Permissions := []
|}.

Record MetadataResult := MkMetadataResult {
  MetadataResult_ID : Z;
  MetadataResult_ObjectID : Z;
  MetadataResult_Key : string;
  MetadataResult_Value : string;
  MetadataResult_ObjectType : string
}.
Definition MetadataResult_zero : MetadataResult := {|
  MetadataResult_ID := 0%Z;
  MetadataResult_ObjectID := 0%Z;
  MetadataResult_Key := "";
  MetadataResult_Value := "";
  MetadataResult_ObjectType := ""
|}.

Record GetMetadataResult := MkGetMetadataResult {
  GetMetadataResult_Key : string;
  GetMetadataResult_Value : string;
  GetMetadataResult_ObjectType : string;
  GetMetadataResult_ID : Z;
  GetMetadataResult_ObjectID : Z
}.
Definition GetMetadataResult_zero : GetMetadataResult := {|
  GetMetadataResult_Key := "";
  GetMetadataResult_Value := "";
  GetMetadataResult_ObjectType := "";
  GetMetadataResult_ID := 0%Z;
  GetMetadataResult_ObjectID := 0%Z
|}.

Record FeatureResult := MkFeatureResult {
  FeatureResult_Name : string;
  FeatureResult_Version : Z;
  FeatureResult_Experimental : bool;
  FeatureResult_Enabled : bool
}.
Definition FeatureResult_zero : FeatureResult := {|
  FeatureResult_Name := "";
  FeatureResult_Version := 0%Z;
  FeatureResult_Experimental := false;
  FeatureResult_Enabled := false
|}.

Record Link_RemoteReplicationIPAddresses_item := MkLink_RemoteReplicationIPAddresses_item {
  Link_RemoteReplicationIPAddresses_item_ID : Z;
  Link_RemoteReplicationIPAddresses_item_IPAddress : string;
  Link_RemoteReplicationIPAddresses_item_Local : bool;
  Link_RemoteReplicationIPAddresses_item_Management : bool;
  Link_RemoteReplicationIPAddresses_item_Type : string;
  Link_RemoteReplicationIPAddresses_item_LinkID : Z
}.
Record Link := MkLink {
  Link_ID : Z;
  Link_Version : Z;
  Link_RemoteVersion : string;
  Link_Name : string;
  Link_RemoteHost : string;
  Link_RemoteManagementIP : string;
  Link_RemoteLinkID : Z;
  Link_RemoteReplicationNetworkSpaceID : Z;
  Link_RemoteSystemSerialNumber : Z;
  Link_RemoteSystemName : string;
  Link_ConnectTimeout : Z;
  Link_KeepAliveTime : Z;
  Link_RetryCount : Z;
  Link_RetryWait : Z;
  Link_RemoteReplicationIPAddresses : list Link_RemoteReplicationIPAddresses_item;
  Link_LinkState : string;
  Link_StateDescription : json;
  Link_LastConnectionTimestamp : Z;
  Link_LocalHost : json;
  Link_WitnessAddress : json;
  Link_LinkConfigurationGUID : string;
  Link_LinkMode : string;
  Link_ResiliencyMode : string;
  Link_LocalWitnessState : string;
  Link_LocalWitnessStateDescription : string;
  Link_RemoteWitnessState : string;
  Link_LocalReplicationNetworkSpaceID : Z;
  Link_AsyncOnly : bool;
  Link_IsLocalLinkReadyForSync : bool;
  Link_LocalLinkReplicationType : list string;
  Link_LinkReplicationType : list string
}.
Definition Link_zero : Link := {|
  Link_ID := 0%Z;
  Link_Version := 0%Z;
  Link_RemoteVersion := "";
  Link_Name := "";
  Link_RemoteHost := "";
  Link_RemoteManagementIP := "";
  Link_RemoteLinkID := 0%Z;
  Link_RemoteReplicationNetworkSpaceID := 0%Z;
  Link_RemoteSystemSerialNumber := 0%Z;
  Link_RemoteSystemName := "";
  Link_ConnectTimeout := 0%Z;
  Link_KeepAliveTime := 0%Z;
  Link_RetryCount := 0%Z;
  Link_RetryWait := 0%Z;
  Link_RemoteReplicationIPAddresses := [];
  Link_LinkState := "";
  Link_StateDescription := JNull;
  Link_LastConnectionTimestamp := 0%Z;
  Link_LocalHost := JNull;
  Link_WitnessAddress := JNull;
  Link_LinkConfigurationGUID := "";
  Link_LinkMode := "";
  Link_ResiliencyMode := "";
  Link_LocalWitnessState := "";
  Link_LocalWitnessStateDescription := "";
  Link_RemoteWitnessState := "";
  Link_LocalReplicationNetworkSpaceID := 0%Z;
  Link_AsyncOnly := false;
  Link_IsLocalLinkReadyForSync := false;
  Link_LocalLinkReplicationType := [];
  Link_LinkReplicationType := []
|}.

Record ConsistencyGroupInfo := MkConsistencyGroupInfo {
  ConsistencyGroupInfo_CreatedBySnapshotPolicyID : Z;
  ConsistencyGroupInfo_UpdateAt : Z;
  ConsistencyGroupInfo_SnapshotRetention : Z;
  ConsistencyGroupInfo_CreatedBySnapshotPolicyName : string;
  ConsistencyGroupInfo_MembersCount : Z;
  ConsistencyGroupInfo_SnapshotPolicyName : string;
  ConsistencyGroupInfo_ID : Z;
  ConsistencyGroupInfo_ParentID : Z;
  ConsistencyGroupInfo_LockState : string;
  ConsistencyGroupInfo_CreatedByScheduleID : Z;
  ConsistencyGroupInfo_CGType : string;
  ConsistencyGroupInfo_PoolName : string;
  ConsistencyGroupInfo_ReplicationTypes : list string;
  ConsistencyGroupInfo_HasChildren : bool;
  ConsistencyGroupInfo_LockExpiresAt : Z;
  ConsistencyGroupInfo_CreatedByScheduleName : string;
  ConsistencyGroupInfo_RmrSnapshotGUID : string;
  ConsistencyGroupInfo_Name : string;
  ConsistencyGroupInfo_TenantID : Z;
  ConsistencyGroupInfo_CreatedAt : Z;
  ConsistencyGroupInfo_SnapshotExpiresAt : Z;
  ConsistencyGroupInfo_PoolID : Z;
  ConsistencyGroupInfo_SnapshotPolicyID : Z;
  ConsistencyGroupInfo_IsReplicated : bool
}.
Definition ConsistencyGroupInfo_zero : ConsistencyGroupInfo := {|
  ConsistencyGroupInfo_CreatedBySnapshotPolicyID := 0%Z;
  ConsistencyGroupInfo_UpdateAt := 0%Z;
  ConsistencyGroupInfo_SnapshotRetention := 0%Z;
  ConsistencyGroupInfo_CreatedBySnapshotPolicyName := "";
  ConsistencyGroupInfo_MembersCount := 0%Z;
  ConsistencyGroupInfo_SnapshotPolicyName := "";
  ConsistencyGroupInfo_ID := 0%Z;
  ConsistencyGroupInfo_ParentID := 0%Z;
  ConsistencyGroupInfo_LockState := "";
  ConsistencyGroupInfo_CreatedByScheduleID := 0%Z;
  ConsistencyGroupInfo_CGType := "";
  ConsistencyGroupInfo_PoolName := "";
  ConsistencyGroupInfo_ReplicationTypes := [];
  ConsistencyGroupInfo_HasChildren := false;
  ConsistencyGroupInfo_LockExpiresAt := 0%Z;
  ConsistencyGroupInfo_CreatedByScheduleName := "";
  ConsistencyGroupInfo_RmrSnapshotGUID := "";
  ConsistencyGroupInfo_Name := "";
  ConsistencyGroupInfo_TenantID := 0%Z;
  ConsistencyGroupInfo_CreatedAt := 0%Z;
  ConsistencyGroupInfo_SnapshotExpiresAt := 0%Z;
  ConsistencyGroupInfo_PoolID := 0%Z;
  ConsistencyGroupInfo_SnapshotPolicyID := 0%Z;
  ConsistencyGroupInfo_IsReplicated := false
|}.

Record MemberInfo := MkMemberInfo {
  MemberInfo_MemberType : string;
  MemberInfo_Depth : Z;
  MemberInfo_ID : Z;
  MemberInfo_Name : string;
  MemberInfo_CreatedAt : Z;
  MemberInfo_UpdateAt : Z;
  MemberInfo_Mapped : bool;
  MemberInfo_WriteProtected : bool;
  MemberInfo_Size : Z;
  MemberInfo_ProvType : string;
  MemberInfo_SSDEnabled : bool;
  MemberInfo_SSAExpressEnabled : bool;
  MemberInfo_SSAExpressStatus : string;
  MemberInfo_CompressionEnabled : bool;
  MemberInfo_Serial : string;
  MemberInfo_RmrTarget : bool;
  MemberInfo_RMRSource : bool;
  MemberInfo_RMRActiveActivePeer : bool;
  MemberInfo_MobilitySource : string;
  MemberInfo_RMRSnapshotGUID : string;
  MemberInfo_DataSnapshotGUID : string;
  MemberInfo_MgmtSnapshotGUID : string;
  MemberInfo_CGSnapshotGUID : string;
  MemberInfo_CGGUID : string;
  MemberInfo_FamilyID : Z;
  MemberInfo_LockExpiresAt : Z;
  MemberInfo_ReclaimedSnapshotRemoteSystemSerial : string;
  MemberInfo_SnapshotRetention : string;
  MemberInfo_DatasetType : string;
  MemberInfo_Used : Z;
  MemberInfo_TreeAllocated : Z;
  MemberInfo_Allocated : Z;
  MemberInfo_CompressionSuppressed : bool;
  MemberInfo_CapacitySaving : Z;
  MemberInfo_UDID : Z;
  MemberInfo_PathsAvailable : bool;
  MemberInfo_SourceReplicatedSGID : Z;
  MemberInfo_PoolID : Z;
  MemberInfo_ParentID : Z;
  MemberInfo_CGName : string;
  MemberInfo_CGID : Z;
  MemberInfo_SnapshotPolicyID : Z;
  MemberInfo_HasChildren : bool;
  MemberInfo_SnapshotExpiresAt : Z;
  MemberInfo_CreatedBySnapshotPolicyID : Z;
  MemberInfo_CreatedByScheduleID : Z;
  MemberInfo_TenantID : Z;
  MemberInfo_QOSPolicyName : string;
  MemberInfo_PoolName : string;
  MemberInfo_NGUID : string;
  MemberInfo_ReplicaIDs : list Z;
  MemberInfo_ReplicationTypes : list string;
  MemberInfo_NumBlocks : Z;
  MemberInfo_QOSPolicyID : Z;
  MemberInfo_QOSSharedPolicyID : Z;
  MemberInfo_QOSSharedPolicyName : string;
  MemberInfo_LockState : string;
  MemberInfo_SnapshotPolicyName : string;
  MemberInfo_CreatedBySnapshotPolicyName : string;
  MemberInfo_CreatedByScheduleName : string
}.
Definition MemberInfo_zero : MemberInfo := {|
  MemberInfo_MemberType := "";
  MemberInfo_Depth := 0%Z;
  MemberInfo_ID := 0%Z;
  MemberInfo_Name := "";
  MemberInfo_CreatedAt := 0%Z;
  MemberInfo_UpdateAt := 0%Z;
  MemberInfo_Mapped := false;
  MemberInfo_WriteProtected := false;
  MemberInfo_Size := 0%Z;
  MemberInfo_ProvType := "";
  MemberInfo_SSDEnabled := false;
  MemberInfo_SSAExpressEnabled := false;
  MemberInfo_SSAExpressStatus := "";
  MemberInfo_CompressionEnabled := false;
  MemberInfo_Serial := "";
  MemberInfo_RmrTarget := false;
  MemberInfo_RMRSource := false;
  MemberInfo_RMRActiveActivePeer := false;
  MemberInfo_MobilitySource := "";
  MemberInfo_RMRSnapshotGUID := "";
  MemberInfo_DataSnapshotGUID := "";
  MemberInfo_MgmtSnapshotGUID := "";
  MemberInfo_CGSnapshotGUID := "";
  MemberInfo_CGGUID := "";
  MemberInfo_FamilyID := 0%Z;
  MemberInfo_LockExpiresAt := 0%Z;
  MemberInfo_ReclaimedSnapshotRemoteSystemSerial := "";
  MemberInfo_SnapshotRetention := "";
  MemberInfo_DatasetType := "";
  MemberInfo_Used := 0%Z;
  MemberInfo_TreeAllocated := 0%Z;
  MemberInfo_Allocated := 0%Z;
  MemberInfo_CompressionSuppressed := false;
  MemberInfo_CapacitySaving := 0%Z;
  MemberInfo_UDID := 0%Z;
  MemberInfo_PathsAvailable := false;
  MemberInfo_SourceReplicatedSGID := 0%Z;
  MemberInfo_PoolID := 0%Z;
  MemberInfo_ParentID := 0%Z;
  MemberInfo_CGName := "";
  MemberInfo_CGID := 0%Z;
  MemberInfo_SnapshotPolicyID := 0%Z;
  MemberInfo_HasChildren := false;
  MemberInfo_SnapshotExpiresAt := 0%Z;
  MemberInfo_CreatedBySnapshotPolicyID := 0%Z;
  MemberInfo_CreatedByScheduleID := 0%Z;
  MemberInfo_TenantID := 0%Z;
  MemberInfo_QOSPolicyName := "";
  MemberInfo_PoolName := "";
  MemberInfo_NGUID := "";
  MemberInfo_ReplicaIDs := [];
  MemberInfo_ReplicationTypes := [];
  MemberInfo_NumBlocks := 0%Z;
  MemberInfo_QOSPolicyID := 0%Z;
  MemberInfo_QOSSharedPolicyID := 0%Z;
  MemberInfo_QOSSharedPolicyName := "";
  MemberInfo_LockState := "";
  MemberInfo_SnapshotPolicyName := "";
  MemberInfo_CreatedBySnapshotPolicyName := "";
  MemberInfo_CreatedByScheduleName := ""
|}.

Record CreateSnapshotGroupRequest := MkCreateSnapshotGroupRequest {
  CreateSnapshotGroupRequest_CGID : Z;
  CreateSnapshotGroupRequest_SnapName : string;
  CreateSnapshotGroupRequest_SnapPrefix : string;
  CreateSnapshotGroupRequest_SnapSuffix : string
}.
Definition CreateSnapshotGroupRequest_zero : CreateSnapshotGroupRequest := {|
  CreateSnapshotGroupRequest_CGID := 0%Z;
  CreateSnapshotGroupRequest_SnapName := "";
  CreateSnapshotGroupRequest_SnapPrefix := "";
  CreateSnapshotGroupRequest_SnapSuffix := ""
|}.

Record CreateConsistencyGroupRequest := MkCreateConsistencyGroupRequest {
  CreateConsistencyGroupRequest_Name : string;
  CreateConsistencyGroupRequest_PoolID : Z
}.
Definition CreateConsistencyGroupRequest_zero : CreateConsistencyGroupRequest := {|
  CreateConsistencyGroupRequest_Name := "";
  CreateConsistencyGroupRequest_PoolID := 0%Z
|}.

Record AddMemberToSnapshotGroupRequest := MkAddMemberToSnapshotGroupRequest {
  AddMemberToSnapshotGroupRequest_DatasetID : Z
}.
Definition AddMemberToSnapshotGroupRequest_zero : AddMemberToSnapshotGroupRequest := {|
  AddMemberToSnapshotGroupRequest_DatasetID := 0%Z
|}.

Record ActiveActiveInfo := MkActiveActiveInfo {
  ActiveActiveInfo_BaseAction : string;
  ActiveActiveInfo_RemoteEntityName : string
}.
Definition ActiveActiveInfo_zero : ActiveActiveInfo := {|
  ActiveActiveInfo_BaseAction := "";
  ActiveActiveInfo_RemoteEntityName := ""
|}.

Record ReplicationPairInfo := MkReplicationPairInfo {
  ReplicationPairInfo_LocalEntityID : Z;
  ReplicationPairInfo_RemoteEntityName : string;
  ReplicationPairInfo_LocalBaseAction : string;
  ReplicationPairInfo_RemoteBaseAction : string
}.
Definition ReplicationPairInfo_zero : ReplicationPairInfo := {|
  ReplicationPairInfo_LocalEntityID := 0%Z;
  ReplicationPairInfo_RemoteEntityName := "";
  ReplicationPairInfo_LocalBaseAction := "";
  ReplicationPairInfo_RemoteBaseAction := ""
|}.

Record AddMemberToCGRequest := MkAddMemberToCGRequest {
  AddMemberToCGRequest_DatasetID : Z;
  AddMemberToCGRequest_AAInfo : ActiveActiveInfo;
  AddMemberToCGRequest_PairInfo : ReplicationPairInfo;
  AddMemberToCGRequest_ReplicationPairsInfo : string
}.
Definition AddMemberToCGRequest_zero : AddMemberToCGRequest := {|
  AddMemberToCGRequest_DatasetID := 0%Z;
  AddMemberToCGRequest_AAInfo := ActiveActiveInfo_zero;
  AddMemberToCGRequest_PairInfo := ReplicationPairInfo_zero;
  AddMemberToCGRequest_ReplicationPairsInfo := ""
|}.

Record Replica_Jobs_item := MkReplica_Jobs_item {
  Replica_Jobs_item_ID : Z;
  Replica_Jobs_item_State : string;
  Replica_Jobs_item_IsInitial : bool;
  Replica_Jobs_item_Type : string;
  Replica_Jobs_item_StartTime : Z;
  Replica_Jobs_item_EndTime : json
}.
Definition Replica_Jobs_item_zero : Replica_Jobs_item := {|
  Replica_Jobs_item_ID := 0%Z;
  Replica_Jobs_item_State := "";
  Replica_Jobs_item_IsInitial := false;
  Replica_Jobs_item_Type := "";
  Replica_Jobs_item_StartTime := 0%Z;
  Replica_Jobs_item_EndTime := JNull
|}.
Record Replica_EntityPairs_item_LocalEntity_item := MkReplica_EntityPairs_item_LocalEntity_item {
  Replica_EntityPairs_item_LocalEntity_item_DatasetType : string;
  Replica_EntityPairs_item_LocalEntity_item_Type : string;
  Replica_EntityPairs_item_LocalEntity_item_Depth : Z;
  Replica_EntityPairs_item_LocalEntity_item_ID : Z;
  Replica_EntityPairs_item_LocalEntity_item_Name : string;
  Replica_EntityPairs_item_LocalEntity_item_CreatedAt : Z;
  Replica_EntityPairs_item_LocalEntity_item_UpdatedAt : Z;
  Replica_EntityPairs_item_LocalEntity_item_Mapped : bool;
  Replica_EntityPairs_item_LocalEntity_item_WriteProtected : bool;
  Replica_EntityPairs_item_LocalEntity_item_Size : Z;
  Replica_EntityPairs_item_LocalEntity_item_Provtype : string;
  Replica_EntityPairs_item_LocalEntity_item_SsdEnabled : bool;
  Replica_EntityPairs_item_LocalEntity_item_SsaExpressEnabled : bool;
  Replica_EntityPairs_item_LocalEntity_item_SsaExpressStatus : json;
  Replica_EntityPairs_item_LocalEntity_item_CompressionEnabled : bool;
  Replica_EntityPairs_item_LocalEntity_item_Serial : string;
  Replica_EntityPairs_item_LocalEntity_item_RmrTarget : bool;
  Replica_EntityPairs_item_LocalEntity_item_RmrSource : bool;
  Replica_EntityPairs_item_LocalEntity_item_RmrActiveActivePeer : bool;
  Replica_EntityPairs_item_LocalEntity_item_MobilitySource : json;
  Replica_EntityPairs_item_LocalEntity_item_RmrSnapshotGUID : json;
  Replica_EntityPairs_item_LocalEntity_item_DataSnapshotGUID : json;
  Replica_EntityPairs_item_LocalEntity_item_MgmtSnapshotGUID : json;
  Replica_EntityPairs_item_LocalEntity_item_CgSnapshotGUID : json;
  Replica_EntityPairs_item_LocalEntity_item_CgGUID : json;
  Replica_EntityPairs_item_LocalEntity_item_FamilyID : Z;
  Replica_EntityPairs_item_LocalEntity_item_LockExpiresAt : json;
  Replica_EntityPairs_item_LocalEntity_item_ReclaimedSnapshotRemoteSystemSerial : json;
  Replica_EntityPairs_item_LocalEntity_item_SnapshotRetention : json;
  Replica_EntityPairs_item_LocalEntity_item_Used : json;
  Replica_EntityPairs_item_LocalEntity_item_TreeAllocated : json;
  Replica_EntityPairs_item_LocalEntity_item_Allocated : json;
  Replica_EntityPairs_item_LocalEntity_item_CompressionSuppressed : json;
  Replica_EntityPairs_item_LocalEntity_item_CapacitySavings : json;
  Replica_EntityPairs_item_LocalEntity_item_CapacitySavingsPerEntity : json;
  Replica_EntityPairs_item_LocalEntity_item_DiskUsage : json;
  Replica_EntityPairs_item_LocalEntity_item_DataReductionRatio : json;
  Replica_EntityPairs_item_LocalEntity_item_Udid : json;
  Replica_EntityPairs_item_LocalEntity_item_PathsAvailable : json;
  Replica_EntityPairs_item_LocalEntity_item_SourceReplicatedSgID : json;
  Replica_EntityPairs_item_LocalEntity_item_PoolID : Z;
  Replica_EntityPairs_item_LocalEntity_item_ParentID : Z;
  Replica_EntityPairs_item_LocalEntity_item_CgName : string;
  Replica_EntityPairs_item_LocalEntity_item_CgID : Z;
  Replica_EntityPairs_item_LocalEntity_item_HasChildren : bool;
  Replica_EntityPairs_item_LocalEntity_item_SnapshotPolicyID : json;
  Replica_EntityPairs_item_LocalEntity_item_SnapshotExpiresAt : json;
  Replica_EntityPairs_item_LocalEntity_item_CreatedBySnapshotPolicyID : json;
  Replica_EntityPairs_item_LocalEntity_item_CreatedByScheduleID : json;
  Replica_EntityPairs_item_LocalEntity_item_TenantID : Z;
  Replica_EntityPairs_item_LocalEntity_item_PoolName : string;
  Replica_EntityPairs_item_LocalEntity_item_Nguid : string;
  Replica_EntityPairs_item_LocalEntity_item_ReplicaIDs : list json;
  Replica_EntityPairs_item_LocalEntity_item_ReplicationTypes : list string;
  Replica_EntityPairs_item_LocalEntity_item_NumBlocks : Z;
  Replica_EntityPairs_item_LocalEntity_item_QosPolicyID : json;
  Replica_EntityPairs_item_LocalEntity_item_QosPolicyName : json;
  Replica_EntityPairs_item_LocalEntity_item_QosSharedPolicyID : json;
  Replica_EntityPairs_item_LocalEntity_item_QosSharedPolicyName : json;
  Replica_EntityPairs_item_LocalEntity_item_LockState : string;
  Replica_EntityPairs_item_LocalEntity_item_SnapshotPolicyName : json;
  Replica_EntityPairs_item_LocalEntity_item_CreatedBySnapshotPolicyName : json;
  Replica_EntityPairs_item_LocalEntity_item_CreatedByScheduleName : json
}.
Definition Replica_EntityPairs_item_LocalEntity_item_zero : Replica_EntityPairs_item_LocalEntity_item := {|
  Replica_EntityPairs_item_LocalEntity_item_DatasetType := "";
  Replica_EntityPairs_item_LocalEntity_item_Type := "";
  Replica_EntityPairs_item_LocalEntity_item_Depth := 0%Z;
  Replica_EntityPairs_item_LocalEntity_item_ID := 0%Z;
  Replica_EntityPairs_item_LocalEntity_item_Name := "";
  Replica_EntityPairs_item_LocalEntity_item_CreatedAt := 0%Z;
  Replica_EntityPairs_item_LocalEntity_item_UpdatedAt := 0%Z;
  Replica_EntityPairs_item_LocalEntity_item_Mapped := false;
  Replica_EntityPairs_item_LocalEntity_item_WriteProtected := false;
  Replica_EntityPairs_item_LocalEntity_item_Size := 0%Z;
  Replica_EntityPairs_item_LocalEntity_item_Provtype := "";
  Replica_EntityPairs_item_LocalEntity_item_SsdEnabled := false;
  Replica_EntityPairs_item_LocalEntity_item_SsaExpressEnabled := false;
  Replica_EntityPairs_item_LocalEntity_item_SsaExpressStatus := JNull;
  Replica_EntityPairs_item_LocalEntity_item_CompressionEnabled := false;
  Replica_EntityPairs_item_LocalEntity_item_Serial := "";
  Replica_EntityPairs_item_LocalEntity_item_RmrTarget := false;
  Replica_EntityPairs_item_LocalEntity_item_RmrSource := false;
  Replica_EntityPairs_item_LocalEntity_item_RmrActiveActivePeer := false;
  Replica_EntityPairs_item_LocalEntity_item_MobilitySource := JNull;
  Replica_EntityPairs_item_LocalEntity_item_RmrSnapshotGUID := JNull;
  Replica_EntityPairs_item_LocalEntity_item_DataSnapshotGUID := JNull;
  Replica_EntityPairs_item_LocalEntity_item_MgmtSnapshotGUID := JNull;
  Replica_EntityPairs_item_LocalEntity_item_CgSnapshotGUID := JNull;
  Replica_EntityPairs_item_LocalEntity_item_CgGUID := JNull;
  Replica_EntityPairs_item_LocalEntity_item_FamilyID := 0%Z;
  Replica_EntityPairs_item_LocalEntity_item_LockExpiresAt := JNull;
  Replica_EntityPairs_item_LocalEntity_item_ReclaimedSnapshotRemoteSystemSerial := JNull;
  Replica_EntityPairs_item_LocalEntity_item_SnapshotRetention := JNull;
  Replica_EntityPairs_item_LocalEntity_item_Used := JNull;
  Replica_EntityPairs_item_LocalEntity_item_TreeAllocated := JNull;
  Replica_EntityPairs_item_LocalEntity_item_Allocated := JNull;
  Replica_EntityPairs_item_LocalEntity_item_CompressionSuppressed := JNull;
  Replica_EntityPairs_item_LocalEntity_item_CapacitySavings := JNull;
  Replica_EntityPairs_item_LocalEntity_item_CapacitySavingsPerEntity := JNull;
  Replica_EntityPairs_item_LocalEntity_item_DiskUsage := JNull;
  Replica_EntityPairs_item_LocalEntity_item_DataReductionRatio := JNull;
  Replica_EntityPairs_item_LocalEntity_item_Udid := JNull;
  Replica_EntityPairs_item_LocalEntity_item_PathsAvailable := JNull;
  Replica_EntityPairs_item_LocalEntity_item_SourceReplicatedSgID := JNull;
  Replica_EntityPairs_item_LocalEntity_item_PoolID := 0%Z;
  Replica_EntityPairs_item_LocalEntity_item_ParentID := 0%Z;
  Replica_EntityPairs_item_LocalEntity_item_CgName := "";
  Replica_EntityPairs_item_LocalEntity_item_CgID := 0%Z;
  Replica_EntityPairs_item_LocalEntity_item_HasChildren := false;
  Replica_EntityPairs_item_LocalEntity_item_SnapshotPolicyID := JNull;
  Replica_EntityPairs_item_LocalEntity_item_SnapshotExpiresAt := JNull;
  Replica_EntityPairs_item_LocalEntity_item_CreatedBySnapshotPolicyID := JNull;
  Replica_EntityPairs_item_LocalEntity_item_CreatedByScheduleID := JNull;
  Replica_EntityPairs_item_LocalEntity_item_TenantID := 0%Z;
  Replica_EntityPairs_item_LocalEntity_item_PoolName := "";
  Replica_EntityPairs_item_LocalEntity_item_Nguid := "";
  Replica_EntityPairs_item_LocalEntity_item_ReplicaIDs := [];
  Replica_EntityPairs_item_LocalEntity_item_ReplicationTypes := [];
  Replica_EntityPairs_item_LocalEntity_item_NumBlocks := 0%Z;
  Replica_EntityPairs_item_LocalEntity_item_QosPolicyID := JNull;
  Replica_EntityPairs_item_LocalEntity_item_QosPolicyName := JNull;
  Replica_EntityPairs_item_LocalEntity_item_QosSharedPolicyID := JNull;
  Replica_EntityPairs_item_LocalEntity_item_QosSharedPolicyName := JNull;
  Replica_EntityPairs_item_LocalEntity_item_LockState := "";
  Replica_EntityPairs_item_LocalEntity_item_SnapshotPolicyName := JNull;
  Replica_EntityPairs_item_LocalEntity_item_CreatedBySnapshotPolicyName := JNull;
  Replica_EntityPairs_item_LocalEntity_item_CreatedByScheduleName := JNull
|}.
Record Replica_EntityPairs_item := MkReplica_EntityPairs_item {
  Replica_EntityPairs_item_ID : Z;
  Replica_EntityPairs_item_RemotePairID : Z;
  Replica_EntityPairs_item_RemoteEntityID : Z;
  Replica_EntityPairs_item_LocalEntity : Replica_EntityPairs_item_LocalEntity_item;
  Replica_EntityPairs_item_TargetOldRoState : bool;
  Replica_EntityPairs_item_RemoteBaseEntityID : json;
  Replica_EntityPairs_item_RemoteBaseAction : string;
  Replica_EntityPairs_item_RemoteBaseDiffableID : json;
  Replica_EntityPairs_item_LocalBaseEntityID : json;
  Replica_EntityPairs_item_LocalBaseAction : string;
  Replica_EntityPairs_item_LocalBaseDiffableID : json;
  Replica_EntityPairs_item_RemoteEntityName : string;
  Replica_EntityPairs_item_LocalEntityName : string;
  Replica_EntityPairs_item_ConsistentGUID : json;
  Replica_EntityPairs_item_CgConsistentGUID : json;
  Replica_EntityPairs_item_CgGUID : json;
  Replica_EntityPairs_item_NextConsistentGUID : string;
  Replica_EntityPairs_item_Progress : Z;
  Replica_EntityPairs_item_LastSynchronized : json;
  Replica_EntityPairs_item_RestorePoint : Z;
  Replica_EntityPairs_item_Duration : Z;
  Replica_EntityPairs_item_IsInitial : bool;
  Replica_EntityPairs_item_SyncJobCommitted : bool;
  Replica_EntityPairs_item_LocalReclaimedSnapshotID : json;
  Replica_EntityPairs_item_RemoteReclaimedSnapshotID : json;
  Replica_EntityPairs_item_ReclaimedSnapshotGUID : json;
  Replica_EntityPairs_item_ReclaimedSnapshotTime : json;
  Replica_EntityPairs_item_SessionSnapshotsID : Z;
  Replica_EntityPairs_item_ReportEntityID : json;
  Replica_EntityPairs_item_ReportSystemSerialNumber : json;
  Replica_EntityPairs_item_ActiveActivePortBit : json;
  Replica_EntityPairs_item_LocalPairGUID : json;
  Replica_EntityPairs_item_ReplicaID : Z;
  Replica_EntityPairs_item_LocalEntityID : Z
}.
Definition Replica_EntityPairs_item_zero : Replica_EntityPairs_item := {|
  Replica_EntityPairs_item_ID := 0%Z;
  Replica_EntityPairs_item_RemotePairID := 0%Z;
  Replica_EntityPairs_item_RemoteEntityID := 0%Z;
  Replica_EntityPairs_item_LocalEntity := Replica_EntityPairs_item_LocalEntity_item_zero;
  Replica_EntityPairs_item_TargetOldRoState := false;
  Replica_EntityPairs_item_RemoteBaseEntityID := JNull;
  Replica_EntityPairs_item_RemoteBaseAction := "";
  Replica_EntityPairs_item_RemoteBaseDiffableID := JNull;
  Replica_EntityPairs_item_LocalBaseEntityID := JNull;
  Replica_EntityPairs_item_LocalBaseAction := "";
  Replica_EntityPairs_item_LocalBaseDiffableID := JNull;
  Replica_EntityPairs_item_RemoteEntityName := "";
  Replica_EntityPairs_item_LocalEntityName := "";
  Replica_EntityPairs_item_ConsistentGUID := JNull;
  Replica_EntityPairs_item_CgConsistentGUID := JNull;
  Replica_EntityPairs_item_CgGUID := JNull;
  Replica_EntityPairs_item_NextConsistentGUID := "";
  Replica_EntityPairs_item_Progress := 0%Z;
  Replica_EntityPairs_item_LastSynchronized := JNull;
  Replica_EntityPairs_item_RestorePoint := 0%Z;
  Replica_EntityPairs_item_Duration := 0%Z;
  Replica_EntityPairs_item_IsInitial := false;
  Replica_EntityPairs_item_SyncJobCommitted := false;
  Replica_EntityPairs_item_LocalReclaimedSnapshotID := JNull;
  Replica_EntityPairs_item_RemoteReclaimedSnapshotID := JNull;
  Replica_EntityPairs_item_ReclaimedSnapshotGUID := JNull;
  Replica_EntityPairs_item_ReclaimedSnapshotTime := JNull;
  Replica_EntityPairs_item_SessionSnapshotsID := 0%Z;
  Replica_EntityPairs_item_ReportEntityID := JNull;
  Replica_EntityPairs_item_ReportSystemSerialNumber := JNull;
  Replica_EntityPairs_item_ActiveActivePortBit := JNull;
  Replica_EntityPairs_item_LocalPairGUID := JNull;
  Replica_EntityPairs_item_ReplicaID := 0%Z;
  Replica_EntityPairs_item_LocalEntityID := 0%Z
|}.
Record Replica := MkReplica {
  Replica_ID : Z;
  Replica_Version : Z;
  Replica_Description : string;
  Replica_ReplicaConfigurationVersion : string;
  Replica_ManagementConfigurationVersion : string;
  Replica_LocalLinkGUID : string;
  Replica_RemoteReplicaID : Z;
  Replica_Role : string;
  Replica_IsInternalSource : json;
  Replica_ConcurrentReplica : bool;
  Replica_IncludingSnapshots : bool;
  Replica_SnapshotsRetention : json;
  Replica_RemoteSnapshotSuffix : string;
  Replica_LockRemoteSnapshotRetention : json;
  Replica_EntityType : string;
  Replica_State : string;
  Replica_StateDescription : json;
  Replica_StateReason : json;
  Replica_JobState : string;
  Replica_Jobs : list Replica_Jobs_item;
  Replica_IsInitial : bool;
  Replica_PendingJobCount : Z;
  Replica_NextJobStartTime : json;
  Replica_Enabled : bool;
  Replica_ReservedForInfinisafe : bool;
  Replica_SyncInterval : Z;
  Replica_RpoType : string;
  Replica_RpoValue : Z;
  Replica_RpoState : string;
  Replica_Throughput : Z;
  Replica_TemporaryFailureRetryInterval : Z;
  Replica_TemporaryFailureRetryCount : Z;
  Replica_PermanentFailureWaitInterval : Z;
  Replica_BaseAction : string;
  Replica_LocalEntityID : Z;
  Replica_RemoteEntityID : Z;
  Replica_LocalEntityName : string;
  Replica_RemoteEntityName : string;
  Replica_LocalCgName : string;
  Replica_RemoteCgID : Z;
  Replica_RemoteCgName : string;
  Replica_RemotePoolID : Z;
  Replica_LocalPoolID : Z;
  Replica_LocalPoolName : string;
  Replica_RemotePoolName : string;
  Replica_CreatedAt : Z;
  Replica_UpdatedAt : Z;
  Replica_EntityPairs : list Replica_EntityPairs_item;
  Replica_RemoteIPAddresses : json;
  Replica_StartedAt : Z;
  Replica_SyncDuration : Z;
  Replica_LastSynchronized : Z;
  Replica_Progress : Z;
  Replica_RestorePoint : json;
  Replica_ConsistentGUID : json;
  Replica_NextRestorePoint : json;
  Replica_NextConsistentGUID : string;
  Replica_SnapshotGUID : json;
  Replica_SnapshotTime : json;
  Replica_LocalReclaimedSgID : json;
  Replica_RemoteReclaimedSgID : json;
  Replica_StagingAreaAllocatedSize : json;
  Replica_AssignedLocalIPIndex : Z;
  Replica_ReplicationType : string;
  Replica_Domino : json;
  Replica_SyncState : json;
  Replica_AsyncMode : json;
  Replica_Latency : json;
  Replica_MobilitySource : json;
  Replica_IsPreferred : json;
  Replica_SuspendedFromLocal : json;
  Replica_LinkID : Z;
  Replica_AssignedRemoteIP : string;
  Replica_AssignedSyncRemoteIps : json;
  Replica_LocalCgID : Z
}.
Definition Replica_zero : Replica := {|
  Replica_ID := 0%Z;
  Replica_Version := 0%Z;
  Replica_Description := "";
  Replica_ReplicaConfigurationVersion := "";
  Replica_ManagementConfigurationVersion := "";
  Replica_LocalLinkGUID := "";
  Replica_RemoteReplicaID := 0%Z;
  Replica_Role := "";
  Replica_IsInternalSource := JNull;
  Replica_ConcurrentReplica := false;
  Replica_IncludingSnapshots := false;
  Replica_SnapshotsRetention := JNull;
  Replica_RemoteSnapshotSuffix := "";
  Replica_LockRemoteSnapshotRetention := JNull;
  Replica_EntityType := "";
  Replica_State := "";
  Replica_StateDescription := JNull;
  Replica_StateReason := JNull;
  Replica_JobState := "";
  Replica_Jobs := [];
  Replica_IsInitial := false;
  Replica_PendingJobCount := 0%Z;
  Replica_NextJobStartTime := JNull;
  Replica_Enabled := false;
  Replica_ReservedForInfinisafe := false;
  Replica_SyncInterval := 0%Z;
  Replica_RpoType := "";
  Replica_RpoValue := 0%Z;
  Replica_RpoState := "";
  Replica_Throughput := 0%Z;
  Replica_TemporaryFailureRetryInterval := 0%Z;
  Replica_TemporaryFailureRetryCount := 0%Z;
  Replica_PermanentFailureWaitInterval := 0%Z;
  Replica_BaseAction := "";
  Replica_LocalEntityID := 0%Z;
  Replica_RemoteEntityID := 0%Z;
  Replica_LocalEntityName := "";
  Replica_RemoteEntityName := "";
  Replica_LocalCgName := "";
  Replica_RemoteCgID := 0%Z;
  Replica_RemoteCgName := "";
  Replica_RemotePoolID := 0%Z;
  Replica_LocalPoolID := 0%Z;
  Replica_LocalPoolName := "";
  Replica_RemotePoolName := "";
  Replica_CreatedAt := 0%Z;
  Replica_UpdatedAt := 0%Z;
  Replica_EntityPairs := [];
  Replica_RemoteIPAddresses := JNull;
  Replica_StartedAt := 0%Z;
  Replica_SyncDuration := 0%Z;
  Replica_LastSynchronized := 0%Z;
  Replica_Progress := 0%Z;
  Replica_RestorePoint := JNull;
  Replica_ConsistentGUID := JNull;
  Replica_NextRestorePoint := JNull;
  Replica_NextConsistentGUID := "";
  Replica_SnapshotGUID := JNull;
  Replica_SnapshotTime := JNull;
  Replica_LocalReclaimedSgID := JNull;
  Replica_RemoteReclaimedSgID := JNull;
  Replica_StagingAreaAllocatedSize := JNull;
  Replica_AssignedLocalIPIndex := 0%Z;
  Replica_ReplicationType := "";
  Replica_Domino := JNull;
  Replica_SyncState := JNull;
  Replica_AsyncMode := JNull;
  Replica_Latency := JNull;
  Replica_MobilitySource := JNull;
  Replica_IsPreferred := JNull;
  Replica_SuspendedFromLocal := JNull;
  Replica_LinkID := 0%Z;
  Replica_AssignedRemoteIP := "";
  Replica_AssignedSyncRemoteIps := JNull;
  Replica_LocalCgID := 0%Z
|}.

Record CreateReplicaRequest := MkCreateReplicaRequest {
  CreateReplicaRequest_IsPreferred : option bool;
  CreateReplicaRequest_SyncInterval : Z;
  CreateReplicaRequest_Description : string;
  CreateReplicaRequest_EntityType : string;
  CreateReplicaRequest_RemoteEntityName : string;
  CreateReplicaRequest_LocalEntityID : Z;
  CreateReplicaRequest_ReplicationType : string;
  CreateReplicaRequest_BaseAction : string;
  CreateReplicaRequest_LinkID : Z;
  CreateReplicaRequest_RpoValue : Z;
  CreateReplicaRequest_RemotePoolID : Z
}.
Definition CreateReplicaRequest_zero : CreateReplicaRequest := {|
  CreateReplicaRequest_IsPreferred := None;
  CreateReplicaRequest_SyncInterval := 0%Z;
  CreateReplicaRequest_Description := "";
  CreateReplicaRequest_EntityType := "";
  CreateReplicaRequest_RemoteEntityName := "";
  CreateReplicaRequest_LocalEntityID := 0%Z;
  CreateReplicaRequest_ReplicationType := "";
  CreateReplicaRequest_BaseAction := "";
  CreateReplicaRequest_LinkID := 0%Z;
  CreateReplicaRequest_RpoValue := 0%Z;
  CreateReplicaRequest_RemotePoolID := 0%Z
|}.

Record FCPort := MkFCPort {
  FCPort_PortID : Z;
  FCPort_State : string;
  FCPort_Enabled : bool;
  FCPort_WWNn : string;
  FCPort_WWPn : string;
  FCPort_SwitchWWNn : string;
  FCPort_Vendor : string;
  FCPort_SwitchVendor : string
}.
Definition FCPort_zero : FCPort := {|
  FCPort_PortID := 0%Z;
  FCPort_State := "";
  FCPort_Enabled := false;
  FCPort_WWNn := "";
  FCPort_WWPn := "";
  FCPort_SwitchWWNn := "";
  FCPort_Vendor := "";
  FCPort_SwitchVendor := ""
|}.

Record FCNode := MkFCNode {
  FCNode_Ports : list FCPort
}.
Definition FCNode_zero : FCNode := {|
  FCNode_Ports := []
|}.

Record EventRequestData := MkEventRequestData {
  EventRequestData_Name : string;
  EventRequestData_Type : string;
  EventRequestData_Value : string
}.
Definition EventRequestData_zero : EventRequestData := {|
  EventRequestData_Name := "";
  EventRequestData_Type := "";
  EventRequestData_Value := ""
|}.

Record EventRequest := MkEventRequest {
  EventRequest_Data : list EventRequestData;
  EventRequest_Code : string
}.
Definition EventRequest_zero : EventRequest := {|
  EventRequest_Data := [];
  EventRequest_Code := ""
|}.

Record IboxreplicaSpec := MkIboxreplicaSpec {
  IboxreplicaSpec_IsPreferred : option bool;
  IboxreplicaSpec_SyncInterval : Z;
  IboxreplicaSpec_Description : string;
  IboxreplicaSpec_EntityType : string;
  IboxreplicaSpec_LocalEntityName : string;
  IboxreplicaSpec_RemoteEntityName : string;
  IboxreplicaSpec_ReplicationType : string;
  IboxreplicaSpec_BaseAction : string;
  IboxreplicaSpec_LinkRemoteSystemName : string;
  IboxreplicaSpec_RpoValue : Z;
  IboxreplicaSpec_RemotePoolID : Z;
  IboxreplicaSpec_RemoteIboxCredentialName : string;
  IboxreplicaSpec_RemoteIboxCredentialNamespace : string;
  IboxreplicaSpec_RemoteCreatePVC : option bool;
  IboxreplicaSpec_RemotePVCNameSuffix : string;
  IboxreplicaSpec_RemotePVCName : string;
  IboxreplicaSpec_RemotePVCNamespace : string;
  IboxreplicaSpec_RemoteNetworkSpace : string;
  IboxreplicaSpec_RemotePoolName : string;
  IboxreplicaSpec_RemotePVCKubeconfigSecretName : string;
  IboxreplicaSpec_RemotePVCKubeconfigSecretNamespace : string
}.
Definition IboxreplicaSpec_zero : IboxreplicaSpec := {|
  IboxreplicaSpec_IsPreferred := None;
  IboxreplicaSpec_SyncInterval := 0%Z;
  IboxreplicaSpec_Description := "";
  IboxreplicaSpec_EntityType := "";
  IboxreplicaSpec_LocalEntityName := "";
  IboxreplicaSpec_RemoteEntityName := "";
  IboxreplicaSpec_ReplicationType := "";
  IboxreplicaSpec_BaseAction := "";
  IboxreplicaSpec_LinkRemoteSystemName := "";
  IboxreplicaSpec_RpoValue := 0%Z;
  IboxreplicaSpec_RemotePoolID := 0%Z;
  IboxreplicaSpec_RemoteIboxCredentialName := "";
  IboxreplicaSpec_RemoteIboxCredentialNamespace := "";
  IboxreplicaSpec_RemoteCreatePVC := None;
  IboxreplicaSpec_RemotePVCNameSuffix := "";
  IboxreplicaSpec_RemotePVCName := "";
  IboxreplicaSpec_RemotePVCNamespace := "";
  IboxreplicaSpec_RemoteNetworkSpace := "";
  IboxreplicaSpec_RemotePoolName := "";
  IboxreplicaSpec_RemotePVCKubeconfigSecretName := "";
  IboxreplicaSpec_RemotePVCKubeconfigSecretNamespace := ""
|}.

Record IboxcgSpec := MkIboxcgSpec {
  IboxcgSpec_Description : string;
  IboxcgSpec_LocalCGName : string;
  IboxcgSpec_LocalVolumeName : string;
  IboxcgSpec_BaseAction : string;
  IboxcgSpec_RemoteIboxCredentialName : string;
  IboxcgSpec_RemoteIboxCredentialNamespace : string;
  IboxcgSpec_RemoteCreatePVC : option bool;
  IboxcgSpec_RemotePVCNameSuffix : string;
  IboxcgSpec_RemotePVCName : string;
  IboxcgSpec_RemotePVCNamespace : string;
  IboxcgSpec_RemoteNetworkSpace : string;
  IboxcgSpec_RemotePoolName : string;
  IboxcgSpec_RemotePVCKubeconfigSecretName : string;
  IboxcgSpec_RemotePVCKubeconfigSecretNamespace : string
}.
Definition IboxcgSpec_zero : IboxcgSpec := {|
  IboxcgSpec_Description := "";
  IboxcgSpec_LocalCGName := "";
  IboxcgSpec_LocalVolumeName := "";
  IboxcgSpec_BaseAction := "";
  IboxcgSpec_RemoteIboxCredentialName := "";
  IboxcgSpec_RemoteIboxCredentialNamespace := "";
  IboxcgSpec_RemoteCreatePVC := None;
  IboxcgSpec_RemotePVCNameSuffix := "";
  IboxcgSpec_RemotePVCName := "";
  IboxcgSpec_RemotePVCNamespace := "";
  IboxcgSpec_RemoteNetworkSpace := "";
  IboxcgSpec_RemotePoolName := "";
  IboxcgSpec_RemotePVCKubeconfigSecretName := "";
  IboxcgSpec_RemotePVCKubeconfigSecretNamespace := ""
|}.

Record VolumeProtocolConfig := MkVolumeProtocolConfig {
  VolumeProtocolConfig_VolumeID : Z;
  VolumeProtocolConfig_StorageType : string;
  VolumeProtocolConfig_ChildVolumeID : string;
  VolumeProtocolConfig_Host : option Host;
  VolumeProtocolConfig_NodeID : string;
  VolumeProtocolConfig_TreeqID : Z
}.
Definition VolumeProtocolConfig_zero : VolumeProtocolConfig := {|
  VolumeProtocolConfig_VolumeID := 0%Z;
  VolumeProtocolConfig_StorageType := "";
  VolumeProtocolConfig_ChildVolumeID := "";
  VolumeProtocolConfig_Host := None;
  VolumeProtocolConfig_NodeID := "";
  VolumeProtocolConfig_TreeqID := 0%Z
|}.
Definition FileSystem_of (ID : Z) (Name : string) (Size : Z) (ParentID : Z) (PoolID : Z) (LockState : string) : FileSystem := {|
  FileSystem_Type := "";
  FileSystem_Depth := 0%Z;
  FileSystem_ID := ID;
  FileSystem_Name := Name;
  FileSystem_CreatedAt := 0%Z;
  FileSystem_UpdatedAt := 0%Z;
  FileSystem_Mapped := false;
  FileSystem_WriteProtected := false;
  FileSystem_Size := Size;
  FileSystem_Provtype := "";
  FileSystem_SSDEnabled := false;
  FileSystem_SSAExpressEnabled := false;
  FileSystem_SSAExpressStatus := JNull;
  FileSystem_CompressionEnabled := false;
  FileSystem_Serial := "";
  FileSystem_RmrTarget := false;
  FileSystem_RmrSource := false;
  FileSystem_RmrActiveActivePeer := false;
  FileSystem_MobilitySource := JNull;
  FileSystem_RmrSnapshotGUID := JNull;
  FileSystem_DataSnapshotGUID := JNull;
  FileSystem_MgmtSnapshotGUID := JNull;
  FileSystem_CgSnapshotGUID := JNull;
  FileSystem_CgGUID := JNull;
  FileSystem_FamilyID := 0%Z;
  FileSystem_LockExpiresAt := 0%Z;
  FileSystem_ReclaimedSnapshotRemoteSystemSerial := JNull;
  FileSystem_SnapshotRetention := JNull;
  FileSystem_DatasetType := "";
  FileSystem_Used := 0%Z;
  FileSystem_TreeAllocated := 0%Z;
  FileSystem_Allocated := 0%Z;
  FileSystem_CompressionSuppressed := false;
  FileSystem_CapacitySavings := 0%Z;
  FileSystem_CapacitySavingsPerEntity := 0%Z;
  FileSystem_DiskUsage := 0%Z;
  FileSystem_DataReductionRatio := JNull;
  FileSystem_WormLegalHold := JNull;
  FileSystem_WormDefaultRetention := JNull;
  FileSystem_WormMaxRetention := JNull;
  FileSystem_NfsFilesystemID := 0%Z;
  FileSystem_AtimeMode := "";
  FileSystem_IsConsistent := false;
  FileSystem_IsEstablished := false;
  FileSystem_SnapdirName := "";
  FileSystem_VisibleInSnapdir := false;
  FileSystem_SnapdirAccessible := false;
  FileSystem_SuspendState := "";
  FileSystem_SecurityStyle := "";
  FileSystem_AtimeGranularity := 0%Z;
  FileSystem_WormLevel := "";
  FileSystem_ParentID := ParentID;
  FileSystem_Modified := false;
  FileSystem_Data := 0%Z;
  FileSystem_PoolID := PoolID;
  FileSystem_CgName := JNull;
  FileSystem_CgID := JNull;
  FileSystem_HasChildren := false;
  FileSystem_SnapshotPolicyID := JNull;
  FileSystem_SnapshotExpiresAt := JNull;
  FileSystem_CreatedBySnapshotPolicyID := JNull;
  FileSystem_CreatedByScheduleID := JNull;
  FileSystem_TenantID := 0%Z;
  FileSystem_QosPolicyName := JNull;
  FileSystem_LockState := LockState;
  FileSystem_SnapshotPolicyName := JNull;
  FileSystem_CreatedBySnapshotPolicyName := JNull;
  FileSystem_CreatedByScheduleName := JNull;
  FileSystem_QosPolicyID := JNull;
  FileSystem_QosSharedPolicyID := JNull;
  FileSystem_QosSharedPolicyName := JNull;
  FileSystem_PoolName := "";
  FileSystem_Nguid := "";
  FileSystem_ReplicaIDs := [];
  FileSystem_ReplicationTypes := [];
  FileSystem_NumBlocks := 0%Z
|}.

Definition Volume_of (ID : Z) (Name : string) (Size : Z) (ParentID : Z) (PoolID : Z) (PoolName : string) (LockState : string) (WriteProtected : bool) : Volume := {|
  Volume_CGID := 0%Z;
  Volume_RmrTarget := false;
  Volume_UpdatedAt := 0%Z;
  Volume_NumBlocks := 0%Z;
  Volume_Allocated := 0%Z;
  Volume_Serial := "";
  Volume_Size := Size;
  Volume_SsdEnabled := false;
  Volume_ID := ID;
  Volume_ParentID := ParentID;
  Volume_CompressionSuppressed := false;
  Volume_Type := "";
  Volume_RmrSource := false;
  Volume_Used := 0%Z;
  Volume_TreeAllocated := 0%Z;
  Volume_HasChildren := false;
  Volume_DatasetType := "";
  Volume_Provtype := "";
  Volume_RmrSnapshotGUID := "";
  Volume_CapacitySavings := 0%Z;
  Volume_Name := Name;
  Volume_CreatedAt := 0%Z;
  Volume_PoolID := PoolID;
  Volume_PoolName := PoolName;
  Volume_CompressionEnabled := false;
  Volume_FamilyID := 0%Z;
  Volume_Depth := 0%Z;
  Volume_WriteProtected := WriteProtected;
  Volume_Mapped := false;
  Volume_LockExpiresAt := 0%Z;
  Volume_LockState := LockState
|}.

Definition PoolResult_of (ID : Z) (Name : string) (SsdEnabled : bool) : PoolResult := {|
  PoolResult_VolumesCount := 0%Z;
  PoolResult_StandardEntitiesCount := 0%Z;
  PoolResult_UpdatedAt := 0%Z;
  PoolResult_StandardFilesystemSnapshotsCount := 0%Z;
  PoolResult_StandardSnapshotsCount := 0%Z;
  PoolResult_MaxExtend := 0%Z;
  PoolResult_AllocatedPhysicalSpace := 0%Z;
  PoolResult_FreeVirtualSpace := 0%Z;
  PoolResult_StandardFilesystemsCount := 0%Z;
  PoolResult_ID := ID;
  PoolResult_ReservedCapacity := 0%Z;
  PoolResult_FilesystemsCount := 0%Z;
  PoolResult_SsdEnabled := SsdEnabled;
  PoolResult_VvolEntitiesCount := 0%Z;
  PoolResult_SnapshotsCount := 0%Z;
  PoolResult_State := "";
  PoolResult_VvolVolumesCount := 0%Z;
  PoolResult_Type := "";
  PoolResult_FreePhysicalSpace := 0%Z;
  PoolResult_DataReductionRatio := JNull;
  PoolResult_TotalDiskUsage := 0%Z;
  PoolResult_VvolSnapshotsCount := 0%Z;
  PoolResult_ThinCapacitySavings := JNull;
  PoolResult_EntitiesCount := 0%Z;
  PoolResult_PhysicalCapacityCritical := 0%Z;
  PoolResult_StandardVolumesCount := 0%Z;
  PoolResult_Owners := [];
  PoolResult_CapacitySavings := JNull;
  PoolResult_Name := Name;
  PoolResult_VirtualCapacity := 0%Z;
  PoolResult_TenantID := 0%Z;
  PoolResult_CreatedAt := 0%Z;
  PoolResult_FilesystemSnapshotsCount := 0%Z;
  PoolResult_CompressionEnabled := false;
  PoolResult_QosPolicies := [];
  PoolResult_PhysicalCapacityWarning := 0%Z;
  PoolResult_PhysicalCapacity := 0%Z;
  PoolResult_ThickCapacitySavings := JNull
|}.

Definition Host_of (ID : Z) (Name : string) (Luns : list LunInfo) : Host := {|
  Host_ID := ID;
  Host_Name := Name;
  Host_Ports := [];
  Host_Luns := Luns;
  Host_CreatedAt := 0%Z;
  Host_UpdatedAt := 0%Z;
  Host_HostType := "";
  Host_SecurityMethod := "";
  Host_SecurityChapInboundUsername := JNull;
  Host_SecurityChapOutboundUsername := JNull;
  Host_Optimized := false;
  Host_SanClientType := "";
  Host_HostClusterID := 0%Z;
  Host_SubsystemNqn := JNull;
  Host_SecurityChapHasInboundSecret := false;
  Host_SecurityChapHasOutboundSecret := false;
  Host_TenantID := 0%Z
|}.

Definition Export_of (ID : Z) (ExportPath : string) (Permissions : list Permissions) : Export := {|
  Export_InnerPath := "";
  Export_PrefWrite := 0%Z;
  Export_BitFileID := false;
  Export_PrefRead := 0%Z;
  Export_MaxRead := 0%Z;
  Export_Permissions := Permissions;
  Export_TenantID := 0%Z;
  Export_CreatedAt := 0%Z;
  Export_PrefReaddir := 0%Z;
  Export_Enabled := false;
  Export_UpdatedAt := 0%Z;
  Export_MakeAllUsersAnonymous := false;
  Export_SnapdirVisible := false;
  Export_TransportProtocols := "";
  Export_AnonymousGID := 0%Z;
  Export_AnonymousUID := 0%Z;
  Export_FilesystemID := 0%Z;
  Export_MaxWrite := 0%Z;
  Export_PrivilegedPort := false;
  Export_ID := ID;
  Export_ExportPath := ExportPath
|}.

Definition ExportPathRef_of (Permissions : list Permissions) : ExportPathRef := {|
  ExportPathRef_InnerPath := "";
  ExportPathRef_PrefWrite := 0%Z;
  ExportPathRef_PrefRead := 0%Z;
  ExportPathRef_MaxRead := 0%Z;
  ExportPathRef_PrefReaddir := 0%Z;
  ExportPathRef_TransportProtocols := "";
  ExportPathRef_FilesystemID := 0%Z;
  ExportPathRef_MaxWrite := 0%Z;
  ExportPathRef_PrivilegedPort := false;
  ExportPathRef_ExportPath := "";
  ExportPathRef_Permissions := Permissions;
  ExportPathRef_SnapdirVisible := false
|}.

Definition NetworkSpace_of (Name : string) (Service : string) (Portals : list Portal) : NetworkSpace := {|
  NetworkSpace_Properties := NetworkSpaceProperty_zero;
  NetworkSpace_Service := Service;
  NetworkSpace_TenantID := 0%Z;
  NetworkSpace_AutomaticIPFailback := false;
  NetworkSpace_Interfaces := JNull;
  NetworkSpace_RateLimit := JNull;
  NetworkSpace_ID := 0%Z;
  NetworkSpace_Portals := Portals;
  NetworkSpace_Mtu := 0%Z;
  NetworkSpace_NetworkConfig := NetworkConfigDetails_zero;
  NetworkSpace_Name := Name;
  NetworkSpace_VmacAddresses := [];
  NetworkSpace_Routes := []
|}.

Definition Portal_of (IPAddress : string) : Portal := {|
  Portal_Type := "";
  Portal_Tpgt := 0%Z;
  Portal_IPAddress := IPAddress;
  Portal_VlanID := 0%Z;
  Portal_Enabled := false;
  Portal_Reserved := false;
  Portal_InterfaceID := 0%Z
|}.

Definition GetMetadataResult_of (Key : string) (Value : string) : GetMetadataResult := {|
  GetMetadataResult_Key := Key;
  GetMetadataResult_Value := Value;
  GetMetadataResult_ObjectType := "";
  GetMetadataResult_ID := 0%Z;
  GetMetadataResult_ObjectID := 0%Z
|}.

Definition APIError_of (Code : string) (Message : string) : APIError := {|
  APIError_Code := Code;
  APIError_Message := Message;
  APIError_Reasons := [];
  APIError_Severity := "";
  APIError_IsRemote := false;
  APIError_Data := JNull
|}.

Definition Metadata_of (PagesTotal : Z) : Metadata := {|
  Metadata_Ready := false;
  Metadata_NumberOfObjects := 0%Z;
  Metadata_PageSize := 0%Z;
  Metadata_PagesTotal := PagesTotal;
  Metadata_Page := 0%Z
|}.

Definition Link_of (ID : Z) (Name : string) (RemoteSystemName : string) (RemoteLinkID : Z) (LinkState : string) : Link := {|
  Link_ID := ID;
  Link_Version := 0%Z;
  Link_RemoteVersion := "";
  Link_Name := Name;
  Link_RemoteHost := "";
  Link_RemoteManagementIP := "";
  Link_RemoteLinkID := RemoteLinkID;
  Link_RemoteReplicationNetworkSpaceID := 0%Z;
  Link_RemoteSystemSerialNumber := 0%Z;
  Link_RemoteSystemName := RemoteSystemName;
  Link_ConnectTimeout := 0%Z;
  Link_KeepAliveTime := 0%Z;
  Link_RetryCount := 0%Z;
  Link_RetryWait := 0%Z;
  Link_RemoteReplicationIPAddresses := [];
  Link_LinkState := LinkState;
  Link_StateDescription := JNull;
  Link_LastConnectionTimestamp := 0%Z;
  Link_LocalHost := JNull;
  Link_WitnessAddress := JNull;
  Link_LinkConfigurationGUID := "";
  Link_LinkMode := "";
  Link_ResiliencyMode := "";
  Link_LocalWitnessState := "";
  Link_LocalWitnessStateDescription := "";
  Link_RemoteWitnessState := "";
  Link_LocalReplicationNetworkSpaceID := 0%Z;
  Link_AsyncOnly := false;
  Link_IsLocalLinkReadyForSync := false;
  Link_LocalLinkReplicationType := [];
  Link_LinkReplicationType := []
|}.

Definition ConsistencyGroupInfo_of (ID : Z) (Name : string) : ConsistencyGroupInfo := {|
  ConsistencyGroupInfo_CreatedBySnapshotPolicyID := 0%Z;
  ConsistencyGroupInfo_UpdateAt := 0%Z;
  ConsistencyGroupInfo_SnapshotRetention := 0%Z;
  ConsistencyGroupInfo_CreatedBySnapshotPolicyName := "";
  ConsistencyGroupInfo_MembersCount := 0%Z;
  ConsistencyGroupInfo_SnapshotPolicyName := "";
  ConsistencyGroupInfo_ID := ID;
  ConsistencyGroupInfo_ParentID := 0%Z;
  ConsistencyGroupInfo_LockState := "";
  ConsistencyGroupInfo_CreatedByScheduleID := 0%Z;
  ConsistencyGroupInfo_CGType := "";
  ConsistencyGroupInfo_PoolName := "";
  ConsistencyGroupInfo_ReplicationTypes := [];
  ConsistencyGroupInfo_HasChildren := false;
  ConsistencyGroupInfo_LockExpiresAt := 0%Z;
  ConsistencyGroupInfo_CreatedByScheduleName := "";
  ConsistencyGroupInfo_RmrSnapshotGUID := "";
  ConsistencyGroupInfo_Name := Name;
  ConsistencyGroupInfo_TenantID := 0%Z;
  ConsistencyGroupInfo_CreatedAt := 0%Z;
  ConsistencyGroupInfo_SnapshotExpiresAt := 0%Z;
  ConsistencyGroupInfo_PoolID := 0%Z;
  ConsistencyGroupInfo_SnapshotPolicyID := 0%Z;
  ConsistencyGroupInfo_IsReplicated := false
|}.

Definition MemberInfo_of (ID : Z) (FamilyID : Z) (Name : string) (Size : Z) : MemberInfo := {|
  MemberInfo_MemberType := "";
  MemberInfo_Depth := 0%Z;
  MemberInfo_ID := ID;
  MemberInfo_Name := Name;
  MemberInfo_CreatedAt := 0%Z;
  MemberInfo_UpdateAt := 0%Z;
  MemberInfo_Mapped := false;
  MemberInfo_WriteProtected := false;
  MemberInfo_Size := Size;
  MemberInfo_ProvType := "";
  MemberInfo_SSDEnabled := false;
  MemberInfo_SSAExpressEnabled := false;
  MemberInfo_SSAExpressStatus := "";
  MemberInfo_CompressionEnabled := false;
  MemberInfo_Serial := "";
  MemberInfo_RmrTarget := false;
  MemberInfo_RMRSource := false;
  MemberInfo_RMRActiveActivePeer := false;
  MemberInfo_MobilitySource := "";
  MemberInfo_RMRSnapshotGUID := "";
  MemberInfo_DataSnapshotGUID := "";
  MemberInfo_MgmtSnapshotGUID := "";
  MemberInfo_CGSnapshotGUID := "";
  MemberInfo_CGGUID := "";
  MemberInfo_FamilyID := FamilyID;
  MemberInfo_LockExpiresAt := 0%Z;
  MemberInfo_ReclaimedSnapshotRemoteSystemSerial := "";
  MemberInfo_SnapshotRetention := "";
  MemberInfo_DatasetType := "";
  MemberInfo_Used := 0%Z;
  MemberInfo_TreeAllocated := 0%Z;
  MemberInfo_Allocated := 0%Z;
  MemberInfo_CompressionSuppressed := false;
  MemberInfo_CapacitySaving := 0%Z;
  MemberInfo_UDID := 0%Z;
  MemberInfo_PathsAvailable := false;
  MemberInfo_SourceReplicatedSGID := 0%Z;
  MemberInfo_PoolID := 0%Z;
  MemberInfo_ParentID := 0%Z;
  MemberInfo_CGName := "";
  MemberInfo_CGID := 0%Z;
  MemberInfo_SnapshotPolicyID := 0%Z;
  MemberInfo_HasChildren := false;
  MemberInfo_SnapshotExpiresAt := 0%Z;
  MemberInfo_CreatedBySnapshotPolicyID := 0%Z;
  MemberInfo_CreatedByScheduleID := 0%Z;
  MemberInfo_TenantID := 0%Z;
  MemberInfo_QOSPolicyName := "";
  MemberInfo_PoolName := "";
  MemberInfo_NGUID := "";
  MemberInfo_ReplicaIDs := [];
  MemberInfo_ReplicationTypes := [];
  MemberInfo_NumBlocks := 0%Z;
  MemberInfo_QOSPolicyID := 0%Z;
  MemberInfo_QOSSharedPolicyID := 0%Z;
  MemberInfo_QOSSharedPolicyName := "";
  MemberInfo_LockState := "";
  MemberInfo_SnapshotPolicyName := "";
  MemberInfo_CreatedBySnapshotPolicyName := "";
  MemberInfo_CreatedByScheduleName := ""
|}.

Definition Replica_of (ID : Z) (LinkID : Z) (Role : string) (State : string) (RemoteEntityID : Z) (RemotePoolID : Z) (LocalPoolID : Z) : Replica := {|
  Replica_ID := ID;
  Replica_Version := 0%Z;
  Replica_Description := "";
  Replica_ReplicaConfigurationVersion := "";
  Replica_ManagementConfigurationVersion := "";
  Replica_LocalLinkGUID := "";
  Replica_RemoteReplicaID := 0%Z;
  Replica_Role := Role;
  Replica_IsInternalSource := JNull;
  Replica_ConcurrentReplica := false;
  Replica_IncludingSnapshots := false;
  Replica_SnapshotsRetention := JNull;
  Replica_RemoteSnapshotSuffix := "";
  Replica_LockRemoteSnapshotRetention := JNull;
  Replica_EntityType := "";
  Replica_State := State;
  Replica_StateDescription := JNull;
  Replica_StateReason := JNull;
  Replica_JobState := "";
  Replica_Jobs := [];
  Replica_IsInitial := false;
  Replica_PendingJobCount := 0%Z;
  Replica_NextJobStartTime := JNull;
  Replica_Enabled := false;
  Replica_ReservedForInfinisafe := false;
  Replica_SyncInterval := 0%Z;
  Replica_RpoType := "";
  Replica_RpoValue := 0%Z;
  Replica_RpoState := "";
  Replica_Throughput := 0%Z;
  Replica_TemporaryFailureRetryInterval := 0%Z;
  Replica_TemporaryFailureRetryCount := 0%Z;
  Replica_PermanentFailureWaitInterval := 0%Z;
  Replica_BaseAction := "";
  Replica_LocalEntityID := 0%Z;
  Replica_RemoteEntityID := RemoteEntityID;
  Replica_LocalEntityName := "";
  Replica_RemoteEntityName := "";
  Replica_LocalCgName := "";
  Replica_RemoteCgID := 0%Z;
  Replica_RemoteCgName := "";
  Replica_RemotePoolID := RemotePoolID;
  Replica_LocalPoolID := LocalPoolID;
  Replica_LocalPoolName := "";
  Replica_RemotePoolName := "";
  Replica_CreatedAt := 0%Z;
  Replica_UpdatedAt := 0%Z;
  Replica_EntityPairs := [];
  Replica_RemoteIPAddresses := JNull;
  Replica_StartedAt := 0%Z;
  Replica_SyncDuration := 0%Z;
  Replica_LastSynchronized := 0%Z;
  Replica_Progress := 0%Z;
  Replica_RestorePoint := JNull;
  Replica_ConsistentGUID := JNull;
  Replica_NextRestorePoint := JNull;
  Replica_NextConsistentGUID := "";
  Replica_SnapshotGUID := JNull;
  Replica_SnapshotTime := JNull;
  Replica_LocalReclaimedSgID := JNull;
  Replica_RemoteReclaimedSgID := JNull;
  Replica_StagingAreaAllocatedSize := JNull;
  Replica_AssignedLocalIPIndex := 0%Z;
  Replica_ReplicationType := "";
  Replica_Domino := JNull;
  Replica_SyncState := JNull;
  Replica_AsyncMode := JNull;
  Replica_Latency := JNull;
  Replica_MobilitySource := JNull;
  Replica_IsPreferred := JNull;
  Replica_SuspendedFromLocal := JNull;
  Replica_LinkID := LinkID;
  Replica_AssignedRemoteIP := "";
  Replica_AssignedSyncRemoteIps := JNull;
  Replica_LocalCgID := 0%Z
|}.

Definition Replica_for (ID : Z) (State : string) (LocalEntityID : Z) : Replica := {|
  Replica_ID := ID;
  Replica_Version := 0%Z;
  Replica_Description := "";
  Replica_ReplicaConfigurationVersion := "";
  Replica_ManagementConfigurationVersion := "";
  Replica_LocalLinkGUID := "";
  Replica_RemoteReplicaID := 0%Z;
  Replica_Role := "";
  Replica_IsInternalSource := JNull;
  Replica_ConcurrentReplica := false;
  Replica_IncludingSnapshots := false;
  Replica_SnapshotsRetention := JNull;
  Replica_RemoteSnapshotSuffix := "";
  Replica_LockRemoteSnapshotRetention := JNull;
  Replica_EntityType := "";
  Replica_State := State;
  Replica_StateDescription := JNull;
  Replica_StateReason := JNull;
  Replica_JobState := "";
  Replica_Jobs := [];
  Replica_IsInitial := false;
  Replica_PendingJobCount := 0%Z;
  Replica_NextJobStartTime := JNull;
  Replica_Enabled := false;
  Replica_ReservedForInfinisafe := false;
  Replica_SyncInterval := 0%Z;
  Replica_RpoType := "";
  Replica_RpoValue := 0%Z;
  Replica_RpoState := "";
  Replica_Throughput := 0%Z;
  Replica_TemporaryFailureRetryInterval := 0%Z;
  Replica_TemporaryFailureRetryCount := 0%Z;
  Replica_PermanentFailureWaitInterval := 0%Z;
  Replica_BaseAction := "";
  Replica_LocalEntityID := LocalEntityID;
  Replica_RemoteEntityID := 0%Z;
  Replica_LocalEntityName := "";
  Replica_RemoteEntityName := "";
  Replica_LocalCgName := "";
  Replica_RemoteCgID := 0%Z;
  Replica_RemoteCgName := "";
  Replica_RemotePoolID := 0%Z;
  Replica_LocalPoolID := 0%Z;
  Replica_LocalPoolName := "";
  Replica_RemotePoolName := "";
  Replica_CreatedAt := 0%Z;
  Replica_UpdatedAt := 0%Z;
  Replica_EntityPairs := [];
  Replica_RemoteIPAddresses := JNull;
  Replica_StartedAt := 0%Z;
  Replica_SyncDuration := 0%Z;
  Replica_LastSynchronized := 0%Z;
  Replica_Progress := 0%Z;
  Replica_RestorePoint := JNull;
  Replica_ConsistentGUID := JNull;
  Replica_NextRestorePoint := JNull;
  Replica_NextConsistentGUID := "";
  Replica_SnapshotGUID := JNull;
  Replica_SnapshotTime := JNull;
  Replica_LocalReclaimedSgID := JNull;
  Replica_RemoteReclaimedSgID := JNull;
  Replica_StagingAreaAllocatedSize := JNull;
  Replica_AssignedLocalIPIndex := 0%Z;
  Replica_ReplicationType := "";
  Replica_Domino := JNull;
  Replica_SyncState := JNull;
  Replica_AsyncMode := JNull;
  Replica_Latency := JNull;
  Replica_MobilitySource := JNull;
  Replica_IsPreferred := JNull;
  Replica_SuspendedFromLocal := JNull;
  Replica_LinkID := 0%Z;
  Replica_AssignedRemoteIP := "";
  Replica_AssignedSyncRemoteIps := JNull;
  Replica_LocalCgID := 0%Z
|}.

Definition Link_set_ResiliencyMode (v : string) (r : Link) : Link := {|
  Link_ID := Link_ID r;
  Link_Version := Link_Version r;
  Link_RemoteVersion := Link_RemoteVersion r;
  Link_Name := Link_Name r;
  Link_RemoteHost := Link_RemoteHost r;
  Link_RemoteManagementIP := Link_RemoteManagementIP r;
  Link_RemoteLinkID := Link_RemoteLinkID r;
  Link_RemoteReplicationNetworkSpaceID := Link_RemoteReplicationNetworkSpaceID r;
  Link_RemoteSystemSerialNumber := Link_RemoteSystemSerialNumber r;
  Link_RemoteSystemName := Link_RemoteSystemName r;
  Link_ConnectTimeout := Link_ConnectTimeout r;
  Link_KeepAliveTime := Link_KeepAliveTime r;
  Link_RetryCount := Link_RetryCount r;
  Link_RetryWait := Link_RetryWait r;
  Link_RemoteReplicationIPAddresses := Link_RemoteReplicationIPAddresses r;
  Link_LinkState := Link_LinkState r;
  Link_StateDescription := Link_StateDescription r;
  Link_LastConnectionTimestamp := Link_LastConnectionTimestamp r;
  Link_LocalHost := Link_LocalHost r;
  Link_WitnessAddress := Link_WitnessAddress r;
  Link_LinkConfigurationGUID := Link_LinkConfigurationGUID r;
  Link_LinkMode := Link_LinkMode r;
  Link_ResiliencyMode := v;
  Link_LocalWitnessState := Link_LocalWitnessState r;
  Link_LocalWitnessStateDescription := Link_LocalWitnessStateDescription r;
  Link_RemoteWitnessState := Link_RemoteWitnessState r;
  Link_LocalReplicationNetworkSpaceID := Link_LocalReplicationNetworkSpaceID r;
  Link_AsyncOnly := Link_AsyncOnly r;
  Link_IsLocalLinkReadyForSync := Link_IsLocalLinkReadyForSync r;
  Link_LocalLinkReplicationType := Link_LocalLinkReplicationType r;
  Link_LinkReplicationType := Link_LinkReplicationType r
|}.

Definition Export_set_Permissions (v : list Permissions) (r : Export) : Export := {|
  Export_InnerPath := Export_InnerPath r;
  Export_PrefWrite := Export_PrefWrite r;
  Export_BitFileID := Export_BitFileID r;
  Export_PrefRead := Export_PrefRead r;
  Export_MaxRead := Export_MaxRead r;
  Export_Permissions := v;
  Export_TenantID := Export_TenantID r;
  Export_CreatedAt := Export_CreatedAt r;
  Export_PrefReaddir := Export_PrefReaddir r;
  Export_Enabled := Export_Enabled r;
  Export_UpdatedAt := Export_UpdatedAt r;
  Export_MakeAllUsersAnonymous := Export_MakeAllUsersAnonymous r;
  Export_SnapdirVisible := Export_SnapdirVisible r;
  Export_TransportProtocols := Export_TransportProtocols r;
  Export_AnonymousGID := Export_AnonymousGID r;
  Export_AnonymousUID := Export_AnonymousUID r;
  Export_FilesystemID := Export_FilesystemID r;
  Export_MaxWrite := Export_MaxWrite r;
  Export_PrivilegedPort := Export_PrivilegedPort r;
  Export_ID := Export_ID r;
  Export_ExportPath := Export_ExportPath r
|}.

Definition VolumeProtocolConfig_set_Host (v : option Host) (r : VolumeProtocolConfig) : VolumeProtocolConfig := {|
  VolumeProtocolConfig_VolumeID := VolumeProtocolConfig_VolumeID r;
  VolumeProtocolConfig_StorageType := VolumeProtocolConfig_StorageType r;
  VolumeProtocolConfig_ChildVolumeID := VolumeProtocolConfig_ChildVolumeID r;
  VolumeProtocolConfig_Host := v;
  VolumeProtocolConfig_NodeID := VolumeProtocolConfig_NodeID r;
  VolumeProtocolConfig_TreeqID := VolumeProtocolConfig_TreeqID r
|}.

Definition VolumeProtocolConfig_set_StorageType (v : string) (r : VolumeProtocolConfig) : VolumeProtocolConfig := {|
  VolumeProtocolConfig_VolumeID := VolumeProtocolConfig_VolumeID r;
  VolumeProtocolConfig_StorageType := v;
  VolumeProtocolConfig_ChildVolumeID := VolumeProtocolConfig_ChildVolumeID r;
  VolumeProtocolConfig_Host := VolumeProtocolConfig_Host r;
  VolumeProtocolConfig_NodeID := VolumeProtocolConfig_NodeID r;
  VolumeProtocolConfig_TreeqID := VolumeProtocolConfig_TreeqID r
|}.

Definition VolumeProtocolConfig_set_NodeID (v : string) (r : VolumeProtocolConfig) : VolumeProtocolConfig := {|
  VolumeProtocolConfig_VolumeID := VolumeProtocolConfig_VolumeID r;
  VolumeProtocolConfig_StorageType := VolumeProtocolConfig_StorageType r;
  VolumeProtocolConfig_ChildVolumeID := VolumeProtocolConfig_ChildVolumeID r;
  VolumeProtocolConfig_Host := VolumeProtocolConfig_Host r;
  VolumeProtocolConfig_NodeID := v;
  VolumeProtocolConfig_TreeqID := VolumeProtocolConfig_TreeqID r
|}.

(** The REST envelope: every [*Response] struct of [iboxapi] is
    [{metadata; result; error}]. *)
Record Response (A : Type) := MkResponse {
  Response_Metadata : Metadata;
  Response_Result : A;
  Response_Error : APIError
}.
Arguments MkResponse {A}.
Arguments Response_Metadata {A}.
Arguments Response_Result {A}.
Arguments Response_Error {A}.

Record NtpStatus := MkNtpStatus {
  NtpStatus_NodeID : Z;
  NtpStatus_LastProbeTimestamp : Z;
  NtpStatus_NtpPeers : list json
}.

(** A slice-returning method gives a slice and an error, independently: the
    slice read so far comes back with the error. *)
Definition slice (A : Type) : Type := list A * option error.

(** [iboxapi.Client], every method. [GetSystem] answers the serial number, the only field read
    of it. A method returning a pointer answers [res]: the
    implementation's pointer is nil exactly when its error is not. *)
Inductive ibox : Type -> Type :=
| GetFeatures : ibox (slice FeatureResult)
| GetPoolByName (name : string) : ibox (res PoolResult)
| GetPoolByID (id : Z) : ibox (res PoolResult)
| DeleteVolume (volumeID : Z) : ibox (res (Response Volume))
| GetVolumeByName (volumeName : string) : ibox (res Volume)
| GetVolume (volumeID : Z) : ibox (res Volume)
| UpdateVolume (volumeID : Z) (volume : Volume) : ibox (res Volume)
| CreateSnapshotVolume (snapshotParam : CreateSnapshotVolumeRequest) : ibox (res Snapshot)
| PromoteSnapshot (snapshotID : Z) : ibox (res Volume)
| GetVolumesByParentID (parentID : Z) : ibox (slice Volume)
| GetNetworkSpaceByName (networkSpaceName : string) : ibox (res NetworkSpace)
| GetHostByName (hostName : string) : ibox (res Host)
| CreateHost (hostName : string) : ibox (res Host)
| DeleteHost (hostID : Z) : ibox (res Host)
| MapVolumeToHost (hostID volumeID lun : Z) : ibox (res LunInfo)
| GetAllLunByHost (hostID : Z) : ibox (slice LunInfo)
| GetLunByHostVolume (hostID volumeID : Z) : ibox (res LunInfo)
| UnMapVolumeFromHost (hostID volumeID : Z) : ibox (res (Response LunInfo))
| CreateVolume (request : CreateVolumeRequest) : ibox (res Volume)
| GetMaxTreeqPerFs : ibox (res Z)
| GetFileSystemByName (name : string) : ibox (res FileSystem)
| GetFileSystemsByPool (poolID : Z) (fsPrefix : string) : ibox (slice FileSystem)
| GetFileSystemsByParentID (parentID : Z) : ibox (slice FileSystem)
| GetFileSystemByID (fileSystemID : Z) : ibox (res FileSystem)
| CreateFileSystem (request : CreateFileSystemRequest) : ibox (res FileSystem)
| DeleteFileSystem (fileSystemID : Z) : ibox (option error)
| UpdateFileSystem (fileSystemID : Z) (fileSystem : FileSystem) : ibox (res FileSystem)
| CreateFileSystemSnapshot (snapshotParam : FileSystemSnapshot) : ibox (res FileSystemSnapshotResponse)
| GetTreeqsByFileSystem (filesystemID : Z) : ibox (slice Treeq)
| UpdateTreeq (fileSystemID treeqID : Z) (body : UpdateTreeqRequest) : ibox (res Treeq)
| CreateTreeq (filesystemID : Z) (treeqParameter : CreateTreeqRequest) : ibox (res Treeq)
| DeleteTreeq (fileSystemID treeqID : Z) : ibox (res Treeq)
| GetTreeq (fileSystemID treeqID : Z) : ibox (res Treeq)
| GetTreeqByName (fileSystemID : Z) (treeqName : string) : ibox (res Treeq)
| GetExportsByFileSystemID (filesystemID : Z) : ibox (slice Export)
| GetExportByID (exportID : Z) : ibox (res Export)
| DeleteExport (exportID : Z) : ibox (res Export)
| CreateExport (request : CreateExportRequest) : ibox (res Export)
| UpdateExportPermissions (export : Export) (exportPathRef : ExportPathRef) : ibox (res Export)
| PutMetadata (objectID : Z) (metadata : gmap string json) : ibox (res (Response (list MetadataResult)))
| GetMetadata (objectID : Z) : ibox (slice GetMetadataResult)
| DeleteMetadata (objectID : Z) : ibox (res (Response (list MetadataResult)))
| GetNtpStatus : ibox (slice NtpStatus)
| GetLinks : ibox (slice Link)
| GetConsistencyGroupByName (name : string) : ibox (res ConsistencyGroupInfo)
| GetSystem : ibox (res Z)
| GetAllSnapshots : ibox (slice Volume)
| GetAllHosts : ibox (slice Host)
| AddHostSecurity (chapCreds : gmap string string) (hostID : Z) : ibox (res (Response Host))
| AddHostPort (portType portAddress : string) (hostID : Z) : ibox (res (Response AddPortResult))
| GetHostPort (hostID : Z) (portAddress : string) : ibox (res HostPort)
| GetLunsByVolume (volumeID : Z) : ibox (slice LunInfo)
| GetMaxFileSystems : ibox (res Z)
| GetFCPorts : ibox (slice FCNode)
| GetConsistencyGroup (cgID : Z) : ibox (res ConsistencyGroupInfo)
| DeleteConsistencyGroup (cgID : Z) : ibox (option error)
| CreateSnapshotGroup (req : CreateSnapshotGroupRequest) : ibox (res ConsistencyGroupInfo)
| GetMembersByCGID (cgID : Z) : ibox (slice MemberInfo)
| AddMemberToCG (volumeID cgID : Z) (volumeName : string) : ibox (option error)
| RemoveMemberFromCG (cgID memberID : Z) : ibox (option error)
| AddMemberToSnapshotGroup (volumeID cgID : Z) : ibox (option error)
| CreateConsistencyGroup (req : CreateConsistencyGroupRequest) : ibox (res ConsistencyGroupInfo)
| GetLink (linkID : Z) : ibox (res Link)
| CreateReplica (request : CreateReplicaRequest) : ibox (res Replica)
| GetReplicas : ibox (slice Replica)
| DeleteReplica (id : Z) : ibox (option error)
| GetReplica (id : Z) : ibox (res Replica)
| GetReplicaForCG (cg : string) : ibox (res Replica)
| GetReplicaForLocalEntityName (localEntityName : string) : ibox (res Replica)
| SuspendReplica (replicaID : Z) : ibox (option error)
| ResumeReplica (replicaID : Z) : ibox (option error)
| CreateEvent (request : EventRequest) : ibox (option error).

(** Kubernetes objects, as far as the driver looks at them. *)
Record Secret := MkSecret {
  Secret_Name : string;
  Secret_Namespace : string;
  Secret_ResourceVersion : string;
  Secret_Data : gmap string string;
  Secret_StringData : gmap string string
}.
(** A [SecretReference]: the name and the namespace. *)
Definition secret_ref : Type := string * string.
(** [Spec.CSI]. *)
Record CSIPersistentVolumeSource := MkCSIPersistentVolumeSource {
  PV_Driver : string;
  PV_VolumeHandle : string;
  PV_VolumeAttributes : gmap string string;
  PV_ControllerPublishSecretRef : option secret_ref;
  PV_ControllerExpandSecretRef : option secret_ref;
  PV_NodeStageSecretRef : option secret_ref;
  PV_NodePublishSecretRef : option secret_ref;
  PV_NodeExpandSecretRef : option secret_ref
}.
(** A volume of another kind has no [Spec.CSI]. The quantities of the capacity
    are kept as text; [PV_UnscaledCapacity] is the number before the unit of
    [Spec.Capacity.Storage()] ([AsDec().UnscaledBig()]). *)
Record PersistentVolume := MkPersistentVolume {
  PV_Name : string;
  PV_Annotations : gmap string string;
  PV_AccessModes : list string;
  PV_Capacity : gmap string string;
  PV_UnscaledCapacity : Z;
  PV_MountOptions : list string;
  PV_ReclaimPolicy : string;
  PV_StorageClassName : string;
  PV_VolumeMode : option string;
  PV_CSI : option CSIPersistentVolumeSource
}.
Record PersistentVolumeClaim := MkPersistentVolumeClaim {
  PVC_Name : string;
  PVC_Namespace : string;
  PVC_AccessModes : list string;
  PVC_Storage : string;
  PVC_StorageClassName : option string;
  PVC_VolumeMode : option string;
  PVC_VolumeName : string
}.
Record Pod := MkPod {
  Pod_Name : string;
  Pod_Phase : string
}.
Record Node := MkNode {
  Node_Name : string;
  Node_Labels : gmap string string
}.

(** The cluster: the requests made of client-go. A listing has a label selector;
    of a volume snapshot the status is looked at, if set, and in it the name of
    the bound content, if set; of a content the status and in it the handle. *)
Inductive kube : Type -> Type :=
| BuildClient : kube (option error)
| SecretsGet (namespace secretName : string) : kube (res Secret)
| SecretsList (namespace labelSelector : string) : kube (res (list Secret))
| PersistentVolumesList : kube (res (list PersistentVolume))
| GetPVCStorageClassName (namespace name : string) : kube (res (option string))
| GetStorageClassParameters (scName : string) : kube (res (gmap string string))
| GetNodes : kube (res (list Node))
| GetPVCAnnotations (pvcName pvcNamespace : string) : kube (res (gmap string string))
| PodsList (namespace labelSelector : string) : kube (res (list Pod))
| ExecCmdInPod (podName namespace command containerName : string) : kube (string * string * option error)
| CreateIboxreplica (name : string) (annotations : gmap string string) (spec : IboxreplicaSpec) : kube (option error)
| CreateIboxcg (name : string) (annotations : gmap string string) (spec : IboxcgSpec) : kube (option error)
| GetClusterVersion : kube (string * option error)
| PersistentVolumesGet (name : string) : kube (res PersistentVolume)
| PersistentVolumesCreate (pv : PersistentVolume) : kube (res PersistentVolume)
| PersistentVolumeClaimsCreate (pvc : PersistentVolumeClaim) : kube (res PersistentVolumeClaim)
| SecretsCreate (secret : Secret) : kube (res Secret)
| ClientFromKubeconfig (config : string) : kube (option error)
| InClusterConfig : kube (option error)
| SnapshotClient : kube (option error)
| VolumeSnapshotsGet (namespace name : string) : kube (res (option (option string)))
| VolumeSnapshotContentsGet (name : string) : kube (res (option (option string))).

(** The process: environment variables, clock, random numbers, sleeping, running
    a command (its output, trimmed), the
    event counters, the
    process-wide mutexes, and what the runtime is free to choose: the order in
    which a map is ranged over, and which of [n] unsynchronised appends is found
    first in the slice afterwards. *)
Inductive mutex := VolumeMutex | DeleteMutex | NodeVolumeMutex.
#[export] Instance mutex_eq_dec : EqDecision mutex.
Proof. solve_decision. Defined.

Inductive os : Type -> Type :=
| Getenv (key : string) : os string
| Now : os Z
| LocalTimeString (unixSeconds : Z) : os string
| LocalTimeStringMilli (unixMillis : Z) : os string
| RandIntn (n : Z) : os Z
| Sleep (seconds : Z) : os unit
| Command (cmd : string) : os (string * option error)
| Increment (counter : string) : os unit
| MapOrder (keys : list string) : os (list string)
| RaceWinner (n : nat) : os nat
| Lock (m : mutex) : os unit
| Unlock (m : mutex) : os unit.

(** Where a request goes: the array and cluster at hand, or those of the other
    side. *)
Inductive site := Local | Remote.
#[export] Instance site_eq_dec : EqDecision site.
Proof. solve_decision. Defined.

Inductive call : Type -> Type :=
| Ibox {X} (c : ibox X) : call X
| Kube {X} (c : kube X) : call X
| Os {X} (c : os X) : call X.

Definition iboxAPI {X} (c : ibox X) : prog call X := trigger (Ibox c).
Definition kubeAPI {X} (c : kube X) : prog call X := trigger (Kube c).
Definition osAPI {X} (c : os X) : prog call X := trigger (Os c).

Ltac wp_reduce ::= cbn [wp bind defer trigger fst snd iboxAPI kubeAPI osAPI].

(** ** Observations of a trace *)

Notation trace := (list (evt call)).

(** The calls of [t] selected by [f], in order. *)
Definition observe {B} (f : forall X, call X -> X -> option B) (t : trace) : list B :=
  omap (fun e => match e with Evt c x => f _ c x end) t.

Lemma observe_app {B} (f : forall X, call X -> X -> option B) t t' :
  observe f (t ++ t') = observe f t ++ observe f t'.
Proof. apply omap_app. Qed.
