(* ===== verification/Traces.v ===== *)
(** Kinds of calls: which change the array, which take or release a process-wide
    mutex; and what follows from a trace that changes nothing. *)
From stdpp Require Import base list.
From S2P Require Import Prelude IboxTypes.
From Stdlib Require Import ZArith Lia.

Local Open Scope list_scope.

(** A call of the array's interface that changes objects of the array. *)
Definition changes {X} (i : ibox X) : bool :=
  match i with
  | IboxTypes.DeleteVolume _ | UpdateVolume _ _ | CreateSnapshotVolume _ | PromoteSnapshot _ | CreateHost _
  | DeleteHost _ | MapVolumeToHost _ _ _ | UnMapVolumeFromHost _ _ | CreateVolume _ | CreateFileSystem _
  | DeleteFileSystem _ | UpdateFileSystem _ _ | CreateFileSystemSnapshot _ | UpdateTreeq _ _ _ | CreateTreeq _ _
  | DeleteTreeq _ _ | DeleteExport _ | CreateExport _ | UpdateExportPermissions _ _ | PutMetadata _ _
  | DeleteMetadata _ | AddHostSecurity _ _ | AddHostPort _ _ _ | DeleteConsistencyGroup _
  | CreateSnapshotGroup _ | AddMemberToCG _ _ _ | RemoveMemberFromCG _ _ | AddMemberToSnapshotGroup _ _
  | CreateConsistencyGroup _ | CreateReplica _ | DeleteReplica _ | SuspendReplica _ | ResumeReplica _
  | CreateEvent _ => true
  | _ => false
  end.
Definition mutates (e : evt call) : bool :=
  match e with
  | Evt c _ => match c with Ibox i => changes i | _ => false end
  end.
Definition readonly (t : trace) : Prop := Forall (fun e => mutates e = false) t.

(** The calls of a trace that change the array. *)
Definition changed (t : trace) : trace := List.filter mutates t.

Inductive lock_event := Locked (m : mutex) | Unlocked (m : mutex).
Definition locking {X} (c : call X) : X -> option lock_event :=
  match c with
  | Os o => match o with
            | Lock m => fun _ => Some (Locked m)
            | Unlock m => fun _ => Some (Unlocked m)
            | _ => fun _ => None
            end
  | _ => fun _ => None
  end.
Definition lock_events (t : trace) : list lock_event := observe (@locking) t.

(** The trace changes the array only between taking [m] and releasing it, once,
    at its end; a trace that never takes it changes nothing. *)
Definition serialized (m : mutex) (t : trace) : Prop :=
  (readonly t /\ lock_events t = []) \/
  (exists pre mid, t = pre ++ Evt (Os (Lock m)) tt :: mid ++ [Evt (Os (Unlock m)) tt] /\
     readonly pre /\ lock_events pre = [] /\ lock_events mid = []).

Lemma readonly_nil : readonly [].
Proof. constructor. Qed.
Lemma readonly_app t t' : readonly (t ++ t') <-> readonly t /\ readonly t'.
Proof. apply Forall_app. Qed.
Lemma readonly_cons e t : readonly (e :: t) <-> mutates e = false /\ readonly t.
Proof. unfold readonly. split; [inversion 1; done|]. intros []. by constructor. Qed.
Lemma changed_cons e t : changed (e :: t) = if mutates e then e :: changed t else changed t.
Proof. done. Qed.
Lemma changed_app t t' : changed (t ++ t') = changed t ++ changed t'.
Proof. apply List.filter_app. Qed.
Lemma changed_readonly t : readonly t -> changed t = [].
Proof. unfold changed. induction 1 as [|e t He _ IH]; [done|]. cbn. by rewrite He. Qed.
Lemma lock_events_app t t' : lock_events (t ++ t') = lock_events t ++ lock_events t'.
Proof. apply observe_app. Qed.

(** A guard that only speaks of changes holds of a trace without any. *)
Lemma readonly_guarded (P : trace -> evt call -> Prop) t :
  (forall t1 e, mutates e = false -> P t1 e) -> readonly t -> guarded P t.
Proof.
  intros HP Ht t1 e t2 ->. apply HP. apply readonly_app in Ht as [_ Ht].
  by apply readonly_cons in Ht as [He _].
Qed.

(** An observation of changes is empty on a trace without any. *)
Lemma readonly_observe {B} (f : forall X, call X -> X -> option B) t :
  (forall X (c : call X) x, mutates (Evt c x) = false -> f X c x = None) ->
  readonly t -> observe f t = [].
Proof.
  intros Hf. induction 1 as [|e t He _ IH]; [done|].
  unfold observe in *. destruct e as [X c x]. cbn. by rewrite Hf, IH.
Qed.

(** A concrete trace without changes. *)
Ltac solve_readonly := solve [repeat (apply readonly_cons; split; [reflexivity|]); apply readonly_nil].

(** ** Programs all of whose calls are of a kind *)

Fixpoint every {E A} (P : forall X, E X -> Prop) (p : prog E A) : Prop :=
  match p with
  | Vis e k => P _ e /\ forall x, every P (k x)
  | _ => True
  end.

Section every_facts.
Context {E : Type -> Type} (P : forall X, E X -> Prop).

Lemma every_bind {A B} (p : prog E A) (f : A -> prog E B) :
  every P p -> (forall a, every P (f a)) -> every P (bind p f).
Proof. induction p as [a| | |X e k IH]; cbn; [auto..|]. intros [He Hk] Hf. auto. Qed.

Lemma every_defer {A} (p : prog E A) (d : option A -> prog E unit) :
  every P p -> (forall a, every P (d a)) -> every P (defer p d).
Proof.
  induction p as [a| | |X e k IH]; cbn; intros Hp Hd; [by apply every_bind..|done|].
  destruct Hp as [He Hk]. auto.
Qed.

Lemma every_runs {A} (p : prog E A) t o :
  every P p -> runs p t o -> Forall (fun e => match e with Evt c _ => P _ c end) t.
Proof.
  revert t. induction p as [a| | |X e k IH]; cbn; intros t Hp.
  1-3: by intros [-> _].
  destruct Hp as [He Hk]. intros (x & t' & -> & Ht). constructor; eauto.
Qed.
End every_facts.

(** No call takes or releases a mutex. *)
Definition lock_free {A} : prog call A -> Prop :=
  every (fun X c => match c with Os (Lock _) | Os (Unlock _) => False | _ => True end).

Lemma lock_free_runs {A} (p : prog call A) t o : lock_free p -> runs p t o -> lock_events t = [].
Proof.
  intros Hp Ht. pose proof (every_runs _ _ _ _ Hp Ht) as Hall. clear Ht Hp.
  induction Hall as [|[X c x] t Hc _ IH]; [done|].
  unfold lock_events, observe in *. cbn. destruct c as [| |Y c]; try done. by destruct c.
Qed.

(** No call changes the array or takes or releases a mutex. *)
Definition quiet {A} : prog call A -> Prop :=
  every (fun X c => match c with
                    | Ibox i => changes i = false
                    | Os (Lock _) | Os (Unlock _) => False
                    | _ => True
                    end).

Lemma quiet_runs {A} (p : prog call A) t o : quiet p -> runs p t o -> readonly t /\ lock_events t = [].
Proof.
  intros Hp Ht. pose proof (every_runs _ _ _ _ Hp Ht) as Hall. clear Ht Hp.
  induction Hall as [|[X c x] t Hc _ [IH1 IH2]]; [split; [constructor|done]|].
  split.
  - apply readonly_cons. split; [|done]. by destruct c.
  - unfold lock_events, observe in *. cbn. destruct c as [| |Y c]; try done. by destruct c.
Qed.

(** Prove [every] by following the program; calls of other definitions are left
    to the hint database. *)
Ltac every_step :=
  match goal with
  | |- forall _, _ => intros ?
  | |- lock_free _ => unfold lock_free
  | |- quiet _ => unfold quiet
  | |- every _ (Ret _) => exact I
  | |- every _ Panic => exact I
  | |- every _ NoFuel => exact I
  | |- every _ (Vis _ _) => split
  | |- every _ (iboxAPI _) => split
  | |- every _ (kubeAPI _) => split
  | |- every _ (osAPI _) => split
  | |- every _ (bind _ _) => apply every_bind
  | |- every _ (defer _ _) => apply every_defer
  | |- every _ (match ?x with _ => _ end) => destruct x
  | |- every _ ?p => solve [change (lock_free p); auto with csi | change (quiet p); auto with csi]
  | |- True => exact I
  | |- _ = false => reflexivity
  end.
Ltac every_tac := repeat every_step.

(** ** Programs that never run out of fuel, and that may panic only if [panics] *)

Fixpoint ends {E A} (panics : bool) (p : prog E A) : Prop :=
  match p with
  | Ret _ => True
  | Panic => panics = true
  | NoFuel => False
  | Vis _ k => forall x, ends panics (k x)
  end.
Abbreviation fuelled := (ends true).
Abbreviation returning := (ends false).

Section ends_facts.
Context {E : Type -> Type} (panics : bool).

Lemma ends_bind {A B} (p : prog E A) (f : A -> prog E B) :
  ends panics p -> (forall a, ends panics (f a)) -> ends panics (bind p f).
Proof. induction p as [a| | |X e k IH]; cbn; auto. Qed.
Lemma ends_defer {A} (p : prog E A) (d : option A -> prog E unit) :
  ends panics p -> (forall a, ends panics (d a)) -> ends panics (defer p d).
Proof.
  induction p as [a| | |X e k IH]; cbn; intros Hp Hd; [by apply ends_bind| |done|auto].
  apply ends_bind; [apply Hd|done].
Qed.
End ends_facts.

Lemma returning_fuelled {E A} (p : prog E A) : returning p -> fuelled p.
Proof. induction p as [a| | |X e k IH]; cbn; auto. Qed.
Lemma fuelled_runs {E A} (p : prog E A) t : fuelled p -> ~ runs p t Exhausted.
Proof.
  revert t. induction p as [a| | |X e k IH]; cbn; intros t Hp; [by intros [_ ?]..|done|].
  intros (x & t' & _ & Ht). by eapply IH.
Qed.
Lemma returning_runs {E A} (p : prog E A) t o : returning p -> runs p t o -> exists a, o = Done a.
Proof.
  revert t. induction p as [a| | |X e k IH]; cbn; intros t Hp; [|done|done|].
  - intros [_ ->]. eauto.
  - intros (x & t' & _ & Ht). by eapply IH.
Qed.

Ltac ends_step :=
  match goal with
  | |- forall _, _ => intros ?
  | |- ends _ (Ret _) => exact I
  | |- ends _ Panic => reflexivity
  | |- ends _ (Vis _ _) => hnf
  | |- ends _ (iboxAPI _) => hnf
  | |- ends _ (kubeAPI _) => hnf
  | |- ends _ (osAPI _) => hnf
  | |- ends _ (bind _ _) => apply ends_bind
  | |- ends _ (defer _ _) => apply ends_defer
  | |- ends _ (match ?x with _ => _ end) => destruct x
  | |- ends _ _ => solve [auto with csi | apply returning_fuelled; auto with csi]
  | |- True => exact I
  end.
Ltac ends_tac := repeat ends_step.

(** ** A quiet beginning *)

(** What was asked before: no change, no mutex taken. *)
Definition calm (t : trace) : Prop := readonly t /\ lock_events t = [].

Lemma calm_nil : calm [].
Proof. by split; [apply readonly_nil|]. Qed.
Lemma calm_app t t' : calm t -> calm t' -> calm (t ++ t').
Proof.
  unfold calm. rewrite readonly_app, lock_events_app. intros [? ->] [? ->]. by split.
Qed.

(** A passage of [t] is a run of [p] that answered [a]. *)
Definition during {A} (p : prog call A) (a : A) (t : trace) : Prop :=
  exists u v w, t = u ++ v ++ w /\ runs p v (Done a).
Lemma during_here {A} (p : prog call A) a pre t : runs p t (Done a) -> during p a (pre ++ t).
Proof. intros H. exists pre, t, []. by rewrite app_nil_r. Qed.
Lemma during_before {A} (p : prog call A) a t t' : during p a t -> during p a (t ++ t').
Proof. intros (u & v & w & -> & H). exists u, v, (w ++ t'). by rewrite <- !app_assoc. Qed.

(** The runs of [p], begun after [pre], keep [K]. *)
Definition leads {A} (pre : trace) (p : prog call A) (K : trace -> outcome A -> Prop) : Prop :=
  forall t o, runs p t o -> K (pre ++ t) o.

Section leads_facts.
Context {A : Type}.
Implicit Types (K : trace -> outcome A -> Prop).

Lemma leads_start K (p : prog call A) : leads [] p K -> forall t o, runs p t o -> K t o.
Proof. done. Qed.
Lemma leads_ret pre (a : A) K : K pre (Done a) -> leads pre (Ret a) K.
Proof. intros H t o [-> ->]. by rewrite app_nil_r. Qed.
Lemma leads_panic pre K : K pre Panicked -> leads pre Panic K.
Proof. intros H t o [-> ->]. by rewrite app_nil_r. Qed.

Lemma leads_bind {B} pre (p : prog call B) (f : B -> prog call A) K :
  quiet p -> fuelled p -> calm pre ->
  (forall b t, runs p t (Done b) -> calm (pre ++ t) -> during p b (pre ++ t) -> leads (pre ++ t) (f b) K) ->
  (forall t, runs p t Panicked -> calm (pre ++ t) -> K (pre ++ t) Panicked) ->
  leads pre (bind p f) K.
Proof.
  intros Hq Hf Hpre HK HP t o Ht.
  destruct (runs_bind_inv _ _ _ _ Ht) as [(b & t1 & t2 & -> & H1 & H2)|[[-> H1]|[_ H1]]].
  - rewrite app_assoc. eapply HK; [done| |by apply during_here|done].
    by apply calm_app, (quiet_runs _ _ _ Hq H1).
  - apply HP; [done|]. by apply calm_app, (quiet_runs _ _ _ Hq H1).
  - by destruct (fuelled_runs _ _ Hf H1).
Qed.

Lemma leads_call {X} pre (c : call X) (f : X -> prog call A) K :
  quiet (Vis c (@Ret call X)) -> calm pre ->
  (forall x, calm (pre ++ [Evt c x]) -> leads (pre ++ [Evt c x]) (f x) K) ->
  leads pre (bind (trigger c) f) K.
Proof.
  intros Hq Hpre HK t o (x & t' & -> & Ht). replace (pre ++ Evt c x :: t') with ((pre ++ [Evt c x]) ++ t').
  - apply HK; [|done]. apply calm_app; [done|]. eapply (quiet_runs _ _ (Done x) Hq). by exists x, [].
  - by rewrite <- app_assoc.
Qed.
End leads_facts.

(** Step over a quiet call or branch at the head of the program. *)
Ltac lead_step :=
  match goal with
  | |- leads _ (match ?x with _ => _ end) _ => let H := fresh "Hcase" in destruct x eqn:H
  | |- leads _ (bind (osAPI ?c) _) _ => apply (leads_call _ (Os c)); [solve [every_tac]|assumption|intros ? ?]
  | |- leads _ (bind (kubeAPI ?c) _) _ => apply (leads_call _ (Kube c)); [solve [every_tac]|assumption|intros ? ?]
  | |- leads _ (bind (iboxAPI ?c) _) _ => apply (leads_call _ (Ibox c)); [solve [every_tac]|assumption|intros ? ?]
  | |- leads _ (bind _ _) _ =>
      apply leads_bind; [solve [auto with csi|every_tac]|solve [auto with csi|ends_tac]|assumption
                        |let b := fresh "b" in intros b ? ? ? ?|intros ? ? ?]
  end.

(** A locked section: the deferred release is the last call. *)
Lemma defer_unlock {A} (p : prog call A) m t o :
  (forall t, ~ runs p t Exhausted) ->
  runs (defer p (fun _ => osAPI (Unlock m))) t o ->
  exists t', t = t' ++ [Evt (Os (Unlock m)) tt] /\ runs p t' o.
Proof.
  revert t. induction p as [a| | |X e k IH]; cbn; intros t Hp Ht.
  - destruct Ht as ([] & ? & -> & -> & ->). by exists [].
  - destruct Ht as ([] & ? & -> & -> & ->). by exists [].
  - by destruct (Hp []).
  - destruct Ht as (x & t' & -> & Ht). destruct (IH x t') as (t'' & -> & Hr); [|done|].
    + intros t2 H2. apply (Hp (Evt e x :: t2)). eauto.
    + exists (Evt e x :: t''). split; [done|]. eauto.
Qed.

(** A concrete run whose branches need the virtual machine: the answers are taken
    from the trace, the scrutinee at the head of the program is evaluated. *)
Ltac head_of p := lazymatch p with bind ?q _ => head_of q | defer ?q _ => head_of q | interp _ ?q => head_of q | _ => constr:(p) end.
Ltac head_fun p := lazymatch p with ?f _ => head_fun f | _ => constr:(p) end.
Ltac inner_scrutinee x := lazymatch x with match ?y with _ => _ end => inner_scrutinee y | _ => constr:(x) end.
Ltac evaluate x :=
  lazymatch x with
  | decide ?P => let Hd := fresh "Hd" in destruct (decide P) as [Hd|Hd];
                 [try (exfalso; revert Hd; vm_compute; lia)|try (exfalso; apply Hd; vm_compute; lia)]
  | _ => let v := lazymatch type of x with
                  | option _ => eval lazy head in x
                  | res _ => eval lazy head in x
                  | _ => eval vm_compute in x
                  end in
         replace x with v by (vm_compute; reflexivity)
  end.
(** [unfold] of a recursive function whose argument is no constructor yet. *)
Ltac not_stuck :=
  lazymatch goal with
  | |- runs ?p _ _ => let q := head_of p in let f := head_fun q in first [is_fix f; fail 1|idtac]
  | |- _ => idtac
  end.
Ltac eval_lists q :=
  lazymatch q with
  | ?g ?a => lazymatch type of a with
             | list _ => let v := eval vm_compute in a in change a with v
             | _ => idtac
             end; eval_lists g
  | _ => idtac
  end.
Ltac rerun_step :=
  cbn [runs bind defer interp trigger iboxAPI kubeAPI osAPI fst snd];
  lazymatch goal with
  | |- exists _ _, _ => eexists _, _; split; [reflexivity|]
  | |- _ /\ _ => split; reflexivity
  | |- runs ?p _ _ =>
      let q := head_of p in
      lazymatch q with
      | match ?x with _ => _ end => let y := inner_scrutinee x in evaluate y
      | let _ := _ in _ => cbv zeta
      | ?g ?a => let f := head_fun q in
                 first [unfold f; not_stuck | progress eval_lists q]
      | _ => unfold q
      end
  end.
Ltac rerun := repeat rerun_step.

#[export] Hint Resolve readonly_nil calm_nil : csi.
#[export] Hint Rewrite readonly_app readonly_cons lock_events_app changed_app : csi_rw.
