(* ===== verification/Fmt.v ===== *)
(** Package [fmt], as far as the texts of errors need it: the verb [%v] on the
    structs that are printed, and what [Sprintf] writes for arguments that do not
    fit their verb or have none. *)
From S2P Require Import Prelude GoLib IboxTypes.
From stdpp Require Import base strings list gmap.
From Stdlib Require Import ZArith Ascii.

Local Open Scope string_scope.
Local Open Scope list_scope.

(** ** The verb [%v] *)

(** A decoded value of type [any]; a number is printed as it was read. A map is
    printed in the order of its keys. *)
Fixpoint insert_key (k v : string) (l : list (string * string)) : list (string * string) :=
  match l with
  | [] => [(k, v)]
  | (k', v') :: l' =>
      match String.compare k k' with
      | Lt => (k, v) :: l
      | Eq => (k, v) :: l'
      | Gt => (k', v') :: insert_key k v l'
      end
  end.
Definition brackets (l : list string) : string := "[" +:+ String.concat " " l +:+ "]".
Definition braces (l : list string) : string := "{" +:+ String.concat " " l +:+ "}".
Fixpoint fmt_any (j : json) : string :=
  match j with
  | JNull => "<nil>"
  | JBool b => FormatBool b
  | JNum n => n
  | JStr s => s
  | JArr l => brackets (map fmt_any l)
  | JObj m =>
      let pairs := fold_left (fun l kv => insert_key (fst kv) (snd kv) l)
                             (map (fun kv => (fst kv, fmt_any (snd kv))) m) [] in
      "map" +:+ brackets (map (fun kv => fst kv +:+ ":" +:+ snd kv) pairs)
  end.
Definition fmt_APIError (e : APIError) : string :=
  braces [APIError_Code e; APIError_Message e; brackets (map fmt_any (APIError_Reasons e));
          APIError_Severity e; FormatBool (APIError_IsRemote e); fmt_any (APIError_Data e)].
Definition fmt_Metadata (m : Metadata) : string :=
  braces [FormatBool (Metadata_Ready m); Itoa (Metadata_NumberOfObjects m); Itoa (Metadata_PageSize m);
          Itoa (Metadata_PagesTotal m); Itoa (Metadata_Page m)].
Definition fmt_Volume (v : Volume) : string :=
  braces [Itoa (Volume_CGID v); FormatBool (Volume_RmrTarget v); Itoa (Volume_UpdatedAt v);
          Itoa (Volume_NumBlocks v); Itoa (Volume_Allocated v); Volume_Serial v; Itoa (Volume_Size v);
          FormatBool (Volume_SsdEnabled v); Itoa (Volume_ID v); Itoa (Volume_ParentID v);
          FormatBool (Volume_CompressionSuppressed v); Volume_Type v; FormatBool (Volume_RmrSource v);
          Itoa (Volume_Used v); Itoa (Volume_TreeAllocated v); FormatBool (Volume_HasChildren v);
          Volume_DatasetType v; Volume_Provtype v; Volume_RmrSnapshotGUID v;
          Itoa (Volume_CapacitySavings v); Volume_Name v; Itoa (Volume_CreatedAt v);
          Itoa (Volume_PoolID v); Volume_PoolName v; FormatBool (Volume_CompressionEnabled v);
          Itoa (Volume_FamilyID v); Itoa (Volume_Depth v); FormatBool (Volume_WriteProtected v);
          FormatBool (Volume_Mapped v); Itoa (Volume_LockExpiresAt v); Volume_LockState v].
Definition fmt_volumes (r : Response (list Volume)) : string :=
  braces [fmt_Metadata (Response_Metadata r); brackets (map fmt_Volume (Response_Result r));
          fmt_APIError (Response_Error r)].

(** ** Arguments that do not fit *)

(** The name [%T] prints for an error; an opaque text is an [errors.New]. *)
Definition go_type (e : error) : string :=
  match e with
  | ErrNotFound | ErrMappingExists | EText _ => "*errors.errorString"
  | EWrap _ _ _ => "*fmt.wrapError"
  | EStatus _ _ => "*status.Error"
  | EImpl _ _ => "*common.ImplementationError"
  end.

Inductive arg := AString (s : string) | AInt (z : Z) | AError (e : error) | ANil.
Definition typed (a : arg) : string :=
  match a with
  | AString s => "string=" +:+ s
  | AInt z => "int=" +:+ Itoa z
  | AError e => go_type e +:+ "=" +:+ Error e
  | ANil => "<nil>"
  end.
(** Arguments the format has no verb for. *)
Definition extra (l : list arg) : string := "%!(EXTRA " +:+ String.concat ", " (map typed l) +:+ ")".
(** [%d] of a string, [%s] of an integer, and so on. *)
Definition bad_verb (verb : string) (a : arg) : string := "%!" +:+ verb +:+ "(" +:+ typed a +:+ ")".
Definition s_int (z : Z) : string := bad_verb "s" (AInt z).
Definition s_bool (b : bool) : string := "%!s(bool=" +:+ FormatBool b +:+ ")".

(** [%s] of a group member. *)
Definition fmt_s_MemberInfo (m : MemberInfo) : string :=
  braces [MemberInfo_MemberType m; s_int (MemberInfo_Depth m); s_int (MemberInfo_ID m);
          MemberInfo_Name m; s_int (MemberInfo_CreatedAt m); s_int (MemberInfo_UpdateAt m);
          s_bool (MemberInfo_Mapped m); s_bool (MemberInfo_WriteProtected m); s_int (MemberInfo_Size m);
          MemberInfo_ProvType m; s_bool (MemberInfo_SSDEnabled m);
          s_bool (MemberInfo_SSAExpressEnabled m); MemberInfo_SSAExpressStatus m;
          s_bool (MemberInfo_CompressionEnabled m); MemberInfo_Serial m;
          s_bool (MemberInfo_RmrTarget m); s_bool (MemberInfo_RMRSource m);
          s_bool (MemberInfo_RMRActiveActivePeer m); MemberInfo_MobilitySource m;
          MemberInfo_RMRSnapshotGUID m; MemberInfo_DataSnapshotGUID m; MemberInfo_MgmtSnapshotGUID m;
          MemberInfo_CGSnapshotGUID m; MemberInfo_CGGUID m; s_int (MemberInfo_FamilyID m);
          s_int (MemberInfo_LockExpiresAt m); MemberInfo_ReclaimedSnapshotRemoteSystemSerial m;
          MemberInfo_SnapshotRetention m; MemberInfo_DatasetType m; s_int (MemberInfo_Used m);
          s_int (MemberInfo_TreeAllocated m); s_int (MemberInfo_Allocated m);
          s_bool (MemberInfo_CompressionSuppressed m); s_int (MemberInfo_CapacitySaving m);
          s_int (MemberInfo_UDID m); s_bool (MemberInfo_PathsAvailable m);
          s_int (MemberInfo_SourceReplicatedSGID m); s_int (MemberInfo_PoolID m);
          s_int (MemberInfo_ParentID m); MemberInfo_CGName m; s_int (MemberInfo_CGID m);
          s_int (MemberInfo_SnapshotPolicyID m); s_bool (MemberInfo_HasChildren m);
          s_int (MemberInfo_SnapshotExpiresAt m); s_int (MemberInfo_CreatedBySnapshotPolicyID m);
          s_int (MemberInfo_CreatedByScheduleID m); s_int (MemberInfo_TenantID m);
          MemberInfo_QOSPolicyName m; MemberInfo_PoolName m; MemberInfo_NGUID m;
          brackets (map s_int (MemberInfo_ReplicaIDs m)); brackets (MemberInfo_ReplicationTypes m);
          s_int (MemberInfo_NumBlocks m); s_int (MemberInfo_QOSPolicyID m);
          s_int (MemberInfo_QOSSharedPolicyID m); MemberInfo_QOSSharedPolicyName m;
          MemberInfo_LockState m; MemberInfo_SnapshotPolicyName m;
          MemberInfo_CreatedBySnapshotPolicyName m; MemberInfo_CreatedByScheduleName m].
