(* ===== verification/Csi.v ===== *)
(** The CSI messages the handlers receive and return, and the constants of
    [common/types.go].

    The messages are the protobuf types of the CSI specification, reduced to
    the fields the driver reads or writes; a nil message, map or slice is [None]
    where the driver can observe the difference. *)
From S2P Require Import Prelude GoLib IboxTypes.
From stdpp Require Import base strings list gmap.
From Stdlib Require Import ZArith.

Local Open Scope string_scope.
Local Open Scope list_scope.

(** ** Constants of common/types.go *)

Definition NodeRootDir : string := "/host".
Definition FSTypeExt3 : string := "ext3".
Definition FSTypeExt4 : string := "ext4".
Definition FSTypeXFS : string := "xfs".
Definition StorageClassNFSExportPermissions : string := "nfs_export_permissions".
Definition StorageClassPrivPorts : string := "privileged_ports_only".
Definition StorageClassSnapDirVisible : string := "snapdir_visible".
Definition StorageClassUID : string := "uid".
Definition StorageClassGID : string := "gid".
Definition StorageClassUNIXPermissions : string := "unix_permissions".
Definition StorageClassRoundup : string := "round_up_requested_size".
Definition StorageClassSSDEnabled : string := "ssd_enabled".
Definition StorageClassProvisionType : string := "provision_type".
Definition StorageClassPoolName : string := "pool_name".
Definition StorageClassNetworkSpace : string := "network_space".
Definition StorageClassStorageProtocol : string := "storage_protocol".
Definition StorageClassFSPrefix : string := "fs_prefix".
Definition StorageClassFSPrefixDefault : string := "csit_".
Definition StorageClassMaxVolsPerHost : string := "max_vols_per_host".
Definition StorageClassUseCHAP : string := "useCHAP".
Definition StorageClassThinProvision : string := "THIN".
Definition StorageClassThickProvision : string := "THICK".
Definition NetworkSpaceNFSService : string := "NAS_SERVICE".
Definition NetworkSpaceISCSIService : string := "ISCSI_SERVICE".
Definition NetworkSpaceReplicationService : string := "RMR_SERVICE".
Definition NetworkSpaceNVMEService : string := "SAN_SERVICE".
Definition StorageClassMaxTreeqsPerFS : string := "max_treeqs_per_filesystem".
Definition StorageClassMaxFilesystems : string := "max_filesystems".
Definition StorageClassMaxFilesystemSize : string := "max_filesystem_size".
Definition StorageClassProtocolSecretAutoOrder : string := "preferred_auto_order".
Definition ProtocolNFS : string := "nfs".
Definition ProtocolTreeq : string := "nfs_treeq".
Definition ProtocolISCSI : string := "iscsi".
Definition ProtocolFC : string := "fc".
Definition ProtocolNVME : string := "nvme".
Definition ProtocolAuto : string := "auto".
Definition ServiceName : string := "infinibox-csi-driver".
Definition IBOXDefaultQueryPageSize : Z := 1000%Z.
Definition LockExpiresAtParameter : string := "lock_expires_at".
Definition LockedState : string := "LOCKED".
Definition PVCAnnotationPoolName : string := "infinidat.com/pool_name".
Definition PVCAnnotationNetworkSpace : string := "infinidat.com/network_space".
Definition PVCAnnotationIBOXSecret : string := "infinidat.com/ibox_secret".
Definition PVCAnnotationVolumeMetadata : string := "infinidat.com/volume_metadata".
Definition BytesInOneGibibyte : Z := 1073741824%Z.
Definition CSICreatedHost : string := "csi-created-host".
Definition PVCAnnotationSecretName : string := "infinidat.com/secret_name".
Definition PVCAnnotationSecretNamespace : string := "infinidat.com/secret_namespace".
Definition ReplicaEntityCG : string := "CONSISTENCY_GROUP".
Definition ReplicaEntityVolume : string := "VOLUME".
Definition ReplicaEntityFilesystem : string := "FILESYSTEM".
Definition ReplicationTypeASYNC : string := "ASYNC".
Definition ReplicationBaseActionNew : string := "NEW".
Definition CSIFSType : string := "csi.storage.k8s.io/fstype".
Definition CSIProvisionerSecretName : string := "csi.storage.k8s.io/provisioner-secret-name".
Definition CSIProvisionerSecretNamespace : string := "csi.storage.k8s.io/provisioner-secret-namespace".
Definition CSIControllerPublishSecretName : string := "csi.storage.k8s.io/controller-publish-secret-name".
Definition CSIControllerPublishSecretNamespace : string := "csi.storage.k8s.io/controller-publish-secret-namespace".
Definition CSINodeStageSecretName : string := "csi.storage.k8s.io/node-stage-secret-name".
Definition CSINodeStageSecretNamespace : string := "csi.storage.k8s.io/node-stage-secret-namespace".
Definition CSINodePublishSecretName : string := "csi.storage.k8s.io/node-publish-secret-name".
Definition CSINodePublishSecretNamespace : string := "csi.storage.k8s.io/node-publish-secret-namespace".
Definition CSIControllerExpandSecretName : string := "csi.storage.k8s.io/controller-expand-secret-name".
Definition CSIControllerExpandSecretNamespace : string := "csi.storage.k8s.io/controller-expand-secret-namespace".
Definition CSINodeExpandSecretName : string := "csi.storage.k8s.io/node-expand-secret-name".
Definition CSINodeExpandSecretNamespace : string := "csi.storage.k8s.io/node-expand-secret-namespace".
Definition CSISnapshotterSecretName : string := "csi.storage.k8s.io/snapshotter-secret-name".
Definition CSIPVCName : string := "csi.storage.k8s.io/pvc/name".
Definition CSIPVCNamespace : string := "csi.storage.k8s.io/pvc/namespace".
Definition EnvVarCSIDriverVersion : string := "CSI_DRIVER_VERSION".
Definition EnvVarCreateEvents : string := "CREATE_EVENTS".
Definition EnvVarOSVersion : string := "OS_VERSION".
Definition EnvVarKubeVersion : string := "KUBE_VERSION".
Definition EnvVarNodeCount : string := "NODE_COUNT".
Definition EnvVarProtocolSecret : string := "PROTOCOL_SECRET".
Definition EnvVarPodNamespace : string := "POD_NAMESPACE".
Definition EnvVarCleanupNFSPerms : string := "CLEANUP_NFS_PERMS".
Definition EnvVarKubeNodeName : string := "KUBE_NODE_NAME".
Definition EnvVarNodeIP : string := "NODE_IP".
Definition EnvVarRemoveDomainName : string := "REMOVE_DOMAIN_NAME".
Definition EnvVarPrimaryIboxCredential : string := "PRIMARY_IBOX_CREDENTIAL".
Definition CustomEventCapacity : string := "capacity".
Definition CustomEventVolumeCaps : string := "volume_caps".
Definition CustomEventNFSVersion : string := "nfs_version".
Definition CusstomEventVolumeID : string := "volume_id".
Definition CustomEventVolumeName : string := "volume_name".
Definition CustomEventAction : string := "csi_action".
Definition CredentialHostname : string := "hostname".
Definition CredentialUsername : string := "username".
Definition CredentialPassword : string := "password".
Definition IboxFeaturePromoteSnapshot : string := "promote_snapshot".
Definition IboxreplicaReplicaTypeSYNC : string := "SYNC".
Definition IboxreplicaReplicaTypeASYNC : string := "ASYNC".
Definition IboxreplicaReplicaTypeACTIVE_ACTIVE : string := "ACTIVE_ACTIVE".
Definition IboxReplicaTypeParameter : string := "replication_type".
Definition IboxReplicaCGNameParameter : string := "cg_name".
Definition IboxReplicaRemotePoolIDParameter : string := "remote_pool_id".
Definition IboxReplicaRemoteIboxCredNameParameter : string := "remote_ibox_credential_name".
Definition IboxReplicaRemoteIboxCredNamespaceParameter : string := "remote_ibox_credential_namespace".
Definition IboxReplicaLocalIboxCredNameParameter : string := "local_ibox_credential_name".
Definition IboxReplicaLocalIboxCredNamespaceParameter : string := "local_ibox_credential_namespace".
Definition IboxReplicaRemoteIboxLinkNameParameter : string := "link_remote_system_name".
Definition IboxReplicaIgnoreReplicaErrorsParameter : string := "ignore_replica_errors".
Definition IboxReplicaCreatePVC : string := "remote_create_pvc".
Definition IboxReplicaCreatePVCSuffix : string := "remote_pvc_name_suffix".
Definition IboxReplicaCreatePVCNamespace : string := "remote_pvc_namespace".
Definition IboxReplicaCreatePVCNetworkSpace : string := "remote_network_space".
Definition IboxReplicaCreatePVCPoolName : string := "remote_pool_name".
Definition IboxReplicaCreatePVCKubeconfigSecretName : string := "remote_kubeconfig_secret_name".
Definition IboxReplicaCreatePVCKubeconfigSecretNamespace : string := "remote_kubeconfig_secret_namespace".

(** ** CSI messages *)

(** [csi.VolumeCapability_AccessMode_Mode]. *)
Inductive AccessMode :=
| UNKNOWN
| SINGLE_NODE_WRITER
| SINGLE_NODE_READER_ONLY
| MULTI_NODE_READER_ONLY
| MULTI_NODE_SINGLE_WRITER
| MULTI_NODE_MULTI_WRITER
| SINGLE_NODE_SINGLE_WRITER
| SINGLE_NODE_MULTI_WRITER.

#[export] Instance AccessMode_eq_dec : EqDecision AccessMode.
Proof. solve_decision. Defined.

Definition AccessMode_String (m : AccessMode) : string :=
  match m with
  | UNKNOWN => "UNKNOWN"
  | SINGLE_NODE_WRITER => "SINGLE_NODE_WRITER"
  | SINGLE_NODE_READER_ONLY => "SINGLE_NODE_READER_ONLY"
  | MULTI_NODE_READER_ONLY => "MULTI_NODE_READER_ONLY"
  | MULTI_NODE_SINGLE_WRITER => "MULTI_NODE_SINGLE_WRITER"
  | MULTI_NODE_MULTI_WRITER => "MULTI_NODE_MULTI_WRITER"
  | SINGLE_NODE_SINGLE_WRITER => "SINGLE_NODE_SINGLE_WRITER"
  | SINGLE_NODE_MULTI_WRITER => "SINGLE_NODE_MULTI_WRITER"
  end.

(** The [access_type] oneof of a volume capability. *)
Inductive AccessType :=
| AccessNone
| AccessBlock
| AccessMount (FsType : string) (MountFlags : list string).

Record VolumeCapability := MkVolumeCapability {
  GetAccessMode : option AccessMode;
  GetAccessType : AccessType
}.

Definition GetBlock (c : VolumeCapability) : bool :=
  match GetAccessType c with AccessBlock => true | _ => false end.
Definition GetMount (c : VolumeCapability) : option (string * list string) :=
  match GetAccessType c with AccessMount fs flags => Some (fs, flags) | _ => None end.

Inductive VolumeContentSource :=
| SourceSnapshot (snapshotID : string)
| SourceVolume (volumeID : string)
| SourceNone.

Record CSICreateVolumeRequest := MkCSICreateVolumeRequest {
  Req_Name : string;
  Req_CapacityRange : option Z;  (** [RequiredBytes] *)
  Req_VolumeCapabilities : option (list VolumeCapability);
  Req_Parameters : gmap string string;
  Req_Secrets : gmap string string;
  Req_VolumeContentSource : option VolumeContentSource
}.

Definition Req_set_Parameters (v : gmap string string) (r : CSICreateVolumeRequest) :=
  {| Req_Name := Req_Name r; Req_CapacityRange := Req_CapacityRange r;
     Req_VolumeCapabilities := Req_VolumeCapabilities r; Req_Parameters := v;
     Req_Secrets := Req_Secrets r; Req_VolumeContentSource := Req_VolumeContentSource r |}.

Record CSIVolume := MkCSIVolume {
  CSIVolume_VolumeId : string;
  CSIVolume_CapacityBytes : Z;
  CSIVolume_VolumeContext : gmap string string;
  CSIVolume_ContentSource : option VolumeContentSource
}.
(** [csi.CreateVolumeResponse]: the volume, possibly nil. *)
Definition CreateVolumeResponse : Type := option CSIVolume.

Record CSIPublishRequest := MkCSIPublishRequest {
  Pub_VolumeId : string;
  Pub_NodeId : string;
  Pub_VolumeCapability : option VolumeCapability;
  Pub_Readonly : bool;
  Pub_Secrets : gmap string string;
  Pub_VolumeContext : option (gmap string string)
}.

Record CSISnapshotRequest := MkCSISnapshotRequest {
  Snap_Name : string;
  Snap_SourceVolumeId : string;
  Snap_Secrets : gmap string string;
  Snap_Parameters : gmap string string
}.
Record CSISnapshot := MkCSISnapshot {
  CSISnapshot_SizeBytes : Z;
  CSISnapshot_SnapshotId : string;
  CSISnapshot_SourceVolumeId : string;
  CSISnapshot_CreationTime : Z;
  CSISnapshot_ReadyToUse : bool
}.

Record CSIExpandRequest := MkCSIExpandRequest {
  Exp_VolumeId : string;
  Exp_CapacityRange : option Z;
  Exp_Secrets : gmap string string;
  Exp_VolumeCapability : option VolumeCapability
}.
Record CSIExpandResponse := MkCSIExpandResponse {
  Expand_CapacityBytes : Z;
  Expand_NodeExpansionRequired : bool
}.

(** [m[key]] on a Go map of strings: the zero value when the key is absent. *)
Definition lookup_str (m : gmap string string) (key : string) : string := default "" (m !! key).
Notation "m .[ k ]" := (lookup_str m k) (at level 1, k at level 200, left associativity, format "m .[ k ]") : csi_scope.

Lemma lookup_str_insert m k v : lookup_str (<[k := v]> m) k = v.
Proof. unfold lookup_str. by rewrite lookup_insert_eq. Qed.
Lemma lookup_str_insert_ne m k k' v : k <> k' -> lookup_str (<[k := v]> m) k' = lookup_str m k'.
Proof. intros H. unfold lookup_str. by rewrite lookup_insert_ne. Qed.
