(* ===== verification/KubeClient.v ===== *)
(** [api/clientgo/goclient.go]: the reads of the cluster that do more than pass
    an answer of client-go on. *)
From S2P Require Import Prelude GoLib IboxTypes Traces Csi.
From stdpp Require Import base strings list gmap.
From Stdlib Require Import ZArith.

Local Open Scope string_scope.
Local Open Scope list_scope.

(** The fields of a secret as text; [StringData] goes over [Data]. *)
Definition secret_map (secret : Secret) : gmap string string := Secret_StringData secret ∪ Secret_Data secret.

Definition GetSecret (secretName namespace : string) : prog call (res (gmap string string)) :=
  try secret <- kubeAPI (SecretsGet namespace secretName) catch err =>
    Ret (Err (EWrap ("error getting secret - namespace: " +:+ namespace +:+ " secretName: " +:+ secretName +:+ " error: ") err "")) ;;
  Ret (Ok (secret_map secret)).

(** The label of the driver's secrets. *)
Definition secret_label : string := "app=infinidat-csi-driver".
Definition getting_secrets (namespace : string) (err : error) : error :=
  EWrap ("error getting secrets - namespace: " +:+ namespace +:+ " error: ") err "".

Definition GetSecretContainsName (namespace name : string) : prog call (res Secret) :=
  try secrets <- kubeAPI (SecretsList namespace secret_label) catch err => Ret (Err (getting_secrets namespace err)) ;;
  match List.find (fun secret => Contains (Secret_Name secret) name) secrets with
  | Some secret => Ret (Ok secret)
  | None => Ret (Err (EText ("error getting secrets , no secrets were found with the string " +:+ name
                             +:+ " in namespace: " +:+ namespace)))
  end.

Definition GetSecrets (namespace : string) : prog call (res (list (gmap string string))) :=
  try secrets <- kubeAPI (SecretsList namespace secret_label) catch err => Ret (Err (getting_secrets namespace err)) ;;
  match secrets with
  | [] => Ret (Err (EText ("error getting secrets , no secrets were found with the label " +:+ secret_label
                           +:+ " in namespace: " +:+ namespace)))
  | _ => Ret (Ok (map secret_map secrets))
  end.

Definition provisioned_by (pv : PersistentVolume) : string := (PV_Annotations pv).["pv.kubernetes.io/provisioned-by"].
Definition driver_volumes (items : list PersistentVolume) : list PersistentVolume :=
  List.filter (fun pv => String.eqb (provisioned_by pv) ServiceName) items.
Definition GetAllPersistentVolumes : prog call (res (list PersistentVolume)) :=
  try items <- kubeAPI PersistentVolumesList catch err => Ret (Err err) ;;
  Ret (Ok (driver_volumes items)).

(** The persistent volume of a handle, with its [Spec.CSI]; [None] where the
    search meets a volume without one. *)
Fixpoint pv_by_handle (items : list PersistentVolume) (volumeHandle : string)
    : option (option (PersistentVolume * CSIPersistentVolumeSource)) :=
  match items with
  | [] => Some None
  | pv :: rest =>
      match PV_CSI pv with
      | None => None
      | Some csi =>
          if String.eqb (PV_VolumeHandle csi) volumeHandle then Some (Some (pv, csi))
          else pv_by_handle rest volumeHandle
      end
  end.
(** The message names NFS whatever the protocol. *)
Definition GetPVByVolumeID (volumeID : Z) (protocol : string)
    : prog call (res (PersistentVolume * CSIPersistentVolumeSource)) :=
  try items <- kubeAPI PersistentVolumesList catch err => Ret (Err err) ;;
  match pv_by_handle items (Itoa volumeID +:+ "$$" +:+ protocol) with
  | None => Panic
  | Some None => Ret (Err (EText ("no PV found for volumeHandle " +:+ Itoa volumeID +:+ "$$nfs")))
  | Some (Some found) => Ret (Ok found)
  end.

Definition GetRunningDriverNodePods (namespace : string) : prog call (res (list string)) :=
  try items <- kubeAPI (PodsList namespace "part-of=infiniboxcsidriver-node") catch err => Ret (Err err) ;;
  match List.filter (fun pod => String.eqb (Pod_Phase pod) "Running") items with
  | [] => Ret (Err (EText "no CSI driver node pods are in running status"))
  | pods => Ret (Ok (map Pod_Name pods))
  end.

(** ** Kinds of calls *)

Lemma GetSecret_quiet name namespace : quiet (GetSecret name namespace).
Proof. unfold GetSecret. every_tac. Qed.
Lemma GetSecret_ends name namespace : ends false (GetSecret name namespace).
Proof. unfold GetSecret. ends_tac. Qed.
Lemma GetSecretContainsName_quiet namespace name : quiet (GetSecretContainsName namespace name).
Proof. unfold GetSecretContainsName. every_tac. Qed.
Lemma GetSecretContainsName_ends namespace name : ends false (GetSecretContainsName namespace name).
Proof. unfold GetSecretContainsName. ends_tac. Qed.
Lemma GetSecrets_quiet namespace : quiet (GetSecrets namespace).
Proof. unfold GetSecrets. every_tac. Qed.
Lemma GetSecrets_ends namespace : ends false (GetSecrets namespace).
Proof. unfold GetSecrets. ends_tac. Qed.
Lemma GetAllPersistentVolumes_quiet : quiet GetAllPersistentVolumes.
Proof. unfold GetAllPersistentVolumes. every_tac. Qed.
Lemma GetAllPersistentVolumes_ends : ends false GetAllPersistentVolumes.
Proof. unfold GetAllPersistentVolumes. ends_tac. Qed.
Lemma GetAllPersistentVolumes_ok t pvs :
  runs GetAllPersistentVolumes t (Done (Ok pvs)) ->
  exists items, t = [Evt (Kube PersistentVolumesList) (Ok items)] /\ pvs = driver_volumes items.
Proof. intros ([items|err] & t' & -> & [-> H]); [|done]. injection H as ->. by exists items. Qed.
Lemma GetPVByVolumeID_quiet volumeID protocol : quiet (GetPVByVolumeID volumeID protocol).
Proof. unfold GetPVByVolumeID. every_tac. Qed.
Lemma GetPVByVolumeID_fuelled volumeID protocol : fuelled (GetPVByVolumeID volumeID protocol).
Proof. unfold GetPVByVolumeID. ends_tac. Qed.
Lemma GetRunningDriverNodePods_quiet namespace : quiet (GetRunningDriverNodePods namespace).
Proof. unfold GetRunningDriverNodePods. every_tac. Qed.
Lemma GetRunningDriverNodePods_ends namespace : ends false (GetRunningDriverNodePods namespace).
Proof. unfold GetRunningDriverNodePods. ends_tac. Qed.
#[export] Hint Resolve GetSecret_quiet GetSecret_ends GetSecretContainsName_quiet GetSecretContainsName_ends
  GetSecrets_quiet GetSecrets_ends GetAllPersistentVolumes_quiet GetAllPersistentVolumes_ends
  GetPVByVolumeID_quiet GetPVByVolumeID_fuelled GetRunningDriverNodePods_quiet GetRunningDriverNodePods_ends : csi.
