(* ===== verification/IboxHttp.v ===== *)
(** Package [iboxapi]: the client of the array's REST interface, method by
    method. A method builds a URL, exchanges one request, or one per page, and
    turns the envelope it receives into a result or an error.

    The boundary [http] is what a method asks of Go's runtime: marshalling a
    value, making a request, sending it, reading the body of the response and
    decoding it. What the array answers is any decoded envelope; the JSON text
    in between is not interpreted. Closing a body only logs its error and is
    left out, as is the context, which the driver never cancels. *)
From S2P Require Import Prelude GoLib IboxTypes Fmt Csi.
From stdpp Require Import base strings list gmap.
From Stdlib Require Import ZArith Ascii.

Local Open Scope string_scope.
Local Open Scope list_scope.

(** ** The boundary *)

Inductive method := GET | POST | PUT | DELETE.

(** The values the client hands to [json.Marshal]. *)
Inductive body :=
| BString (s : string)
| BCreateVolume (v : CreateVolumeRequest)
| BVolume (v : Volume)
| BCreateSnapshotVolume (v : CreateSnapshotVolumeRequest)
| BCreateHost (v : CreateHostPost)
| BAddHostSecurity (v : AddHostSecurityRequest)
| BAddPort (v : AddPortRequest)
| BMapVolumeToHost (v : MapVolumeToHostRequest)
| BCreateFileSystem (v : CreateFileSystemRequest)
| BFileSystem (v : FileSystem)
| BFileSystemSnapshot (v : FileSystemSnapshot)
| BCreateTreeq (v : CreateTreeqRequest)
| BUpdateTreeq (v : UpdateTreeqRequest)
| BCreateExport (v : CreateExportRequest)
| BUpdateExport (v : UpdateExportPathRef)
| BMetadata (v : gmap string json)
| BCreateConsistencyGroup (v : CreateConsistencyGroupRequest)
| BAddMemberToSnapshotGroup (v : AddMemberToSnapshotGroupRequest)
| BAddMemberToCG (v : AddMemberToCGRequest)
| BCreateSnapshotGroup (v : CreateSnapshotGroupRequest)
| BCreateReplica (v : CreateReplicaRequest)
| BEvent (v : EventRequest).

(** A request as it is sent: the parameters are those the client adds to the
    query of the URL ([Values.Encode] sorts them by key). *)
Record request := MkRequest {
  request_method : method;
  request_url : string;
  request_parameters : gmap string string;
  request_headers : gmap string (list string);
  request_body : option body
}.

Inductive http : Type -> Type :=
| Marshal (v : body) : http (res unit)
| NewRequest (m : method) (url : string) : http (res unit)
| Do (r : request) : http (res unit)
| ReadAll : http (string * option error)
| Unmarshal (A : Type) (bytes : string) : http (res A).

(** ** iboxapi.go *)

Record Credentials := MkCredentials {
  Credentials_Username : string;
  Credentials_Password : string;
  Credentials_URL : string
}.

Definition PARAMETER_APPROVED : string := "approved".
Definition PARAMETER_VALUE_TRUE : string := "true".
Definition PARAMETER_VALUE_FALSE : string := "false".
Definition CONTENT_TYPE : string := "Content-Type".
Definition JSON_CONTENT_TYPE : string := "application/json; charset=UTF-8".
Definition PARAMETER_PAGE_SIZE : string := "page_size".
Definition PARAMETER_PAGE : string := "page".

(** [http.Header]: [Add] and [Set]. *)
Definition header_Add (k v : string) (h : gmap string (list string)) : gmap string (list string) :=
  <[k := default [] (h !! k) ++ [v]]> h.
Definition header_Set (k v : string) (h : gmap string (list string)) : gmap string (list string) :=
  <[k := [v]]> h.

(** [base64.StdEncoding.EncodeToString]. *)
Definition base64_char (n : N) : ascii :=
  ascii_of_N (if (n <? 26)%N then n + 65 else if (n <? 52)%N then n + 71 else if (n <? 62)%N then n - 4
              else if (n =? 62)%N then 43 else 47)%N.
Fixpoint EncodeToString (s : string) : string :=
  match s with
  | EmptyString => ""
  | String a EmptyString =>
      let x := N_of_ascii a in
      String (base64_char (x / 4)) (String (base64_char (x mod 4 * 16)) "==")
  | String a (String b EmptyString) =>
      let x := N_of_ascii a in let y := N_of_ascii b in
      String (base64_char (x / 4)) (String (base64_char (x mod 4 * 16 + y / 16))
        (String (base64_char (y mod 16 * 4)) "="))
  | String a (String b (String c s')) =>
      let x := N_of_ascii a in let y := N_of_ascii b in let z := N_of_ascii c in
      String (base64_char (x / 4)) (String (base64_char (x mod 4 * 16 + y / 16))
        (String (base64_char (y mod 16 * 4 + z / 64)) (String (base64_char (z mod 64)) (EncodeToString s'))))
  end%N.

(** [common.Errorf(stage + " - error: %w url: %s", err, url)]. *)
Definition failed (stage : string) (err : error) (url : string) : error :=
  EWrap (stage +:+ " - error: ") err (" url: " +:+ url).

(** [common.Errorf("ibox API - error: %v url: %s", response.Error, url)] and the
    other wordings for an error object with an unforeseen code. *)
Definition ibox_API (url : string) (err : APIError) : error :=
  EText ("ibox API - error: " +:+ fmt_APIError err +:+ " url: " +:+ url).
Definition response_error (url : string) (err : APIError) : error :=
  EText ("response - error: " +:+ fmt_APIError err +:+ " url: " +:+ url).
Definition code_and_message (url : string) (err : APIError) : error :=
  EText ("ibox API - errorCode: " +:+ APIError_Code err +:+ " message: " +:+ APIError_Message err
         +:+ " url: " +:+ url).
(** [common.Errorf("errorCode: %s - error: %w url: %s", code, ErrNotFound, url)]. *)
Definition no_such (pre code url : string) : error :=
  EWrap (pre +:+ code +:+ " - error: ") ErrNotFound (" url: " +:+ url).

(** The check of the error object's code, empty when there is no error: [codes]
    are the ones that mean the object does not exist, worded by [missing]. *)
Definition refused_with (codes : list string) (missing : string -> error) (other : APIError -> error)
    (err : APIError) : option error :=
  if decide (APIError_Code err = "") then None
  else if decide (APIError_Code err ∈ codes) then Some (missing (APIError_Code err))
  else Some (other err).
Definition refused (codes : list string) (url : string) : APIError -> option error :=
  refused_with codes (fun code => no_such "errorCode: " code url) (ibox_API url).
Definition refused_as (text : APIError -> error) : APIError -> option error :=
  refused_with [] (fun _ => ErrNotFound) text.

Section client.
Context (creds : Credentials).

Definition SetAuthHeader (h : gmap string (list string)) : gmap string (list string) :=
  let h := header_Add "Accept" "application/json" h in
  let h := header_Add "Content-Type" "application/json" h in
  let auth := Credentials_Username creds +:+ ":" +:+ Credentials_Password creds in
  header_Set "Authorization" ("Basic " +:+ EncodeToString auth) h.

Definition commonGetLogic (url : string) (parameters : gmap string string) : prog http (res string) :=
  try _ <- trigger (NewRequest GET url) catch err => Ret (Err (failed "newRequest" err url)) ;;
  try _ <- trigger (Do (MkRequest GET url parameters (SetAuthHeader ∅) None))
    catch err => Ret (Err (failed "do" err url)) ;;
  r <- trigger ReadAll ;;
  match snd r with
  | Some err => Ret (Err (failed "readAll" err url))
  | None => Ret (Ok (fst r))
  end.

Definition commonPostLogic (url : string) (parameters : gmap string string) (v : body) : prog http (res string) :=
  try _ <- trigger (Marshal v) catch err => Ret (Err (failed "marshal" err url)) ;;
  try _ <- trigger (NewRequest POST url) catch err => Ret (Err (failed "newRequest" err url)) ;;
  let headers := header_Set CONTENT_TYPE JSON_CONTENT_TYPE (SetAuthHeader ∅) in
  try _ <- trigger (Do (MkRequest POST url parameters headers (Some v)))
    catch err => Ret (Err (failed "do" err url)) ;;
  r <- trigger ReadAll ;;
  Ret (Ok (fst r)).

(** The PUT exchange [UpdateVolume], [UpdateFileSystem], [UpdateTreeq],
    [UpdateExportPermissions], [AddHostSecurity] and [PutMetadata] write out. *)
Definition commonPutLogic (url : string) (parameters : gmap string string) (v : body) : prog http (res string) :=
  try _ <- trigger (Marshal v) catch err => Ret (Err (failed "marshal" err url)) ;;
  try _ <- trigger (NewRequest PUT url) catch err => Ret (Err (failed "newRequest" err url)) ;;
  let headers := header_Set CONTENT_TYPE JSON_CONTENT_TYPE (SetAuthHeader ∅) in
  try _ <- trigger (Do (MkRequest PUT url parameters headers (Some v)))
    catch err => Ret (Err (failed "do" err url)) ;;
  r <- trigger ReadAll ;;
  match snd r with
  | Some err => Ret (Err (failed "readAll" err url))
  | None => Ret (Ok (fst r))
  end.

(** The DELETE exchange of the deleting methods. The wordings differ in their
    spaces: [newRequest] and [readAll] are the texts in front of the cause. *)
Definition commonDeleteLogic (newRequest readAll url : string) (parameters : gmap string string)
    : prog http (res string) :=
  try _ <- trigger (NewRequest DELETE url) catch err => Ret (Err (EWrap newRequest err (" url: " +:+ url))) ;;
  try _ <- trigger (Do (MkRequest DELETE url parameters (SetAuthHeader ∅) None))
    catch err => Ret (Err (failed "do" err url)) ;;
  r <- trigger ReadAll ;;
  match snd r with
  | Some err => Ret (Err (EWrap readAll err (" url: " +:+ url)))
  | None => Ret (Ok (fst r))
  end.

(** [json.Unmarshal(bodyBytes, &responseObject)], the error worded by [text]. *)
Definition unmarshal {A} (text : error -> error) (p : prog http (res string)) : prog http (res A) :=
  try bytes <- p catch err => Ret (Err err) ;;
  try a <- trigger (Unmarshal A bytes) catch err => Ret (Err (text err)) ;;
  Ret (Ok a).
(** The caller's wrapping of [commonGetLogic]'s and [commonPostLogic]'s error. *)
Definition within {A} (stage url : string) (p : prog http (res A)) : prog http (res A) :=
  try a <- p catch err => Ret (Err (failed stage err url)) ;; Ret (Ok a).

Definition unmarshal_failed (url : string) (err : error) : error := failed "unmarshal" err url.
Definition Get (A : Type) (url : string) (parameters : gmap string string) : prog http (res A) :=
  unmarshal (unmarshal_failed url) (within "commonGetLogic" url (commonGetLogic url parameters)).
Definition Post (A : Type) (url : string) (parameters : gmap string string) (v : body) : prog http (res A) :=
  unmarshal (unmarshal_failed url) (within "commonPostLogic" url (commonPostLogic url parameters v)).
Definition Put (A : Type) (url : string) (parameters : gmap string string) (v : body) : prog http (res A) :=
  unmarshal (unmarshal_failed url) (commonPutLogic url parameters v).
Definition Delete (A : Type) (url : string) (parameters : gmap string string) : prog http (res A) :=
  unmarshal (unmarshal_failed url)
    (commonDeleteLogic "newRequest - error: " "readAll - error: " url parameters).
(** The same with [readAll -error]. *)
Definition Delete' (A : Type) (url : string) (parameters : gmap string string) : prog http (res A) :=
  unmarshal (unmarshal_failed url)
    (commonDeleteLogic "newRequest - error: " "readAll -error: " url parameters).

(** The check of the error object: the envelope, unless [fail] turns its
    error object into an error. *)
Definition ask {A} (fail : APIError -> option error) (p : prog http (res (Response A)))
    : prog http (res (Response A)) :=
  try r <- p catch err => Ret (Err err) ;;
  match fail (Response_Error r) with
  | Some err => Ret (Err err)
  | None => Ret (Ok r)
  end.
(** [return &responseObject.Result, nil] *)
Definition result {A} (p : prog http (res (Response A))) : prog http (res A) :=
  try r <- p catch err => Ret (Err err) ;; Ret (Ok (Response_Result r)).
(** [return nil] *)
Definition done {A} (p : prog http (res A)) : prog http (option error) :=
  r <- p ;; Ret (match r with Ok _ => None | Err err => Some err end).

(** [fmt.Sprintf("%s%s", client.Creds.URL, path)] *)
Definition at_ (path : string) : string := Credentials_URL creds +:+ path.
Definition approved : gmap string string := {[PARAMETER_APPROVED := PARAMETER_VALUE_TRUE]}.

(** [for page := 1; page <= totalPages; page++], where the first page sets
    [totalPages]. [step] reads one page: it returns from the method ([inr]) or
    goes on with a new state and the total that page names. A total of 2^63-1
    pages, where [page++] would wrap around, is out of reach. *)
Fixpoint more_pages {S R} (step : Z -> S -> prog http (S * Z + R)) (n : nat) (page : Z) (s : S)
    : prog http (S + R) :=
  match n with
  | O => Ret (inl s)
  | Datatypes.S n =>
      r <- step page s ;;
      match r with
      | inr x => Ret (inr x)
      | inl (s, _) => more_pages step n (page + 1) s
      end
  end.
Definition pages {S R} (step : Z -> S -> prog http (S * Z + R)) (s : S) : prog http (S + R) :=
  r <- step 1%Z s ;;
  match r with
  | inr x => Ret (inr x)
  | inl (s, totalPages) => more_pages step (Z.to_nat (totalPages - 1)) 2 s
  end.
Definition page_parameters (page : Z) (parameters : gmap string string) : gmap string string :=
  <[PARAMETER_PAGE_SIZE := Itoa IBOXDefaultQueryPageSize]> (<[PARAMETER_PAGE := Itoa page]> parameters).

(** What a listing does with the pages read so far when a page fails. *)
Inductive on_failure := Keep | Drop.
Definition so_far {A} (f : on_failure) (results : list A) : list A :=
  match f with Keep => results | Drop => [] end.

(** A listing: the results of all pages, one after the other. [on_get] and
    [on_api] are what is returned beside the error when the exchange fails and
    when the array answers an error object, worded by [text]. *)
Definition list_step {A} (on_get on_api : on_failure) (text : Response (list A) -> error)
    (url : string) (parameters : gmap string string) (page : Z) (results : list A)
    : prog http (list A * Z + slice A) :=
  try bytes <- commonGetLogic url (page_parameters page parameters)
    catch err => Ret (inr (so_far on_get results, Some (failed "commonGetLogic" err url))) ;;
  try r <- trigger (Unmarshal (Response (list A)) bytes)
    catch err => Ret (inr (results, Some (unmarshal_failed url err))) ;;
  if decide (APIError_Code (Response_Error r) = "")
  then Ret (inl (results ++ Response_Result r, Metadata_PagesTotal (Response_Metadata r)))
  else Ret (inr (so_far on_api results, Some (text r))).
Definition listing {A} (on_get on_api : on_failure) (text : Response (list A) -> error)
    (url : string) (parameters : gmap string string) : prog http (slice A) :=
  r <- pages (list_step on_get on_api text url parameters) [] ;;
  match r with
  | inl results => Ret (results, None)
  | inr x => Ret x
  end.

(** The lookups by name that read every page and keep the first result of the
    last one; [none] is the error for a page without results. The variable is
    nil before the first page sets it. *)
Definition last_step {A} (none : error) (url : string) (parameters : gmap string string) (page : Z) (_ : option A)
    : prog http (option A * Z + res A) :=
  try r <- ask (refused [] url) (Get (Response (list A)) url (page_parameters page parameters))
    catch err => Ret (inr (Err err)) ;;
  match Response_Result r with
  | [] => Ret (inr (Err none))
  | a :: _ => Ret (inl (Some a, Metadata_PagesTotal (Response_Metadata r)))
  end.
Definition last_page {A} (none : error) (url : string) (parameters : gmap string string) : prog http (res A) :=
  r <- pages (last_step none url parameters) None ;;
  match r with
  | inl (Some a) => Ret (Ok a)
  | inl None => Panic
  | inr x => Ret x
  end.

(** The lookups that ask for one page: the error object is looked at first, ... *)
Definition first_of {A} (p : prog http (res (Response (list A)))) : prog http (res A) :=
  try r <- p catch err => Ret (Err err) ;;
  match Response_Result r with
  | [] => Ret (Err ErrNotFound)
  | a :: _ => Ret (Ok a)
  end.
(** ... or the results are. *)
Definition first_before {A} (fail : APIError -> option error) (p : prog http (res (Response (list A))))
    : prog http (res A) :=
  try r <- p catch err => Ret (Err err) ;;
  match Response_Result r with
  | [] => Ret (Err ErrNotFound)
  | a :: _ => match fail (Response_Error r) with Some err => Ret (Err err) | None => Ret (Ok a) end
  end.

(** ** volumes.go, datasets.go *)

Definition name_is (name : string) : gmap string string := {["name" := name]}.
Definition volumes : string := at_ "api/rest/volumes".

Definition GetLunsByVolume (volumeID : Z) : prog http (slice LunInfo) :=
  let url := at_ ("api/rest/volumes/" +:+ Itoa volumeID +:+ "/luns") in
  listing Keep Keep (fun r => response_error url (Response_Error r)) url ∅.
Definition CreateVolume (req : CreateVolumeRequest) : prog http (res Volume) :=
  result (ask (refused [] volumes) (Post (Response Volume) volumes ∅ (BCreateVolume req))).
Definition DeleteVolume (volumeID : Z) : prog http (res (Response Volume)) :=
  let url := at_ ("api/rest/volumes/" +:+ Itoa volumeID) in
  ask (refused ["VOLUME_NOT_FOUND"] url) (Delete' (Response Volume) url approved).
Definition GetVolumeByName (volumeName : string) : prog http (res Volume) :=
  last_page (no_such "errorCode: " "no results" volumes) volumes (name_is volumeName).
Definition GetVolume (volumeID : Z) : prog http (res Volume) :=
  let url := at_ ("api/rest/volumes/" +:+ Itoa volumeID) in
  result (ask (refused ["VOLUME_NOT_FOUND"] url) (Get (Response Volume) url ∅)).
Definition UpdateVolume (volumeID : Z) (volume : Volume) : prog http (res Volume) :=
  let url := at_ ("api/rest/volumes//" +:+ Itoa volumeID) in
  result (ask (refused ["VOLUME_NOT_FOUND"] url) (Put (Response Volume) url ∅ (BVolume volume))).
Definition CreateSnapshotVolume (req : CreateSnapshotVolumeRequest) : prog http (res Snapshot) :=
  let parameters := if (0 <? CreateSnapshotVolumeRequest_LockExpiresAt req)%Z then approved else ∅ in
  result (ask (refused [] volumes) (Post (Response Snapshot) volumes parameters (BCreateSnapshotVolume req))).
Definition GetVolumesByParentID (parentID : Z) : prog http (slice Volume) :=
  listing Keep Keep (fun r => EText ("ibox API - error: " +:+ fmt_volumes r +:+ " url: " +:+ volumes))
    volumes {["parent_id" := Itoa parentID]}.
Definition PromoteSnapshot (snapshotID : Z) : prog http (res Volume) :=
  let url := at_ ("api/rest/volumes/" +:+ Itoa snapshotID +:+ "/promote") in
  result (ask (refused [] url) (Post (Response Volume) url approved (BString ""))).

Definition GetAllSnapshots : prog http (slice Volume) :=
  let url := at_ "api/rest/datasets" in
  listing Keep Keep (fun r => EText ("response - error: " +:+ fmt_volumes r +:+ " url: " +:+ url))
    url {["type" := "SNAPSHOT"]}.

(** ** host.go *)

Definition hosts : string := at_ "api/rest/hosts".
(** ["%s%s/%d"] with ["api/rest/hosts/"] leaves two slashes. *)
Definition host_url (hostID : Z) (rest : string) : string := at_ ("api/rest/hosts//" +:+ Itoa hostID +:+ rest).

Definition GetAllHosts : prog http (slice Host) :=
  listing Keep Keep (fun r => ibox_API hosts (Response_Error r)) hosts ∅.
Definition GetHostByName (hostName : string) : prog http (res Host) :=
  first_before (refused [] hosts) (Get (Response (list Host)) hosts (name_is hostName)).
Definition CreateHost (hostName : string) : prog http (res Host) :=
  result (ask (refused [] hosts) (Post (Response Host) hosts ∅ (BCreateHost (MkCreateHostPost hostName)))).
Definition DeleteHost (hostID : Z) : prog http (res Host) :=
  let url := host_url hostID "" in
  result (ask (refused ["HOST_NOT_FOUND"] url)
    (unmarshal (unmarshal_failed url) (commonDeleteLogic "newRquest -  error: " "readAll - error: " url ∅))).
Definition AddHostSecurity (chapCreds : gmap string string) (hostID : Z) : prog http (res (Response Host)) :=
  let url := host_url hostID "" in
  let cred key := default "" (chapCreds !! key) in
  let hostSecurityInfo := MkAddHostSecurityRequest (cred "security_method")
    (cred "security_chap_inbound_username") (cred "security_chap_inbound_secret")
    (cred "security_chap_outbound_username") (cred "security_chap_outbound_secret") in
  ask (refused [] url) (Put (Response Host) url approved (BAddHostSecurity hostSecurityInfo)).
Definition AddHostPort (portType portAddress : string) (hostID : Z) : prog http (res (Response AddPortResult)) :=
  let url := at_ ("api/rest/hosts/" +:+ Itoa hostID +:+ "/ports") in
  ask (refused [] url)
    (unmarshal (fun err => EWrap "unmarshal -error: " err (" url: " +:+ url))
      (within "commonPostLogic" url
        (commonPostLogic url approved (BAddPort (MkAddPortRequest portType portAddress))))).
(** The last port with the address; the error object is looked at only when
    there is one. *)
Definition GetHostPort (hostID : Z) (portAddress : string) : prog http (res HostPort) :=
  let url := at_ ("api/rest/hosts/" +:+ Itoa hostID +:+ "/ports") in
  try response <- Get (Response (list HostPort)) url ∅ catch err => Ret (Err err) ;;
  match last (List.filter (fun p => bool_decide (HostPort_PortAddress p = portAddress))
                          (Response_Result response)) with
  | None => Ret (Err ErrNotFound)
  | Some hostPort =>
      match refused [] url (Response_Error response) with
      | Some err => Ret (Err err)
      | None => Ret (Ok hostPort)
      end
  end.
(** [lun] is only logged. *)
Definition MapVolumeToHost (hostID volumeID lun : Z) : prog http (res LunInfo) :=
  let url := at_ ("api/rest/hosts/" +:+ Itoa hostID +:+ "/luns") in
  result (ask (refused_with ["MAPPING_ALREADY_EXISTS"] (fun _ => ErrMappingExists) (ibox_API url))
    (Post (Response LunInfo) url approved (BMapVolumeToHost (MkMapVolumeToHostRequest volumeID)))).
Definition GetAllLunByHost (hostID : Z) : prog http (slice LunInfo) :=
  let url := host_url hostID "/luns" in
  listing Keep Keep (fun r => ibox_API url (Response_Error r)) url ∅.
Definition lun_step (url : string) (volumeID page : Z) (_ : unit) : prog http (unit * Z + res LunInfo) :=
  try r <- ask (refused [] url)
             (Get (Response (list LunInfo)) url (page_parameters page {["volume_id" := Itoa volumeID]}))
    catch err => Ret (inr (Err err)) ;;
  match Response_Result r with
  | lun :: _ => Ret (inr (Ok lun))
  | [] => Ret (inl ((), Metadata_PagesTotal (Response_Metadata r)))
  end.
Definition GetLunByHostVolume (hostID volumeID : Z) : prog http (res LunInfo) :=
  r <- pages (lun_step (host_url hostID "/luns") volumeID) () ;;
  match r with
  | inr x => Ret x
  | inl _ => Ret (Err ErrNotFound)
  end.
Definition UnMapVolumeFromHost (hostID volumeID : Z) : prog http (res (Response LunInfo)) :=
  let url := host_url hostID ("/luns/volume_id/" +:+ Itoa volumeID) in
  ask (refused [] url) (Delete (Response LunInfo) url approved).

(** ** filesystems.go *)

Definition FILESYSTEM_NOT_FOUND : string := "FILESYSTEM_NOT_FOUND".
Definition filesystems : string := at_ "api/rest/filesystems".

Definition GetFileSystemsByPool (poolID : Z) (fsPrefix : string) : prog http (slice FileSystem) :=
  listing Keep Drop (fun r => ibox_API filesystems (Response_Error r)) filesystems
    (<["pool_id" := Itoa poolID]> (name_is ("like:" +:+ fsPrefix))).
Definition GetFileSystemByID (fsID : Z) : prog http (res FileSystem) :=
  let url := at_ ("api/rest/filesystems/" +:+ Itoa fsID) in
  result (ask (refused [FILESYSTEM_NOT_FOUND] url) (Get (Response FileSystem) url ∅)).
Definition CreateFileSystem (req : CreateFileSystemRequest) : prog http (res FileSystem) :=
  result (ask (refused [] filesystems) (Post (Response FileSystem) filesystems ∅ (BCreateFileSystem req))).
Definition GetFileSystemByName (name : string) : prog http (res FileSystem) :=
  first_before
    (refused_as (fun err => EText ("iboxAPI error - errorCode: " +:+ APIError_Code err +:+ " url: " +:+ filesystems)))
    (Get (Response (list FileSystem)) filesystems (page_parameters 1 (name_is name))).
Definition GetFileSystemsByParentID (parentID : Z) : prog http (slice FileSystem) :=
  listing Keep Drop (fun r => ibox_API filesystems (Response_Error r)) filesystems
    {["parent_id" := Itoa parentID]}.
Definition DeleteFileSystem (fsID : Z) : prog http (option error) :=
  let url := at_ ("api/rest/filesystems/" +:+ Itoa fsID) in
  done (ask (refused [] url) (Delete' (Response FileSystem) url approved)).
Definition UpdateFileSystem (fsID : Z) (fs : FileSystem) : prog http (res FileSystem) :=
  let url := at_ ("api/rest/filesystems//" +:+ Itoa fsID) in
  result (ask (refused [FILESYSTEM_NOT_FOUND] url) (Put (Response FileSystem) url ∅ (BFileSystem fs))).
Definition CreateFileSystemSnapshot (snapshot : FileSystemSnapshot) : prog http (res FileSystemSnapshotResponse) :=
  result (ask (refused [] filesystems)
    (Post (Response FileSystemSnapshotResponse) filesystems approved (BFileSystemSnapshot snapshot))).

(** ** exports.go *)

Definition exports : string := at_ "api/rest/exports".
Definition export_url (exportID : Z) : string := at_ ("api/rest/exports/" +:+ Itoa exportID).

Definition GetExportByID (exportID : Z) : prog http (res Export) :=
  let url := export_url exportID in
  result (ask (refused ["EXPORT_NOT_FOUND"] url) (Get (Response Export) url ∅)).
Definition GetExportsByFileSystemID (fsID : Z) : prog http (slice Export) :=
  listing Keep Keep (fun r => response_error exports (Response_Error r)) exports {["filesystem_id" := Itoa fsID]}.
Definition DeleteExport (exportID : Z) : prog http (res Export) :=
  let url := export_url exportID in
  result (ask (refused ["EXPORT_NOT_FOUND"] url) (Delete (Response Export) url approved)).
Definition CreateExport (req : CreateExportRequest) : prog http (res Export) :=
  result (ask (refused [] exports) (Post (Response Export) exports ∅ (BCreateExport req))).
Definition UpdateExportPermissions (ex : Export) (exportPath : ExportPathRef) : prog http (res Export) :=
  let url := export_url (Export_ID ex) in
  let onlyPermissionsField := MkUpdateExportPathRef (ExportPathRef_Permissions exportPath) in
  result (ask (refused [] url) (Put (Response Export) url approved (BUpdateExport onlyPermissionsField))).

(** ** treeq.go *)

Definition TREEQ_ID_DOES_NOT_EXIST : string := "TREEQ_ID_DOES_NOT_EXIST".
Definition treeqs_url (fsID : Z) (rest : string) : string :=
  at_ ("api/rest/filesystems/" +:+ Itoa fsID +:+ "/treeqs" +:+ rest).

Definition GetTreeqByName (fsID : Z) (name : string) : prog http (res Treeq) :=
  let url := treeqs_url fsID "" in
  first_of (ask (refused [FILESYSTEM_NOT_FOUND] url) (Get (Response (list Treeq)) url (name_is name))).
Definition GetTreeq (fsID treeqID : Z) : prog http (res Treeq) :=
  let url := treeqs_url fsID ("/" +:+ Itoa treeqID) in
  result (ask (refused_with [TREEQ_ID_DOES_NOT_EXIST]
                 (fun code => EWrap ("errorCode: " +:+ code +:+ " - error: ") ErrNotFound (" url; " +:+ url))
                 (ibox_API url))
    (Get (Response Treeq) url ∅)).
(** The path says [treeq], not [treeqs], and the deletion is not approved. *)
Definition DeleteTreeq (fsID treeqID : Z) : prog http (res Treeq) :=
  let url := at_ ("api/rest/filesystems/" +:+ Itoa fsID +:+ "/treeq/" +:+ Itoa treeqID) in
  result (ask (refused [TREEQ_ID_DOES_NOT_EXIST] url)
    (unmarshal (unmarshal_failed url) (commonDeleteLogic "newRequest -  error: " "readAll - error: " url ∅))).
Definition CreateTreeq (fsID : Z) (treeqRequest : CreateTreeqRequest) : prog http (res Treeq) :=
  let url := treeqs_url fsID "" in
  result (ask (refused [] url) (Post (Response Treeq) url ∅ (BCreateTreeq treeqRequest))).
(** The decoding error is formatted by ["% url: %ss"], which [fmt] does not
    understand. *)
Definition UpdateTreeq (fsID treeqID : Z) (updateRequest : UpdateTreeqRequest) : prog http (res Treeq) :=
  let url := treeqs_url fsID ("/" +:+ Itoa treeqID) in
  result (ask (refused [FILESYSTEM_NOT_FOUND; TREEQ_ID_DOES_NOT_EXIST] url)
    (unmarshal (fun err => EWrap "unmarshal - error: " err
                             (" url: %!u(string=" +:+ url +:+ ")rl: %!s(MISSING)s"))
      (commonPutLogic url ∅ (BUpdateTreeq updateRequest)))).
Definition GetTreeqsByFileSystem (fsID : Z) : prog http (slice Treeq) :=
  let url := treeqs_url fsID "" in
  listing Drop Keep (fun r => response_error url (Response_Error r)) url ∅.

(** ** metadata.go *)

Definition PutMetadata (objectID : Z) (metadata : gmap string json) : prog http (res (Response (list MetadataResult))) :=
  let url := at_ ("api/rest/metadata//" +:+ Itoa objectID) in
  ask (refused_as (code_and_message url)) (Put (Response (list MetadataResult)) url ∅ (BMetadata metadata)).
Definition GetMetadata (objectID : Z) : prog http (slice GetMetadataResult) :=
  let url := at_ ("api/rest/metadata/" +:+ Itoa objectID) in
  listing Drop Keep (fun r => response_error url (Response_Error r)) url ∅.
Definition DeleteMetadata (objectID : Z) : prog http (res (Response (list MetadataResult))) :=
  let url := at_ ("api/rest/metadata/" +:+ Itoa objectID) in
  ask (refused_as (code_and_message url)) (Delete (Response (list MetadataResult)) url approved).

(** ** networkspaces.go, pool.go, features.go, links.go *)

Definition GetNetworkSpaceByName (netspaceName : string) : prog http (res NetworkSpace) :=
  last_page ErrNotFound (at_ "api/rest/network/spaces") (name_is netspaceName).

Definition GetPoolByName (name : string) : prog http (res PoolResult) :=
  let url := at_ "api/rest/pools" in
  first_of (ask (refused [] url) (Get (Response (list PoolResult)) url (page_parameters 1 (name_is name)))).
Definition GetPoolByID (poolID : Z) : prog http (res PoolResult) :=
  let url := at_ ("api/rest/pools/" +:+ Itoa poolID) in
  result (ask (refused_with ["POOL_NOT_FOUND"] (fun code => no_such "errorCode: " code url)
                 (fun err => EText ("ibox API - error: " +:+ fmt_APIError err)))
    (unmarshal (fun err => EWrap "unmarshal - error: " err (" url; " +:+ url))
      (within "commonGetLogic" url (commonGetLogic url ∅)))).

Definition GetFeatures : prog http (slice FeatureResult) :=
  let url := at_ "api/rest/_features" in
  r <- ask (refused [] url) (Get (Response (list FeatureResult)) url ∅) ;;
  match r with
  | Err err => Ret ([], Some err)
  | Ok response =>
      match Response_Result response with
      | [] => Ret ([], Some ErrNotFound)
      | features => Ret (features, None)
      end
  end.

Definition GetLinks : prog http (slice Link) :=
  let url := at_ "api/rest/links" in
  listing Drop Keep (fun r => response_error url (Response_Error r)) url ∅.
Definition GetLink (linkID : Z) : prog http (res Link) :=
  let url := at_ ("api/rest/links/" +:+ Itoa linkID) in
  result (ask (refused_with ["LINK_NOT_FOUND"] (fun code => no_such "errorCode: " code url)
                 (fun err => EText ("ibox API - errorcode: " +:+ APIError_Code err +:+ " message: "
                                    +:+ APIError_Message err +:+ ", url: " +:+ url)))
    (Get (Response Link) url ∅)).

(** ** system.go, config.go, components.go, event.go *)

(** Of the system's details the driver reads the serial number. *)
Definition GetSystem : prog http (res Z) :=
  let url := at_ "api/rest/system" in
  result (ask (refused_as (code_and_message url)) (Get (Response Z) url ∅)).
Definition GetNtpStatus : prog http (slice NtpStatus) :=
  let url := at_ "api/rest/system/ntp_status" in
  listing Keep Keep (fun r => response_error url (Response_Error r)) url ∅.

(** The error object is decoded and not looked at; the result has one field. *)
Definition GetMaxFileSystems : prog http (res Z) :=
  result (Get (Response Z) (at_ "api/rest/config/limits") {["fields" := "nas.max_filesystems_in_system"]}).
Definition GetMaxTreeqPerFs : prog http (res Z) :=
  result (Get (Response Z) (at_ "api/rest/config/limits") {["fields" := "nas.treeq_max_count_per_filesystem"]}).

Definition GetFCPorts : prog http (slice FCNode) :=
  let url := at_ "api/rest/components/nodes" in
  r <- ask (refused [] url) (Get (Response (list FCNode)) url {["fields" := "fc_ports"]}) ;;
  match r with
  | Err err => Ret ([], Some err)
  | Ok response => Ret (Response_Result response, None)
  end.

(** The created event is not read. *)
Definition CreateEvent (eventRequest : EventRequest) : prog http (option error) :=
  let url := at_ "api/rest/events" in
  done (ask (refused [] url) (Post (Response json) url ∅ (BEvent eventRequest))).

(** ** consistencygroup.go *)

Definition REPLICATE_TO_ASYNC_TARGET : string := "replicate_to_async_target".
Definition DELETE_MEMBERS : string := "delete_members".
Definition cgs : string := at_ "api/rest/cgs".
Definition cg_url (cgID : Z) : string := at_ ("api/rest/cgs/" +:+ Itoa cgID).
Definition members_url (cgID : Z) : string := at_ ("api/rest/cgs/" +:+ Itoa cgID +:+ "/members").

Definition CreateConsistencyGroup (req : CreateConsistencyGroupRequest) : prog http (res ConsistencyGroupInfo) :=
  result (ask (refused [] cgs)
    (Post (Response ConsistencyGroupInfo) cgs {[REPLICATE_TO_ASYNC_TARGET := PARAMETER_VALUE_FALSE]}
      (BCreateConsistencyGroup req))).
Definition AddMemberToSnapshotGroup (volumeID cgID : Z) : prog http (option error) :=
  let url := members_url cgID in
  done (ask (refused [] url)
    (Post (Response ConsistencyGroupInfo) url approved
      (BAddMemberToSnapshotGroup (MkAddMemberToSnapshotGroupRequest volumeID)))).
Definition GetMembersByCGID (cgID : Z) : prog http (slice MemberInfo) :=
  let url := members_url cgID in
  listing Keep Keep (fun r => response_error url (Response_Error r)) url ∅.
Definition CreateSnapshotGroup (req : CreateSnapshotGroupRequest) : prog http (res ConsistencyGroupInfo) :=
  result (ask (refused [] cgs) (Post (Response ConsistencyGroupInfo) cgs ∅ (BCreateSnapshotGroup req))).
(** The error object is not looked at. *)
Definition GetConsistencyGroupByName (name : string) : prog http (res ConsistencyGroupInfo) :=
  first_of (Get (Response (list ConsistencyGroupInfo)) cgs (page_parameters 1 (name_is name))).
Definition DeleteConsistencyGroup (cgID : Z) : prog http (option error) :=
  let url := cg_url cgID in
  done (ask (refused_with ["CG_NOT_FOUND"] (fun code => no_such "iboxAPI errorCode: " code url) (ibox_API url))
    (Delete (Response ConsistencyGroupInfo) url (<[DELETE_MEMBERS := PARAMETER_VALUE_TRUE]> approved))).
Definition GetConsistencyGroup (cgID : Z) : prog http (res ConsistencyGroupInfo) :=
  let url := cg_url cgID in
  result (ask (refused_with ["CG_NOT_FOUND"] (fun code => no_such "" code url) (ibox_API url))
    (Get (Response ConsistencyGroupInfo) url ∅)).
Definition AddMemberToCG (volumeID cgID : Z) (volumeName : string) : prog http (option error) :=
  let url := members_url cgID in
  let aa := MkActiveActiveInfo "NEW" volumeName in
  let pairInfo := MkReplicationPairInfo volumeID volumeName "NO_BASE_DATA" "CREATE" in
  let req := MkAddMemberToCGRequest volumeID aa pairInfo "" in
  done (ask (refused [] url) (Post (Response ConsistencyGroupInfo) url approved (BAddMemberToCG req))).
Definition RemoveMemberFromCG (cgID memberID : Z) : prog http (option error) :=
  let url := at_ ("api/rest/cgs/" +:+ Itoa cgID +:+ "/members/" +:+ Itoa memberID) in
  done (ask (refused ["CG_DATASET_NOT_FOUND"] url) (Delete' (Response ConsistencyGroupInfo) url approved)).

(** ** replicas.go *)

Definition replicas : string := at_ "api/rest/replicas".
Definition replica_url (replicaID : Z) (rest : string) : string := at_ ("api/rest/replicas/" +:+ Itoa replicaID +:+ rest).

Definition CreateReplica (req : CreateReplicaRequest) : prog http (res Replica) :=
  result (ask (refused [] replicas) (Post (Response Replica) replicas approved (BCreateReplica req))).
Definition GetReplicas : prog http (slice Replica) :=
  listing Drop Keep (fun r => response_error replicas (Response_Error r)) replicas ∅.
Definition DeleteReplica (replicaID : Z) : prog http (option error) :=
  let url := replica_url replicaID "" in
  done (ask (refused ["REPLICA_NOT_FOUND"] url) (Delete' (Response Replica) url approved)).
Definition GetReplica (replicaID : Z) : prog http (res Replica) :=
  let url := replica_url replicaID "" in
  result (ask (refused ["REPLICA_NOT_FOUND"] url) (Get (Response Replica) url ∅)).
Definition ResumeReplica (replicaID : Z) : prog http (option error) :=
  let url := replica_url replicaID "/resume" in
  done (ask (refused [] url) (Post (Response Volume) url approved (BString ""))).
Definition SuspendReplica (replicaID : Z) : prog http (option error) :=
  let url := replica_url replicaID "/suspend" in
  done (ask (refused [] url) (Post (Response Volume) url approved (BString ""))).
Definition GetReplicaForCG (cgName : string) : prog http (res Replica) :=
  first_of (ask (refused [] replicas)
    (Get (Response (list Replica)) replicas (page_parameters 1 {["local_cg_name" := cgName]}))).
Definition GetReplicaForLocalEntityName (localEntityName : string) : prog http (res Replica) :=
  first_of (ask (refused [] replicas)
    (Get (Response (list Replica)) replicas (page_parameters 1 {["local_entity_name" := localEntityName]}))).

(** ** [IboxClient] implements [Client] *)

Definition IboxClient {X} (c : ibox X) : prog http X :=
  match c with
  | IboxTypes.GetFeatures => GetFeatures
  | IboxTypes.GetPoolByName name => GetPoolByName name
  | IboxTypes.GetPoolByID id => GetPoolByID id
  | IboxTypes.DeleteVolume id => DeleteVolume id
  | IboxTypes.GetVolumeByName name => GetVolumeByName name
  | IboxTypes.GetVolume id => GetVolume id
  | IboxTypes.UpdateVolume id v => UpdateVolume id v
  | IboxTypes.CreateSnapshotVolume r => CreateSnapshotVolume r
  | IboxTypes.PromoteSnapshot id => PromoteSnapshot id
  | IboxTypes.GetVolumesByParentID id => GetVolumesByParentID id
  | IboxTypes.GetNetworkSpaceByName name => GetNetworkSpaceByName name
  | IboxTypes.GetHostByName name => GetHostByName name
  | IboxTypes.CreateHost name => CreateHost name
  | IboxTypes.DeleteHost id => DeleteHost id
  | IboxTypes.MapVolumeToHost h v l => MapVolumeToHost h v l
  | IboxTypes.GetAllLunByHost h => GetAllLunByHost h
  | IboxTypes.GetLunByHostVolume h v => GetLunByHostVolume h v
  | IboxTypes.UnMapVolumeFromHost h v => UnMapVolumeFromHost h v
  | IboxTypes.CreateVolume r => CreateVolume r
  | IboxTypes.GetMaxTreeqPerFs => GetMaxTreeqPerFs
  | IboxTypes.GetFileSystemByName name => GetFileSystemByName name
  | IboxTypes.GetFileSystemsByPool p prefix => GetFileSystemsByPool p prefix
  | IboxTypes.GetFileSystemsByParentID id => GetFileSystemsByParentID id
  | IboxTypes.GetFileSystemByID id => GetFileSystemByID id
  | IboxTypes.CreateFileSystem r => CreateFileSystem r
  | IboxTypes.DeleteFileSystem id => DeleteFileSystem id
  | IboxTypes.UpdateFileSystem id fs => UpdateFileSystem id fs
  | IboxTypes.CreateFileSystemSnapshot s => CreateFileSystemSnapshot s
  | IboxTypes.GetTreeqsByFileSystem id => GetTreeqsByFileSystem id
  | IboxTypes.UpdateTreeq fs t b => UpdateTreeq fs t b
  | IboxTypes.CreateTreeq fs r => CreateTreeq fs r
  | IboxTypes.DeleteTreeq fs t => DeleteTreeq fs t
  | IboxTypes.GetTreeq fs t => GetTreeq fs t
  | IboxTypes.GetTreeqByName fs name => GetTreeqByName fs name
  | IboxTypes.GetExportsByFileSystemID id => GetExportsByFileSystemID id
  | IboxTypes.GetExportByID id => GetExportByID id
  | IboxTypes.DeleteExport id => DeleteExport id
  | IboxTypes.CreateExport r => CreateExport r
  | IboxTypes.UpdateExportPermissions e p => UpdateExportPermissions e p
  | IboxTypes.PutMetadata id m => PutMetadata id m
  | IboxTypes.GetMetadata id => GetMetadata id
  | IboxTypes.DeleteMetadata id => DeleteMetadata id
  | IboxTypes.GetNtpStatus => GetNtpStatus
  | IboxTypes.GetLinks => GetLinks
  | IboxTypes.GetConsistencyGroupByName name => GetConsistencyGroupByName name
  | IboxTypes.GetSystem => GetSystem
  | IboxTypes.GetAllSnapshots => GetAllSnapshots
  | IboxTypes.GetAllHosts => GetAllHosts
  | IboxTypes.AddHostSecurity creds h => AddHostSecurity creds h
  | IboxTypes.AddHostPort t a h => AddHostPort t a h
  | IboxTypes.GetHostPort h a => GetHostPort h a
  | IboxTypes.GetLunsByVolume v => GetLunsByVolume v
  | IboxTypes.GetMaxFileSystems => GetMaxFileSystems
  | IboxTypes.GetFCPorts => GetFCPorts
  | IboxTypes.GetConsistencyGroup id => GetConsistencyGroup id
  | IboxTypes.DeleteConsistencyGroup id => DeleteConsistencyGroup id
  | IboxTypes.CreateSnapshotGroup r => CreateSnapshotGroup r
  | IboxTypes.GetMembersByCGID id => GetMembersByCGID id
  | IboxTypes.AddMemberToCG v cg name => AddMemberToCG v cg name
  | IboxTypes.RemoveMemberFromCG cg m => RemoveMemberFromCG cg m
  | IboxTypes.AddMemberToSnapshotGroup v cg => AddMemberToSnapshotGroup v cg
  | IboxTypes.CreateConsistencyGroup r => CreateConsistencyGroup r
  | IboxTypes.GetLink id => GetLink id
  | IboxTypes.CreateReplica r => CreateReplica r
  | IboxTypes.GetReplicas => GetReplicas
  | IboxTypes.DeleteReplica id => DeleteReplica id
  | IboxTypes.GetReplica id => GetReplica id
  | IboxTypes.GetReplicaForCG cg => GetReplicaForCG cg
  | IboxTypes.GetReplicaForLocalEntityName name => GetReplicaForLocalEntityName name
  | IboxTypes.SuspendReplica id => SuspendReplica id
  | IboxTypes.ResumeReplica id => ResumeReplica id
  | IboxTypes.CreateEvent r => CreateEvent r
  end.
End client.

(** ** The driver over HTTP *)

(** What is left below the driver: HTTP, the cluster, the process. *)
Inductive wire : Type -> Type :=
| Http {X} (c : http X) : wire X
| Cluster {X} (c : kube X) : wire X
| Process {X} (c : os X) : wire X.

Definition over_http (creds : Credentials) (X : Type) (c : call X) : prog wire X :=
  match c with
  | Ibox i => interp (fun _ e => trigger (Http e)) (IboxClient creds i)
  | Kube k => trigger (Cluster k)
  | Os o => trigger (Process o)
  end.
