(* ===== verification/IboxHttpProofs.v ===== *)
(** Correctness of the REST client: which request a method sends, that listings
    read every page, and when an object is reported missing. *)
From S2P Require Import Prelude GoLib IboxTypes Traces Csi IboxHttp.
From stdpp Require Import base strings list gmap.
From Stdlib Require Import ZArith Lia Eqdep.

Local Open Scope string_scope.
Local Open Scope list_scope.

Abbreviation http_trace := (list (evt http)).

(** ** Requests *)

(** The requests a trace tried to send that are not GETs. *)
Definition writes {X} (c : http X) : option request :=
  match c with
  | Do r => match request_method r with GET => None | _ => Some r end
  | _ => None
  end.
Definition sent (t : http_trace) : list request := omap (fun e => match e with Evt c _ => writes c end) t.

Lemma sent_app t t' : sent (t ++ t') = sent t ++ sent t'.
Proof. apply omap_app. Qed.

(** The program sends GETs only, and returns. *)
Definition reading {A} (p : prog http A) : Prop :=
  every (fun X c => writes c = None) p /\ returning p.

Lemma reading_runs {A} (p : prog http A) t o : reading p -> runs p t o -> sent t = [] /\ exists a, o = Done a.
Proof.
  intros [Hp Hr] Ht. split; [|by eapply returning_runs].
  pose proof (every_runs _ _ _ _ Hp Ht) as Hall. clear -Hall.
  induction Hall as [|[X c x] t Hc _ IH]; [done|]. unfold sent in *. cbn. by rewrite Hc.
Qed.

Lemma reading_ret {A} (a : A) : reading (@Ret http A a).
Proof. done. Qed.
Lemma reading_vis {X A} (c : http X) (k : X -> prog http A) :
  writes c = None -> (forall x, reading (k x)) -> reading (Vis c k).
Proof. intros Hc Hk. split; [split; [done|]|]; intros x; apply (Hk x). Qed.
Lemma reading_bind {A B} (p : prog http A) (f : A -> prog http B) :
  reading p -> (forall a, reading (f a)) -> reading (bind p f).
Proof.
  intros [Hp Hr] Hf. split; [apply every_bind|apply ends_bind]; try done; intros a; apply (Hf a).
Qed.

Ltac reading_step :=
  match goal with
  | |- forall _, _ => intros ?
  | |- reading (Ret _) => apply reading_ret
  | |- reading (Vis _ _) => apply reading_vis; [reflexivity|]
  | |- reading (trigger _) => apply reading_vis; [reflexivity|]
  | |- reading (bind _ _) => apply reading_bind
  | |- reading (match ?x with _ => _ end) => destruct x
  | |- reading _ => solve [auto with csi]
  end.
Ltac reading_tac := repeat reading_step.

Section pages_facts.
Context {S R : Type} (step : Z -> S -> prog http (S * Z + R)).

Lemma more_pages_reading n page s : (forall page s, reading (step page s)) -> reading (more_pages step n page s).
Proof. intros Hs. revert page s. induction n as [|n IH]; intros page s; cbn; reading_tac. Qed.
Lemma pages_reading s : (forall page s, reading (step page s)) -> reading (pages step s).
Proof. intros Hs. unfold pages. reading_tac. by apply more_pages_reading. Qed.

(** An invariant of the state, and what is known of an early return. *)
Lemma more_pages_inv (I : S -> Prop) (J : R -> Prop) n page s t x :
  (forall page s t y, runs (step page s) t (Done y) -> I s ->
     match y with inl (s', _) => I s' | inr r => J r end) ->
  I s -> runs (more_pages step n page s) t (Done x) -> match x with inl s' => I s' | inr r => J r end.
Proof.
  intros Hs. revert page s t. induction n as [|n IH]; intros page s t Hi Ht.
  - cbn in Ht. destruct Ht as [_ [= ->]]. done.
  - destruct (runs_bind_inv _ _ _ _ Ht) as [(y & t1 & t2 & -> & H1 & H2)|[[? _]|[? _]]]; [|done..].
    pose proof (Hs _ _ _ _ H1 Hi) as Hy. destruct y as [[s' n']|r]; [by eapply IH|].
    cbn in H2. by destruct H2 as [_ [= ->]].
Qed.
Lemma pages_inv (I : S -> Prop) (J : R -> Prop) s t x :
  (forall t y, runs (step 1 s) t (Done y) -> match y with inl (s', _) => I s' | inr r => J r end) ->
  (forall page s t y, runs (step page s) t (Done y) -> I s ->
     match y with inl (s', _) => I s' | inr r => J r end) ->
  runs (pages step s) t (Done x) -> match x with inl s' => I s' | inr r => J r end.
Proof.
  intros H0 Hs Ht.
  destruct (runs_bind_inv _ _ _ _ Ht) as [(y & t1 & t2 & -> & H1 & H2)|[[? _]|[? _]]]; [|done..].
  pose proof (H0 _ _ H1) as Hy. destruct y as [[s' n']|r].
  - by eapply more_pages_inv.
  - cbn in H2. by destruct H2 as [_ [= ->]].
Qed.
End pages_facts.
#[export] Hint Resolve pages_reading : csi.

Lemma list_step_reading {A} creds g a text url ps page (s : list A) :
  reading (list_step creds g a text url ps page s).
Proof. unfold list_step, commonGetLogic. reading_tac. Qed.
Lemma listing_reading {A} creds g a (text : Response (list A) -> error) url ps :
  reading (listing creds g a text url ps).
Proof. unfold listing. reading_tac. apply pages_reading. intros. apply list_step_reading. Qed.
Lemma Get_reading creds A url ps : reading (Get creds A url ps).
Proof. unfold Get, unmarshal, within, commonGetLogic. reading_tac. Qed.
Lemma ask_reading {A} fail (p : prog http (res (Response A))) : reading p -> reading (ask fail p).
Proof. intros. unfold ask. reading_tac. Qed.
Lemma result_reading {A} (p : prog http (res (Response A))) : reading p -> reading (result p).
Proof. intros. unfold result. reading_tac. Qed.
Lemma first_of_reading {A} (p : prog http (res (Response (list A)))) : reading p -> reading (first_of p).
Proof. intros. unfold first_of. reading_tac. Qed.
Lemma first_before_reading {A} fail (p : prog http (res (Response (list A)))) :
  reading p -> reading (first_before fail p).
Proof. intros. unfold first_before. reading_tac. Qed.
#[export] Hint Resolve listing_reading Get_reading ask_reading result_reading first_of_reading
  first_before_reading : csi.

(** [last_page] sets its variable on the first page. *)
Lemma last_step_reading {A} creds none url ps page s : reading (last_step creds (A:=A) none url ps page s).
Proof. unfold last_step. reading_tac. Qed.
Lemma last_step_set {A} creds none url ps page s t y :
  runs (last_step creds (A:=A) none url ps page s) t (Done y) ->
  match y with inl (s, _) => s <> None | inr _ => True end.
Proof.
  intros Ht. destruct (runs_bind_inv _ _ _ _ Ht) as [([r|e] & t1 & t2 & _ & _ & H2)|[[? _]|[? _]]]; [..|done|done].
  - destruct (Response_Result r); cbn in H2; by destruct H2 as [_ [= ->]].
  - cbn in H2. by destruct H2 as [_ [= ->]].
Qed.
Lemma last_page_runs {A} creds none url ps t o :
  runs (last_page creds (A:=A) none url ps) t o -> sent t = [] /\ exists a, o = Done a.
Proof.
  pose proof (pages_reading _ None (last_step_reading (A:=A) creds none url ps)) as Hp.
  intros Ht. destruct (runs_bind_inv _ _ _ _ Ht) as [(y & t1 & t2 & -> & H1 & H2)|[[_ H1]|[_ H1]]].
  2-3: by destruct (reading_runs _ _ _ Hp H1) as [_ [? [=]]].
  destruct (reading_runs _ _ _ Hp H1) as [Hsent _].
  assert (Hy : match y with inl s => s <> None | inr _ => True end).
  { eapply (pages_inv _ (fun s => s <> None) (fun _ => True)); [..|exact H1]; intros; by eapply last_step_set. }
  rewrite sent_app, Hsent. destruct y as [[a|]|x]; [| done |];
    cbn in H2; destruct H2 as [-> ->]; (split; [done|by eexists]).
Qed.

(** ** One changing request *)

(** The program sends [r] once, or sends nothing and fails, and returns. *)
Definition sends_once {A} (r : request) (p : prog http (res A)) : Prop :=
  forall t o, runs p t o -> exists x, o = Done x /\ (sent t = [r] \/ sent t = [] /\ is_ok x = false).

Lemma sends_once_then {A B} r (p : prog http (res A)) (g : error -> error) (f : A -> prog http (res B)) :
  sends_once r p -> (forall a, reading (f a)) ->
  sends_once r (try a <- p catch err => Ret (Err (g err)) ;; f a).
Proof.
  intros Hp Hf t o Ht. destruct (runs_bind_inv _ _ _ _ Ht) as [(x & t1 & t2 & -> & H1 & H2)|[[_ H1]|[_ H1]]].
  2-3: by destruct (Hp _ _ H1) as (? & [=] & _).
  destruct (Hp _ _ H1) as (? & [= <-] & Hs). rewrite sent_app. destruct x as [a|e].
  - destruct (reading_runs _ _ _ (Hf a) H2) as [-> [y ->]]. exists y. rewrite app_nil_r.
    destruct Hs as [?|[_ [=]]]. auto.
  - cbn in H2. destruct H2 as [-> ->]. rewrite app_nil_r. exists (Err (g e)). naive_solver.
Qed.

Section exchanges.
Context (creds : Credentials) (url : string) (ps : gmap string string).

Definition json_headers : gmap string (list string) :=
  header_Set CONTENT_TYPE JSON_CONTENT_TYPE (SetAuthHeader creds ∅).

Ltac exchange :=
  unfold sends_once, commonPostLogic, commonPutLogic, commonDeleteLogic;
  wp_start; wp_run; wp_leaf; eexists; (split; [reflexivity|]);
  first [left; reflexivity | right; split; reflexivity].
Lemma commonPostLogic_once v :
  sends_once (MkRequest POST url ps json_headers (Some v)) (commonPostLogic creds url ps v).
Proof. exchange. Qed.
Lemma commonPutLogic_once v :
  sends_once (MkRequest PUT url ps json_headers (Some v)) (commonPutLogic creds url ps v).
Proof. exchange. Qed.
Lemma commonDeleteLogic_once n r :
  sends_once (MkRequest DELETE url ps (SetAuthHeader creds ∅) None) (commonDeleteLogic creds n r url ps).
Proof. exchange. Qed.
End exchanges.

Lemma unmarshal_once {A} r text p : sends_once r p -> sends_once r (unmarshal (A:=A) text p).
Proof.
  intros Hp. apply (sends_once_then r p id); [done|]. reading_tac.
Qed.
Lemma within_once {A} r stage url (p : prog http (res A)) : sends_once r p -> sends_once r (within stage url p).
Proof. intros Hp. apply (sends_once_then r p (fun err => failed stage err url)); [done|]. reading_tac. Qed.
Lemma ask_once {A} r fail (p : prog http (res (Response A))) : sends_once r p -> sends_once r (ask fail p).
Proof. intros Hp. apply (sends_once_then r p id); [done|]. reading_tac. Qed.
Lemma result_once {A} r (p : prog http (res (Response A))) : sends_once r p -> sends_once r (result p).
Proof. intros Hp. apply (sends_once_then r p id); [done|]. reading_tac. Qed.
#[export] Hint Resolve commonPostLogic_once commonPutLogic_once commonDeleteLogic_once unmarshal_once
  within_once ask_once result_once : csi.

(** The error a method answers. *)
Definition error_of_res {A} (r : res A) : option error := match r with Ok _ => None | Err e => Some e end.
Definition error_of {X} (c : ibox X) : X -> option error :=
  match c with
  | IboxTypes.GetFeatures | IboxTypes.GetVolumesByParentID _ | IboxTypes.GetAllLunByHost _
  | IboxTypes.GetFileSystemsByPool _ _ | IboxTypes.GetFileSystemsByParentID _
  | IboxTypes.GetTreeqsByFileSystem _ | IboxTypes.GetExportsByFileSystemID _ | IboxTypes.GetMetadata _
  | IboxTypes.GetNtpStatus | IboxTypes.GetLinks | IboxTypes.GetAllSnapshots | IboxTypes.GetAllHosts
  | IboxTypes.GetLunsByVolume _ | IboxTypes.GetFCPorts | IboxTypes.GetMembersByCGID _
  | IboxTypes.GetReplicas => snd
  | IboxTypes.DeleteFileSystem _ | IboxTypes.DeleteConsistencyGroup _ | IboxTypes.AddMemberToCG _ _ _
  | IboxTypes.RemoveMemberFromCG _ _ | IboxTypes.AddMemberToSnapshotGroup _ _
  | IboxTypes.DeleteReplica _ | IboxTypes.SuspendReplica _ | IboxTypes.ResumeReplica _
  | IboxTypes.CreateEvent _ => id
  | IboxTypes.GetPoolByName _ | IboxTypes.GetPoolByID _ | IboxTypes.DeleteVolume _ | IboxTypes.GetVolumeByName _
  | IboxTypes.GetVolume _ | IboxTypes.UpdateVolume _ _ | IboxTypes.CreateSnapshotVolume _
  | IboxTypes.PromoteSnapshot _ | IboxTypes.GetNetworkSpaceByName _ | IboxTypes.GetHostByName _
  | IboxTypes.CreateHost _ | IboxTypes.DeleteHost _ | IboxTypes.MapVolumeToHost _ _ _
  | IboxTypes.GetLunByHostVolume _ _ | IboxTypes.UnMapVolumeFromHost _ _ | IboxTypes.CreateVolume _
  | IboxTypes.GetMaxTreeqPerFs | IboxTypes.GetFileSystemByName _ | IboxTypes.GetFileSystemByID _
  | IboxTypes.CreateFileSystem _ | IboxTypes.UpdateFileSystem _ _ | IboxTypes.CreateFileSystemSnapshot _
  | IboxTypes.UpdateTreeq _ _ _ | IboxTypes.CreateTreeq _ _ | IboxTypes.DeleteTreeq _ _
  | IboxTypes.GetTreeq _ _ | IboxTypes.GetTreeqByName _ _ | IboxTypes.GetExportByID _
  | IboxTypes.DeleteExport _ | IboxTypes.CreateExport _ | IboxTypes.UpdateExportPermissions _ _
  | IboxTypes.PutMetadata _ _ | IboxTypes.DeleteMetadata _ | IboxTypes.GetConsistencyGroupByName _
  | IboxTypes.GetSystem | IboxTypes.AddHostSecurity _ _ | IboxTypes.AddHostPort _ _ _
  | IboxTypes.GetHostPort _ _ | IboxTypes.GetMaxFileSystems | IboxTypes.GetConsistencyGroup _
  | IboxTypes.CreateSnapshotGroup _ | IboxTypes.CreateConsistencyGroup _ | IboxTypes.GetLink _
  | IboxTypes.CreateReplica _ | IboxTypes.GetReplica _ | IboxTypes.GetReplicaForCG _
  | IboxTypes.GetReplicaForLocalEntityName _ => error_of_res
  end.

(** The REST contract: the request that carries out a changing call. *)
Section contract.
Context (creds : Credentials).
Let at_ (path : string) : string := Credentials_URL creds +:+ path.
Let post (path : string) (ps : gmap string string) (v : body) : option request :=
  Some (MkRequest POST (at_ path) ps (json_headers creds) (Some v)).
Let put (path : string) (ps : gmap string string) (v : body) : option request :=
  Some (MkRequest PUT (at_ path) ps (json_headers creds) (Some v)).
Let delete (path : string) (ps : gmap string string) : option request :=
  Some (MkRequest DELETE (at_ path) ps (SetAuthHeader creds ∅) None).
Let yes : gmap string string := {["approved" := "true"]}.

Definition request_of {X} (c : ibox X) : option request :=
  match c with
  | IboxTypes.CreateVolume r => post "api/rest/volumes" ∅ (BCreateVolume r)
  | IboxTypes.CreateSnapshotVolume r =>
      post "api/rest/volumes" (if (0 <? CreateSnapshotVolumeRequest_LockExpiresAt r)%Z then yes else ∅)
        (BCreateSnapshotVolume r)
  | IboxTypes.PromoteSnapshot id => post ("api/rest/volumes/" +:+ Itoa id +:+ "/promote") yes (BString "")
  | IboxTypes.UpdateVolume id v => put ("api/rest/volumes//" +:+ Itoa id) ∅ (BVolume v)
  | IboxTypes.DeleteVolume id => delete ("api/rest/volumes/" +:+ Itoa id) yes
  | IboxTypes.CreateHost name => post "api/rest/hosts" ∅ (BCreateHost (MkCreateHostPost name))
  | IboxTypes.DeleteHost id => delete ("api/rest/hosts//" +:+ Itoa id +:+ "") ∅
  | IboxTypes.MapVolumeToHost h v _ =>
      post ("api/rest/hosts/" +:+ Itoa h +:+ "/luns") yes (BMapVolumeToHost (MkMapVolumeToHostRequest v))
  | IboxTypes.UnMapVolumeFromHost h v =>
      delete ("api/rest/hosts//" +:+ Itoa h +:+ "/luns/volume_id/" +:+ Itoa v) yes
  | IboxTypes.AddHostSecurity chap h =>
      let cred key := default "" (chap !! key) in
      put ("api/rest/hosts//" +:+ Itoa h +:+ "") yes
        (BAddHostSecurity (MkAddHostSecurityRequest (cred "security_method")
           (cred "security_chap_inbound_username") (cred "security_chap_inbound_secret")
           (cred "security_chap_outbound_username") (cred "security_chap_outbound_secret")))
  | IboxTypes.AddHostPort t a h =>
      post ("api/rest/hosts/" +:+ Itoa h +:+ "/ports") yes (BAddPort (MkAddPortRequest t a))
  | IboxTypes.CreateFileSystem r => post "api/rest/filesystems" ∅ (BCreateFileSystem r)
  | IboxTypes.CreateFileSystemSnapshot s => post "api/rest/filesystems" yes (BFileSystemSnapshot s)
  | IboxTypes.UpdateFileSystem id fs => put ("api/rest/filesystems//" +:+ Itoa id) ∅ (BFileSystem fs)
  | IboxTypes.DeleteFileSystem id => delete ("api/rest/filesystems/" +:+ Itoa id) yes
  | IboxTypes.CreateTreeq fs r =>
      post ("api/rest/filesystems/" +:+ Itoa fs +:+ "/treeqs" +:+ "") ∅ (BCreateTreeq r)
  | IboxTypes.UpdateTreeq fs t b =>
      put ("api/rest/filesystems/" +:+ Itoa fs +:+ "/treeqs" +:+ "/" +:+ Itoa t) ∅ (BUpdateTreeq b)
  | IboxTypes.DeleteTreeq fs t => delete ("api/rest/filesystems/" +:+ Itoa fs +:+ "/treeq/" +:+ Itoa t) ∅
  | IboxTypes.CreateExport r => post "api/rest/exports" ∅ (BCreateExport r)
  | IboxTypes.UpdateExportPermissions e p =>
      put ("api/rest/exports/" +:+ Itoa (Export_ID e)) yes
        (BUpdateExport (MkUpdateExportPathRef (ExportPathRef_Permissions p)))
  | IboxTypes.DeleteExport id => delete ("api/rest/exports/" +:+ Itoa id) yes
  | IboxTypes.PutMetadata id m => put ("api/rest/metadata//" +:+ Itoa id) ∅ (BMetadata m)
  | IboxTypes.DeleteMetadata id => delete ("api/rest/metadata/" +:+ Itoa id) yes
  | IboxTypes.CreateConsistencyGroup r =>
      post "api/rest/cgs" {["replicate_to_async_target" := "false"]} (BCreateConsistencyGroup r)
  | IboxTypes.CreateSnapshotGroup r => post "api/rest/cgs" ∅ (BCreateSnapshotGroup r)
  | IboxTypes.DeleteConsistencyGroup id =>
      delete ("api/rest/cgs/" +:+ Itoa id) (<["delete_members" := "true"]> yes)
  | IboxTypes.AddMemberToSnapshotGroup v cg =>
      post ("api/rest/cgs/" +:+ Itoa cg +:+ "/members") yes
        (BAddMemberToSnapshotGroup (MkAddMemberToSnapshotGroupRequest v))
  | IboxTypes.AddMemberToCG v cg name =>
      post ("api/rest/cgs/" +:+ Itoa cg +:+ "/members") yes
        (BAddMemberToCG (MkAddMemberToCGRequest v (MkActiveActiveInfo "NEW" name)
                           (MkReplicationPairInfo v name "NO_BASE_DATA" "CREATE") ""))
  | IboxTypes.RemoveMemberFromCG cg m =>
      delete ("api/rest/cgs/" +:+ Itoa cg +:+ "/members/" +:+ Itoa m) yes
  | IboxTypes.CreateReplica r => post "api/rest/replicas" yes (BCreateReplica r)
  | IboxTypes.DeleteReplica id => delete ("api/rest/replicas/" +:+ Itoa id +:+ "") yes
  | IboxTypes.SuspendReplica id => post ("api/rest/replicas/" +:+ Itoa id +:+ "/suspend") yes (BString "")
  | IboxTypes.ResumeReplica id => post ("api/rest/replicas/" +:+ Itoa id +:+ "/resume") yes (BString "")
  | IboxTypes.CreateEvent r => post "api/rest/events" ∅ (BEvent r)
  | _ => None
  end.
End contract.

(** Exactly the calls that change the array have one. *)
Lemma request_of_changes creds {X} (c : ibox X) : changes c = bool_decide (is_Some (request_of creds c)).
Proof. by destruct c. Qed.

(** What a call does over HTTP: it returns; it sends the request of its contract
    once, or nothing and fails; without a contract it only reads. *)
Definition keeps_contract {X} (contract : option request) (failure : X -> option error) (t : http_trace)
    (o : outcome X) : Prop :=
  exists x, o = Done x /\
    match contract with
    | None => sent t = []
    | Some r => sent t = [r] \/ sent t = [] /\ failure x <> None
    end.

Lemma once_contract {A} r (p : prog http (res A)) t o :
  sends_once r p -> runs p t o -> keeps_contract (Some r) error_of_res t o.
Proof.
  intros Hp Ht. destruct (Hp _ _ Ht) as (x & -> & Hs). exists x. split; [done|].
  destruct Hs as [?|[? Hx]]; [by left|right]. split; [done|]. by destruct x.
Qed.
Lemma done_contract {A} r (p : prog http (res A)) t o :
  sends_once r p -> runs (done p) t o -> keeps_contract (Some r) id t o.
Proof.
  intros Hp Ht. destruct (runs_bind_inv _ _ _ _ Ht) as [(x & t1 & t2 & -> & H1 & H2)|[[_ H1]|[_ H1]]].
  2-3: by destruct (Hp _ _ H1) as (? & [=] & _).
  destruct (Hp _ _ H1) as (? & [= <-] & Hs). cbn in H2. destruct H2 as [-> ->]. rewrite app_nil_r.
  eexists. split; [done|]. destruct Hs as [?|[? Hx]]; [by left|right]. split; [done|]. by destruct x.
Qed.
Lemma reading_contract {A} (p : prog http A) failure t o :
  reading p -> runs p t o -> keeps_contract None failure t o.
Proof. intros Hp Ht. destruct (reading_runs _ _ _ Hp Ht) as [? [x ->]]. by exists x. Qed.
Lemma last_page_contract {A} creds none url ps failure t o :
  runs (last_page creds (A:=A) none url ps) t o -> keeps_contract None failure t o.
Proof. intros Ht. destruct (last_page_runs _ _ _ _ _ _ Ht) as [? [x ->]]. by exists x. Qed.

Lemma GetLunByHostVolume_reading creds h v : reading (GetLunByHostVolume creds h v).
Proof. unfold GetLunByHostVolume. reading_tac. apply pages_reading. intros. unfold lun_step. reading_tac. Qed.
#[local] Hint Resolve GetLunByHostVolume_reading : csi.

(** Follow a method through the wrappings to its exchange. *)
Ltac unfold_method p := let q := head_of p in let h := head_fun q in progress unfold h; cbv zeta.
Ltac once_step :=
  match goal with
  | |- sends_once _ (result _) => apply result_once
  | |- sends_once _ (ask _ _) => apply ask_once
  | |- sends_once _ (unmarshal _ _) => apply unmarshal_once
  | |- sends_once _ (within _ _ _) => apply within_once
  | |- sends_once _ (commonPostLogic _ _ _ _) => apply commonPostLogic_once
  | |- sends_once _ (commonPutLogic _ _ _ _) => apply commonPutLogic_once
  | |- sends_once _ (commonDeleteLogic _ _ _ _ _) => apply commonDeleteLogic_once
  | |- sends_once _ ?p => unfold_method p
  end.
Ltac contract_step :=
  lazymatch goal with
  | |- runs (last_page _ _ _ _) _ _ -> _ => apply last_page_contract
  | |- runs (done _) _ _ -> _ => apply done_contract; repeat once_step
  | |- runs ?p _ _ -> keeps_contract None _ _ _ =>
      first [apply reading_contract; solve [reading_tac] | unfold_method p; contract_step]
  | |- runs ?p _ _ -> keeps_contract (Some _) _ _ _ =>
      first [unfold_method p; lazymatch goal with |- runs (done _) _ _ -> _ => contract_step end
            |apply once_contract; repeat once_step]
  end.

Lemma IboxClient_contract creds X (c : ibox X) t o :
  runs (IboxClient creds c) t o -> keeps_contract (request_of creds c) (error_of c) t o.
Proof.
  destruct c; cbn [IboxClient request_of error_of]; contract_step.
Qed.

(** ** Handlers over HTTP *)

Definition example_creds : Credentials := MkCredentials "admin" "123456" "https://ibox/".
Definition example_headers : gmap string (list string) := SetAuthHeader example_creds ∅.
Example basic_auth :
  example_headers !! "Authorization" = Some ["Basic YWRtaW46MTIzNDU2"].
Proof. vm_compute. reflexivity. Qed.

(** The changing requests of a trace below a handler. *)
Definition wire_sent (u : list (evt wire)) : list request :=
  omap (fun e => match e with Evt c _ => match c with Http h => writes h | _ => None end end) u.

Definition event_request (creds : Credentials) (e : evt call) : option request :=
  match e with Evt c _ => match c with Ibox i => request_of creds i | _ => None end end.
Definition event_failed (e : evt call) : Prop :=
  match e with
  | Evt c x => match c in call X return X -> Prop with Ibox i => fun x => error_of i x <> None | _ => fun _ => False end x
  end.

(** The requests of a handler's changing calls, in order; a call that failed may
    have sent nothing. *)
Inductive carried (creds : Credentials) : trace -> list request -> Prop :=
| carried_nil : carried creds [] []
| carried_sent e t r l : event_request creds e = Some r -> carried creds t l -> carried creds (e :: t) (r :: l)
| carried_none e t l : event_request creds e = None \/ event_failed e -> carried creds t l -> carried creds (e :: t) l.

Lemma wire_sent_app u v : wire_sent (u ++ v) = wire_sent u ++ wire_sent v.
Proof. apply omap_app. Qed.

(** The client's trace, seen below the handler. *)
Definition wired (t : http_trace) : list (evt wire) := map (fun e => match e with Evt c x => Evt (Http c) x end) t.
Lemma wire_sent_wired t : wire_sent (wired t) = sent t.
Proof. induction t as [|[X c x] t IH]; [done|]. cbn. destruct (writes c); [f_equal|]; exact IH. Qed.
Lemma interp_wired {A} (p : prog http A) u o :
  runs (interp (fun _ e => trigger (Http e)) p) u o -> exists t, u = wired t /\ runs p t o.
Proof.
  revert u. induction p as [a| | |X e k IH]; cbn; intros u Hu; [destruct Hu as [-> ->]; by exists []..|].
  destruct Hu as (x & u' & -> & Hu). destruct (IH x u' Hu) as (t & -> & Ht).
  exists (Evt e x :: t). split; [done|]. eauto.
Qed.


Lemma over_http_call creds X (c : call X) u o :
  runs (over_http creds X c) u o ->
  exists x, o = Done x /\
    forall t l, carried creds t l -> carried creds (Evt c x :: t) (wire_sent u ++ l).
Proof.
  destruct c as [X i|X k|X s]; cbn.
  2-3: intros (x & ? & -> & -> & ->); exists x; split; [done|]; intros t l Ht; apply carried_none; [by left|done].
  intros Hu. destruct (interp_wired _ _ _ Hu) as (v & -> & Hv). rewrite wire_sent_wired.
  destruct (IboxClient_contract _ _ _ _ _ Hv) as (x & -> & Hs). exists x. split; [done|]. intros t l Ht.
  destruct (request_of creds i) as [r|] eqn:Hr.
  - destruct Hs as [->|[-> Hx]]; cbn; [by apply carried_sent|]. apply carried_none; [by right|done].
  - rewrite Hs. apply carried_none; [by left|done].
Qed.

(** C24: Over HTTP every call of the array's interface returns, and a run of any
    handler over the client is a run of the handler over the interface, with the
    same outcome, in which what reaches the array besides GETs is, in order, the
    request its contract names for each changing call; only a call that answers
    an error may have sent nothing. So what is proved of a handler's changes
    holds of the requests on the wire. *)
Theorem over_http_requests creds A (p : prog call A) u o :
  runs (interp (over_http creds) p) u o ->
  exists t, runs p t o /\ carried creds t (wire_sent u) /\ (readonly t -> wire_sent u = []).
Proof.
  intros Hu.
  assert (exists t, runs p t o /\ carried creds t (wire_sent u)) as (t & Ht & Hc).
  { revert u Hu. induction p as [a| | |X c k IH]; cbn; intros u Hu.
    1-3: destruct Hu as [-> ->]; exists []; (split; [done|constructor]).
    destruct (runs_bind_inv _ _ _ _ Hu) as [(x & u1 & u2 & -> & H1 & H2)|[[_ H1]|[_ H1]]].
    2-3: by destruct (over_http_call _ _ _ _ _ H1) as (? & [=] & _).
    destruct (over_http_call _ _ _ _ _ H1) as (? & [= <-] & Hc). destruct (IH x u2 H2) as (t & Ht & Hl).
    exists (Evt c x :: t). split; [eauto|]. rewrite wire_sent_app. by apply Hc. }
  exists t. split_and!; [done..|]. clear -Hc.
  induction Hc as [|[X c x] t r l He _ IH|e t l _ _ IH]; [done|..]; rewrite readonly_cons; intros [Hm Hro].
  - destruct c as [X i| |]; [|done..]. cbn in Hm, He. rewrite (request_of_changes creds), He in Hm. done.
  - by apply IH.
Qed.

Lemma over_http_requests_witness :
  let creds := example_creds in
  let r := MkRequest DELETE "https://ibox/api/rest/volumes/7" {["approved" := "true"]} (SetAuthHeader creds ∅) None in
  let p := iboxAPI (IboxTypes.DeleteVolume 7) in
  exists t, runs p t (Done (Ok (MkResponse Metadata_zero Volume_zero APIError_zero))) /\
    carried creds t [r] /\ (readonly t -> [r] = []).
Proof.
  intros creds r p.
  apply (over_http_requests creds _ p
    [Evt (Http (NewRequest DELETE "https://ibox/api/rest/volumes/7")) (Ok tt); Evt (Http (Do r)) (Ok tt);
     Evt (Http ReadAll) ("{}", None);
     Evt (Http (Unmarshal (Response Volume) "{}")) (Ok (MkResponse Metadata_zero Volume_zero APIError_zero))]).
  eexists _, _. split; [reflexivity|]. eexists _, _. split; [reflexivity|]. eexists _, _. split; [reflexivity|].
  eexists _, _. split; [reflexivity|]. cbn. by split.
Defined.

(** ** Listings *)

(** A page of [whole], pages counted from 1, and a total that leaves nothing
    behind. *)
Definition page_of {A} (whole : list A) (page : Z) : list A :=
  take (Z.to_nat IBOXDefaultQueryPageSize) (drop (Z.to_nat (IBOXDefaultQueryPageSize * (page - 1))) whole).
Definition served {A} (whole : list A) (page : Z) (r : Response (list A)) : Prop :=
  Response_Result r = page_of whole page /\
  (Z.of_nat (length whole) <=
   IBOXDefaultQueryPageSize * Z.max 1 (Metadata_PagesTotal (Response_Metadata r)))%Z.
(** In the trace [t] the array serves [whole]: what it answers to the request of
    a page, unless an error object, is that page. *)
Definition serves {A} (url : string) (ps : gmap string string) (whole : list A) (t : http_trace) : Prop :=
  forall u v page headers b (r : Response (list A)),
    t = u ++ Evt (Do (MkRequest GET url (page_parameters page ps) headers None)) (Ok tt) :: Evt ReadAll b
          :: Evt (Unmarshal (Response (list A)) (fst b)) (Ok r) :: v ->
    (1 <= page)%Z -> APIError_Code (Response_Error r) = "" -> served whole page r.

Lemma serves_app {A} url ps (whole : list A) t t' :
  serves url ps whole (t ++ t') -> serves url ps whole t /\ serves url ps whole t'.
Proof.
  intros H. split; intros u v page headers b r ->.
  - apply (H u (v ++ t') page headers b r). by rewrite <- app_assoc.
  - apply (H (t ++ u) v page headers b r). by rewrite <- app_assoc.
Qed.

Lemma take_page {A} (whole : list A) page :
  (1 <= page)%Z ->
  take (Z.to_nat (IBOXDefaultQueryPageSize * (page - 1))) whole ++ page_of whole page =
  take (Z.to_nat (IBOXDefaultQueryPageSize * page)) whole.
Proof.
  intros Hp. unfold page_of, IBOXDefaultQueryPageSize. rewrite take_take_drop. f_equal. lia.
Qed.

Section listing_facts.
Context {A : Type} (creds : Credentials) (on_get on_api : on_failure) (text : Response (list A) -> error).
Context (url : string) (ps : gmap string string) (whole : list A).
Abbreviation step := (list_step creds on_get on_api text url ps).
Let upto (page : Z) : list A := take (Z.to_nat (IBOXDefaultQueryPageSize * page)) whole.
Let partial (x : slice A) : Prop := fst x `prefix_of` whole /\ snd x <> None.

Lemma prefix_so_far f page : so_far f (upto page) `prefix_of` whole.
Proof. destruct f; cbn; [eexists; symmetry; apply take_drop|apply prefix_nil]. Qed.


Lemma commonGetLogic_runs page t o :
  runs (commonGetLogic creds url (page_parameters page ps)) t o ->
  match o with
  | Done (Ok bytes) =>
      exists x, t = [Evt (NewRequest GET url) x;
                     Evt (Do (MkRequest GET url (page_parameters page ps) (SetAuthHeader creds ∅) None)) (Ok tt);
                     Evt ReadAll (bytes, None)]
  | Done (Err _) => True
  | _ => False
  end.
Proof.
  revert t o. unfold commonGetLogic. wp_start. wp_run; wp_leaf; try done.
  eexists. by repeat match goal with x : unit |- _ => destruct x end.
Qed.

Lemma list_step_serves page t y :
  (1 <= page)%Z -> serves url ps whole t -> runs (step page (upto (page - 1))) t (Done y) ->
  match y with
  | inl (s, total) =>
      s = upto page /\ (Z.of_nat (length whole) <= IBOXDefaultQueryPageSize * Z.max 1 total)%Z
  | inr x => partial x
  end.
Proof.
  intros Hpage Hs Ht.
  destruct (runs_bind_inv _ _ _ _ Ht) as [([bytes|e] & t1 & t2 & -> & H1 & H2)|[[? _]|[? _]]]; [..|done|done].
  2: { cbn in H2. destruct H2 as [_ [= ->]]. split; [apply prefix_so_far|done]. }
  destruct (commonGetLogic_runs _ _ _ H1) as [x ->].
  destruct (runs_call_inv _ _ _ _ H2) as ([r|e] & t3 & -> & H3).
  2: { cbn in H3. destruct H3 as [_ [= ->]]. split; [apply (prefix_so_far Keep)|done]. }
  case_decide as Hcode; cbn in H3; destruct H3 as [-> [= ->]].
  - destruct (Hs [_] [] page _ (_, _) r eq_refl Hpage Hcode) as [-> Htotal].
    split; [by apply take_page|done].
  - split; [apply prefix_so_far|done].
Qed.

Lemma more_pages_serves n page t y :
  (1 <= page)%Z -> serves url ps whole t -> runs (more_pages step n (page + 1) (upto page)) t (Done y) ->
  match y with inl s => s = upto (page + Z.of_nat n) | inr x => partial x end.
Proof.
  revert page t. induction n as [|n IH]; intros page t Hpage Hs Ht.
  - cbn in Ht. destruct Ht as [_ [= ->]]. f_equal. lia.
  - destruct (runs_bind_inv _ _ _ _ Ht) as [(x & t1 & t2 & -> & H1 & H2)|[[? _]|[? _]]]; [|done..].
    apply serves_app in Hs as [Hs1 Hs2].
    replace (upto page) with (upto (page + 1 - 1)) in H1 by (f_equal; lia).
    pose proof (list_step_serves (page + 1) t1 x ltac:(lia) Hs1 H1) as Hx.
    destruct x as [[s total]|x].
    + destruct Hx as [-> _]. specialize (IH (page + 1)%Z t2 ltac:(lia) Hs2 H2).
      destruct y; [|done]. rewrite IH. f_equal. lia.
    + cbn in H2. by destruct H2 as [_ [= ->]].
Qed.

(** All of [whole], or a prefix beside an error. *)
Definition complete (x : slice A) : Prop :=
  match snd x with None => fst x = whole | Some _ => fst x `prefix_of` whole end.
Lemma listing_complete t x :
  serves url ps whole t -> runs (listing creds on_get on_api text url ps) t (Done x) -> complete x.
Proof.
  intros Hs Ht.
  destruct (runs_bind_inv _ _ _ _ Ht) as [(y & t1 & t2 & -> & H1 & H2)|[[? _]|[? _]]]; [|done..].
  apply serves_app in Hs as [Hs _].
  assert (Hy : match y with inl s => s = whole | inr x => partial x end).
  { destruct (runs_bind_inv _ _ _ _ H1) as [(z & u & v & -> & Hu & Hv)|[[? _]|[? _]]]; [|done..].
    apply serves_app in Hs as [Hs1 Hs2].
    pose proof (list_step_serves 1 u z ltac:(lia) Hs1 Hu) as Hz. destruct z as [[s total]|z].
    - destruct Hz as [-> Htotal].
      pose proof (more_pages_serves _ 1 v y ltac:(lia) Hs2 Hv) as Hm. destruct y; [|done]. subst.
      apply take_ge. unfold IBOXDefaultQueryPageSize in *. lia.
    - cbn in Hv. by destruct Hv as [_ [= ->]]. }
  destruct y as [s|[l e]]; cbn in H2; destruct H2 as [_ [= ->]]; [done|].
  destruct Hy as [Hp He]. unfold complete. cbn in *. by destruct e.
Qed.
End listing_facts.

Section listed.
Context (creds : Credentials).
Let lists {A} (path : string) (ps : gmap string string) (t : http_trace) (x : slice A) : Prop :=
  forall whole : list A, serves (Credentials_URL creds +:+ path) ps whole t -> complete whole x.

(** The collection and the filter behind each listing of the interface. *)
Definition listed {X} (c : ibox X) : http_trace -> X -> Prop :=
  match c with
  | IboxTypes.GetLunsByVolume id => lists ("api/rest/volumes/" +:+ Itoa id +:+ "/luns") ∅
  | IboxTypes.GetVolumesByParentID id => lists "api/rest/volumes" {["parent_id" := Itoa id]}
  | IboxTypes.GetAllSnapshots => lists "api/rest/datasets" {["type" := "SNAPSHOT"]}
  | IboxTypes.GetAllHosts => lists "api/rest/hosts" ∅
  | IboxTypes.GetAllLunByHost id => lists ("api/rest/hosts//" +:+ Itoa id +:+ "/luns") ∅
  | IboxTypes.GetFileSystemsByPool id prefix =>
      lists "api/rest/filesystems" {["pool_id" := Itoa id; "name" := "like:" +:+ prefix]}
  | IboxTypes.GetFileSystemsByParentID id => lists "api/rest/filesystems" {["parent_id" := Itoa id]}
  | IboxTypes.GetExportsByFileSystemID id => lists "api/rest/exports" {["filesystem_id" := Itoa id]}
  | IboxTypes.GetTreeqsByFileSystem id =>
      lists ("api/rest/filesystems/" +:+ Itoa id +:+ "/treeqs" +:+ "") ∅
  | IboxTypes.GetMetadata id => lists ("api/rest/metadata/" +:+ Itoa id) ∅
  | IboxTypes.GetLinks => lists "api/rest/links" ∅
  | IboxTypes.GetNtpStatus => lists "api/rest/system/ntp_status" ∅
  | IboxTypes.GetMembersByCGID id => lists ("api/rest/cgs/" +:+ Itoa id +:+ "/members") ∅
  | IboxTypes.GetReplicas => lists "api/rest/replicas" ∅
  | _ => fun _ _ => True
  end.
End listed.

(** C25: A listing reads all pages. When, in a run of one of the fourteen listing
    methods, the array serves a list under the method's URL and filter in pages
    of the size the client asks for, the method answers exactly that list, or an
    error beside a prefix of it. *)
Theorem IboxClient_lists_everything creds X (c : ibox X) t x :
  runs (IboxClient creds c) t (Done x) -> listed creds c t x.
Proof.
  intros Hx. destruct c; try exact I; intros whole Hs; exact (listing_complete _ _ _ _ _ _ _ _ _ Hs Hx).
Qed.
Definition answer_of (e : evt http) : {X : Type & X} := match e with Evt c x => existT _ x end.

(** A collection of one page. *)
Lemma serves_one_page {A} url ps headers x bytes (r0 : Response (list A)) :
  (Z.of_nat (length (Response_Result r0)) <= IBOXDefaultQueryPageSize)%Z ->
  serves url ps (Response_Result r0)
    [Evt (NewRequest GET url) x;
     Evt (Do (MkRequest GET url (page_parameters 1 ps) headers None)) (Ok tt); Evt ReadAll bytes;
     Evt (Unmarshal (Response (list A)) (fst bytes)) (Ok r0)].
Proof.
  intros Hlen u v page h b r Ht Hpage _.
  assert (u = [Evt (NewRequest GET url) x]) as ->.
  { destruct u as [|e0 [|e1 [|e2 [|e3 u]]]]; injection Ht; try done; intros; subst; try done.
    by destruct u. }
  assert (r0 = r) as <-.
  { pose proof (f_equal (fun l => match l with _ :: _ :: _ :: e :: _ => answer_of e | _ => existT (unit : Type) tt end) Ht) as Hr.
    cbn in Hr. apply inj_pair2 in Hr. by injection Hr. }
  assert (page = 1%Z) as ->.
  { injection Ht as Hp _ _ _ _. apply (f_equal (lookup PARAMETER_PAGE)) in Hp.
    unfold page_parameters in Hp. rewrite !(lookup_insert_ne _ PARAMETER_PAGE_SIZE), !lookup_insert in Hp by done.
    injection Hp as Hp. apply (f_equal parse_decimal) in Hp. rewrite !parse_Itoa in Hp. congruence. }
  split; [|unfold IBOXDefaultQueryPageSize in *; lia].
  unfold page_of. cbn. symmetry. apply take_ge. unfold IBOXDefaultQueryPageSize in *. lia.
Qed.

Lemma IboxClient_lists_everything_witness :
  let url := "https://ibox/api/rest/links" in
  let link := Link_of 1 "ibox2" "ibox2" 2 "UP" in
  let r := MkResponse (Metadata_of 1) [link] APIError_zero in
  let t := [Evt (NewRequest GET url) (Ok tt);
            Evt (Do (MkRequest GET url (page_parameters 1 ∅) (SetAuthHeader example_creds ∅) None)) (Ok tt);
            Evt ReadAll ("{}", None); Evt (Unmarshal (Response (list Link)) "{}") (Ok r)] in
  runs (IboxClient example_creds IboxTypes.GetLinks) t (Done ([link], None)) /\ complete [link] ([link], None).
Proof.
  intros url link r t.
  assert (Hr : runs (IboxClient example_creds IboxTypes.GetLinks) t (Done ([link], None))).
  { do 4 (eexists _, _; split; [reflexivity|]). cbn. by split. }
  split; [exact Hr|]. apply (IboxClient_lists_everything example_creds _ _ _ _ Hr).
  apply (serves_one_page url ∅ _ _ ("{}", None) r). cbn. unfold IBOXDefaultQueryPageSize. lia.
Defined.
