(* ===== verification/IboxMissing.v ===== *)
(** When the REST client reports an object missing: only when the array did. *)
From S2P Require Import Prelude GoLib IboxTypes Traces Csi IboxHttp IboxHttpProofs.
From stdpp Require Import base strings list gmap.
From Stdlib Require Import ZArith Lia.

Local Open Scope string_scope.
Local Open Scope list_scope.

Abbreviation http_trace := (list (evt http)).

(** ** Missing objects *)

(** No error of Go's runtime is the client's [ErrNotFound]. *)
Definition runtime_error {X} (c : http X) : X -> option error :=
  match c with
  | Marshal _ | NewRequest _ _ | Do _ | Unmarshal _ _ => error_of_res
  | ReadAll => snd
  end.
Definition sound (t : http_trace) : Prop :=
  Forall (fun e => match e with Evt c x => forall err, runtime_error c x = Some err -> is_ErrNotFound err = false end) t.

Lemma sound_app t t' : sound (t ++ t') <-> sound t /\ sound t'.
Proof. apply Forall_app. Qed.
Lemma sound_cons {X} (c : http X) x t :
  sound (Evt c x :: t) -> (forall e, runtime_error c x = Some e -> is_ErrNotFound e = false) /\ sound t.
Proof. intros H. by apply Forall_cons in H. Qed.

(** What the array answered. *)
Definition answered {A} (P : Response A -> Prop) (t : http_trace) : Prop :=
  exists b r, Evt (Unmarshal (Response A) b) (Ok r) ∈ t /\ P r.
Definition said (codes : list string) (t : http_trace) : Prop :=
  exists A, answered (fun r : Response A => APIError_Code (Response_Error r) ∈ codes) t.
Definition empty (t : http_trace) : Prop :=
  exists A, answered (fun r : Response (list A) => Response_Result r = []) t.

(** A claim about the answers holds of longer traces. *)
Definition lasting (R : http_trace -> Prop) : Prop := forall u t v, R t -> R (u ++ t ++ v).
Lemma answered_lasting {A} (P : Response A -> Prop) : lasting (answered P).
Proof. intros u t v (b & r & Hin & Hr). exists b, r. split; [|done]. set_solver. Qed.
Lemma said_lasting codes : lasting (said codes).
Proof. intros u t v [A H]. exists A. by apply answered_lasting. Qed.
Lemma empty_lasting : lasting empty.
Proof. intros u t v [A H]. exists A. by apply answered_lasting. Qed.
Lemma lasting_right R t v : lasting R -> R t -> R (t ++ v).
Proof. intros HR. exact (HR [] t v). Qed.

(** [p] answers [ErrNotFound] only for the reason [R]; ... *)
Definition explained {A} (R : http_trace -> Prop) (p : prog http (res A)) : Prop :=
  forall t o, runs p t o ->
    match o with Done (Err e) => sound t -> is_ErrNotFound e = true -> R t | _ => True end.
(** ... and its envelope is one the array answered. *)
Definition looks {A} (R : http_trace -> Prop) (p : prog http (res (Response A))) : Prop :=
  explained R p /\
  forall t r, runs p t (Done (Ok r)) -> exists b, Evt (Unmarshal (Response A) b) (Ok r) ∈ t.
Abbreviation never := (fun _ : http_trace => False).

Lemma explained_bind {A B} R (p : prog http (res A)) (g : error -> error) (f : A -> prog http (res B)) :
  lasting R -> explained R p -> (forall e, is_ErrNotFound (g e) = is_ErrNotFound e) ->
  (forall a t u e, runs p t (Done (Ok a)) -> runs (f a) u (Done (Err e)) ->
     sound (t ++ u) -> is_ErrNotFound e = true -> R (t ++ u)) ->
  explained R (try a <- p catch err => Ret (Err (g err)) ;; f a).
Proof.
  intros HR Hp Hg Hf t o Ht. destruct o as [[b|e]| |]; try done. intros Hs He.
  destruct (runs_bind_inv _ _ _ _ Ht) as [([a|e'] & t1 & t2 & -> & H1 & H2)|[[? _]|[? _]]]; [..|done|done].
  - by eapply Hf.
  - cbn in H2. destruct H2 as [-> [= ->]]. rewrite Hg in He. apply sound_app in Hs as [Hs _].
    apply lasting_right; [done|]. exact (Hp _ _ H1 Hs He).
Qed.
Lemma never_lasting : lasting never.
Proof. intros u t v []. Qed.

Section exchange_facts.
Context (creds : Credentials) (url : string) (ps : gmap string string).
Ltac sound_exchange :=
  unfold explained, commonGetLogic, commonPostLogic, commonPutLogic, commonDeleteLogic;
  wp_start; wp_run; wp_leaf; try done; cbn; intros Hs Hnf;
  repeat match goal with H : sound (_ :: _) |- _ => apply sound_cons in H as [? ?] end;
  match goal with H : forall e, runtime_error _ _ = Some e -> _ |- _ =>
    rewrite (H _ eq_refl) in Hnf; discriminate
  end.
Lemma commonGetLogic_explained : explained never (commonGetLogic creds url ps).
Proof. sound_exchange. Qed.
Lemma commonPostLogic_explained v : explained never (commonPostLogic creds url ps v).
Proof. sound_exchange. Qed.
Lemma commonPutLogic_explained v : explained never (commonPutLogic creds url ps v).
Proof. sound_exchange. Qed.
Lemma commonDeleteLogic_explained n r : explained never (commonDeleteLogic creds n r url ps).
Proof. sound_exchange. Qed.
End exchange_facts.

Lemma within_explained {A} stage url (p : prog http (res A)) : explained never p -> explained never (within stage url p).
Proof.
  intros Hp. apply explained_bind; [apply never_lasting|done|done|]. intros a t u e _ Hu. cbn in Hu. by destruct Hu.
Qed.
Lemma unmarshal_looks {A} text p :
  (forall e, is_ErrNotFound (text e) = is_ErrNotFound e) -> explained never p ->
  looks never (unmarshal (A:=Response A) text p).
Proof.
  intros Htext Hp. split.
  - apply (explained_bind _ _ id); [apply never_lasting|done|done|].
    intros bytes t u e _ Hu Hs He. destruct (runs_call_inv _ _ _ _ Hu) as ([r|e'] & u' & -> & Hu').
    { cbn in Hu'. by destruct Hu'. }
    cbn in Hu'. destruct Hu' as [-> [= ->]]. rewrite Htext in He.
    apply sound_app in Hs as [_ Hs]. apply sound_cons in Hs as [Hs _]. by rewrite (Hs _ eq_refl) in He.
  - intros t r Ht. destruct (runs_bind_inv _ _ _ _ Ht) as [([bytes|e] & t1 & t2 & -> & H1 & H2)|[[? _]|[? _]]]; try done.
    + destruct (runs_call_inv _ _ _ _ H2) as ([r'|e'] & u & -> & H3); cbn in H3; [|by destruct H3].
      destruct H3 as [-> [= ->]]. exists bytes. apply elem_of_app. right. by left.
    + cbn in H2. by destruct H2.
Qed.
Lemma ask_looks {A} codes missing other (p : prog http (res (Response A))) :
  (forall e, is_ErrNotFound (other e) = false) -> looks never p ->
  looks (said codes) (ask (refused_with codes missing other) p).
Proof.
  intros Hother [Hp Hr]. split.
  - apply (explained_bind _ _ id); [apply said_lasting| |done|].
    { intros t o Ht. pose proof (Hp t o Ht). destruct o as [[|]| |]; naive_solver. }
    intros r t u e Ht Hu Hs He. apply lasting_right; [apply said_lasting|].
    destruct (Hr _ _ Ht) as [b Hb]. exists A, b, r. split; [done|].
    revert Hu. unfold refused_with. repeat case_decide; cbn; intros [_ [= ->]]; [done|].
    by rewrite Hother in He.
  - intros t r Ht. destruct (runs_bind_inv _ _ _ _ Ht) as [([r'|e] & t1 & t2 & -> & H1 & H2)|[[? _]|[? _]]]; try done.
    + destruct (refused_with _ _ _ _); cbn in H2; destruct H2 as [-> [= ->]].
      destruct (Hr _ _ H1) as [b Hb]. exists b. apply elem_of_app. by left.
    + cbn in H2. by destruct H2.
Qed.
Lemma result_explained {A} R (p : prog http (res (Response A))) : lasting R -> looks R p -> explained R (result p).
Proof. intros HR [Hp _]. apply (explained_bind _ _ id); [done..|]. intros a t u e _ Hu. cbn in Hu. by destruct Hu. Qed.
Lemma first_of_explained {A} R (p : prog http (res (Response (list A)))) :
  lasting R -> looks R p -> explained (fun t => R t \/ empty t) (first_of p).
Proof.
  intros HR [Hp Hr]. apply (explained_bind _ _ id); [|..|done|].
  { intros u t v [H|H]; [left; by apply HR|right; by apply empty_lasting]. }
  { intros t o Ht. pose proof (Hp t o Ht). destruct o as [[|]| |]; naive_solver. }
  intros r t u e Ht Hu Hs He. right. apply lasting_right; [apply empty_lasting|].
  destruct (Hr _ _ Ht) as [b Hb]. exists A, b, r. split; [done|].
  destruct (Response_Result r); [done|]. cbn in Hu. by destruct Hu.
Qed.
Lemma first_before_explained {A} R fail (p : prog http (res (Response (list A)))) :
  lasting R -> (forall r e, fail r = Some e -> is_ErrNotFound e = false) -> looks R p ->
  explained (fun t => R t \/ empty t) (first_before fail p).
Proof.
  intros HR Hfail [Hp Hr]. apply (explained_bind _ _ id); [|..|done|].
  { intros u t v [H|H]; [left; by apply HR|right; by apply empty_lasting]. }
  { intros t o Ht. pose proof (Hp t o Ht). destruct o as [[|]| |]; naive_solver. }
  intros r t u e Ht Hu Hs He. right. apply lasting_right; [apply empty_lasting|].
  destruct (Hr _ _ Ht) as [b Hb]. exists A, b, r. split; [done|].
  destruct (Response_Result r); [done|]. destruct (fail _) eqn:Hf; cbn in Hu; destruct Hu as [_ [= ->]].
  by rewrite (Hfail _ _ Hf) in He.
Qed.

Lemma pages_returns {S R} (J : http_trace -> Prop) (step : Z -> S -> prog http (S * Z + R)) s t x :
  lasting J -> (forall page s t, runs (step page s) t (Done (inr x)) -> sound t -> J t) ->
  runs (pages step s) t (Done (inr x)) -> sound t -> J t.
Proof.
  intros HJ Hstep.
  assert (Hmore : forall n page s t, runs (more_pages step n page s) t (Done (inr x)) -> sound t -> J t).
  { induction n as [|n IH]; intros page s' t' Ht Hs; [by destruct Ht|].
    destruct (runs_bind_inv _ _ _ _ Ht) as [(y & t1 & t2 & -> & H1 & H2)|[[? _]|[? _]]]; [|done..].
    apply sound_app in Hs as [Hs1 Hs2]. destruct y as [[s2 n2]|y].
    - pose proof (IH _ _ _ H2 Hs2) as H. rewrite <- (app_nil_r t2). by apply HJ.
    - cbn in H2. destruct H2 as [-> [= <-]]. apply lasting_right; [done|]. eauto. }
  intros Ht Hs.
  destruct (runs_bind_inv _ _ _ _ Ht) as [(y & t1 & t2 & -> & H1 & H2)|[[? _]|[? _]]]; [|done..].
  apply sound_app in Hs as [Hs1 Hs2]. destruct y as [[s2 n2]|y].
  - pose proof (Hmore _ _ _ _ H2 Hs2) as H. rewrite <- (app_nil_r t2). by apply HJ.
  - cbn in H2. destruct H2 as [-> [= <-]]. apply lasting_right; [done|]. eauto.
Qed.
Lemma pages_first {S R} (step : Z -> S -> prog http (S * Z + R)) s t s' :
  runs (pages step s) t (Done (inl s')) ->
  exists t1 t2 x, t = t1 ++ t2 /\ runs (step 1%Z s) t1 (Done (inl x)).
Proof.
  intros Ht.
  destruct (runs_bind_inv _ _ _ _ Ht) as [([x|x] & t1 & t2 & -> & H1 & H2)|[[? _]|[? _]]]; [|..|done|done].
  - by exists t1, t2, x.
  - cbn in H2. by destruct H2.
Qed.

Section lookups.
Context (creds : Credentials) (url : string).
Lemma ibox_API_found e : is_ErrNotFound (ibox_API url e) = false.
Proof. done. Qed.
Lemma Get_looks {A} ps : looks never (Get creds (Response A) url ps).
Proof. apply unmarshal_looks; [done|]. apply within_explained, commonGetLogic_explained. Qed.

Lemma empty_page {A} ps t (r : Response (list A)) :
  runs (ask (refused [] url) (Get creds (Response (list A)) url ps)) t (Done (Ok r)) ->
  Response_Result r = [] -> empty t.
Proof.
  intros Ht Hr. destruct (ask_looks [] (fun code => no_such "errorCode: " code url) (ibox_API url) _
    ibox_API_found (Get_looks (A:=list A) ps)) as [_ H].
  destruct (H _ _ Ht) as [b Hb]. by exists A, b, r.
Qed.
Lemma ask_Get_found {A} ps t e :
  runs (ask (refused [] url) (Get creds (Response (list A)) url ps)) t (Done (Err e)) ->
  sound t -> is_ErrNotFound e = false.
Proof.
  intros Ht Hs. destruct (ask_looks [] (fun code => no_such "errorCode: " code url) (ibox_API url) _
    ibox_API_found (Get_looks (A:=list A) ps)) as [H _].
  destruct (is_ErrNotFound e) eqn:He; [|done].
  destruct (H _ _ Ht Hs He) as (B & b & r & _ & Hin). by apply elem_of_nil in Hin.
Qed.

Lemma last_page_explained {A} none ps : explained empty (last_page creds (A:=A) none url ps).
Proof.
  intros t o Ht. destruct o as [[|e]| |]; try done. intros Hs He.
  destruct (runs_bind_inv _ _ _ _ Ht) as [(x & t1 & t2 & -> & H1 & H2)|[[? _]|[? _]]]; [|done..].
  destruct x as [[a|]|x]; cbn in H2; [by destruct H2|by destruct H2|]. destruct H2 as [-> [= <-]].
  rewrite app_nil_r in *. revert H1 Hs. apply pages_returns; [apply empty_lasting|].
  clear -He. intros page s t Ht Hs.
  destruct (runs_bind_inv _ _ _ _ Ht) as [([r|e'] & t1 & t2 & -> & H1 & H2)|[[? _]|[? _]]]; [..|done|done].
  - apply lasting_right; [apply empty_lasting|]. eapply empty_page; [done|].
    destruct (Response_Result r); [done|]. cbn in H2. by destruct H2.
  - cbn in H2. destruct H2 as [-> [= ->]]. apply sound_app in Hs as [Hs _].
    by rewrite (ask_Get_found _ _ _ H1 Hs) in He.
Qed.

(** One page of mappings. *)
Lemma lun_step_explained v page s t x :
  runs (lun_step creds url v page s) t (Done x) -> sound t ->
  match x with
  | inr (Err e) => is_ErrNotFound e = false
  | inr (Ok _) => True
  | inl _ => empty t
  end.
Proof.
  intros Ht Hs.
  destruct (runs_bind_inv _ _ _ _ Ht) as [([r|e] & t1 & t2 & -> & H1 & H2)|[[? _]|[? _]]]; [..|done|done].
  - destruct (Response_Result r) eqn:Hr; cbn in H2; destruct H2 as [-> [= ->]]; [|done].
    apply lasting_right; [apply empty_lasting|]. by eapply empty_page.
  - cbn in H2. destruct H2 as [-> [= ->]]. apply sound_app in Hs as [Hs _]. by eapply ask_Get_found.
Qed.
End lookups.

Lemma GetLunByHostVolume_explained creds h v : explained empty (GetLunByHostVolume creds h v).
Proof.
  intros t o Ht. destruct o as [[|e]| |]; try done. intros Hs He.
  destruct (runs_bind_inv _ _ _ _ Ht) as [(x & t1 & t2 & -> & H1 & H2)|[[? _]|[? _]]]; [|done..].
  apply lasting_right; [apply empty_lasting|]. apply sound_app in Hs as [Hs _]. destruct x as [x|x].
  - destruct (pages_first _ _ _ _ H1) as (u & w & y & -> & Hu). apply lasting_right; [apply empty_lasting|].
    apply sound_app in Hs as [Hs _]. by apply (lun_step_explained _ _ _ _ _ _ _ Hu).
  - cbn in H2. destruct H2 as [_ [= <-]]. revert H1 Hs. apply pages_returns; [apply empty_lasting|].
    intros page s t Hu Hs. by rewrite (lun_step_explained _ _ _ _ _ _ _ Hu Hs) in He.
Qed.

(** No port of the host has the address. *)
Definition no_port (address : string) : http_trace -> Prop :=
  answered (fun r : Response (list HostPort) =>
              Forall (fun p => HostPort_PortAddress p <> address) (Response_Result r)).
Lemma GetHostPort_explained creds h address : explained (no_port address) (GetHostPort creds h address).
Proof.
  destruct (Get_looks creds (at_ creds ("api/rest/hosts/" +:+ Itoa h +:+ "/ports")) (A:=list HostPort) ∅) as [Hp Hr].
  apply (explained_bind _ _ id); [apply answered_lasting|..|done|].
  { intros t o Ht. pose proof (Hp t o Ht). destruct o as [[|]| |]; naive_solver. }
  intros r t u e Ht Hu Hs He. apply lasting_right; [apply answered_lasting|].
  destruct (Hr _ _ Ht) as [b Hb]. exists b, r. split; [done|].
  destruct (last _) as [p|] eqn:Hl.
  { revert Hu. unfold refused, refused_with. repeat case_decide; cbn; intros [_ [= ->]]; [set_solver|done]. }
  clear -Hl. apply last_None in Hl. induction (Response_Result r) as [|p l IH]; [constructor|].
  cbn in Hl. case_bool_decide; [done|]. constructor; auto.
Qed.

(** The codes by which the array says that an object does not exist. *)
Definition missing_codes {X} (c : ibox X) : list string :=
  match c with
  | IboxTypes.DeleteVolume _ | IboxTypes.GetVolume _ | IboxTypes.UpdateVolume _ _ => ["VOLUME_NOT_FOUND"]
  | IboxTypes.DeleteHost _ => ["HOST_NOT_FOUND"]
  | IboxTypes.GetFileSystemByID _ | IboxTypes.UpdateFileSystem _ _ | IboxTypes.GetTreeqByName _ _ =>
      ["FILESYSTEM_NOT_FOUND"]
  | IboxTypes.GetExportByID _ | IboxTypes.DeleteExport _ => ["EXPORT_NOT_FOUND"]
  | IboxTypes.GetTreeq _ _ | IboxTypes.DeleteTreeq _ _ => ["TREEQ_ID_DOES_NOT_EXIST"]
  | IboxTypes.UpdateTreeq _ _ _ => ["FILESYSTEM_NOT_FOUND"; "TREEQ_ID_DOES_NOT_EXIST"]
  | IboxTypes.GetPoolByID _ => ["POOL_NOT_FOUND"]
  | IboxTypes.GetLink _ => ["LINK_NOT_FOUND"]
  | IboxTypes.GetReplica _ | IboxTypes.DeleteReplica _ => ["REPLICA_NOT_FOUND"]
  | IboxTypes.GetConsistencyGroup _ | IboxTypes.DeleteConsistencyGroup _ => ["CG_NOT_FOUND"]
  | IboxTypes.RemoveMemberFromCG _ _ => ["CG_DATASET_NOT_FOUND"]
  | _ => []
  end.
(** The calls that look an object up in a collection: an empty page means it is
    not there. *)
Definition looks_up {X} (c : ibox X) : bool :=
  match c with
  | IboxTypes.GetFeatures | IboxTypes.GetPoolByName _ | IboxTypes.GetVolumeByName _
  | IboxTypes.GetNetworkSpaceByName _ | IboxTypes.GetHostByName _ | IboxTypes.GetLunByHostVolume _ _
  | IboxTypes.GetFileSystemByName _ | IboxTypes.GetTreeqByName _ _ | IboxTypes.GetConsistencyGroupByName _
  | IboxTypes.GetReplicaForCG _ | IboxTypes.GetReplicaForLocalEntityName _ => true
  | _ => false
  end.
(** The array reported the object of the call missing. *)
Definition reported {X} (c : ibox X) (t : http_trace) : Prop :=
  said (missing_codes c) t \/ (looks_up c = true /\ empty t) \/
  match c with IboxTypes.GetHostPort _ address => no_port address t | _ => False end.

Lemma list_step_found {A} creds g a text url ps page s t y :
  (forall r : Response (list A), is_ErrNotFound (text r) = false) ->
  runs (list_step creds g a text url ps page s) t (Done y) -> sound t ->
  match y with inr (_, Some e) => is_ErrNotFound e = false | _ => True end.
Proof.
  intros Htext Ht Hs.
  destruct (runs_bind_inv _ _ _ _ Ht) as [([bytes|e] & t1 & t2 & -> & H1 & H2)|[[? _]|[? _]]]; [..|done|done].
  - destruct (runs_call_inv _ _ _ _ H2) as ([r|e] & t3 & -> & H3).
    + case_decide; cbn in H3; destruct H3 as [_ [= ->]]; [done|apply Htext].
    + cbn in H3. destruct H3 as [_ [= ->]]. apply sound_app in Hs as [_ Hs].
      apply sound_cons in Hs as [Hs _]. exact (Hs _ eq_refl).
  - cbn in H2. destruct H2 as [-> [= ->]]. apply sound_app in Hs as [Hs _].
    pose proof (commonGetLogic_explained _ _ _ _ _ H1 Hs). cbn. by destruct (is_ErrNotFound e).
Qed.
Lemma listing_found {A} creds g a text url ps t l e :
  (forall r : Response (list A), is_ErrNotFound (text r) = false) ->
  runs (listing creds g a text url ps) t (Done (l, Some e)) -> sound t -> is_ErrNotFound e = false.
Proof.
  intros Htext Ht Hs.
  destruct (runs_bind_inv _ _ _ _ Ht) as [(x & t1 & t2 & -> & H1 & H2)|[[? _]|[? _]]]; [|done..].
  apply sound_app in Hs as [Hs _]. destruct x as [s|x]; cbn in H2; [by destruct H2|]. destruct H2 as [_ [= <-]].
  revert H1 Hs. apply (pages_returns (fun _ => is_ErrNotFound e = false)); [by intros u w v|].
  intros page s u Hu Hs. exact (list_step_found _ _ _ _ _ _ _ _ _ _ Htext Hu Hs).
Qed.

Lemma explained_mono {A} (R R' : http_trace -> Prop) (p : prog http (res A)) :
  (forall t, R t -> R' t) -> explained R p -> explained R' p.
Proof. intros HR Hp t o Ht. pose proof (Hp t o Ht). destruct o as [[|]| |]; naive_solver. Qed.
Lemma looks_never {A} R (p : prog http (res (Response A))) : looks never p -> looks R p.
Proof. intros [Hp Hr]. split; [|done]. by apply (explained_mono never). Qed.
Lemma ask_never {A} fail (p : prog http (res (Response A))) :
  (forall r e, fail r = Some e -> is_ErrNotFound e = false) -> looks never p -> looks never (ask fail p).
Proof.
  intros Hfail [Hp Hr]. split.
  - apply (explained_bind _ _ id); [apply never_lasting|done|done|].
    intros r t u e Ht Hu Hs He. destruct (fail _) eqn:Hf; cbn in Hu; destruct Hu as [_ [= ->]].
    by rewrite (Hfail _ _ Hf) in He.
  - intros t r Ht. destruct (runs_bind_inv _ _ _ _ Ht) as [([r'|e] & t1 & t2 & -> & H1 & H2)|[[? _]|[? _]]]; try done.
    + destruct (fail _); cbn in H2; destruct H2 as [-> [= ->]].
      destruct (Hr _ _ H1) as [b Hb]. exists b. apply elem_of_app. by left.
    + cbn in H2. by destruct H2.
Qed.

(** How the answer of a method reports the reason. *)
Lemma res_reason {A} R (p : prog http (res A)) t x e :
  explained R p -> sound t -> is_ErrNotFound e = true ->
  runs p t (Done x) -> error_of_res x = Some e -> R t.
Proof. intros Hp Hs Hnf Ht He. destruct x; [done|]. injection He as ->. exact (Hp _ _ Ht Hs Hnf). Qed.
Lemma done_reason {A} R (p : prog http (res A)) t x e :
  explained R p -> sound t -> is_ErrNotFound e = true ->
  runs (done p) t (Done x) -> id x = Some e -> R t.
Proof.
  intros Hp Hs Hnf Ht He.
  destruct (runs_bind_inv _ _ _ _ Ht) as [(y & t1 & t2 & -> & H1 & H2)|[[? _]|[? _]]]; [|done..].
  cbn in H2, He. destruct H2 as [-> [= ->]]. rewrite app_nil_r in *.
  eapply res_reason; [exact Hp|done..].
Qed.
Lemma listing_reason {A} creds g a (text : Response (list A) -> error) url ps R t x e :
  (forall r, is_ErrNotFound (text r) = false) -> sound t -> is_ErrNotFound e = true ->
  runs (listing creds g a text url ps) t (Done x) -> snd x = Some e -> R.
Proof.
  intros Htext Hs Hnf Ht He. destruct x as [l y]. cbn in He. subst y.
  by rewrite (listing_found _ _ _ _ _ _ _ _ _ Htext Ht Hs) in Hnf.
Qed.

Lemma refused_with_found codes missing other r e :
  (forall c, is_ErrNotFound (missing c) = false) \/ codes = [] ->
  (forall r, is_ErrNotFound (other r) = false) ->
  refused_with codes missing other r = Some e -> is_ErrNotFound e = false.
Proof.
  intros Hm Ho. unfold refused_with. repeat case_decide; intros [= <-]; [|done].
  destruct Hm as [Hm| ->]; [done|]. by apply not_elem_of_nil in H0.
Qed.

Ltac fine := repeat intros ?; reflexivity.
Ltac looks_step :=
  match goal with
  | |- explained never (within _ _ _) => apply within_explained
  | |- explained never (commonGetLogic _ _ _) => apply commonGetLogic_explained
  | |- explained never (commonPostLogic _ _ _ _) => apply commonPostLogic_explained
  | |- explained never (commonPutLogic _ _ _ _) => apply commonPutLogic_explained
  | |- explained never (commonDeleteLogic _ _ _ _ _) => apply commonDeleteLogic_explained
  | |- looks never (unmarshal _ _) => apply unmarshal_looks; [fine|]
  | |- looks (said _) (ask _ _) => apply ask_looks; [fine|]
  | |- looks _ (ask _ _) => apply looks_never, ask_never;
      [intros ? ?; apply refused_with_found; [by auto|fine]|]
  | |- looks (said _) _ => apply looks_never
  | |- looks never ?p => unfold_method p
  end.
Ltac reason_step C :=
  match goal with
  | |- explained _ (result _) =>
      apply (explained_mono (said C)); [tauto|apply result_explained; [apply said_lasting|]]
  | |- explained _ (ask _ _) => apply (explained_mono (said C)); [tauto|]; refine (proj1 (_ : looks _ _))
  | |- explained _ (first_of _) =>
      apply (explained_mono (fun t => said C t \/ empty t)); [tauto|];
      apply first_of_explained; [apply said_lasting|]
  | |- explained _ (first_before _ _) =>
      apply (explained_mono (fun t => said C t \/ empty t)); [tauto|];
      apply first_before_explained; [apply said_lasting|intros ? ?; apply refused_with_found; [by auto|fine]|]
  | |- explained _ (last_page _ _ _ _) => apply (explained_mono empty); [tauto|]; apply last_page_explained
  | |- explained _ ?p => unfold_method p
  end.

(** C26: A method answers an error that is [ErrNotFound] only when the array
    reported the object missing: by one of the codes of the method, or, for a
    lookup in a collection, by an empty page, or, for a port, by a list without
    it. Errors of the network and of decoding are never taken for it, nor are
    error objects with another code. *)
Theorem IboxClient_not_found creds X (c : ibox X) t x e :
  runs (IboxClient creds c) t (Done x) -> sound t ->
  error_of c x = Some e -> is_ErrNotFound e = true -> reported c t.
Proof.
  intros Ht Hs He Hnf. revert x Ht He.
  destruct c; cbn [IboxClient error_of]; intros x Ht He; unfold reported; cbn [missing_codes looks_up].
  all: try (revert Ht He; apply listing_reason; [fine|assumption..]).
  all: match goal with |- said ?C ?t \/ (?b = true /\ empty ?t) \/ _ =>
    try solve [revert Ht He; apply (res_reason (fun t => said C t \/ (b = true /\ empty t) \/ False)); [|assumption..];
           repeat reason_step C; repeat looks_step]
   end.
  all: match goal with |- said ?C ?t \/ (?b = true /\ empty ?t) \/ _ =>
    try solve [revert Ht He; apply (done_reason (fun t => said C t \/ (b = true /\ empty t) \/ False)); [|assumption..];
           repeat reason_step C; repeat looks_step]
   end.
  - right; left. split; [done|].
    destruct (runs_bind_inv _ _ _ _ Ht) as [([r|e'] & t1 & t2 & -> & H1 & H2)|[[? _]|[? _]]]; [..|done|done].
    + apply lasting_right; [apply empty_lasting|]. eapply empty_page; [exact H1|].
      destruct (Response_Result r); [done|]. cbn in H2. by destruct H2 as [_ [= ->]].
    + cbn in H2. destruct H2 as [-> [= ->]]. injection He as ->. apply sound_app in Hs as [Hs _].
      by rewrite (ask_Get_found _ _ _ _ _ H1 Hs) in Hnf.
  - right; left. split; [done|]. revert Ht He. by apply res_reason; [apply GetLunByHostVolume_explained|..].
  - right; right. revert Ht He. by apply res_reason; [apply GetHostPort_explained|..].
  - destruct (runs_bind_inv _ _ _ _ Ht) as [([r|e'] & t1 & t2 & -> & H1 & H2)|[[? _]|[? _]]]; [..|done|done].
    + cbn in H2. by destruct H2 as [_ [= ->]].
    + cbn in H2. destruct H2 as [-> [= ->]]. injection He as ->. apply sound_app in Hs as [Hs _].
      by rewrite (ask_Get_found _ _ _ _ _ H1 Hs) in Hnf.
Qed.

Lemma IboxClient_not_found_witness :
  let url := "https://ibox/api/rest/volumes/7" in
  let missing := MkResponse Metadata_zero Volume_zero (APIError_of "VOLUME_NOT_FOUND" "") in
  let t := [Evt (NewRequest GET url) (Ok tt);
            Evt (Do (MkRequest GET url ∅ (SetAuthHeader example_creds ∅) None)) (Ok tt); Evt ReadAll ("{}", None);
            Evt (Unmarshal (Response Volume) "{}") (Ok missing)] in
  let e := EWrap "errorCode: VOLUME_NOT_FOUND - error: " ErrNotFound (" url: " +:+ url) in
  runs (IboxClient example_creds (IboxTypes.GetVolume 7)) t (Done (Err e)) /\ reported (IboxTypes.GetVolume 7) t.
Proof.
  intros url missing t e.
  assert (Hr : runs (IboxClient example_creds (IboxTypes.GetVolume 7)) t (Done (Err e))).
  { do 4 (eexists _, _; split; [reflexivity|]). cbn. by split. }
  split; [exact Hr|]. apply (IboxClient_not_found example_creds _ _ t (Err e) e); [exact Hr| |reflexivity..].
  by repeat constructor.
Defined.
