(* ===== verification/Helper.v ===== *)
(** Package [helper]: capacity rounding ([roundup.go]), YAML booleans
    ([yamltruthyness.go]), access-mode checks ([accessmodes.go]), the node
    volume mutex ([oshelper.go]) and the volume lock table ([volumelock.go]). *)
From S2P Require Import Prelude GoLib IboxTypes Csi.
From stdpp Require Import base strings list gmap.
From Stdlib Require Import ZArith Lia.

Local Open Scope string_scope.
Local Open Scope list_scope.

(** ** roundup.go *)

Definition Bytes1G : Z := 1000000000%Z.

(** [RoundUp]: every [int64] operation is wrapped; [%] and [/] truncate. *)
Definition RoundUp (input : Z) : Z :=
  (if input <? Bytes1G then Bytes1G
   else if (Bytes1G <? input) && (input <? BytesInOneGibibyte) then BytesInOneGibibyte
   else if Z.rem input Bytes1G =? 0 then input
   else if Z.rem input BytesInOneGibibyte =? 0 then input
   else
     let GiWhole := Z.quot input BytesInOneGibibyte in
     let RoundedUpGi := i64 (GiWhole + 1) in
     i64 (RoundedUpGi * BytesInOneGibibyte))%Z.

(** ** yamltruthyness.go *)

Definition getYamlBoolsFalse : list string := Split "n|N|no|No|NO|false|False|FALSE|off|Off|OFF" "|".
Definition getYamlBoolsTrue : list string := Split "y|Y|yes|Yes|YES|true|True|TRUE|on|On|ON" "|".
Definition ContainsStr (arrayOfStrings : list string) (substring : string) : bool :=
  existsb (String.eqb substring) arrayOfStrings.
Definition YamlBoolToBool (boolString : string) : res bool :=
  if ContainsStr getYamlBoolsTrue boolString then Ok true
  else if ContainsStr getYamlBoolsFalse boolString then Ok false
  else Err (EText ("'" +:+ boolString +:+ "' is not a valid YAML boolean")).

(** ** accessmodes.go *)

(** [reqVolCapability.GetAccessMode().GetMode()]: the getters of a nil message
    give the zero value. *)
Definition GetMode (c : option VolumeCapability) : AccessMode :=
  match c with
  | Some c => default UNKNOWN (GetAccessMode c)
  | None => UNKNOWN
  end.

(** The two switches differ only in the name they print. *)
Definition check_access_mode (readOnly : bool) (what name id : string) (m : AccessMode) : res bool :=
  match m with
  | SINGLE_NODE_WRITER | MULTI_NODE_SINGLE_WRITER | MULTI_NODE_MULTI_WRITER =>
      if readOnly
      then Err (EText ("IBox " +:+ what +:+ " name '" +:+ name +:+ "' (" +:+ id
                 +:+ ") is write protected, but the requested access mode is '"
                 +:+ AccessMode_String m +:+ "'"))
      else Ok true
  | SINGLE_NODE_READER_ONLY | MULTI_NODE_READER_ONLY => Ok true
  | _ => Err (EText ("unsupported access mode for " +:+ what +:+ " '" +:+ name +:+ "' (" +:+ id
               +:+ "): '" +:+ AccessMode_String m +:+ "'"))
  end.

Definition IsValidAccessMode (volume : Volume) (req : CSIPublishRequest) : res bool :=
  check_access_mode (Volume_WriteProtected volume) "Volume" (Volume_Name volume)
    (Pub_VolumeId req) (GetMode (Pub_VolumeCapability req)).

Definition GetVolumeContext (req : CSIPublishRequest) : gmap string string :=
  default ∅ (Pub_VolumeContext req).

(** [req.VolumeCapability.GetAccessMode()] dereferences the capability. *)
Definition IsValidAccessModeNfs (req : CSIPublishRequest) : res bool :=
  let ctx := GetVolumeContext req in
  let isIboxExportReadonly := Contains ctx.[StorageClassNFSExportPermissions] "'access':'RO'" in
  check_access_mode isIboxExportReadonly "NFS export" ctx.["volPathd"] ctx.["exportID"]
    (GetMode (Pub_VolumeCapability req)).

(** ** oshelper.go *)

Definition ManageNodeVolumeMutex (isLocking : bool) : prog call unit :=
  if isLocking then osAPI (Lock NodeVolumeMutex) else osAPI (Unlock NodeVolumeMutex).

(** ** volumelock.go *)

(** [VolumeLocks]: the set behind the mutex; each method holds the mutex from
    its first to its last statement, so it is one atomic step. *)
Definition NewVolumeLocks : gset string := ∅.
Definition TryAcquire (volumeID : string) (locks : gset string) : bool * gset string :=
  if decide (volumeID ∈ locks) then (false, locks)
  else (true, {[volumeID]} ∪ locks).
Definition Release (volumeID : string) (locks : gset string) : gset string :=
  locks ∖ {[volumeID]}.

(** ** Facts *)

Section RoundUp_facts.
Open Scope Z_scope.

Definition roundable (z : Z) : Prop := (Bytes1G | z) \/ (BytesInOneGibibyte | z).

Lemma rem_zero a b : 0 < b -> 0 <= a -> (Z.rem a b =? 0) = true <-> (b | a).
Proof.
  intros Hb Ha. rewrite Z.eqb_eq, Z.rem_mod_nonneg by lia.
  apply Z.mod_divide. lia.
Qed.

Lemma roundable_dec z :
  {Z.rem z Bytes1G = 0} + {Z.rem z Bytes1G <> 0 /\ Z.rem z BytesInOneGibibyte = 0}
  + {Z.rem z Bytes1G <> 0 /\ Z.rem z BytesInOneGibibyte <> 0}.
Proof.
  destruct (Z.eq_dec (Z.rem z Bytes1G) 0); [by left; left|].
  destruct (Z.eq_dec (Z.rem z BytesInOneGibibyte) 0); [left|]; right; done.
Qed.

Lemma roundable_rem z : 0 <= z ->
  Z.rem z Bytes1G = 0 \/ Z.rem z BytesInOneGibibyte = 0 -> roundable z.
Proof.
  intros Hz [H|H]; [left|right]; apply rem_zero; auto; try (by apply Z.eqb_eq);
    unfold Bytes1G, BytesInOneGibibyte; lia.
Qed.

(** [RoundUp] on the inputs above the minimum. *)
Lemma RoundUp_above input :
  BytesInOneGibibyte <= input <= int64_max ->
  RoundUp input =
    if roundable_dec input
    then input else i64 (BytesInOneGibibyte * (input / BytesInOneGibibyte + 1)).
Proof.
  unfold int64_max. intros [Hlo Hhi].
  assert (0 < BytesInOneGibibyte /\ 0 < Bytes1G /\ Bytes1G < BytesInOneGibibyte) as (HG & H1 & H2)
    by (unfold BytesInOneGibibyte, Bytes1G; lia).
  unfold RoundUp.
  destruct (Z.ltb_spec input Bytes1G); [lia|].
  destruct (Z.ltb_spec input BytesInOneGibibyte); [lia|]. rewrite andb_false_r.
  destruct (roundable_dec input) as [[Ha|[Ha Hb]]|[Ha Hb]].
  - by rewrite Ha.
  - apply Z.eqb_neq in Ha. by rewrite Ha, Hb.
  - apply Z.eqb_neq in Ha, Hb. rewrite Ha, Hb, Z.quot_div_nonneg by lia.
    rewrite (i64_id (_ + 1)); [f_equal; lia|].
    pose proof (Z.div_le_upper_bound input BytesInOneGibibyte 8589934592 HG).
    pose proof (Z.div_pos input BytesInOneGibibyte).
    unfold in_i64, int64_min, int64_max, BytesInOneGibibyte in *. lia.
Qed.

Lemma i64_min_wrap : i64 9223372036854775808 = int64_min.
Proof. reflexivity. Qed.
End RoundUp_facts.

(** ** Properties *)

Lemma RoundUp_bounds input :
  in_i64 input ->
  ((input <= 8589934591 * BytesInOneGibibyte)%Z ->
   roundable (RoundUp input) /\ (Z.max input Bytes1G <= RoundUp input)%Z /\
   (BytesInOneGibibyte <= input -> RoundUp input < input + BytesInOneGibibyte)%Z) /\
  ((8589934591 * BytesInOneGibibyte < input)%Z ->
   RoundUp input = if (Z.rem input Bytes1G =? 0)%Z then input else int64_min).
Proof.
  intros [Hmin Hmax]. split; intros Hc.
  - destruct (Z.lt_ge_cases input BytesInOneGibibyte) as [Hs|Hb].
    + unfold RoundUp. destruct (Z.ltb_spec input Bytes1G); cbn.
      { split; [left; exists 1%Z; done|]. lia. }
      destruct (Z.ltb_spec Bytes1G input), (Z.ltb_spec input BytesInOneGibibyte); cbn; try lia.
      { split; [right; exists 1%Z; done|]. lia. }
      replace input with Bytes1G by lia.
      change (Z.rem Bytes1G Bytes1G =? 0)%Z with true. cbn.
      split; [left; exists 1%Z; done|]. unfold BytesInOneGibibyte, Bytes1G. lia.
    + rewrite RoundUp_above by (split; assumption).
      destruct (roundable_dec input) as [Hr|Hr].
      * split; [apply roundable_rem; [unfold BytesInOneGibibyte in *; lia|tauto]|].
        unfold BytesInOneGibibyte, Bytes1G in *. lia.
      * pose proof (Z.mul_div_le input BytesInOneGibibyte ltac:(done)).
        pose proof (Z.mul_succ_div_gt input BytesInOneGibibyte ltac:(done)).
        assert (input <> 8589934591 * BytesInOneGibibyte)%Z by (intros ->; by destruct Hr).
        assert (BytesInOneGibibyte * (input / BytesInOneGibibyte) <> input)%Z.
        { intros Heq. apply (proj2 Hr), Z.eqb_eq, rem_zero;
            [done|unfold BytesInOneGibibyte in *; lia|].
          exists (input / BytesInOneGibibyte)%Z. lia. }
        assert (input / BytesInOneGibibyte < 8589934591)%Z
          by (apply Z.div_lt_upper_bound; [done|lia]).
        rewrite i64_id by (unfold in_i64, int64_min, int64_max, BytesInOneGibibyte in *; lia).
        split; [right; exists (input / BytesInOneGibibyte + 1)%Z; lia|].
        unfold BytesInOneGibibyte, Bytes1G in *. lia.
  - rewrite RoundUp_above by (unfold BytesInOneGibibyte in *; lia).
    destruct (roundable_dec input) as [[Hr|[Hr Hr']]|[Hr Hr']].
    + by rewrite Hr.
    + apply Z.eqb_eq, rem_zero in Hr' as [k ->]; [|done|unfold BytesInOneGibibyte in *; lia].
      unfold int64_max, BytesInOneGibibyte in *. lia.
    + apply Z.eqb_neq in Hr. rewrite Hr. rewrite <- i64_min_wrap. f_equal.
      replace (input / BytesInOneGibibyte)%Z with 8589934591%Z; [done|].
      apply Z.div_unique with (input - 8589934591 * BytesInOneGibibyte)%Z;
        unfold int64_max, BytesInOneGibibyte in *; lia.
Qed.

(** A whole amount is kept. *)
Lemma RoundUp_whole input : (Bytes1G <= input)%Z -> roundable input -> RoundUp input = input.
Proof.
  intros Hlo Hr. assert (Hp : (0 < Bytes1G /\ 0 < BytesInOneGibibyte /\ BytesInOneGibibyte < 2 * Bytes1G)%Z) by done.
  unfold RoundUp. destruct (Z.ltb_spec input Bytes1G); [lia|].
  destruct Hr as [Hr|Hr].
  - rewrite (proj2 (rem_zero input Bytes1G ltac:(lia) ltac:(lia)) Hr).
    destruct Hr as [k ->]. destruct (Z.ltb_spec Bytes1G (k * Bytes1G)); [|done].
    destruct (Z.ltb_spec (k * Bytes1G) BytesInOneGibibyte); [exfalso; unfold Bytes1G, BytesInOneGibibyte in *; lia|done].
  - rewrite (proj2 (rem_zero input BytesInOneGibibyte ltac:(lia) ltac:(lia)) Hr).
    destruct Hr as [k ->].
    destruct (Z.ltb_spec (k * BytesInOneGibibyte) BytesInOneGibibyte);
      [exfalso; unfold Bytes1G, BytesInOneGibibyte in *; lia|]. rewrite andb_false_r. by case_match.
Qed.

(** Any other amount becomes a number of gibibytes, the least one above it. *)
Lemma RoundUp_fraction input :
  (Bytes1G <= input <= 8589934591 * BytesInOneGibibyte)%Z -> ~ roundable input ->
  (BytesInOneGibibyte | RoundUp input)%Z /\
  forall m, (BytesInOneGibibyte | m)%Z -> (input <= m)%Z -> (RoundUp input <= m)%Z.
Proof.
  intros [Hlo Hhi] Hr.
  assert (Hp : (0 < Bytes1G /\ 0 < BytesInOneGibibyte /\ 8589934592 * BytesInOneGibibyte = int64_max + 1)%Z) by done.
  assert (Hne : ~ (BytesInOneGibibyte | input)%Z) by (intros H; apply Hr; by right).
  assert (Hne1 : ~ (Bytes1G | input)%Z) by (intros H; apply Hr; by left).
  assert (Hup : RoundUp input = (BytesInOneGibibyte * (input / BytesInOneGibibyte + 1))%Z).
  { destruct (Z.lt_ge_cases input BytesInOneGibibyte) as [Hs|Hb].
    - rewrite Z.div_small by lia. unfold RoundUp. destruct (Z.ltb_spec input Bytes1G); [lia|].
      assert (input <> Bytes1G) by (intros ->; apply Hne1; by exists 1%Z).
      destruct (Z.ltb_spec Bytes1G input), (Z.ltb_spec input BytesInOneGibibyte); cbn; lia.
    - rewrite RoundUp_above by lia. destruct (roundable_dec input) as [[H|[_ H]]|_].
      + exfalso. apply Hne1, rem_zero; [lia..|by apply Z.eqb_eq].
      + exfalso. apply Hne, rem_zero; [lia..|by apply Z.eqb_eq].
      + assert (input / BytesInOneGibibyte < 8589934591)%Z; [|apply i64_id; unfold in_i64, int64_min, BytesInOneGibibyte in *;
          pose proof (Z.div_pos input 1073741824); lia].
        apply Z.div_lt_upper_bound; [lia|]. assert (input <> 8589934591 * BytesInOneGibibyte)%Z; [|lia].
        intros ->. apply Hne. by exists 8589934591%Z. }
  rewrite Hup. split; [by exists (input / BytesInOneGibibyte + 1)%Z; lia|].
  intros m [k ->] Hm. assert (k <> input / BytesInOneGibibyte)%Z.
  { intros ->. apply Hne. exists (input / BytesInOneGibibyte)%Z. pose proof (Z.mul_div_le input BytesInOneGibibyte). lia. }
  assert (input / BytesInOneGibibyte <= k)%Z by (apply Z.div_le_upper_bound; lia). nia.
Qed.

(** C17: as long as the next gibibyte is representable, [RoundUp] never gives
    less than asked nor less than a gigabyte: an amount that is a whole number
    of gigabytes or of gibibytes is kept, any other from a gigabyte on becomes
    the least number of gibibytes above it (also when a number of gigabytes lies
    nearer). Beyond that the wrap-around of [RoundedUpGi * GiB] turns every input
    that is not a whole number of gigabytes into the smallest [int64]. *)
Theorem RoundUp_spec input :
  in_i64 input ->
  ((input <= 8589934591 * BytesInOneGibibyte)%Z ->
   roundable (RoundUp input) /\ (Z.max input Bytes1G <= RoundUp input)%Z /\
   (BytesInOneGibibyte <= input -> RoundUp input < input + BytesInOneGibibyte)%Z /\
   ((input < Bytes1G)%Z -> RoundUp input = Bytes1G) /\
   ((Bytes1G <= input)%Z -> roundable input -> RoundUp input = input) /\
   ((Bytes1G <= input)%Z -> ~ roundable input ->
    (BytesInOneGibibyte | RoundUp input)%Z /\
    forall m, (BytesInOneGibibyte | m)%Z -> (input <= m)%Z -> (RoundUp input <= m)%Z)) /\
  ((8589934591 * BytesInOneGibibyte < input)%Z ->
   RoundUp input = if (Z.rem input Bytes1G =? 0)%Z then input else int64_min).
Proof.
  intros Hin. destruct (RoundUp_bounds input Hin) as [Hlow Hhigh]. split; [|exact Hhigh].
  intros Hc. destruct (Hlow Hc) as (H1 & H2 & H3). do 3 (split; [done|]).
  split; [intros Hs; unfold RoundUp; by rewrite (proj2 (Z.ltb_lt _ _) Hs)|].
  split; [exact (RoundUp_whole input)|]. intros Hb Hr. exact (RoundUp_fraction input (conj Hb Hc) Hr).
Qed.

Lemma RoundUp_spec_witness :
  in_i64 1900000000 /\ RoundUp 1900000000 = 2147483648%Z /\
  (forall m, (BytesInOneGibibyte | m)%Z -> (1900000000 <= m)%Z -> (RoundUp 1900000000 <= m)%Z).
Proof.
  assert (H : in_i64 1900000000) by (unfold in_i64, int64_min, int64_max; lia).
  split; [exact H|]. split; [reflexivity|].
  destruct (RoundUp_spec 1900000000 H) as [Hs _].
  destruct (Hs ltac:(done)) as (_ & _ & _ & _ & _ & Hf). apply Hf; [done|].
  intros [[k Hk]|[k Hk]]; unfold Bytes1G, BytesInOneGibibyte in Hk; lia.
Defined.

