(* ===== verification/StorageCommon.v ===== *)
(** Package [storage/common]: what the protocol implementations share. Volume
    and node identifiers, host mapping and clean-up, snapshots and clones,
    deletion of block volumes, unpublishing, storage-class validation and NFS
    mount options. Log lines are left out; the calls their arguments make are
    kept. *)
From S2P Require Import Prelude GoLib Regexp IboxTypes Csi Helper.
From stdpp Require Import base strings list gmap.
From Stdlib Require Import ZArith Lia.

Local Open Scope string_scope.
Local Open Scope list_scope.

(** ** common.go *)

(** [Commonservice]. The two clients are the effects themselves;
    [storagePoolIDName] is nil until someone makes it. *)
Record Commonservice := MkCommonservice {
  storagePoolIDName : option (gmap Z string);
  driverVersion : string;
  VolProto : VolumeProtocolConfig
}.

(** [ImplementationError] of a code, printing [msg] after the position. *)
Definition impl (c : Code) (msg : string) : error := EImpl c msg.

Definition KIB : Z := 1024.
Definition MIB : Z := (KIB * 1024)%Z.
Definition GIB : Z := (MIB * 1024)%Z.
Definition TIB : Z := (GIB * 1024)%Z.
Definition ToBeDeleted : string := "host.k8s.to_be_deleted".
Definition HostIDPublishContext : string := "hostID".
Definition HostPortsPublishContext : string := "hostPorts".
Definition LunPublishContext : string := "lun".

Section Build.
(** [url.Parse], reduced to the scheme and the printed URL, and whether
    [url.ParseRequestURI] accepts a text. *)
Variable url_Parse : string -> res (string * string).
Variable url_ParseRequestURI : string -> bool.

(** The address of the array: the host name with [https] as its scheme, or the
    URL it already is. *)
Definition apiHost (hostname scheme str : string) : string :=
  if String.eqb scheme "" then "https://" +:+ hostname +:+ "/" else str.

(** [ClientService.getAPIConfig], called by [verifyAPIClient]. A URL that does
    not parse is logged through the nil pointer it leaves. *)
Definition getAPIConfig (secrets : gmap string string) : prog call (res string) :=
  if String.eqb secrets.[CredentialHostname] "" || String.eqb secrets.[CredentialUsername] ""
     || String.eqb secrets.[CredentialPassword] ""
  then Ret (Err (EText "host configuration is not valid, verify hostname, username, password is not blank"))
  else match url_Parse secrets.[CredentialHostname] with
       | Ok (scheme, str) =>
           let APIHost := apiHost secrets.[CredentialHostname] scheme str in
           if url_ParseRequestURI APIHost then Ret (Ok APIHost) else Panic
       | Err _ => Panic
       end.

Definition verifyAPIClient (secrets : gmap string string) : prog call (res string) :=
  r <- getAPIConfig secrets ;;
  Ret (map_err (fun e => EWrap "failed to create rest client " e "") r).

(** [config] is a field of the service that is never nil. *)
Definition BuildCommonService (config secrets : gmap string string)
    (volumePrototype : VolumeProtocolConfig) : prog call (res Commonservice) :=
  if decide (size secrets < 3)
  then Ret (Err (EText "secrets are missing or not valid"))
  else match url_Parse secrets.[CredentialHostname] with
       | Err _ => Ret (Err (EText "secret hostname is missing or not valid"))
       | Ok (scheme, str) =>
           if negb (url_ParseRequestURI (apiHost secrets.[CredentialHostname] scheme str)) then Panic
           else
             try _host <- verifyAPIClient secrets catch e => Ret (Err e) ;;
             Ret (Ok {| storagePoolIDName := None;
                        driverVersion := config.["driverversion"];
                        VolProto := volumePrototype |})
       end.
End Build.

Definition MapVolumeTohost (volumeID hostID : Z) : prog call (res LunInfo) :=
  r <- iboxAPI (MapVolumeToHost hostID volumeID (-1)) ;;
  match r with
  | Ok lunInfo => Ret (Ok lunInfo)
  | Err err =>
      if is_ErrMappingExists err
      then iboxAPI (GetLunByHostVolume hostID volumeID)
      else Ret (Err err)
  end.

Definition UnmapVolumeFromHost (hostID volumeID : Z) : prog call (option error) :=
  r <- iboxAPI (UnMapVolumeFromHost hostID volumeID) ;;
  match r with
  | Ok _ => Ret None
  | Err err =>
      if Contains (Error err) "HOST_NOT_FOUND" then Ret None
      else if Contains (Error err) "LUN_NOT_FOUND" then Ret None
      else if Contains (Error err) "VOLUME_NOT_FOUND" then Ret None
      else Ret (Some err)
  end.

Definition shortHost (hostName : string) : string := hd "" (Split hostName ".").

Definition ValidateHost (hostName0 : string) : prog call (res Host) :=
  removeDomainName <- osAPI (Getenv EnvVarRemoveDomainName) ;;
  let hostName := if negb (String.eqb removeDomainName "") && String.eqb removeDomainName "true"
                  then shortHost hostName0 else hostName0 in
  r <- iboxAPI (GetHostByName hostName) ;;
  match r with
  | Ok host => Ret (Ok host)
  | Err err =>
      if is_ErrNotFound err then
        try host <- iboxAPI (CreateHost hostName) catch e =>
          Ret (Err (EStatus Internal ("error failed to create host " +:+ hostName +:+ " with error " +:+ Error e))) ;;
        try _m <- iboxAPI (PutMetadata (Host_ID host) {[ CSICreatedHost := JBool true ]}) catch e =>
          Ret (Err (EStatus Internal ("error creating host metadata: " +:+ hostName +:+ " id: "
                 +:+ Itoa (Host_ID host) +:+ " error: " +:+ Error e))) ;;
        Ret (Ok host)
      else Ret (Err (EStatus Internal ("validateHost - GetHostByName - hostname: " +:+ hostName
                       +:+ " error: " +:+ Error err)))
  end.

(** [getStoragePoolNameFromID]: reads and fills the pool-name cache; writing an
    entry of a nil map panics. *)
Definition getStoragePoolNameFromID (cs : Commonservice) (poolID : Z)
    : prog call (string * Commonservice) :=
  let cached := default "" (m ← storagePoolIDName cs; m !! poolID) in
  if negb (String.eqb cached "") then Ret (cached, cs)
  else
    r <- iboxAPI (GetPoolByID poolID) ;;
    match r with
    | Err _ => Ret ("", cs)
    | Ok pool =>
        match storagePoolIDName cs with
        | None => Panic
        | Some m => Ret (PoolResult_Name pool,
            {| storagePoolIDName := Some (<[poolID := PoolResult_Name pool]> m);
               driverVersion := driverVersion cs; VolProto := VolProto cs |})
        end
    end.

Definition GetCSIResponse (cs : Commonservice) (vol : Volume) (req : CSICreateVolumeRequest)
    : prog call (CSIVolume * Commonservice) :=
  named <- (if String.eqb (Volume_PoolName vol) ""
            then getStoragePoolNameFromID cs (Volume_PoolID vol)
            else Ret (Volume_PoolName vol, cs)) ;;
  created <- osAPI (LocalTimeString (Volume_CreatedAt vol)) ;;
  let volumeAttributes : gmap string string :=
    <["targetWWNs" := (Req_Parameters req).["targetWWNs"]]>
    (<["CreationTime" := created]> (<["StoragePoolName" := fst named]>
    (<["StoragePoolID" := Itoa (Volume_PoolID vol)]> (<["Name" := Volume_Name vol]>
    {[ "ID" := Itoa (Volume_ID vol) ]})))) in
  Ret ({| CSIVolume_VolumeId := Itoa (Volume_ID vol);
          CSIVolume_CapacityBytes := Volume_Size vol;
          CSIVolume_VolumeContext := volumeAttributes;
          CSIVolume_ContentSource := Req_VolumeContentSource req |}, snd named).

(** [GetNetworkSpaceIP] picks a portal at random; [rand.Intn n] is below [n]. *)
Definition GetNetworkSpaceIP (networkSpace : string) : prog call (res string) :=
  try ns <- iboxAPI (GetNetworkSpaceByName networkSpace) catch e => Ret (Err e) ;;
  match NetworkSpace_Portals ns with
  | [] => Ret (Err (EText "error IP address not found"))
  | p :: ps =>
      let n := Z.of_nat (length (p :: ps)) in
      i <- osAPI (RandIntn n) ;;
      Ret (Ok (Portal_IPAddress (nth (Z.to_nat (i mod n)%Z) (p :: ps) p)))
  end.

Definition getClusterVersion : prog call string :=
  e <- kubeAPI BuildClient ;;
  match e with
  | Some _ => Ret ""
  | None => v <- kubeAPI GetClusterVersion ;; Ret (fst v)
  end.

Definition GetCreatedBy (cs : Commonservice) : prog call string :=
  k8version <- getClusterVersion ;;
  Ret (if String.eqb k8version "" then "CSI/" +:+ driverVersion cs
       else "CSI/" +:+ k8version +:+ "/" +:+ driverVersion cs).

(** [CopyRequestParameters]: the non-empty parameters overwrite [out]. *)
Definition CopyRequestParameters (parameters out : gmap string string) : gmap string string :=
  filter (fun kv => snd kv <> "") parameters ∪ out.

Definition DetermineSSDValue (ssdStorageClassParameter : string) (pool : PoolResult) : res bool :=
  if String.eqb ssdStorageClassParameter "" then Ok (PoolResult_SsdEnabled pool)
  else map_err (fun e => EWrap ("error parsing " +:+ ssdStorageClassParameter +:+ " ") e "")
               (ParseBool ssdStorageClassParameter).

Definition PortalMounter (portal : string) : string :=
  if Contains portal ":" then portal else portal +:+ ":3260".

(** [GetHostInfo], called for the log lines of the handlers. *)
Definition GetHostInfo (secrets : gmap string string) : prog call string :=
  sys <- iboxAPI GetSystem ;;
  let serialNumber := match sys with Ok n => n | Err _ => 0%Z end in
  Ret (" - ibox " +:+ secrets.[CredentialHostname] +:+ " (" +:+ Itoa serialNumber +:+ ")").

Definition ValidatePublishContext (publishContext : gmap string string) : res (Z * string) :=
  let hostIDString := publishContext.[HostIDPublishContext] in
  match Atoi hostIDString with
  | Err e => Err (EWrap ("hostID string " +:+ hostIDString +:+ " is not valid host ID: ") e "")
  | Ok hostID =>
      if (hostID <? 1)%Z then Err (EText ("hostID " +:+ Itoa hostID +:+ " is not valid host ID"))
      else Ok (hostID, publishContext.[HostPortsPublishContext])
  end.

Definition HostCleanup (hostID : Z) (hostName : string) : prog call (option error) :=
  meta <- iboxAPI (GetMetadata hostID) ;;
  match snd meta with
  | Some e => Ret (Some (EWrap ("hostCleanup: failed to get metadata for host ID " +:+ Itoa hostID
                          +:+ ". Error: ") e ""))
  | None =>
      let createdByCSI := existsb (fun m => String.eqb (GetMetadataResult_Key m) CSICreatedHost) (fst meta) in
      if createdByCSI then
        r <- iboxAPI (DeleteHost hostID) ;;
        match r with
        | Err e => if is_ErrNotFound e then Ret None
                   else Ret (Some (EWrap "hostCleanup: failed to delete host with error " e ""))
        | Ok _ => Ret None
        end
      else Ret None
  end.

Definition DetermineHostName (nodeID : string) : prog call (res string) :=
  if String.eqb nodeID "" then Ret (Err (EText "node ID empty"))
  else match Split nodeID "$$" with
       | [hostName; _] =>
           removeDomainName <- osAPI (Getenv EnvVarRemoveDomainName) ;;
           Ret (Ok (if String.eqb removeDomainName "true" then shortHost hostName else hostName))
       | _ => Ret (Err (EText ("node ID: " +:+ nodeID +:+ " not found")))
       end.

Definition ValidateVolumeID (volumeIDString : string) : res VolumeProtocolConfig :=
  if String.eqb volumeIDString "" then Err (EText ("volume Id string is empty, [" +:+ volumeIDString +:+ "]"))
  else match Split volumeIDString "$$" with
  | [id; storageType] =>
      if String.eqb id "" then Err (EText ("volume Id in volproto is empty, [" +:+ volumeIDString +:+ "]"))
      else if String.eqb storageType "" then
        Err (EText ("volume storagetype in volproto is empty, [" +:+ volumeIDString +:+ "]"))
      else if String.eqb storageType ProtocolTreeq then
        match Split id "#" with
        | [fs; tq] =>
            match Atoi fs with
            | Err e => Err e
            | Ok volumeID =>
                match Atoi tq with
                | Err e => Err (EWrap "volume treeq id parse error " e (" on " +:+ tq))
                | Ok treeqID => Ok (MkVolumeProtocolConfig volumeID storageType "" None "" treeqID)
                end
            end
        | _ => Err (EText ("treeq volume not correctly formatted " +:+ id +:+ ", [" +:+ volumeIDString +:+ "]"))
        end
      else
        match Atoi id with
        | Err e => Err (EWrap ("volume id in volproto is not an integer, [" +:+ id +:+ "], error: ") e "")
        | Ok volumeID => Ok (MkVolumeProtocolConfig volumeID storageType "" None "" 0)
        end
  | _ => Err (EText ("volume Id and other details not found, [" +:+ volumeIDString +:+ "]"))
  end.

(** ** snapshot.go *)

Definition RestoreTypeVolume : string := "Volume".
Definition RestoreTypeSnapshot : string := "Snapshot".

Definition millisPerHour : Z := 3600000.
Definition millisPerDay : Z := (24 * millisPerHour)%Z.
Definition millisPerWeek : Z := (7 * millisPerDay)%Z.
Definition millisPerMonth : Z := (4 * millisPerWeek)%Z.
Definition millisPerYear : Z := (12 * millisPerMonth)%Z.

Definition millisPer (frequency : string) : option Z :=
  if String.eqb frequency "Hours" then Some millisPerHour
  else if String.eqb frequency "Days" then Some millisPerDay
  else if String.eqb frequency "Weeks" then Some millisPerWeek
  else if String.eqb frequency "Months" then Some millisPerMonth
  else if String.eqb frequency "Years" then Some millisPerYear
  else None.

Definition ValidateSnapshotLockingParameter (nowTime : Z) (input : string) : res Z :=
  match Split input " " with
  | [first; second] =>
      match Atoi first with
      | Err _ => Err (EText "invalid format of lock_expires_at count, should be in the format of an integer")
      | Ok count =>
          if (count <? 1)%Z then Err (EText "invalid lock_expires_at count, should be greater than 0")
          else match millisPer second with
               | None => Err (EText "invalid format of lock_expires_at frequency, should be either Days, Hours, Weeks, Months, Years")
               | Some unit => Ok (i64 (nowTime + i64 (count * unit)))
               end
      end
  | _ => Err (EText "invalid format of lock_expires_at parameter, should only have 2 values (int string)")
  end.

Definition featureEnabled (requestedFeature : string) : prog call (res bool) :=
  features <- iboxAPI GetFeatures ;;
  match snd features with
  | Some err => Ret (Err err)
  | None =>
      Ret (Ok (match List.find (fun f => String.eqb (FeatureResult_Name f) requestedFeature) (fst features) with
               | Some f => FeatureResult_Enabled f
               | None => false
               end))
  end.

(** The content source's restore type and id; a source of neither kind leaves
    both empty. *)
Definition content_id (src : option VolumeContentSource) : string * string :=
  match src with
  | Some (SourceSnapshot id) => (RestoreTypeSnapshot, id)
  | Some (SourceVolume id) => (RestoreTypeVolume, id)
  | _ => ("", "")
  end.

Definition CreateVolumeFromVolumeContent (cs : Commonservice) (req : CSICreateVolumeRequest)
    (name : string) (sizeInBytes : Z) (storagePool : string) : prog call (res CreateVolumeResponse) :=
  let '(restoreType, volumeContentID) := content_id (Req_VolumeContentSource req) in
  match ValidateVolumeID volumeContentID with
  | Err err => Ret (Err (EStatus NotFound ("error from ValidateVolumeID - restoreType: " +:+ restoreType
                 +:+ " volumeContentID: " +:+ volumeContentID +:+ ", error: " +:+ Error err)))
  | Ok volproto =>
      let srcID := VolumeProtocolConfig_VolumeID volproto in
      try srcVol <- iboxAPI (GetVolume srcID) catch err =>
        Ret (Err (EStatus NotFound ("error from GetVolume - restoreType: " +:+ restoreType +:+ " volumeID: "
               +:+ Itoa srcID +:+ " error: " +:+ Error err))) ;;
      if negb (Volume_Size srcVol =? sizeInBytes)%Z then
        Ret (Err (EStatus InvalidArgument (restoreType +:+ " " +:+ volumeContentID +:+ " has incompatible size "
               +:+ Itoa (Volume_Size srcVol) +:+ " bytes with requested " +:+ Itoa sizeInBytes +:+ " bytes")))
      else
      try pool <- iboxAPI (GetPoolByName storagePool) catch err =>
        Ret (Err (EStatus Internal ("error from GetPoolByName - storagePool: " +:+ storagePool +:+ "  error: " +:+ Error err))) ;;
      if negb (PoolResult_ID pool =? Volume_PoolID srcVol)%Z then
        Ret (Err (EStatus InvalidArgument ("volume storage pool is different than requested storagePool: " +:+ storagePool)))
      else
      let ssd := (Req_Parameters req).[StorageClassSSDEnabled] in
      let ssdEnabled := match ParseBool (if String.eqb ssd "" then FormatBool false else ssd) with
                        | Ok b => b | Err _ => false end in
      try snapResponse <- iboxAPI (CreateSnapshotVolume
          {| CreateSnapshotVolumeRequest_ParentID := srcID;
             CreateSnapshotVolumeRequest_SnapshotName := name;
             CreateSnapshotVolumeRequest_WriteProtected := false;
             CreateSnapshotVolumeRequest_SSDEnabled := ssdEnabled;
             CreateSnapshotVolumeRequest_LockExpiresAt := 0 |}) catch err =>
        Ret (Err (EStatus Internal ("error from CreateSnapshotVolume - error: " +:+ Error err))) ;;
      let volID := Snapshot_SnapShotID snapResponse in
      try dstVol <- iboxAPI (GetVolume volID) catch err =>
        Ret (Err (EStatus Internal ("error from GetVolume - volumeID: " +:+ Itoa volID +:+ " error: " +:+ Error err))) ;;
      try enabled <- featureEnabled IboxFeaturePromoteSnapshot catch err =>
        Ret (Err (EStatus Internal ("from featureEnabled - error: " +:+ Error err))) ;;
      try _p <- (if (enabled : bool)
                 then r <- iboxAPI (PromoteSnapshot (Volume_ID dstVol)) ;; Ret (res_bind r (fun _ => Ok tt))
                 else Ret (Ok tt)) catch err =>
        Ret (Err (EStatus Internal ("from PromoteSnapshot - error: " +:+ Error err))) ;;
      answer <- GetCSIResponse cs dstVol req ;;
      let csiVolume := fst answer in
      try _m <- iboxAPI (PutMetadata (Volume_ID dstVol) {[ "host.k8s.pvname" := JStr (Volume_Name dstVol) ]}) catch err =>
        Ret (Err (EStatus Internal ("error from PutMetadata - volumeName: " +:+ Volume_Name dstVol +:+ ", error: " +:+ Error err))) ;;
      Ret (Ok (Some {| CSIVolume_VolumeId := CSIVolume_VolumeId csiVolume;
                       CSIVolume_CapacityBytes := CSIVolume_CapacityBytes csiVolume;
                       CSIVolume_VolumeContext :=
                         CopyRequestParameters (Req_Parameters req) (CSIVolume_VolumeContext csiVolume);
                       CSIVolume_ContentSource := CSIVolume_ContentSource csiVolume |}))
  end.

(** ** createsnapshot.go *)

(** [lock_expires_at]: the expiry is counted from the array's clock, as its
    first node last saw it; an empty list of nodes panics. *)
Definition lockExpiry (param : string) (wrap_ntp wrap_parse : error -> error)
    : prog call (res Z) :=
  if String.eqb param "" then Ret (Ok 0%Z)
  else
    ntpStatus <- iboxAPI GetNtpStatus ;;
    match snd ntpStatus, fst ntpStatus with
    | Some err, _ => Ret (Err (wrap_ntp err))
    | None, [] => Panic
    | None, n :: _ =>
        Ret (map_err wrap_parse (ValidateSnapshotLockingParameter (NtpStatus_LastProbeTimestamp n) param))
    end.

Definition CommonCreateSnapshot (req : CSISnapshotRequest) (cs : Commonservice)
    : prog call (res CSISnapshot) :=
  let snapshotName := Snap_Name req in
  let volproto := VolProto cs in
  let sourceID := VolumeProtocolConfig_VolumeID volproto in
  let storageType := VolumeProtocolConfig_StorageType volproto in
  existing <- iboxAPI (GetVolumeByName snapshotName) ;;
  match existing with
  | Ok volumeSnapshot =>
      if (Volume_ParentID volumeSnapshot =? sourceID)%Z then
        now <- osAPI Now ;;
        Ret (Ok {| CSISnapshot_SizeBytes := Volume_Size volumeSnapshot;
                   CSISnapshot_SnapshotId := Itoa (Volume_ID volumeSnapshot) +:+ "$$" +:+ storageType;
                   CSISnapshot_SourceVolumeId := Snap_SourceVolumeId req;
                   CSISnapshot_CreationTime := now;
                   CSISnapshot_ReadyToUse := true |})
      else Ret (Err (EStatus AlreadyExists ("snapshot Name: " +:+ Volume_Name volumeSnapshot
                       +:+ " with already existing name and different source volume ID")))
  | Err err =>
      if negb (is_ErrNotFound err) then
        Ret (Err (EStatus Internal ("error from GetVolumeByName - snapshotName: " +:+ snapshotName
               +:+ " error: " +:+ Error err)))
      else
      try parentVolume <- iboxAPI (GetVolume sourceID) catch err =>
        Ret (Err (EStatus NotFound ("error from GetVolume - getting parent volume when creating snapshot - volumeID: "
               +:+ Itoa sourceID +:+ ", error: " +:+ Error err))) ;;
      try lockExpiresAt <- lockExpiry (Snap_Parameters req).[LockExpiresAtParameter]
          (fun e => EStatus Internal ("error from GetNtpStatus - error: " +:+ Error e))
          (fun e => EStatus Internal ("failed to create snapshotName: " +:+ snapshotName +:+ " error: "
                      +:+ Error e +:+ ", invalid lock_expires_at parameter ")) catch err => Ret (Err err) ;;
      try snapshot <- iboxAPI (CreateSnapshotVolume
          {| CreateSnapshotVolumeRequest_ParentID := sourceID;
             CreateSnapshotVolumeRequest_SnapshotName := snapshotName;
             CreateSnapshotVolumeRequest_WriteProtected := true;
             CreateSnapshotVolumeRequest_SSDEnabled := Volume_SsdEnabled parentVolume;
             CreateSnapshotVolumeRequest_LockExpiresAt := lockExpiresAt |}) catch err =>
        Ret (Err (EStatus Internal ("error from CreateSnapshotVolume  snapshotName: " +:+ snapshotName
               +:+ " error: " +:+ Error err))) ;;
      now <- osAPI Now ;;
      Ret (Ok {| CSISnapshot_SizeBytes := Snapshot_Size snapshot;
                 CSISnapshot_SnapshotId := Itoa (Snapshot_SnapShotID snapshot) +:+ "$$" +:+ storageType;
                 CSISnapshot_SourceVolumeId := Snap_SourceVolumeId req;
                 CSISnapshot_CreationTime := now;
                 CSISnapshot_ReadyToUse := true |})
  end.

(** ** deletevolume.go *)

(** [DeleteVolume] climbs to the parent of the volume it deleted; [fuel] bounds
    the climb. The error of [GetVolumesByParentID] is only logged. *)
Fixpoint DeleteVolume (fuel : nat) (volumeID : Z) : prog call (option error) :=
  match fuel with
  | O => NoFuel
  | S fuel =>
      v <- iboxAPI (GetVolume volumeID) ;;
      match v with
      | Err err => Ret (if is_ErrNotFound err then None else Some (EWrap "" err ""))
      | Ok vol =>
          if String.eqb (Volume_LockState vol) LockedState then
            until <- osAPI (LocalTimeStringMilli (Volume_LockExpiresAt vol)) ;;
            Ret (Some (EStatus Aborted ("volume ID: " +:+ Itoa volumeID
                   +:+ " was locked, can not delete till expire date " +:+ until +:+ " is reached")))
          else
          childVolumes <- iboxAPI (GetVolumesByParentID (Volume_ID vol)) ;;
          match fst childVolumes with
          | _ :: _ =>
              r <- iboxAPI (PutMetadata (Volume_ID vol) {[ ToBeDeleted := JBool true ]}) ;;
              Ret (match r with
                   | Err err => Some (EWrap ("failed to update host.k8s.to_be_deleted for volume "
                                        +:+ Volume_Name vol +:+ " error: ") err "")
                   | Ok _ => None
                   end)
          | [] =>
              r <- iboxAPI (DeleteMetadata (Volume_ID vol)) ;;
              match r with
              | Err err => Ret (Some (EWrap "" err ""))
              | Ok _ =>
                  d <- iboxAPI (IboxTypes.DeleteVolume (Volume_ID vol)) ;;
                  match d with
                  | Err err => Ret (Some (EWrap "" err ""))
                  | Ok _ =>
                      if (Volume_ParentID vol =? 0)%Z then Ret None
                      else
                        metadata <- iboxAPI (GetMetadata (Volume_ParentID vol)) ;;
                        match snd metadata with
                        | Some err => Ret (Some (EWrap "" err ""))
                        | None =>
                            if existsb (fun m => String.eqb (GetMetadataResult_Key m) ToBeDeleted) (fst metadata)
                            then e <- DeleteVolume fuel (Volume_ParentID vol) ;;
                                 Ret (match e with Some err => Some (EWrap "" err "") | None => None end)
                            else Ret None
                        end
                  end
              end
          end
      end
  end.

(** ** unpublishvolume.go *)

(** [CommonUnpublishVolume] dereferences [VolProto.Host]. *)
Definition CommonUnpublishVolume (cs : Commonservice) (hostNameSuffix : string)
    : prog call (option error) :=
  match VolumeProtocolConfig_Host (VolProto cs) with
  | None => Panic
  | Some host =>
      let volumeID := VolumeProtocolConfig_VolumeID (VolProto cs) in
      unmapped <- (match Host_Luns host with
                   | [] => Ret None
                   | _ :: _ => UnmapVolumeFromHost (Host_ID host) volumeID
                   end) ;;
      match unmapped with
      | Some err => Ret (Some (EStatus Internal ("from UnmapVolumeFromHost - volumeID: " +:+ Itoa volumeID
                         +:+ " hostID: " +:+ Itoa (Host_ID host) +:+ " - error: " +:+ Error err)))
      | None =>
          (if bool_decide (length (Host_Luns host) = 1) then osAPI (Sleep 2) else Ret tt) ;;;
          luns <- iboxAPI (GetAllLunByHost (Host_ID host)) ;;
          match fst luns with
          | [] =>
              e <- HostCleanup (Host_ID host) (Host_Name host +:+ hostNameSuffix) ;;
              Ret (match e with
                   | Some err => Some (EStatus Internal ("from HostCleanup - hostID: " +:+ Itoa (Host_ID host)
                                    +:+ " - error: " +:+ Error err))
                   | None => None
                   end)
          | _ :: _ => Ret None
          end
      end
  end.

(** ** validation.go *)

Definition protoToServiceMap : gmap string string :=
  <[ProtocolNFS := NetworkSpaceNFSService]> (<[ProtocolTreeq := NetworkSpaceNFSService]>
  (<[ProtocolISCSI := NetworkSpaceISCSIService]> {[ ProtocolNVME := NetworkSpaceNVMEService ]})).

(** The entries a parameter list adds to [badParamsMap]. *)
Definition bad_required (provided : gmap string string) (req : string * pattern) : list (string * string) :=
  let '(param, p) := req in
  match provided !! param with
  | Some v => if MatchString p v then []
              else [(param, "required input parameter " +:+ v +:+ " didn't match expected pattern " +:+ pattern_text p)]
  | None => [(param, "parameter required but not provided")]
  end.
Definition bad_optional (provided : gmap string string) (req : string * pattern) : list (string * string) :=
  let '(param, p) := req in
  match provided !! param with
  | Some v => if MatchString p v then []
              else [(param, "Optional input parameter " +:+ v +:+ " didn't match expected pattern " +:+ pattern_text p)]
  | None => []
  end.

(** The text of a map prints its entries; their order is the order given here. *)
Definition print_map (m : list (string * string)) : string :=
  "map[" +:+ join_with " " (map (fun kv => fst kv +:+ ":" +:+ snd kv) m) +:+ "]".

Definition ValidateRequiredOptionalSCParameters
    (required optional : list (string * pattern)) (provided : gmap string string) : option error :=
  let badParamsMap := concat (map (bad_required provided) required)
                      ++ concat (map (bad_optional provided) optional) in
  match badParamsMap with
  | [] => None
  | _ :: _ => Some (EText ("invalid StorageClass parameters provided: " +:+ print_map badParamsMap))
  end.

Fixpoint ValidateProtocolToNetworkSpace_loop (protocol : string) (networkSpaces : list string)
    : prog call (option error) :=
  match networkSpaces with
  | [] => Ret None
  | networkSpace :: rest =>
      r <- iboxAPI (GetNetworkSpaceByName networkSpace) ;;
      match r with
      | Err err => Ret (Some err)
      | Ok nSpace =>
          if String.eqb (NetworkSpace_Service nSpace) "" then
            Ret (Some (EText ("ibox not configured with specified network space: '" +:+ networkSpace
                   +:+ "' Service is empty")))
          else if negb (String.eqb (NetworkSpace_Service nSpace) protoToServiceMap.[protocol]) then
            Ret (Some (EText ("specified network space '" +:+ networkSpace +:+ "' does not support " +:+ protocol
                   +:+ " protocol with " +:+ NetworkSpace_Service nSpace +:+ " service")))
          else ValidateProtocolToNetworkSpace_loop protocol rest
      end
  end.
Definition ValidateProtocolToNetworkSpace (protocol : string) (networkSpaces : list string)
    : prog call (option error) :=
  match networkSpaces with
  | [] => Ret (Some (EText "no network spaces provided"))
  | _ :: _ => ValidateProtocolToNetworkSpace_loop protocol networkSpaces
  end.

(** ** permissions.go *)

Definition NFSMountOptionHard : string := "hard".
Definition NFSMountOptionsSoft : string := "soft".
Definition StandardMountOptions : string := "vers=3,tcp,rsize=262144,wsize=262144".
Definition NFSMountOptionReadonly : string := "ro".

Fixpoint take_digits (s : string) : string :=
  match s with
  | String c s' => if is_digit c then String c (take_digits s') else ""
  | EmptyString => ""
  end.
(** The second group of the leftmost match of [NFSVersionRegex]: the
    digits after the first [vers=], whether or not [nfs] precedes it. *)
Fixpoint nfs_version (opt : string) : option string :=
  if String.prefix "vers=" opt then Some (take_digits (String.substring 5 (String.length opt) opt))
  else match opt with EmptyString => None | String _ opt' => nfs_version opt' end.

Definition supported_version (v : string) : bool :=
  String.eqb v "3" || String.eqb v "4" || String.eqb v "4.1".
Definition bad_version (opt : string) : bool :=
  match nfs_version opt with Some v => negb (supported_version v) | None => false end.
Definition explicit_version (opt : string) : bool :=
  ContainsStr ["vers=3"; "nfsvers=3"; "vers=4"; "nfsvers=4"; "vers=4.1"; "nfsvers=4.1"] opt.

Definition UpdateNfsMountOptions (mountOptions : list string) (readonly : bool) : res (list string) :=
  match List.find bad_version mountOptions with
  | Some opt => Err (EText ("nfs version mount option '" +:+ opt
                       +:+ "' encountered, but only NFS versions 3 and 4 are supported"))
  | None =>
      let o1 := if existsb explicit_version mountOptions then mountOptions else mountOptions ++ ["vers=3"] in
      let hardInMountOptions := existsb (String.eqb NFSMountOptionHard) o1 in
      let softInMountOptions := existsb (String.eqb NFSMountOptionsSoft) o1 in
      let o2 := if negb hardInMountOptions && negb softInMountOptions then o1 ++ [NFSMountOptionHard] else o1 in
      let o3 := if readonly then o2 ++ [NFSMountOptionReadonly] else o2 in
      Ok (Compact o3)
  end.

(** [GetNFSMountOptions] of a request with capability [c] and flag [readonly];
    [req.VolumeCapability.GetAccessMode()] accepts a nil capability. *)
Definition GetNFSMountOptions (c : option VolumeCapability) (readonly : bool) : res (list string) :=
  let flags := match c with
               | Some c => match GetMount c with Some (_, flags) => flags | None => [] end
               | None => []
               end in
  let mountOptions := match flags with
                      | [] => filter (fun o => o <> "") (Split StandardMountOptions ",")
                      | _ => flags
                      end in
  res_bind (UpdateNfsMountOptions mountOptions readonly) (fun mountOptions =>
  Ok (if readonly || bool_decide (GetMode c = MULTI_NODE_READER_ONLY)
      then mountOptions ++ [NFSMountOptionReadonly] else mountOptions)).
