(* ===== verification/StorageCommonProofs.v ===== *)
(** Correctness of [storage/common]. *)
From stdpp Require Import base strings list gmap.
From S2P Require Import Prelude GoLib Regexp IboxTypes Traces Csi Helper StorageCommon.
From Stdlib Require Import ZArith Lia Ascii.

Local Open Scope string_scope.
Local Open Scope list_scope.

(** ** Deleting a block volume *)

Definition deletes_volume (e : evt call) : option Z :=
  match e with
  | Evt c _ =>
      match c with
      | Ibox i => match i with IboxTypes.DeleteVolume v => Some v | _ => None end
      | _ => None
      end
  end.

(** What was seen of the children of volume [v]: the array listed none, or the
    listing failed without naming one ([DeleteVolume] logs that error and goes
    on). *)
Definition childless (before : trace) (v : Z) : Prop :=
  Evt (Ibox (GetVolumesByParentID v)) ([], None) ∈ before.
Definition unlisted (before : trace) (v : Z) : Prop :=
  exists err, Evt (Ibox (GetVolumesByParentID v)) ([], Some err) ∈ before.
Definition no_child_seen (before : trace) (v : Z) : Prop :=
  childless before v \/ unlisted before v.

(** The events seen before justify deleting volume [v], when [id] is the
    volume the request names: [v] was read by an id that is [id] or that of a
    parent tagged for deletion, it was not locked, and its children were seen
    as [kids] demands. *)
Definition delete_justified (kids : trace -> Z -> Prop) (id : Z) (before : trace) (v : Z) : Prop :=
  exists q vol,
    Evt (Ibox (GetVolume q)) (Ok vol) ∈ before /\ Volume_ID vol = v /\
    Volume_LockState vol <> LockedState /\ kids before v /\
    (q = id \/ exists ms m, Evt (Ibox (GetMetadata q)) (ms, None) ∈ before /\
                            m ∈ ms /\ GetMetadataResult_Key m = ToBeDeleted).

Definition delete_guard (kids : trace -> Z -> Prop) (id : Z) (before : trace) (e : evt call) : Prop :=
  forall v, deletes_volume e = Some v -> delete_justified kids id before v.

(** No listing of children in the run failed. *)
Definition children_listed (t : trace) : Prop :=
  forall v vs err, Evt (Ibox (GetVolumesByParentID v)) (vs, err) ∈ t -> err = None.

Lemma delete_guard_listed id t :
  children_listed t -> guarded (delete_guard no_child_seen id) t -> guarded (delete_guard childless id) t.
Proof.
  intros Hl Hg t1 e t2 -> v Hv. destruct (Hg t1 e t2 eq_refl v Hv) as (q & vol & H1 & H2 & H3 & H4 & H5).
  exists q, vol. do 3 (split; [done|]). split; [|done].
  destruct H4 as [H4|[err H4]]; [done|]. discriminate (Hl v [] (Some err)). set_solver.
Qed.

Lemma string_eqb_false (a b : string) : (a =? b)%string = false -> a <> b.
Proof. apply String.eqb_neq. Qed.

Lemma delete_own id vol err t v :
  Volume_LockState vol <> LockedState -> Volume_ID vol = v ->
  delete_justified no_child_seen id (Evt (Ibox (GetVolume id)) (Ok vol)
    :: Evt (Ibox (GetVolumesByParentID v)) ([], err) :: t) v.
Proof.
  intros Hl Hv. exists id, vol. unfold no_child_seen, childless, unlisted.
  repeat split; try done; [by left| |by left].
  destruct err as [err|]; [right; exists err|left]; by right; left.
Qed.

Lemma delete_parent id p t1 t2 v ms m :
  Evt (Ibox (GetMetadata p)) (ms, None) ∈ t1 -> m ∈ ms -> GetMetadataResult_Key m = ToBeDeleted ->
  delete_justified no_child_seen p t2 v -> delete_justified no_child_seen id (t1 ++ t2) v.
Proof.
  intros Hm Hin Hk (q & vol & H1 & H2 & H3 & H4 & H5).
  exists q, vol. unfold no_child_seen, childless, unlisted in *. setoid_rewrite elem_of_app.
  split; [tauto|]. split; [done|]. split; [done|]. split; [naive_solver|]. right.
  destruct H5 as [->|(ms' & m' & H5 & H6 & H7)].
  - exists ms, m. tauto.
  - exists ms', m'. tauto.
Qed.

Lemma existsb_key k ms :
  existsb (fun m => GetMetadataResult_Key m =? k)%string ms = true ->
  exists m, m ∈ ms /\ GetMetadataResult_Key m = k.
Proof.
  intros (m & Hin & Hk)%existsb_exists. exists m.
  rewrite list_elem_of_In. split; [done|by apply String.eqb_eq].
Qed.

Lemma DeleteVolume_deletes fuel id t o :
  runs (DeleteVolume fuel id) t o -> guarded (delete_guard no_child_seen id) t.
Proof.
  revert id t o. induction fuel as [|fuel IH]; intros id.
  { intros t o [-> _]. apply guarded_nil. }
  intros t o. revert t o. wp_start. cbn [DeleteVolume]. wp_run.
  all: try (wp_leaf; guard_event; intros v [= <-];
            by apply delete_own; [apply string_eqb_false|]).
  apply (wp_call _ _ (fun t _ => guarded (delete_guard no_child_seen (Volume_ParentID a)) t)); [apply IH|].
  intros t o' Ht.
  match goal with H : existsb _ _ = true |- _ => destruct (existsb_key _ _ H) as (m & Hin & Hk) end.
  destruct o' as [e| |]; cbn [wp]; wp_leaf; rewrite ?app_nil_r; guard_event.
  all: try (intros v [= <-]; by apply delete_own; [apply string_eqb_false|]).
  all: eapply guarded_mono, Ht; intros t1 ev Hev v Hv.
  all: apply (delete_parent _ (Volume_ParentID a) [_; _; _; _; _] _ _ l m);
    [set_solver|done..|by apply Hev].
Qed.

(** C1: in every run, whatever the array answers, a volume is deleted only when
    it is the requested volume or an ancestor whose metadata tags it for
    deletion, after it was read unlocked and no child of it was seen: the array
    listed none, or the listing itself failed, an error the code only logs. In a
    run where no listing fails, nothing is deleted but after the array answered
    that it has no children. *)
Theorem DeleteVolume_guarded fuel id t o :
  runs (DeleteVolume fuel id) t o ->
  guarded (delete_guard no_child_seen id) t /\
  (children_listed t -> guarded (delete_guard childless id) t).
Proof.
  intros H. assert (Hg := DeleteVolume_deletes _ _ _ _ H).
  split; [done|]. intros Hl. by apply delete_guard_listed.
Qed.

(** C15: if the parent links the array reports are well-founded, the climb ends
    within the rank of the volume: the handler returns, without panic. *)
Theorem DeleteVolume_terminates (rank : Z -> nat) fuel id t o :
  runs (DeleteVolume fuel id) t o ->
  (forall q vol, Evt (Ibox (GetVolume q)) (Ok vol) ∈ t ->
     Volume_ParentID vol <> 0%Z -> rank (Volume_ParentID vol) < rank q) ->
  rank id < fuel -> exists r, o = Done r.
Proof.
  revert id t o. induction fuel as [|fuel IH]; intros id; [lia|].
  intros t o. revert t o. wp_start. cbn [DeleteVolume]. wp_run.
  all: try (wp_leaf; intros; by eexists).
  apply (wp_call _ _ (fun t o =>
    (forall q vol, Evt (Ibox (GetVolume q)) (Ok vol) ∈ t ->
       Volume_ParentID vol <> 0%Z -> rank (Volume_ParentID vol) < rank q) ->
    rank (Volume_ParentID a) < fuel -> exists r, o = Done r)); [apply IH|].
  intros t o' Ht.
  match goal with H : (_ =? 0)%Z = false |- _ => apply Z.eqb_neq in H end.
  destruct o' as [e| |]; cbn [wp]; wp_leaf; rewrite ?app_nil_r; intros Hrank Hfuel; [by eexists|..].
  all: assert (rank (Volume_ParentID a) < rank id) by (apply (Hrank id a); [by left|done]).
  all: apply Ht; [|lia]; intros q vol Hq; apply Hrank; set_solver.
Qed.

(** ** Identifiers *)

Definition volume_id_string (id : Z) (proto : string) : string := Itoa id +:+ "$$" +:+ proto.
Definition treeq_id_string (fs tq : Z) : string :=
  (Itoa fs +:+ "#" +:+ Itoa tq) +:+ "$$" +:+ ProtocolTreeq.

Lemma eqb_false_ne (a b : string) : a <> b -> (a =? b)%string = false.
Proof. apply String.eqb_neq. Qed.

Lemma app_nonempty_l a b : a <> "" -> (a +:+ b) <> "".
Proof. by destruct a. Qed.

Lemma volume_id_read id proto :
  in_i64 id -> proto <> "" -> mentions "$" proto = false -> proto <> ProtocolTreeq ->
  ValidateVolumeID (volume_id_string id proto) = Ok (MkVolumeProtocolConfig id proto "" None "" 0).
Proof.
  intros Hid Hne Hp Ht. unfold ValidateVolumeID, volume_id_string.
  rewrite eqb_false_ne by (apply app_nonempty_l, Itoa_nonempty).
  rewrite Split_cons, Split_one by (done || by apply Itoa_no).
  rewrite !eqb_false_ne by (done || apply Itoa_nonempty).
  by rewrite Atoi_Itoa.
Qed.

Lemma treeq_id_read fs tq :
  in_i64 fs -> in_i64 tq ->
  ValidateVolumeID (treeq_id_string fs tq) = Ok (MkVolumeProtocolConfig fs ProtocolTreeq "" None "" tq).
Proof.
  intros Hid Htq. unfold ValidateVolumeID, treeq_id_string.
  rewrite eqb_false_ne by (do 2 apply app_nonempty_l; apply Itoa_nonempty).
  rewrite Split_cons by (by rewrite !mentions_app, !Itoa_no).
  rewrite (Split_one "$"%char "$" ProtocolTreeq) by done.
  rewrite (eqb_false_ne (_ +:+ _)) by (apply app_nonempty_l, Itoa_nonempty).
  cbn -[Split Itoa Atoi String.append].
  rewrite Split_cons, Split_one by (by apply Itoa_no).
  by rewrite !Atoi_Itoa.
Qed.

(** C16: the volume identifiers the driver gives out, [id$$protocol] and
    [fs#treeq$$nfs_treeq], are read back to the numbers they were made of. *)
Theorem ValidateVolumeID_roundtrip id tq proto :
  in_i64 id -> in_i64 tq -> proto <> "" -> mentions "$" proto = false ->
  (proto <> ProtocolTreeq ->
   ValidateVolumeID (volume_id_string id proto) = Ok (MkVolumeProtocolConfig id proto "" None "" 0)) /\
  ValidateVolumeID (treeq_id_string id tq) = Ok (MkVolumeProtocolConfig id ProtocolTreeq "" None "" tq).
Proof. intros Hid Htq Hne Hp. split; [intros Ht; by apply volume_id_read|by apply treeq_id_read]. Qed.

(** What is accepted names a volume: the numbers are machine integers and the
    protocol is not empty. *)
Lemma ValidateVolumeID_sound s vp :
  ValidateVolumeID s = Ok vp ->
  in_i64 (VolumeProtocolConfig_VolumeID vp) /\ in_i64 (VolumeProtocolConfig_TreeqID vp) /\
  VolumeProtocolConfig_StorageType vp <> "" /\ VolumeProtocolConfig_Host vp = None.
Proof.
  unfold ValidateVolumeID. intros H. repeat case_match; simplify_eq; cbn.
  all: repeat match goal with
       | H : Atoi _ = Ok _ |- _ => apply Atoi_range in H
       | H : (_ =? "")%string = false |- _ => apply String.eqb_neq in H
       end.
  all: split_and!; try done.
Qed.

(** ** Unpublishing *)

Definition deletes_host (e : evt call) : option Z :=
  match e with
  | Evt c _ => match c with
               | Ibox i => match i with DeleteHost h => Some h | _ => None end
               | _ => None
               end
  end.
(** A host object may be deleted once the driver saw its own tag on it and was
    answered no LUN for it. *)
Definition host_guard (hostID : Z) (before : trace) (e : evt call) : Prop :=
  forall h, deletes_host e = Some h ->
    h = hostID /\
    (exists err, Evt (Ibox (GetAllLunByHost h)) ([], err) ∈ before) /\
    (exists ms m, Evt (Ibox (GetMetadata h)) (ms, None) ∈ before /\ m ∈ ms /\
                  GetMetadataResult_Key m = CSICreatedHost).

Definition already_unmapped (err : error) : bool :=
  Contains (Error err) "HOST_NOT_FOUND" || Contains (Error err) "LUN_NOT_FOUND"
  || Contains (Error err) "VOLUME_NOT_FOUND".

(** Unpublishing deletes at most the host object of the volume's own node,
    only if the driver created it and the array answered that it has no LUN;
    and it succeeds on a host with LUNs only after the volume was unmapped from
    it, or was reported not mapped any more. *)
Theorem CommonUnpublishVolume_safe cs suffix host t o :
  VolumeProtocolConfig_Host (VolProto cs) = Some host ->
  runs (CommonUnpublishVolume cs suffix) t o ->
  guarded (host_guard (Host_ID host)) t /\
  (o = Done None -> Host_Luns host <> [] ->
   exists r, Evt (Ibox (UnMapVolumeFromHost (Host_ID host) (VolumeProtocolConfig_VolumeID (VolProto cs)))) r ∈ t
             /\ match r with Ok _ => True | Err e => already_unmapped e = true end).
Proof.
  intros Hh. revert t o. wp_start. unfold CommonUnpublishVolume, UnmapVolumeFromHost, HostCleanup.
  rewrite Hh. wp_run.
  all: wp_leaf; split; [guard_event|intros; simplify_eq].
  all: try match goal with H : existsb _ _ = true |- _ => apply existsb_key in H as (m & Hin & Hk) end.
  all: lazymatch goal with
       | |- exists r : res (Response _), _ =>
           eexists; split; [in_trace|]; try exact I; unfold already_unmapped;
           repeat match goal with H : Contains _ _ = _ |- _ => rewrite H end; reflexivity
       | _ => intros h [= <-]; split; [done|]; split; [eexists; in_trace|];
              eexists _, m; split; [in_trace|by split]
       end.
Qed.

(** ** Snapshots and clones *)

(** The snapshots requested in a trace, each with the array's answer. *)
Definition snapshot_request {X} (c : call X) : X -> option (CreateSnapshotVolumeRequest * res Snapshot) :=
  match c with
  | Ibox i => match i with
              | CreateSnapshotVolume p => fun r => Some (p, r)
              | _ => fun _ => None
              end
  | _ => fun _ => None
  end.
Definition snapshot_requests (t : trace) : list (CreateSnapshotVolumeRequest * res Snapshot) :=
  observe (@snapshot_request) t.

(** The answer [s] names the object [id] of [size] bytes, taken from the source
    the request names. *)
Definition snapshot_of (req : CSISnapshotRequest) (cs : Commonservice) (s : CSISnapshot) (id size : Z) : Prop :=
  CSISnapshot_SnapshotId s = volume_id_string id (VolumeProtocolConfig_StorageType (VolProto cs)) /\
  CSISnapshot_SizeBytes s = size /\
  CSISnapshot_SourceVolumeId s = Snap_SourceVolumeId req /\ CSISnapshot_ReadyToUse s = true.

Definition source_id (cs : Commonservice) : Z := VolumeProtocolConfig_VolumeID (VolProto cs).

(** The expiry a snapshot request asks for: none without a lock parameter, else
    what the parameter says, counted from an answer of the array's clock. *)
Definition lock_requested (param : string) (t : trace) (expires : Z) : Prop :=
  (param = "" /\ expires = 0%Z) \/
  (param <> "" /\ exists n ns, Evt (Ibox GetNtpStatus) (n :: ns, None) ∈ t /\
   ValidateSnapshotLockingParameter (NtpStatus_LastProbeTimestamp n) param = Ok expires).

(** C13: creating a snapshot is idempotent on its name. On success the answer
    names either a snapshot of that name which already had the source as its
    parent, and then nothing was created, or the one snapshot requested in this
    run: write-protected, of that source, under that name, locked as the
    parameters say, after the array answered that no such name exists. On
    failure the error is a gRPC status and no requested snapshot was created. *)
Theorem CommonCreateSnapshot_spec req cs t o :
  runs (CommonCreateSnapshot req cs) t o ->
  match o with
  | Done (Ok s) =>
      (exists v, Evt (Ibox (GetVolumeByName (Snap_Name req))) (Ok v) ∈ t /\
         Volume_ParentID v = source_id cs /\
         snapshot_of req cs s (Volume_ID v) (Volume_Size v) /\ snapshot_requests t = []) \/
      (exists p snap e, snapshot_requests t = [(p, Ok snap)] /\
         snapshot_of req cs s (Snapshot_SnapShotID snap) (Snapshot_Size snap) /\
         CreateSnapshotVolumeRequest_ParentID p = source_id cs /\
         CreateSnapshotVolumeRequest_SnapshotName p = Snap_Name req /\
         CreateSnapshotVolumeRequest_WriteProtected p = true /\
         lock_requested (Snap_Parameters req).[LockExpiresAtParameter] t
           (CreateSnapshotVolumeRequest_LockExpiresAt p) /\
         Evt (Ibox (GetVolumeByName (Snap_Name req))) (Err e) ∈ t /\ is_ErrNotFound e = true)
  | Done (Err e) =>
      (exists c m, e = EStatus c m) /\ Forall (fun q => is_ok (snd q) = false) (snapshot_requests t)
  | Panicked => exists r, Evt (Ibox GetNtpStatus) ([], r) ∈ t
  | Exhausted => False
  end.
Proof.
  revert t o. wp_start. unfold CommonCreateSnapshot, lockExpiry. wp_run.
  all: wp_leaf.
  all: repeat match goal with
       | H : negb _ = false |- _ => apply negb_false_iff in H
       | H : (_ =? _)%Z = true |- _ => apply Z.eqb_eq in H
       | H : map_err _ ?r = Ok _ |- _ => destruct r eqn:Hlock; [|done]; cbn in H; injection H as <-
       | H : map_err _ ?r = Err _ |- _ => destruct r; [done|]; cbn in H; injection H as <-
       end.
  all: lazymatch goal with
       | |- _ /\ Forall _ _ => split; [by eexists _, _|by repeat constructor]
       | |- _ \/ _ =>
           first [ left; eexists; split; [in_trace|by repeat split]
                 | right; eexists _, _, _; repeat (split; [reflexivity|]); split; [by repeat split|];
                   repeat (split; [reflexivity|]); split; [|split; [in_trace|done]] ]
       | _ => eexists; in_trace
       end.
  - left. split; [by apply String.eqb_eq|done].
  - right. split; [by apply String.eqb_neq|]. eexists _, _. split; [in_trace|done].
Qed.

(** What the clone of [src] must have seen before it asks for a snapshot, and
    before it promotes one. *)
Definition clone_source_ok (srcID size : Z) (pool : string) (before : trace) : Prop :=
  exists src p, Evt (Ibox (GetVolume srcID)) (Ok src) ∈ before /\ Volume_Size src = size /\
    Evt (Ibox (GetPoolByName pool)) (Ok p) ∈ before /\ PoolResult_ID p = Volume_PoolID src.

Definition clone_guard (srcID size : Z) (name pool : string) (before : trace) (e : evt call) : Prop :=
  match e with
  | Evt (Ibox i) _ =>
      match i with
      | CreateSnapshotVolume p =>
          CreateSnapshotVolumeRequest_ParentID p = srcID /\
          CreateSnapshotVolumeRequest_SnapshotName p = name /\
          CreateSnapshotVolumeRequest_WriteProtected p = false /\
          snapshot_requests before = [] /\ clone_source_ok srcID size pool before
      | PromoteSnapshot id =>
          exists p snap dst fs f, snapshot_requests before = [(p, Ok snap)] /\
            Evt (Ibox (GetVolume (Snapshot_SnapShotID snap))) (Ok dst) ∈ before /\ Volume_ID dst = id /\
            Evt (Ibox GetFeatures) (fs, None) ∈ before /\ f ∈ fs /\
            FeatureResult_Name f = IboxFeaturePromoteSnapshot /\ FeatureResult_Enabled f = true
      | IboxTypes.DeleteVolume _ | UpdateVolume _ _ | CreateVolume _ => False
      | _ => True
      end
  | _ => True
  end.

(** What a successful clone answers: the volume the snapshot request created,
    whose name was recorded in its metadata. *)
Definition cloned (t : trace) (v : CSIVolume) : Prop :=
  exists p snap dst r, snapshot_requests t = [(p, Ok snap)] /\
    Evt (Ibox (GetVolume (Snapshot_SnapShotID snap))) (Ok dst) ∈ t /\
    CSIVolume_VolumeId v = Itoa (Volume_ID dst) /\ CSIVolume_CapacityBytes v = Volume_Size dst /\
    Evt (Ibox (PutMetadata (Volume_ID dst) {[ "host.k8s.pvname" := JStr (Volume_Name dst) ]})) (Ok r) ∈ t.

Lemma find_feature fs name f :
  List.find (fun f => FeatureResult_Name f =? name)%string fs = Some f ->
  f ∈ fs /\ FeatureResult_Name f = name.
Proof.
  intros [H1 H2]%List.find_some. rewrite list_elem_of_In. split; [done|by apply String.eqb_eq].
Qed.

(** C14: a clone or a restore snapshots exactly the volume the content source
    names, under the new name and writable, once, and only after the array
    answered that the source has the requested size and lies in the requested
    pool; it promotes only the volume it just made, and only when the array
    lists the feature as enabled; it deletes and resizes nothing. Success
    answers that volume; a failure is a gRPC status; and the only way to panic
    is a volume without a pool name (the pool-name cache is never made). *)
Theorem CreateVolumeFromVolumeContent_spec cs req name size pool t o :
  runs (CreateVolumeFromVolumeContent cs req name size pool) t o ->
  guarded (clone_guard
    (match ValidateVolumeID (snd (content_id (Req_VolumeContentSource req))) with
     | Ok vp => VolumeProtocolConfig_VolumeID vp | Err _ => 0 end) size name pool) t /\
  match o with
  | Done (Ok (Some v)) => cloned t v
  | Done (Err e) => exists c m, e = EStatus c m
  | Panicked => storagePoolIDName cs = None /\
      exists id dst, Evt (Ibox (GetVolume id)) (Ok dst) ∈ t /\ Volume_PoolName dst = ""
  | _ => False
  end.
Proof.
  revert t o. wp_start. unfold CreateVolumeFromVolumeContent, featureEnabled, GetCSIResponse, getStoragePoolNameFromID.
  destruct (content_id _) as [rt cid]. cbn [snd] in Post. wp_run.
  all: wp_leaf; split; [guard_event|].
  all: repeat match goal with
       | H : negb _ = false |- _ => apply negb_false_iff, Z.eqb_eq in H
       | H : List.find _ _ = Some _ |- _ => apply find_feature in H as [? ?]
       end.
  all: lazymatch goal with
       | |- exists c m, EStatus _ _ = _ => by eexists _, _
       | |- clone_guard _ _ _ _ _ (Evt (Ibox (CreateSnapshotVolume _)) _) =>
           repeat (split; [reflexivity|]); eexists _, _; split; [in_trace|]; split; [done|]; split; [in_trace|done]
       | |- clone_guard _ _ _ _ _ (Evt (Ibox (PromoteSnapshot _)) _) =>
           eexists _, _, _, _, _; split; [reflexivity|]; split; [in_trace|]; split; [done|]; split; [in_trace|];
           split; [eassumption|]; split; [done|by destruct (FeatureResult_Enabled _)]
       | |- cloned _ _ => eexists _, _, _, _; repeat (split; [first [reflexivity|in_trace]|]); in_trace
       | |- _ = None /\ _ =>
           match goal with H : (Volume_PoolName ?d =? "")%string = true |- _ =>
             split; [done|]; eexists _, d; split; [in_trace|by apply String.eqb_eq] end
       end.
Qed.

(** ** Snapshot locks *)

Lemma millisPer_cases u ms :
  millisPer u = Some ms -> (millisPerHour <= ms <= millisPerYear)%Z /\ mentions " " u = false.
Proof.
  unfold millisPer. intros H.
  repeat match type of H with
  | context [(u =? ?s)%string] => destruct (String.eqb_spec u s) as [->|_]; [injection H as <-; by split|]
  end. done.
Qed.

(** A lock of [count] hours, days, weeks, months or years expires that
    long after the given time, as long as the sum is a machine integer; what is
    accepted is a positive count of one of these units; and the result is always
    a machine integer (an overflow wraps around). *)
Theorem ValidateSnapshotLockingParameter_spec now :
  (forall count unit ms, (1 <= count)%Z -> millisPer unit = Some ms ->
     (0 <= now)%Z -> (now + count * ms <= int64_max)%Z ->
     ValidateSnapshotLockingParameter now (Itoa count +:+ " " +:+ unit) = Ok (now + count * ms)%Z) /\
  (forall input expires, ValidateSnapshotLockingParameter now input = Ok expires ->
     in_i64 expires /\
     exists first unit count ms, Split input " " = [first; unit] /\ Atoi first = Ok count /\
       (1 <= count)%Z /\ millisPer unit = Some ms /\ expires = i64 (now + i64 (count * ms))).
Proof.
  split.
  - intros count unit ms Hc Hu Hn Hmax. destruct (millisPer_cases _ _ Hu) as [Hms Hsp].
    unfold millisPerHour, millisPerYear, millisPerMonth, millisPerWeek, millisPerDay, millisPerHour, int64_max in *.
    assert (Hm : (0 <= count * ms)%Z) by nia.
    assert (Hcount : (count <= count * ms)%Z) by nia.
    unfold ValidateSnapshotLockingParameter.
    rewrite Split_cons, Split_one by (done || by apply Itoa_no).
    rewrite Atoi_Itoa by (unfold in_i64, int64_min, int64_max; lia).
    rewrite (proj2 (Z.ltb_ge count 1)) by lia. rewrite Hu.
    rewrite (i64_id (count * ms)) by (unfold in_i64, int64_min, int64_max; lia).
    by rewrite i64_id by (unfold in_i64, int64_min, int64_max; lia).
  - intros input expires. unfold ValidateSnapshotLockingParameter. intros H.
    repeat case_match; simplify_eq. split; [apply i64_range|].
    eexists _, _, _, _. repeat split; try done. by apply Z.ltb_ge.
Qed.

(** ** NFS mount options *)

Lemma elem_of_Compact x l : x ∈ Compact l <-> x ∈ l.
Proof.
  induction l as [|a l IH]; cbn; [done|]. destruct l as [|b l]; [done|].
  destruct (String.eqb_spec a b) as [->|_]; rewrite ?elem_of_cons, IH, ?elem_of_cons; tauto.
Qed.

(** The mount options handed to the node keep every given option and add
    only defaults: they fix an NFS version, are hard or soft, and are read-only
    when asked (never added otherwise). They are refused exactly when some
    option names an unsupported version. *)
Theorem UpdateNfsMountOptions_spec opts readonly :
  match UpdateNfsMountOptions opts readonly with
  | Ok l =>
      (forall o, o ∈ opts -> o ∈ l) /\
      (forall o, o ∈ l -> o ∈ opts \/ o = "vers=3" \/ o = "hard" \/ (readonly = true /\ o = "ro")) /\
      (exists o, o ∈ l /\ explicit_version o = true) /\
      ("hard" ∈ l \/ "soft" ∈ l) /\
      (readonly = true -> "ro" ∈ l) /\
      Forall (fun o => bad_version o = false) opts
  | Err _ => exists o, o ∈ opts /\ bad_version o = true
  end.
Proof.
  unfold UpdateNfsMountOptions. destruct (List.find bad_version opts) as [o|] eqn:Hbad.
  { apply List.find_some in Hbad as [H1 H2]. exists o. by rewrite list_elem_of_In. }
  assert (Hgood : Forall (fun o => bad_version o = false) opts).
  { rewrite Forall_forall. intros o Ho. apply (List.find_none _ _ Hbad). by apply list_elem_of_In. }
  destruct (existsb explicit_version opts) eqn:Hv; cbv zeta.
  all: match goal with |- context [existsb (String.eqb NFSMountOptionHard) ?o1] => remember o1 as base eqn:Hbase end.
  all: assert (Hver : exists o, o ∈ base /\ explicit_version o = true)
    by (first [ apply existsb_exists in Hv as (o & Ho & Hv); exists o; split; [by apply list_elem_of_In|done]
              | exists "vers=3"; split; [set_solver|done] ]).
  all: destruct Hver as (vo & Hvo & Hvo').
  all: destruct (existsb (String.eqb NFSMountOptionHard) base) eqn:Hh;
       destruct (existsb (String.eqb NFSMountOptionsSoft) base) eqn:Hs; cbn [negb andb].
  all: repeat match goal with H : existsb (String.eqb ?s) ?b = true |- _ =>
         apply existsb_exists in H as (? & H & <-%String.eqb_eq); apply list_elem_of_In in H end.
  all: destruct readonly.
  all: setoid_rewrite elem_of_Compact; unfold NFSMountOptionHard, NFSMountOptionsSoft, NFSMountOptionReadonly in *.
  all: split_and!; [set_solver|subst base; set_solver|exists vo; set_solver|set_solver|set_solver|assumption].
Qed.

(** ** Storage-class parameters *)

(** The parameters of a storage class pass exactly when every required one
    is there and matches its pattern, and every optional one that is there
    matches. *)
Theorem ValidateRequiredOptionalSCParameters_spec required optional provided :
  ValidateRequiredOptionalSCParameters required optional provided = None <->
  (forall k p, (k, p) ∈ required -> exists v, provided !! k = Some v /\ MatchString p v = true) /\
  (forall k p v, (k, p) ∈ optional -> provided !! k = Some v -> MatchString p v = true).
Proof.
  unfold ValidateRequiredOptionalSCParameters.
  assert (Hnil : forall (f : string * pattern -> list (string * string)) l,
    concat (map f l) = [] <-> (forall k p, (k, p) ∈ l -> f (k, p) = [])).
  { intros f l. induction l as [|[k p] l IH]; cbn; [set_solver|].
    rewrite app_nil, IH. set_solver. }
  transitivity (concat (map (bad_required provided) required) ++ concat (map (bad_optional provided) optional) = []).
  { by destruct (_ ++ _). }
  rewrite app_nil, !Hnil. unfold bad_required, bad_optional.
  split; intros [H1 H2]; (split; [intros k p Hin|]).
  - specialize (H1 k p Hin). repeat case_match; try done. eauto.
  - intros k p v Hin Hv. specialize (H2 k p Hin). rewrite Hv in H2. by case_match.
  - destruct (H1 k p Hin) as (v & -> & ->). done.
  - intros k p Hin. specialize (H2 k p). case_match; [|done]. by rewrite (H2 _ Hin eq_refl).
Qed.

(** ** The theorems at concrete runs *)

#[local] Transparent gmap_empty.

Definition cs0 : Commonservice :=
  {| storagePoolIDName := None; driverVersion := "2.22.0";
     VolProto := MkVolumeProtocolConfig 7 ProtocolISCSI "" (Some (Host_of 3 "node1" [LunInfo_zero])) "" 0 |}.
Definition ok_response {A} (a : A) : Response A := MkResponse (Metadata_of 1) a (APIError_of "" "").
Definition vol7 : Volume := Volume_of 7 "pvc-7" 1073741824 5 1 "pool" "UNLOCKED" false.
Definition vol5 : Volume := Volume_of 5 "pvc-5" 1073741824 0 1 "pool" "UNLOCKED" false.

(** A volume and its parent, tagged for deletion earlier, are deleted. *)
Definition delete_trace : trace :=
  [Evt (Ibox (GetVolume 7)) (Ok vol7); Evt (Ibox (GetVolumesByParentID 7)) ([], None);
   Evt (Ibox (DeleteMetadata 7)) (Ok (ok_response []));
   Evt (Ibox (IboxTypes.DeleteVolume 7)) (Ok (ok_response vol7));
   Evt (Ibox (GetMetadata 5)) ([GetMetadataResult_of ToBeDeleted "true"], None);
   Evt (Ibox (GetVolume 5)) (Ok vol5); Evt (Ibox (GetVolumesByParentID 5)) ([], None);
   Evt (Ibox (DeleteMetadata 5)) (Ok (ok_response []));
   Evt (Ibox (IboxTypes.DeleteVolume 5)) (Ok (ok_response vol5))].

Lemma delete_trace_runs : runs (DeleteVolume 2 7) delete_trace (Done None).
Proof. replay. Qed.

Definition listing_error (e : evt call) : option (option error) :=
  match e with
  | Evt c x => match c in call X return X -> _ with
               | Ibox i => match i in ibox X return X -> _ with
                           | GetVolumesByParentID _ => fun r => Some (snd r)
                           | _ => fun _ => None
                           end
               | _ => fun _ => None
               end x
  end.

Lemma delete_trace_listed : children_listed delete_trace.
Proof.
  intros v vs err Hin%(list_elem_of_fmap_2 listing_error). cbn in Hin. rewrite !elem_of_cons in Hin.
  repeat match goal with
         | H : _ \/ _ |- _ => destruct H
         | H : _ ∈ [] |- _ => by apply not_elem_of_nil in H
         end; by simplify_eq.
Qed.

Lemma DeleteVolume_guarded_witness :
  runs (DeleteVolume 2 7) delete_trace (Done None) /\ children_listed delete_trace /\
  guarded (delete_guard childless 7) delete_trace.
Proof.
  split; [exact delete_trace_runs|]. split; [exact delete_trace_listed|].
  exact (proj2 (DeleteVolume_guarded 2 7 _ _ delete_trace_runs) delete_trace_listed).
Defined.

Definition reads_volume (e : evt call) : option (Z * res Volume) :=
  match e with
  | Evt c x => match c in call X return X -> _ with
               | Ibox i => match i in ibox X return X -> _ with
                           | GetVolume q => fun r => Some (q, r)
                           | _ => fun _ => None
                           end
               | _ => fun _ => None
               end x
  end.

Lemma DeleteVolume_terminates_witness :
  runs (DeleteVolume 2 7) delete_trace (Done None) /\ exists r, Done None = Done (A := option error) r.
Proof.
  split; [exact delete_trace_runs|].
  apply (DeleteVolume_terminates (fun z => if (z =? 7)%Z then 1 else 0) 2 7 _ _ delete_trace_runs); [|cbn; lia].
  intros q vol Hin%(list_elem_of_fmap_2 reads_volume) Hp.
  cbn in Hin. rewrite !elem_of_cons in Hin. 
  repeat match goal with
         | H : _ \/ _ |- _ => destruct H
         | H : _ ∈ [] |- _ => by apply not_elem_of_nil in H
         end; simplify_eq; cbn in *; lia.
Defined.

Lemma ValidateVolumeID_roundtrip_witness :
  ValidateVolumeID (volume_id_string 12 ProtocolISCSI) = Ok (MkVolumeProtocolConfig 12 ProtocolISCSI "" None "" 0).
Proof.
  apply (ValidateVolumeID_roundtrip 12 0 ProtocolISCSI); [done..|discriminate|reflexivity|discriminate].
Defined.

(** A volume mapped to a host the driver created is unmapped, and the host,
    left without LUNs, is deleted. *)
Definition unpublish_trace : trace :=
  [Evt (Ibox (UnMapVolumeFromHost 3 7)) (Ok (ok_response LunInfo_zero)); Evt (Os (Sleep 2)) tt;
   Evt (Ibox (GetAllLunByHost 3)) ([], None);
   Evt (Ibox (GetMetadata 3)) ([GetMetadataResult_of CSICreatedHost "true"], None);
   Evt (Ibox (DeleteHost 3)) (Ok (Host_of 3 "node1" []))].

Lemma CommonUnpublishVolume_safe_witness :
  runs (CommonUnpublishVolume cs0 "") unpublish_trace (Done None) /\
  guarded (host_guard 3) unpublish_trace.
Proof.
  assert (H : runs (CommonUnpublishVolume cs0 "") unpublish_trace (Done None)) by replay.
  split; [exact H|].
  exact (proj1 (CommonUnpublishVolume_safe cs0 "" (Host_of 3 "node1" [LunInfo_zero]) _ _ eq_refl H)).
Defined.

Definition snap_req : CSISnapshotRequest :=
  MkCSISnapshotRequest "snap-1" "7$$iscsi" ∅ {[ LockExpiresAtParameter := "2 Hours" ]}.
Definition snap_params : CreateSnapshotVolumeRequest :=
  MkCreateSnapshotVolumeRequest 7 "snap-1" true false 7201000.
Definition snapshot_trace : trace :=
  [Evt (Ibox (GetVolumeByName "snap-1")) (Err ErrNotFound); Evt (Ibox (GetVolume 7)) (Ok vol7);
   Evt (Ibox GetNtpStatus) ([MkNtpStatus 1 1000 []], None);
   Evt (Ibox (CreateSnapshotVolume snap_params)) (Ok (MkSnapshot 9 1073741824 false 7 1 "snap-1"));
   Evt (Os Now) 5%Z].

Lemma CommonCreateSnapshot_spec_witness :
  exists s, runs (CommonCreateSnapshot snap_req cs0) snapshot_trace (Done (Ok s)) /\
  CSISnapshot_SnapshotId s = "9$$iscsi".
Proof.
  assert (H : exists s, runs (CommonCreateSnapshot snap_req cs0) snapshot_trace (Done (Ok s)))
    by (eexists; replay).
  destruct H as [s H]. exists s. split; [exact H|].
  destruct (CommonCreateSnapshot_spec snap_req cs0 _ _ H) as [(v & _ & _ & _ & Hno)|(p & snap & e & Hp & Hs & _)].
  - discriminate.
  - cbn in Hp. injection Hp as <- <-. exact (proj1 Hs).
Defined.

(** A clone of volume 7, promoted. *)
Definition clone_req : CSICreateVolumeRequest :=
  MkCSICreateVolumeRequest "pvc-8" (Some 1073741824%Z) None ∅ ∅ (Some (SourceVolume "7$$iscsi")).
Definition clone_params : CreateSnapshotVolumeRequest := MkCreateSnapshotVolumeRequest 7 "pvc-8" false false 0.
Definition vol8 : Volume := Volume_of 8 "pvc-8" 1073741824 7 1 "pool" "UNLOCKED" false.
Definition promote_feature : FeatureResult := MkFeatureResult IboxFeaturePromoteSnapshot 1 false true.
Definition clone_trace : trace :=
  [Evt (Ibox (GetVolume 7)) (Ok vol7); Evt (Ibox (GetPoolByName "pool")) (Ok (PoolResult_of 1 "pool" false));
   Evt (Ibox (CreateSnapshotVolume clone_params)) (Ok (MkSnapshot 8 1073741824 false 7 1 "pvc-8"));
   Evt (Ibox (GetVolume 8)) (Ok vol8); Evt (Ibox GetFeatures) ([promote_feature], None);
   Evt (Ibox (PromoteSnapshot 8)) (Ok vol8); Evt (Os (LocalTimeString 0)) "now";
   Evt (Ibox (PutMetadata 8 {[ "host.k8s.pvname" := JStr "pvc-8" ]})) (Ok (ok_response []))].

Lemma CreateVolumeFromVolumeContent_spec_witness :
  exists v, runs (CreateVolumeFromVolumeContent cs0 clone_req "pvc-8" 1073741824 "pool") clone_trace (Done (Ok (Some v)))
            /\ cloned clone_trace v.
Proof.
  assert (H : exists v, runs (CreateVolumeFromVolumeContent cs0 clone_req "pvc-8" 1073741824 "pool")
                          clone_trace (Done (Ok (Some v)))) by (eexists; replay).
  destruct H as [v H]. exists v. split; [exact H|].
  exact (proj2 (CreateVolumeFromVolumeContent_spec cs0 clone_req "pvc-8" 1073741824 "pool" _ _ H)).
Defined.

(** The pool-name cache is never made: a clone whose volume comes back without
    a pool name panics. *)
Example pool_name_cache_panics :
  let vol := Volume_of 8 "pvc-8" 1073741824 7 1 "" "UNLOCKED" false in
  runs (GetCSIResponse cs0 vol clone_req)
    [Evt (Ibox (GetPoolByID 1)) (Ok (PoolResult_of 1 "pool" false))] Panicked.
Proof. replay. Qed.

(** Finding: a volume whose children cannot be listed is deleted all the same. *)
Example DeleteVolume_unlisted_children e :
  runs (DeleteVolume 1 5)
    [Evt (Ibox (GetVolume 5)) (Ok vol5); Evt (Ibox (GetVolumesByParentID 5)) ([], Some e);
     Evt (Ibox (DeleteMetadata 5)) (Ok (ok_response []));
     Evt (Ibox (IboxTypes.DeleteVolume 5)) (Ok (ok_response vol5))] (Done None).
Proof. replay. Qed.

(** ** Services *)

Lemma BuildCommonService_quiet p q config secrets vp : quiet (BuildCommonService p q config secrets vp).
Proof. unfold BuildCommonService, verifyAPIClient, getAPIConfig. every_tac. Qed.
Lemma BuildCommonService_fuelled p q config secrets vp : fuelled (BuildCommonService p q config secrets vp).
Proof. unfold BuildCommonService, verifyAPIClient, getAPIConfig. ends_tac. Qed.
#[export] Hint Resolve BuildCommonService_quiet BuildCommonService_fuelled : csi.
