(* ===== verification/Block.v ===== *)
(** What the three block controllers ([storage/fc], [storage/iscsi],
    [storage/nvme]) have in common: finding a volume of the requested name,
    asking the array for one, and mapping a volume to a host. The sources repeat
    these passages; where they differ (texts, codes) the difference is an
    argument. *)
From stdpp Require Import base strings list gmap.
From S2P Require Import Prelude GoLib Regexp IboxTypes Csi Helper StorageCommon.
From Stdlib Require Import ZArith Lia Ascii.

Local Open Scope string_scope.
Local Open Scope list_scope.

(** The [ImplementationError] most failures are turned into. *)
Definition internal (err : error) : error := impl Internal (Error err).

(** ** Creation *)

Definition with_parameters (params : gmap string string) (v : CSIVolume) : CSIVolume :=
  {| CSIVolume_VolumeId := CSIVolume_VolumeId v;
     CSIVolume_CapacityBytes := CSIVolume_CapacityBytes v;
     CSIVolume_VolumeContext := CopyRequestParameters params (CSIVolume_VolumeContext v);
     CSIVolume_ContentSource := CSIVolume_ContentSource v |}.

(** A volume of the requested name exists: it answers the request if it has the
    requested size. *)
Definition existing_volume (cs : Commonservice) (capacity : Z) (req : CSICreateVolumeRequest)
    (targetVol : Volume) (differs : error) : prog call (res CreateVolumeResponse) :=
  if (Volume_Size targetVol =? capacity)%Z then
    existing <- GetCSIResponse cs targetVol req ;;
    Ret (Ok (Some (with_parameters (Req_Parameters req) (fst existing))))
  else Ret (Err differs).

(** Ask the array for a new volume in the pool of the storage class. *)
Definition request_volume (name : string) (capacity : Z) (params : gmap string string)
    : prog call (res Volume) :=
  let volType := default StorageClassThinProvision (params !! StorageClassProvisionType) in
  try pool <- iboxAPI (GetPoolByName params.[StorageClassPoolName]) catch err => Ret (Err (internal err)) ;;
  match DetermineSSDValue params.[StorageClassSSDEnabled] pool with
  | Err err => Ret (Err (internal err))
  | Ok ssdEnabled =>
      try volume <- iboxAPI (CreateVolume
          {| CreateVolumeRequest_Name := name;
             CreateVolumeRequest_PoolID := PoolResult_ID pool;
             CreateVolumeRequest_SSDEnabled := ssdEnabled;
             CreateVolumeRequest_ProvisionType := volType;
             CreateVolumeRequest_VolumeSize := capacity |}) catch err => Ret (Err (internal err)) ;;
      Ret (Ok volume)
  end.

(** Tag the new volume with the name of its persistent volume. *)
Definition tag_volume (volume : Volume) (answer : CSIVolume) : prog call (res CreateVolumeResponse) :=
  try _m <- iboxAPI (PutMetadata (Volume_ID volume) {[ "host.k8s.pvname" := JStr (Volume_Name volume) ]})
    catch err => Ret (Err (internal err)) ;;
  Ret (Ok (Some answer)).

(** ** Mapping to a host *)

Definition host_ports (kind : string) (host : Host) : string :=
  let ports := fold_left (fun ports port => if String.eqb (Ports_Type port) kind
                                            then ports +:+ "," +:+ Ports_Address port else ports)
                         (Host_Ports host) "" in
  match ports with
  | EmptyString => ""
  | String _ rest => rest
  end.

Definition find_lun (volumeID : Z) (lunList : list LunInfo) : option LunInfo :=
  List.find (fun lun => LunInfo_VolumeID lun =? volumeID)%Z lunList.

Definition publish_context (lun hostID : Z) (ports : string) : gmap string string :=
  <[HostPortsPublishContext := ports]>
  (<[HostIDPublishContext := Itoa hostID]> {[ LunPublishContext := Itoa lun ]}).

(** The optional [max_vols_per_host] parameter of the storage class. *)
Definition check_max_vols (maxVolsPerHostStr : string) (mapped : nat)
    (invalid : error) (limit : Z -> error) : option error :=
  if String.eqb maxVolsPerHostStr "" then None
  else match Atoi maxVolsPerHostStr with
       | Err err => Some (internal err)
       | Ok maxAllowedVol =>
           if (maxAllowedVol <? 1)%Z then Some invalid
           else if (maxAllowedVol <=? Z.of_nat mapped)%Z then Some (limit maxAllowedVol)
           else None
       end.

(** The last part of [ControllerPublishVolume]: a volume the host already has is
    answered; another one is mapped, if the host may have it. [extra] is what the
    protocol adds to the context of a new mapping. *)
Definition publish_lun (req : CSIPublishRequest) (volumeID : Z) (host : Host) (ports : string)
    (lunList : list LunInfo) (invalid : error) (limit : Z -> error)
    (extra : gmap string string -> gmap string string) : prog call (res (gmap string string)) :=
  match find_lun volumeID lunList with
  | Some lun => Ret (Ok (publish_context (LunInfo_Lun lun) (Host_ID host) ports))
  | None =>
      match check_max_vols (GetVolumeContext req).[StorageClassMaxVolsPerHost] (length lunList) invalid limit with
      | Some err => Ret (Err err)
      | None =>
          try luninfo <- MapVolumeTohost volumeID (Host_ID host) catch err => Ret (Err (internal err)) ;;
          Ret (Ok (extra (publish_context (LunInfo_Lun luninfo) (Host_ID host) ports)))
      end
  end.

(** ** Deletion and expansion *)

Definition delete_snapshot (fuel : nat) (snapshotId : string) : prog call (option error) :=
  e <- DeleteVolume fuel (Atoi_value snapshotId) ;;
  Ret (option_map internal e).

Definition expand_volume (volumeID capacity : Z) (nodeExpansionRequired : bool) : prog call (res CSIExpandResponse) :=
  try _v <- iboxAPI (UpdateVolume volumeID (Volume_of 0 "" capacity 0 0 "" "" false)) catch err =>
    Ret (Err (internal err)) ;;
  Ret (Ok (MkCSIExpandResponse capacity nodeExpansionRequired)).
