(* ===== verification/Fc.v ===== *)
(** Package [storage/fc], the controller ([fccontroller.go]): volumes reached over
    Fibre Channel. *)
From stdpp Require Import base strings list gmap.
From S2P Require Import Prelude GoLib Regexp IboxTypes Csi Helper StorageCommon Block.
From Stdlib Require Import ZArith Ascii.

Local Open Scope string_scope.
Local Open Scope list_scope.

(** [FCstorage]; [ConfigMap] is written and never read. *)
Record FCstorage := MkFCstorage { FC_Capacity : Z; FC_CS : Commonservice }.
Definition NewFCstorage (capacity : Z) (cs : Commonservice) : FCstorage := MkFCstorage capacity cs.

Definition requiredFCParams : list (string * pattern) := [(StorageClassPoolName, re_letters)].
Definition optionalFCParams : list (string * pattern) :=
  [(StorageClassProvisionType, re_thick_thin); (StorageClassUID, re_digits); (StorageClassGID, re_digits)].

Definition ValidateStorageClass (params : gmap string string) : option error :=
  match ValidateRequiredOptionalSCParameters requiredFCParams optionalFCParams params with
  | Some err => Some (impl InvalidArgument (Error err))
  | None => None
  end.

(** The new volume is read back; a first failure is forgiven. It stays on the
    array when the request fails afterwards. *)
Definition CreateVolume (fc : FCstorage) (req : CSICreateVolumeRequest) : prog call (res CreateVolumeResponse) :=
  let params := Req_Parameters req in
  let name := Req_Name req in
  GetHostInfo (Req_Secrets req) ;;;
  target <- iboxAPI (GetVolumeByName name) ;;
  match target with
  | Ok targetVol =>
      existing_volume (FC_CS fc) (FC_Capacity fc) req targetVol
        (impl AlreadyExists ("volume: " +:+ name +:+ " already exists with a different size"))
  | Err err =>
      if negb (is_ErrNotFound err) then Ret (Err (internal err))
      else match Req_VolumeContentSource req with
      | Some _ => CreateVolumeFromVolumeContent (FC_CS fc) req name (FC_Capacity fc) params.[StorageClassPoolName]
      | None =>
          try volumeResp <- request_volume name (FC_Capacity fc) params catch err => Ret (Err err) ;;
          created <- osAPI (LocalTimeString (Volume_CreatedAt volumeResp)) ;;
          let attributes : gmap string string :=
            <["targetWWNs" := params.["targetWWNs"]]>
            (<["CreationTime" := created]> (<["StoragePoolName" := Volume_PoolName volumeResp]>
            (<["StoragePoolID" := Itoa (Volume_PoolID volumeResp)]> (<["Name" := Volume_Name volumeResp]>
            {[ "ID" := Itoa (Volume_ID volumeResp) ]})))) in
          let newVolume := {| CSIVolume_VolumeId := Itoa (Volume_ID volumeResp);
                              CSIVolume_CapacityBytes := Volume_Size volumeResp;
                              CSIVolume_VolumeContext := attributes;
                              CSIVolume_ContentSource := Req_VolumeContentSource req |} in
          vol <- iboxAPI (GetVolume (Volume_ID volumeResp)) ;;
          again <- (match vol with
                    | Ok _ => Ret (Ok tt)
                    | Err _ => osAPI (Sleep 3) ;;;
                               (r <- iboxAPI (GetVolume (Volume_ID volumeResp)) ;;
                                Ret (res_bind r (fun _ => Ok tt)))
                    end) ;;
          match again with
          | Err err => Ret (Err (internal err))
          | Ok _ => tag_volume volumeResp (with_parameters params newVolume)
          end
      end
  end.

Definition DeleteVolume (fuel : nat) (fc : FCstorage) : prog call (option error) :=
  e <- StorageCommon.DeleteVolume fuel (VolumeProtocolConfig_VolumeID (VolProto (FC_CS fc))) ;;
  Ret (option_map internal e).

Definition max_invalid : error :=
  impl Internal ("invalid parameter: " +:+ StorageClassMaxVolsPerHost +:+ " error: required to be greater than 0").
Definition max_reached (host : Host) (maxAllowedVol : Z) : error :=
  impl ResourceExhausted ("unable to publish volume on hostName: " +:+ Host_Name host
    +:+ ", maximum allowed volume per host: " +:+ Itoa maxAllowedVol +:+ ", limit reached").

Definition ControllerPublishVolume (req : CSIPublishRequest) : prog call (res (gmap string string)) :=
  GetHostInfo (Pub_Secrets req) ;;;
  match ValidateVolumeID (Pub_VolumeId req) with
  | Err err => Ret (Err (internal err))
  | Ok volproto =>
      let volumeID := VolumeProtocolConfig_VolumeID volproto in
      try hostName <- DetermineHostName (Pub_NodeId req) catch err => Ret (Err (internal err)) ;;
      try host <- ValidateHost hostName catch err => Ret (Err (internal err)) ;;
      try volume <- iboxAPI (GetVolume volumeID) catch err => Ret (Err (internal err)) ;;
      match IsValidAccessMode volume req with
      | Err err => Ret (Err (internal err))
      | Ok _ =>
          lunList <- iboxAPI (GetAllLunByHost (Host_ID host)) ;;
          match snd lunList with
          | Some err => Ret (Err (internal err))
          | None => publish_lun req volumeID host (host_ports "FC" host) (fst lunList)
                      max_invalid (max_reached host) (fun ctx => ctx)
          end
      end
  end.

Definition ControllerUnpublishVolume (fc : FCstorage) : prog call (option error) :=
  CommonUnpublishVolume (FC_CS fc) "".
Definition CreateSnapshot (fc : FCstorage) (req : CSISnapshotRequest) : prog call (res CSISnapshot) :=
  CommonCreateSnapshot req (FC_CS fc).
Definition DeleteSnapshot (fuel : nat) (snapshotId : string) : prog call (option error) :=
  delete_snapshot fuel snapshotId.
Definition ControllerExpandVolume (fc : FCstorage) (req : CSIExpandRequest) : prog call (res CSIExpandResponse) :=
  expand_volume (VolumeProtocolConfig_VolumeID (VolProto (FC_CS fc))) (FC_Capacity fc) true.
