(* ===== verification/Iscsi.v ===== *)
(** Package [storage/iscsi], the controller ([iscsicontroller.go]): volumes
    reached over iSCSI. *)
From stdpp Require Import base strings list gmap.
From S2P Require Import Prelude GoLib Regexp IboxTypes Csi Helper StorageCommon Block.
From Stdlib Require Import ZArith Ascii.

Local Open Scope string_scope.
Local Open Scope list_scope.

Definition SecurityMethodPublishContext : string := "securityMethod".

Record ISCSIstorage := MkISCSIstorage { ISCSI_Capacity : Z; ISCSI_CS : Commonservice }.
Definition NewISCSIstorage (capacity : Z) (cs : Commonservice) : ISCSIstorage := MkISCSIstorage capacity cs.

Definition requiredISCSIParams : list (string * pattern) :=
  [(StorageClassPoolName, re_letters); (StorageClassUseCHAP, re_use_chap); (StorageClassNetworkSpace, re_any_line)].
Definition optionalISCSIParams : list (string * pattern) :=
  [(StorageClassProvisionType, re_thick_thin); (StorageClassUID, re_digits); (StorageClassGID, re_digits)].

Definition ValidateStorageClass (params : gmap string string) : option error :=
  match ValidateRequiredOptionalSCParameters requiredISCSIParams optionalISCSIParams params with
  | Some err => Some (EWrap "" (impl InvalidArgument (Error err)) "")
  | None => None
  end.

(** The new volume is read back. The source's loop that reads it again while the
    client answers neither a volume nor an error is never entered: the client
    answers one of them. *)
Definition CreateVolume (iscsi : ISCSIstorage) (req : CSICreateVolumeRequest) : prog call (res CreateVolumeResponse) :=
  let params := Req_Parameters req in
  let name := Req_Name req in
  GetHostInfo (Req_Secrets req) ;;;
  target <- iboxAPI (GetVolumeByName name) ;;
  match target with
  | Ok targetVol =>
      existing_volume (ISCSI_CS iscsi) (ISCSI_Capacity iscsi) req targetVol
        (impl AlreadyExists ("(iscsi) - failed: volume " +:+ name +:+ " exists but has different size"))
  | Err err =>
      if negb (is_ErrNotFound err)
      then Ret (Err (EWrap ("iscsi GetVolumeByName name: " +:+ name +:+ " error: ") (impl NotFound (Error err)) ""))
      else match Req_VolumeContentSource req with
      | Some _ => CreateVolumeFromVolumeContent (ISCSI_CS iscsi) req name (ISCSI_Capacity iscsi) params.[StorageClassPoolName]
      | None =>
          try volumeResp <- request_volume name (ISCSI_Capacity iscsi) params catch err => Ret (Err err) ;;
          csiResponse <- GetCSIResponse (ISCSI_CS iscsi) volumeResp req ;;
          match Atoi (CSIVolume_VolumeId (fst csiResponse)) with
          | Err err => Ret (Err (internal err))
          | Ok volID =>
              try vol <- iboxAPI (GetVolume volID) catch err => Ret (Err (internal err)) ;;
              tag_volume vol (with_parameters params (fst csiResponse))
          end
      end
  end.

Definition DeleteVolume (fuel : nat) (iscsi : ISCSIstorage) : prog call (option error) :=
  e <- StorageCommon.DeleteVolume fuel (VolumeProtocolConfig_VolumeID (VolProto (ISCSI_CS iscsi))) ;;
  Ret (option_map internal e).

Definition max_invalid : error :=
  impl Internal ("iscsi invalid parameter: " +:+ StorageClassMaxVolsPerHost +:+ " error: required to be greater than 0").
Definition max_reached (host : Host) (maxAllowedVol : Z) : error :=
  impl ResourceExhausted ("iscsi unable to publish volume on hostName: " +:+ Host_Name host
    +:+ ", as maximum allowed volume per host is: " +:+ Itoa maxAllowedVol +:+ ", limit reached").

Definition ControllerPublishVolume (req : CSIPublishRequest) : prog call (res (gmap string string)) :=
  GetHostInfo (Pub_Secrets req) ;;;
  match ValidateVolumeID (Pub_VolumeId req) with
  | Err err => Ret (Err (impl NotFound (Error err)))
  | Ok volumePrototype =>
      let volumeID := VolumeProtocolConfig_VolumeID volumePrototype in
      try volume <- iboxAPI (GetVolume volumeID) catch err => Ret (Err (impl NotFound (Error err))) ;;
      match IsValidAccessMode volume req with
      | Err err => Ret (Err (internal err))
      | Ok _ =>
          try hostName <- DetermineHostName (Pub_NodeId req) catch err => Ret (Err (internal err)) ;;
          try host <- ValidateHost hostName catch err => Ret (Err (internal err)) ;;
          lunList <- iboxAPI (GetAllLunByHost (Host_ID host)) ;;
          match snd lunList with
          | Some err => Ret (Err (internal err))
          | None => publish_lun req volumeID host (host_ports "ISCSI" host) (fst lunList)
                      max_invalid (max_reached host)
                      (fun ctx => <[SecurityMethodPublishContext := Host_SecurityMethod host]> ctx)
          end
      end
  end.

Definition ControllerUnpublishVolume (iscsi : ISCSIstorage) : prog call (option error) :=
  CommonUnpublishVolume (ISCSI_CS iscsi) "".
Definition CreateSnapshot (iscsi : ISCSIstorage) (req : CSISnapshotRequest) : prog call (res CSISnapshot) :=
  CommonCreateSnapshot req (ISCSI_CS iscsi).
Definition DeleteSnapshot (fuel : nat) (snapshotId : string) : prog call (option error) :=
  delete_snapshot fuel snapshotId.
Definition ControllerExpandVolume (iscsi : ISCSIstorage) (req : CSIExpandRequest) : prog call (res CSIExpandResponse) :=
  expand_volume (VolumeProtocolConfig_VolumeID (VolProto (ISCSI_CS iscsi))) (ISCSI_Capacity iscsi) true.
