(* ===== verification/Nvme.v ===== *)
(** Package [storage/nvme], the controller ([nvmecontroller.go]): volumes reached
    over NVMe/TCP. *)
From stdpp Require Import base strings list gmap.
From S2P Require Import Prelude GoLib Regexp IboxTypes Csi Helper StorageCommon Block.
From Stdlib Require Import ZArith Ascii.

Local Open Scope string_scope.
Local Open Scope list_scope.

Definition NVMEHostSuffix : string := "-nvme".

Record NVMEstorage := MkNVMEstorage { NVME_Capacity : Z; NVME_CS : Commonservice }.
Definition NewNVMEstorage (capacity : Z) (cs : Commonservice) : NVMEstorage := MkNVMEstorage capacity cs.

Definition requiredNVMEParams : list (string * pattern) :=
  [(StorageClassPoolName, re_letters); (StorageClassNetworkSpace, re_any_line)].
Definition optionalNVMEParams : list (string * pattern) := [].

Definition ValidateStorageClass (params : gmap string string) : option error :=
  match ValidateRequiredOptionalSCParameters requiredNVMEParams optionalNVMEParams params with
  | Some err => Some (impl InvalidArgument (Error err))
  | None => None
  end.

Definition MAX_TRIES : nat := 10.

(** The new volume is read back, with a second between the tries. *)
Fixpoint await_volume (tries : nat) (volumeID : Z) : prog call (option Volume) :=
  match tries with
  | O => Ret None
  | S tries =>
      r <- iboxAPI (GetVolume volumeID) ;;
      match r with
      | Ok volume => Ret (Some volume)
      | Err _ => osAPI (Sleep 1) ;;; await_volume tries volumeID
      end
  end.

Definition CreateVolume (nvme : NVMEstorage) (req : CSICreateVolumeRequest) : prog call (res CreateVolumeResponse) :=
  let params := Req_Parameters req in
  let name := Req_Name req in
  GetHostInfo (Req_Secrets req) ;;;
  target <- iboxAPI (GetVolumeByName name) ;;
  match target with
  | Ok targetVolume =>
      existing_volume (NVME_CS nvme) (NVME_Capacity nvme) req targetVolume
        (impl AlreadyExists ("nvme CreateVolume - failed: volume " +:+ name +:+ " exists but has different size"))
  | Err err =>
      if negb (is_ErrNotFound err) then Ret (Err (impl NotFound (Error err)))
      else match Req_VolumeContentSource req with
      | Some _ => CreateVolumeFromVolumeContent (NVME_CS nvme) req name (NVME_Capacity nvme) params.[StorageClassPoolName]
      | None =>
          try volumeResp <- request_volume name (NVME_Capacity nvme) params catch err => Ret (Err err) ;;
          csiResponse <- GetCSIResponse (NVME_CS nvme) volumeResp req ;;
          match Atoi (CSIVolume_VolumeId (fst csiResponse)) with
          | Err err => Ret (Err (internal err))
          | Ok volumeID =>
              found <- await_volume MAX_TRIES volumeID ;;
              match found with
              | None => Ret (Err (impl Internal ("nvme GetVolume - name: " +:+ name +:+ " volumeID: " +:+ Itoa volumeID)))
              | Some volume => tag_volume volume (with_parameters params (fst csiResponse))
              end
          end
      end
  end.

Definition DeleteVolume (fuel : nat) (nvme : NVMEstorage) : prog call (option error) :=
  StorageCommon.DeleteVolume fuel (VolumeProtocolConfig_VolumeID (VolProto (NVME_CS nvme))).

Definition max_invalid : error :=
  impl Internal ("nvme parse  max allowed - invalid parameter: " +:+ StorageClassMaxVolsPerHost +:+ " required to be greater than 0").
Definition max_reached (host : Host) (maxAllowedVol : Z) : error :=
  impl Internal ("max allowed error - unable to publish volume on host: " +:+ Host_Name host
    +:+ ", as maximum allowed volume per host: " +:+ Itoa maxAllowedVol +:+ ", limit reached").

Definition ControllerPublishVolume (req : CSIPublishRequest) : prog call (res (gmap string string)) :=
  GetHostInfo (Pub_Secrets req) ;;;
  match ValidateVolumeID (Pub_VolumeId req) with
  | Err err => Ret (Err (impl NotFound (Error err)))
  | Ok volproto =>
      let volumeID := VolumeProtocolConfig_VolumeID volproto in
      try volume <- iboxAPI (GetVolume volumeID) catch err => Ret (Err (impl NotFound (Error err))) ;;
      match IsValidAccessMode volume req with
      | Err err => Ret (Err (internal err))
      | Ok _ =>
          try hostName <- DetermineHostName (Pub_NodeId req) catch err => Ret (Err (internal err)) ;;
          try host <- ValidateHost (hostName +:+ NVMEHostSuffix) catch err => Ret (Err (internal err)) ;;
          lunList <- iboxAPI (GetAllLunByHost (Host_ID host)) ;;
          match snd lunList with
          | Some err => Ret (Err (internal err))
          | None => publish_lun req volumeID host (host_ports "NVME" host) (fst lunList)
                      max_invalid (max_reached host) (fun ctx => ctx)
          end
      end
  end.

Definition ControllerUnpublishVolume (nvme : NVMEstorage) : prog call (option error) :=
  CommonUnpublishVolume (NVME_CS nvme) NVMEHostSuffix.
Definition CreateSnapshot (nvme : NVMEstorage) (req : CSISnapshotRequest) : prog call (res CSISnapshot) :=
  CommonCreateSnapshot req (NVME_CS nvme).
Definition DeleteSnapshot (fuel : nat) (snapshotId : string) : prog call (option error) :=
  delete_snapshot fuel snapshotId.
(** A raw block volume needs no expansion on the node. *)
Definition ControllerExpandVolume (nvme : NVMEstorage) (req : CSIExpandRequest) : prog call (res CSIExpandResponse) :=
  let block := match Exp_VolumeCapability req with Some c => GetBlock c | None => false end in
  expand_volume (VolumeProtocolConfig_VolumeID (VolProto (NVME_CS nvme))) (NVME_Capacity nvme) (negb block).
