(* ===== verification/ScReplica.v ===== *)
(** [service/screplica.go]: after a volume was created, a storage class may ask
    for a replica of it, or for adding it to a replicated consistency group; the
    driver then makes a custom resource another controller acts on. *)
From stdpp Require Import base strings list gmap.
From S2P Require Import Prelude GoLib IboxTypes Csi KubeClient.
From Stdlib Require Import ZArith Ascii.

Local Open Scope string_scope.
Local Open Scope list_scope.

(** [RemoteFields]; [RemoteCreatePVC] points to [true] in every value made. *)
Record RemoteFields := MkRemoteFields {
  RemoteIboxCredentialName : string;
  RemoteIboxCredentialNamespace : string;
  RemoteCreatePVC : option bool;
  RemotePVCNameSuffix : string;
  RemotePVCName : string;
  RemotePVCKubeconfigSecretName : string;
  RemotePVCKubeconfigSecretNamespace : string;
  RemotePVCNamespace : string;
  RemoteNetworkSpace : string;
  RemotePoolName : string
}.

Definition required_with_pvc (param : string) : error :=
  EText (param +:+ " parameter is required with " +:+ IboxReplicaCreatePVC +:+ " set to true").

Definition handleCreatePVC (params : gmap string string) : res (option RemoteFields) :=
  if String.eqb params.[IboxReplicaCreatePVC] "" then Ok None
  else match ParseBool params.[IboxReplicaCreatePVC] with
  | Err err => Err err
  | Ok false => Ok None
  | Ok true =>
      let missing param := String.eqb params.[param] "" in
      if missing IboxReplicaCreatePVCNamespace then Err (required_with_pvc IboxReplicaCreatePVCNamespace)
      else if missing IboxReplicaCreatePVCNetworkSpace then Err (required_with_pvc IboxReplicaCreatePVCNetworkSpace)
      else if missing IboxReplicaCreatePVCPoolName then Err (required_with_pvc IboxReplicaCreatePVCPoolName)
      else if missing IboxReplicaRemoteIboxCredNameParameter then Err (required_with_pvc IboxReplicaRemoteIboxCredNameParameter)
      else if missing IboxReplicaRemoteIboxCredNamespaceParameter
      then Err (required_with_pvc IboxReplicaRemoteIboxCredNamespaceParameter)
      else Ok (Some {|
        RemoteIboxCredentialName := params.[IboxReplicaRemoteIboxCredNameParameter];
        RemoteIboxCredentialNamespace := params.[IboxReplicaRemoteIboxCredNamespaceParameter];
        RemoteCreatePVC := Some true;
        RemotePVCNameSuffix := params.[IboxReplicaCreatePVCSuffix];
        RemotePVCName := "";
        RemotePVCKubeconfigSecretName := params.[IboxReplicaCreatePVCKubeconfigSecretName];
        RemotePVCKubeconfigSecretNamespace := params.[IboxReplicaCreatePVCKubeconfigSecretNamespace];
        RemotePVCNamespace := params.[IboxReplicaCreatePVCNamespace];
        RemoteNetworkSpace := params.[IboxReplicaCreatePVCNetworkSpace];
        RemotePoolName := params.[IboxReplicaCreatePVCPoolName] |})
  end.

Definition verifyLinkExists (linkName : string) : prog call (option error) :=
  links <- iboxAPI GetLinks ;;
  Ret (match snd links with
       | Some err => Some err
       | None => if existsb (fun link => String.eqb (Link_RemoteSystemName link) linkName) (fst links) then None
                 else Some (EText ("link " +:+ linkName +:+ " not found and is required for creating replicas"))
       end).

(** [verifyCGExists] looks for the group ten times, a second apart. *)
Fixpoint await_group (tries : nat) (cgName : string) : prog call bool :=
  match tries with
  | O => Ret false
  | S tries =>
      osAPI (Sleep 1) ;;;
      r <- iboxAPI (GetConsistencyGroupByName cgName) ;;
      match r with
      | Ok _ => Ret true
      | Err _ => await_group tries cgName
      end
  end.
Definition verifyCGExists (cgName : string) : prog call (option error) :=
  found <- await_group 10 cgName ;;
  Ret (if found : bool then None else Some (EText ("cg not found after 10 seconds, giving up " +:+ cgName))).

(** The replica resource; the remote fields replace those of the storage class
    when a remote claim is wanted. *)
Definition replica_spec (volName entityType : string) (poolID : Z) (params : gmap string string)
    (fields : option RemoteFields) : IboxreplicaSpec :=
  let get {A} (f : RemoteFields -> A) (unset : A) := match fields with Some r => f r | None => unset end in
  {| IboxreplicaSpec_IsPreferred := None;
     IboxreplicaSpec_SyncInterval := 0;
     IboxreplicaSpec_Description := "iboxreplica-" +:+ volName;
     IboxreplicaSpec_EntityType := entityType;
     IboxreplicaSpec_LocalEntityName := volName;
     IboxreplicaSpec_RemoteEntityName := volName;
     IboxreplicaSpec_ReplicationType := params.[IboxReplicaTypeParameter];
     IboxreplicaSpec_BaseAction := "NEW";
     IboxreplicaSpec_LinkRemoteSystemName := params.[IboxReplicaRemoteIboxLinkNameParameter];
     IboxreplicaSpec_RpoValue := 0;
     IboxreplicaSpec_RemotePoolID := poolID;
     IboxreplicaSpec_RemoteIboxCredentialName :=
       get RemoteIboxCredentialName params.[IboxReplicaRemoteIboxCredNameParameter];
     IboxreplicaSpec_RemoteIboxCredentialNamespace :=
       get RemoteIboxCredentialNamespace params.[IboxReplicaRemoteIboxCredNamespaceParameter];
     IboxreplicaSpec_RemoteCreatePVC := get RemoteCreatePVC None;
     IboxreplicaSpec_RemotePVCNameSuffix := get RemotePVCNameSuffix "";
     IboxreplicaSpec_RemotePVCName := get RemotePVCName "";
     IboxreplicaSpec_RemotePVCNamespace := get RemotePVCNamespace "";
     IboxreplicaSpec_RemoteNetworkSpace := get RemoteNetworkSpace "";
     IboxreplicaSpec_RemotePoolName := get RemotePoolName params.[IboxReplicaCreatePVCPoolName];
     IboxreplicaSpec_RemotePVCKubeconfigSecretName := get RemotePVCKubeconfigSecretName "";
     IboxreplicaSpec_RemotePVCKubeconfigSecretNamespace := get RemotePVCKubeconfigSecretNamespace "" |}.

Definition group_spec (volName cgName : string) (fields : option RemoteFields) : IboxcgSpec :=
  let get {A} (f : RemoteFields -> A) (unset : A) := match fields with Some r => f r | None => unset end in
  {| IboxcgSpec_Description := volName +:+ "-" +:+ cgName;
     IboxcgSpec_LocalCGName := cgName;
     IboxcgSpec_LocalVolumeName := volName;
     IboxcgSpec_BaseAction := "ADD";
     IboxcgSpec_RemoteIboxCredentialName := get RemoteIboxCredentialName "";
     IboxcgSpec_RemoteIboxCredentialNamespace := get RemoteIboxCredentialNamespace "";
     IboxcgSpec_RemoteCreatePVC := get RemoteCreatePVC None;
     IboxcgSpec_RemotePVCNameSuffix := get RemotePVCNameSuffix "";
     IboxcgSpec_RemotePVCName := get RemotePVCName "";
     IboxcgSpec_RemotePVCNamespace := get RemotePVCNamespace "";
     IboxcgSpec_RemoteNetworkSpace := get RemoteNetworkSpace "";
     IboxcgSpec_RemotePoolName := get RemotePoolName "";
     IboxcgSpec_RemotePVCKubeconfigSecretName := get RemotePVCKubeconfigSecretName "";
     IboxcgSpec_RemotePVCKubeconfigSecretNamespace := get RemotePVCKubeconfigSecretNamespace "" |}.

(** [ReplicaEntity...] of the resource, when it is not a group's. *)
Definition replica_entity (storageProtocol : string) : string :=
  if String.eqb storageProtocol ProtocolNFS then ReplicaEntityFilesystem else ReplicaEntityVolume.

(** [params[p]], when it is required. *)
Definition required_param (params : gmap string string) (p : string) (err : error) : res string :=
  if String.eqb params.[p] "" then Err err else Ok params.[p].

Definition remote_pool_id (params : gmap string string) : res Z :=
  let p := params.[IboxReplicaRemotePoolIDParameter] in
  if String.eqb p "" then Ok 0%Z
  else map_err (fun e => EText ("sc replica parameter [" +:+ IboxReplicaRemotePoolIDParameter
                  +:+ "] is set but is not an integer, error " +:+ Error e)) (Atoi p).

(** The remote claim's fields, and whether its cluster's credentials exist. *)
Definition remote_fields (params : gmap string string) : prog call (res (option RemoteFields)) :=
  match handleCreatePVC params with
  | Err err => Ret (Err err)
  | Ok None => Ret (Ok None)
  | Ok (Some fields) =>
      if String.eqb (RemotePVCKubeconfigSecretName fields) "" then Ret (Ok (Some fields))
      else
        try _s <- GetSecret (RemotePVCKubeconfigSecretName fields) (RemotePVCKubeconfigSecretNamespace fields)
          catch err => Ret (Err err) ;;
        Ret (Ok (Some fields))
  end.

Definition handleSCReplica (volName storageProtocol : string) (params : gmap string string) : prog call (option error) :=
  let replicaType := params.[IboxReplicaTypeParameter] in
  if String.eqb replicaType "" then Ret None
  else if negb (bool_decide (replicaType ∈ [IboxreplicaReplicaTypeSYNC; IboxreplicaReplicaTypeASYNC;
                                            IboxreplicaReplicaTypeACTIVE_ACTIVE]))
  then Ret (Some (EText "invalid replication type specified in StorageClass"))
  else match remote_pool_id params with
  | Err err => Ret (Some err)
  | Ok poolID =>
  match required_param params IboxReplicaRemoteIboxLinkNameParameter
          (EText ("sc replica parameter [" +:+ IboxReplicaRemoteIboxLinkNameParameter +:+ "] is not set but is required")) with
  | Err err => Ret (Some err)
  | Ok linkName =>
  linked <- verifyLinkExists linkName ;;
  match linked with
  | Some err => Ret (Some err)
  | None =>
  let cgName := params.[IboxReplicaCGNameParameter] in
  match required_param params IboxReplicaLocalIboxCredNameParameter
          (EText ("storageclass parameter [" +:+ IboxReplicaLocalIboxCredNameParameter +:+ "] is not set but is required")) with
  | Err err => Ret (Some err)
  | Ok secretName =>
  match required_param params IboxReplicaLocalIboxCredNamespaceParameter
          (EText ("sc replica parameter [" +:+ IboxReplicaLocalIboxCredNamespaceParameter +:+ "] is not set but is required")) with
  | Err err => Ret (Some err)
  | Ok secretNamespace =>
  client <- kubeAPI BuildClient ;;
  match client with
  | Some err => Ret (Some err)
  | None =>
  try _secret <- GetSecret secretName secretNamespace catch err => Ret (Some err) ;;
  try fields <- remote_fields params catch err => Ret (Some err) ;;
  let annotations := <[PVCAnnotationSecretNamespace := secretNamespace]> {[ PVCAnnotationSecretName := secretName ]} in
  if String.eqb cgName "" then
    kubeAPI (CreateIboxreplica ("iboxreplica-" +:+ volName) annotations
               (replica_spec volName (replica_entity storageProtocol) poolID params fields))
  else
    grouped <- verifyCGExists cgName ;;
    match grouped with
    | Some err => Ret (Some err)
    | None => kubeAPI (CreateIboxcg ("iboxcg-" +:+ volName) annotations (group_spec volName cgName fields))
    end
  end end end end end end.
