(* ===== verification/Json.v ===== *)
(** Package [encoding/json], as far as the driver decodes text of its users: the
    grammar of JSON, with Go's treatment of nested values ([interface{}] keeps a
    number as it is read, the last of equal keys wins). The text of a decoding
    error is not modelled: every error is [json_error]; nor are the bounds of
    [float64] and of the nesting depth, which Go also reports as errors. *)
From stdpp Require Import base strings list gmap.
From S2P Require Import Prelude GoLib IboxTypes.
From Stdlib Require Import ZArith Ascii.

Local Open Scope string_scope.
Local Open Scope list_scope.

Definition json_error : error := EText "invalid character or end of JSON input".

Definition json_space (c : ascii) : bool :=
  Ascii.eqb c " " || Ascii.eqb c (ascii_of_nat 9) || Ascii.eqb c (ascii_of_nat 10) || Ascii.eqb c (ascii_of_nat 13).
Definition skip_space : string -> string := drop_while json_space.

(** ** Strings *)

Definition byte_of (z : Z) : ascii := ascii_of_N (Z.to_N z).
(** UTF-8. *)
Definition encode_rune (r : Z) : string :=
  if (r <? 128)%Z then String (byte_of r) ""
  else if (r <? 2048)%Z then String (byte_of (192 + r / 64)) (String (byte_of (128 + r mod 64)) "")
  else if (r <? 65536)%Z then
    String (byte_of (224 + r / 4096)) (String (byte_of (128 + (r / 64) mod 64)) (String (byte_of (128 + r mod 64)) ""))
  else String (byte_of (240 + r / 262144)) (String (byte_of (128 + (r / 4096) mod 64))
         (String (byte_of (128 + (r / 64) mod 64)) (String (byte_of (128 + r mod 64)) ""))).

Definition hex4 (s : string) : option (Z * string) :=
  match s with
  | String a (String b (String c (String d rest))) =>
      a ← hex_digit a; b ← hex_digit b; c ← hex_digit c; d ← hex_digit d;
      Some (4096 * a + 256 * b + 16 * c + d, rest)%Z
  | _ => None
  end.
Definition replacement : Z := 65533.

(** [\u] escapes: a surrogate pair is one rune, a lone surrogate is replaced. *)
Definition unicode_escape (s : string) : option (Z * string) :=
  '(r, rest) ← hex4 s;
  if ((55296 <=? r) && (r <? 57344))%Z then
    match rest with
    | String "\" (String "u" rest') =>
        match hex4 rest' with
        | Some (r2, rest'') =>
            if ((r <? 56320) && (56320 <=? r2) && (r2 <? 57344))%Z
            then Some (65536 + (r - 55296) * 1024 + (r2 - 56320), rest'')%Z
            else Some (replacement, rest)
        | None => Some (replacement, rest)
        end
    | _ => Some (replacement, rest)
    end
  else Some (r, rest).

Definition simple_escape (c : ascii) : option ascii :=
  if Ascii.eqb c dquote || Ascii.eqb c "\" || Ascii.eqb c "/" then Some c
  else if Ascii.eqb c "b" then Some (ascii_of_nat 8)
  else if Ascii.eqb c "f" then Some (ascii_of_nat 12)
  else if Ascii.eqb c "n" then Some newline
  else if Ascii.eqb c "r" then Some (ascii_of_nat 13)
  else if Ascii.eqb c "t" then Some (ascii_of_nat 9)
  else None.

(** The rest of a string literal after its opening quote. *)
Fixpoint parse_string (fuel : nat) (s : string) : option (string * string) :=
  match fuel, s with
  | S fuel, String c rest =>
      if Ascii.eqb c dquote then Some ("", rest)
      else if (code c <? 32)%Z then None
      else if Ascii.eqb c "\" then
        match rest with
        | String "u" rest' =>
            '(r, rest'') ← unicode_escape rest';
            '(str, out) ← parse_string fuel rest'';
            Some (encode_rune r +:+ str, out)
        | String e rest' =>
            e ← simple_escape e;
            '(str, out) ← parse_string fuel rest';
            Some (String e str, out)
        | EmptyString => None
        end
      else '(str, out) ← parse_string fuel rest; Some (String c str, out)
  | _, _ => None
  end.

(** ** Numbers and literals *)

Fixpoint span (f : ascii -> bool) (s : string) : string * string :=
  match s with
  | String c s' => if f c then let '(a, b) := span f s' in (String c a, b) else ("", s)
  | EmptyString => ("", "")
  end.

Definition parse_number (s : string) : option (string * string) :=
  let '(sign, s1) := match s with String "-" s' => ("-", s') | _ => ("", s) end in
  let '(int, s2) := match s1 with
                    | String "0" s' => ("0", s')
                    | _ => span is_digit s1
                    end in
  if String.eqb int "" then None
  else
    frac ← match s2 with
           | String "." s' => let '(d, r) := span is_digit s' in
                              if String.eqb d "" then None else Some ("." +:+ d, r)
           | _ => Some ("", s2)
           end;
    let '(fr, s3) := (frac : string * string) in
    expo ← match s3 with
           | String e s' =>
               if Ascii.eqb e "e" || Ascii.eqb e "E" then
                 let '(sg, s'') := match s' with
                                   | String "+" r => ("+", r)
                                   | String "-" r => ("-", r)
                                   | _ => ("", s')
                                   end in
                 let '(d, r) := span is_digit s'' in
                 if String.eqb d "" then None else Some (String e (sg +:+ d), r)
               else Some ("", s3)
           | EmptyString => Some ("", "")
           end;
    let '(ex, s4) := (expo : string * string) in
    Some (sign +:+ int +:+ fr +:+ ex, s4).

Definition strip_prefix (p s : string) : option string :=
  if String.prefix p s then Some (String.substring (String.length p) (String.length s) s) else None.

(** ** Values *)

Section values.
(** The parser of the values within. *)
Variable value : string -> option (json * string).

Fixpoint array_values (fuel : nat) (s : string) (acc : list json) : option (list json * string) :=
  match fuel with
  | O => None
  | S fuel =>
      '(v, s1) ← value s;
      match skip_space s1 with
      | String "," s2 => array_values fuel s2 (acc ++ [v])
      | String "]" s2 => Some (acc ++ [v], s2)
      | _ => None
      end
  end.
(** A member and what follows its value. *)
Definition object_member (s : string) : option (string * json * string) :=
  match skip_space s with
  | String q s1 =>
      if Ascii.eqb q dquote then
        '(k, s2) ← parse_string (String.length s1) s1;
        match skip_space s2 with
        | String ":" s3 => '(v, s4) ← value s3; Some (k, v, s4)
        | _ => None
        end
      else None
  | EmptyString => None
  end.
Fixpoint object_members (fuel : nat) (s : string) (acc : list (string * json)) : option (list (string * json) * string) :=
  match fuel with
  | O => None
  | S fuel =>
      '(kv, s4) ← object_member s;
      match skip_space s4 with
      | String "," s5 => object_members fuel s5 (acc ++ [kv])
      | String "}" s5 => Some (acc ++ [kv], s5)
      | _ => None
      end
  end.
End values.

(** One value; [fuel] bounds the number of values and separators read. *)
Fixpoint parse_value (fuel : nat) (s0 : string) : option (json * string) :=
  match fuel with
  | O => None
  | S fuel =>
      match skip_space s0 with
      | String c rest =>
          if Ascii.eqb c "[" then
            match skip_space rest with
            | String "]" out => Some (JArr [], out)
            | _ => '(l, out) ← array_values (parse_value fuel) fuel rest []; Some (JArr l, out)
            end
          else if Ascii.eqb c "{" then
            match skip_space rest with
            | String "}" out => Some (JObj [], out)
            | _ => '(m, out) ← object_members (parse_value fuel) fuel rest []; Some (JObj m, out)
            end
          else if Ascii.eqb c dquote then
            '(str, out) ← parse_string (String.length rest) rest; Some (JStr str, out)
          else match strip_prefix "null" (String c rest), strip_prefix "true" (String c rest),
                     strip_prefix "false" (String c rest) with
               | Some out, _, _ => Some (JNull, out)
               | _, Some out, _ => Some (JBool true, out)
               | _, _, Some out => Some (JBool false, out)
               | _, _, _ => '(n, out) ← parse_number (String c rest); Some (JNum n, out)
               end
      | EmptyString => None
      end
  end.

(** A whole document. The length of the text bounds the values in it. *)
Definition parse_json (s : string) : option json :=
  '(v, rest) ← parse_value (S (String.length s)) s;
  if String.eqb (skip_space rest) "" then Some v else None.

(** [json.Unmarshal] into a [[]map[string]any]: null gives a nil slice or map. *)
Definition to_map (v : json) : option (gmap string json) :=
  match v with
  | JNull => Some ∅
  | JObj m => Some (foldl (fun acc kv => <[fst kv := snd kv]> acc) ∅ m)
  | _ => None
  end.
Definition Unmarshal_maps (s : string) : res (list (gmap string json)) :=
  match parse_json s with
  | Some JNull => Ok []
  | Some (JArr l) => match mapM to_map l with Some ms => Ok ms | None => Err json_error end
  | _ => Err json_error
  end.

(** ** Encoding *)

(** The text [json.Encoder] writes for a string: HTML characters are escaped too;
    bytes of multi-byte characters are kept. *)
Definition hex_char (z : Z) : ascii := if (z <? 10)%Z then byte_of (48 + z) else byte_of (87 + z).
Definition escape (c : ascii) : string :=
  if Ascii.eqb c dquote || Ascii.eqb c "\" then String "\" (String c "")
  else if Ascii.eqb c (ascii_of_nat 8) then "\b"
  else if Ascii.eqb c (ascii_of_nat 12) then "\f"
  else if Ascii.eqb c newline then "\n"
  else if Ascii.eqb c (ascii_of_nat 13) then "\r"
  else if Ascii.eqb c (ascii_of_nat 9) then "\t"
  else if (code c <? 32)%Z || Ascii.eqb c "<" || Ascii.eqb c ">" || Ascii.eqb c "&"
  then "\u00" +:+ String (hex_char (code c / 16)) (String (hex_char (code c mod 16)) "")
  else String c "".
Fixpoint escaped (s : string) : string :=
  match s with EmptyString => "" | String c s' => escape c +:+ escaped s' end.
Definition quoted (s : string) : string := String dquote (escaped s +:+ String dquote "").

Example parse_json_example :
  parse_json (ReplaceByte "[{'access':'RW','no_root_squash':true}, { 'n' : -1.5e3, 'u':'\u00e9\/'}, null]" squote dquote)
  = Some (JArr [JObj [("access", JStr "RW"); ("no_root_squash", JBool true)];
                JObj [("n", JNum "-1.5e3"); ("u", JStr (encode_rune 233 +:+ "/"))]; JNull]).
Proof. vm_compute. reflexivity. Qed.
Example parse_json_refused : map parse_json ["["; "[1,]"; "{"; "01"; "tru"; "[] x"; String.EmptyString] = replicate 7 None.
Proof. vm_compute. reflexivity. Qed.
