(* ===== verification/JsonProofs.v ===== *)
(** Reading back what is written as JSON: strings, numbers, booleans and members,
    as [parse_value] reads them from the text of the encoder. *)
From stdpp Require Import base strings list gmap.
From S2P Require Import Prelude GoLib IboxTypes Json.
From Stdlib Require Import ZArith Lia Ascii DecimalString DecimalFacts DecimalN DecimalZ.

Local Open Scope string_scope.
Local Open Scope list_scope.

Definition ascii_text (s : string) : bool := all_string (fun c => (code c <? 128)%Z) s.

Lemma parse_escape fuel c s :
  (code c <? 128)%Z = true ->
  parse_string (S fuel) (escape c +:+ s) = ('(str, out) ← parse_string fuel s; Some (String c str, out)).
Proof.
  destruct c as [[] [] [] [] [] [] [] []]; intros Hc; try discriminate Hc; reflexivity.
Qed.
Lemma parse_escaped fuel s rest :
  ascii_text s = true -> (String.length s < fuel)%nat ->
  parse_string fuel (escaped s +:+ String dquote rest) = Some (s, rest).
Proof.
  revert fuel. induction s as [|c s IH]; intros [|fuel] Hs Hf; cbn in Hf; try lia; [reflexivity|].
  cbn in Hs. apply andb_prop in Hs as [Hc Hs]. cbn [escaped]. rewrite app_assoc_s, parse_escape by done.
  rewrite IH; [reflexivity|done|lia].
Qed.

Definition number_end (s : string) : bool :=
  match s with
  | String c _ => negb (is_digit c || Ascii.eqb c "." || Ascii.eqb c "e" || Ascii.eqb c "E")
  | EmptyString => true
  end.
Lemma span_digits d rest :
  all_string is_digit d = true -> number_end rest = true -> span is_digit (d +:+ rest) = (d, rest).
Proof.
  intros Hd Hr. induction d as [|c d IH]; cbn in *.
  - destruct rest as [|c r]; [done|]. cbn in *. by destruct (is_digit c).
  - apply andb_prop in Hd as [-> Hd]. by rewrite IH.
Qed.

(** The digits of a number: no leading zero. *)
Lemma unsigned_digits n :
  exists c s, NilZero.string_of_uint (N.to_uint n) = String c s /\ all_string is_digit (String c s) = true /\
    (c <> "0"%char \/ s = "").
Proof.
  pose proof (DecimalN.Unsigned.to_of (N.to_uint n)) as H. rewrite DecimalN.Unsigned.of_to in H.
  unfold Decimal.unorm in H. destruct (N.to_uint n) as [|d|d|d|d|d|d|d|d|d|d] eqn:Hd; cbn in H; [discriminate H|..].
  2-10: eexists _, _; split; [reflexivity|]; (split; [apply uint_chars|by left]).
  assert (Hnil : d = Decimal.Nil).
  { pose proof (nzhead_nonzero d) as Hn. destruct (Decimal.nzhead d); congruence. }
  subst d. exists "0"%char, "". split; [done|]. split; [done|by right].
Qed.

(** A number ends where [number_end] says; the sign before it is kept. *)
Lemma parse_number_end c s rest (sign : string) :
  all_string is_digit (String c s) = true -> (c <> "0"%char \/ s = "") -> number_end rest = true ->
  sign = "" \/ sign = "-" ->
  parse_number (sign +:+ String c s +:+ rest) = Some (sign +:+ String c s, rest).
Proof.
  intros Hd Hc Hr Hsign.
  assert (Hspan : span is_digit (String c s +:+ rest) = (String c s, rest)) by by apply span_digits.
  cbn in Hd. apply andb_prop in Hd as [Hdc _].
  assert (Hint : match String c s +:+ rest with String "0" s' => ("0", s') | _ => span is_digit (String c s +:+ rest) end
                 = (String c s, rest)).
  { destruct c as [[] [] [] [] [] [] [] []]; try discriminate Hdc; first [exact Hspan|by destruct Hc as [Hc| ->]]. }
  assert (Hsplit : match sign +:+ String c s +:+ rest with
                   | String "-" s' => ("-", s') | _ => ("", sign +:+ String c s +:+ rest) end
                   = (sign, String c s +:+ rest)).
  { destruct Hsign as [-> | ->]; [|done]. destruct c as [[] [] [] [] [] [] [] []]; try discriminate Hdc; done. }
  unfold parse_number. rewrite Hsplit, Hint. cbn [String.eqb].
  destruct rest as [|r rest]; [cbn; by rewrite app_nil_s|].
  destruct r as [[] [] [] [] [] [] [] []]; try discriminate Hr; cbn; by rewrite app_nil_s.
Qed.
Lemma parse_number_Itoa z rest : number_end rest = true -> parse_number (Itoa z +:+ rest) = Some (Itoa z, rest).
Proof.
  intros Hr. unfold Itoa. destruct z as [|p|p]; cbn [Z.to_int NilZero.string_of_int].
  - by apply (parse_number_end "0" "" rest ""); [| by right| |left].
  - destruct (unsigned_digits (Npos p)) as (c & s & Hp & Hd & Hc). cbn in Hp. rewrite Hp.
    apply (parse_number_end c s rest ""); auto.
  - destruct (unsigned_digits (Npos p)) as (c & s & Hp & Hd & Hc). cbn in Hp. rewrite Hp.
    apply (parse_number_end c s rest "-"); auto.
Qed.

Lemma length_app_s (a b : string) : String.length (a +:+ b) = (String.length a + String.length b)%nat.
Proof. induction a; cbn; auto. Qed.
Lemma substring_all s m : (String.length s <= m)%nat -> String.substring 0 m s = s.
Proof.
  revert m. induction s as [|c s IH]; intros [|m]; cbn; intros H; [done|done|lia|]. f_equal. apply IH. lia.
Qed.
Lemma strip_prefix_app p s : strip_prefix p (p +:+ s) = Some s.
Proof.
  unfold strip_prefix. rewrite prefix_app, length_app_s. f_equal.
  assert (H : forall m, (String.length s <= m)%nat -> String.substring (String.length p) m (p +:+ s) = s).
  { intros m Hm. induction p as [|c p IH]; cbn; [by apply substring_all|done]. }
  apply H. lia.
Qed.
Lemma length_escaped s : (String.length s <= String.length (escaped s))%nat.
Proof.
  induction s as [|c s IH]; cbn; [lia|]. rewrite length_app_s.
  assert (1 <= String.length (escape c))%nat; [|lia].
  by destruct c as [[] [] [] [] [] [] [] []]; vm_compute; lia.
Qed.
Lemma parse_quoted_rest s rest :
  ascii_text s = true ->
  parse_string (String.length (escaped s +:+ String dquote rest)) (escaped s +:+ String dquote rest) = Some (s, rest).
Proof.
  intros Hs. apply parse_escaped; [done|]. rewrite length_app_s. cbn. pose proof (length_escaped s). lia.
Qed.
Lemma quoted_app s rest : quoted s +:+ rest = String dquote (escaped s +:+ String dquote rest).
Proof. unfold quoted. cbn. by rewrite app_assoc_s. Qed.

Section one_value.
Context (n : nat) (rest : string).
Lemma parse_quoted s : ascii_text s = true -> parse_value (S n) (quoted s +:+ rest) = Some (JStr s, rest).
Proof.
  intros Hs. rewrite quoted_app.
  transitivity ('(str, out) ← parse_string (String.length (escaped s +:+ String dquote rest)) (escaped s +:+ String dquote rest);
                Some (JStr str, out)); [reflexivity|]. by rewrite parse_quoted_rest.
Qed.
Lemma parse_bool b : parse_value (S n) (FormatBool b +:+ rest) = Some (JBool b, rest).
Proof.
  destruct b; cbn [FormatBool].
  - transitivity (match strip_prefix "true" ("true" +:+ rest) with Some out => Some (JBool true, out) | None => None end);
      [reflexivity|]. by rewrite strip_prefix_app.
  - transitivity (match strip_prefix "false" ("false" +:+ rest) with Some out => Some (JBool false, out) | None => None end);
      [reflexivity|]. by rewrite strip_prefix_app.
Qed.
Lemma parse_integer z : number_end rest = true -> parse_value (S n) (Itoa z +:+ rest) = Some (JNum (Itoa z), rest).
Proof.
  intros Hr. pose proof (parse_number_Itoa z rest Hr) as Hp. pose proof (Itoa_chars z) as Hz.
  destruct (Itoa z) as [|c s] eqn:Hi; [by destruct (Itoa_nonempty z)|].
  cbn in Hz. apply andb_prop in Hz as [Hc _].
  transitivity ('(n, out) ← parse_number (String c s +:+ rest); Some (JNum n, out)); [|by rewrite Hp].
  clear - Hc. destruct c as [[] [] [] [] [] [] [] []]; try discriminate Hc; reflexivity.
Qed.
End one_value.

(** A member of an object. *)
Lemma parse_member value key v out rest :
  ascii_text key = true -> value rest = Some (v, out) ->
  object_member value (quoted key +:+ String ":" rest) = Some (key, v, out).
Proof.
  intros Hk Hv. rewrite quoted_app.
  transitivity ('(k, s2) ← parse_string (String.length (escaped key +:+ String dquote (String ":" rest)))
                             (escaped key +:+ String dquote (String ":" rest));
                match skip_space s2 with
                | String ":" s3 => '(v, s4) ← value s3; Some (k, v, s4)
                | _ => None
                end); [reflexivity|]. rewrite parse_quoted_rest by done.
  transitivity ('(v, s4) ← value rest; Some (key, v, s4)); [reflexivity|]. by rewrite Hv.
Qed.

(** An object that has members, and an array that begins with an object. *)
Lemma parse_object fuel s rest :
  s = String dquote rest ->
  parse_value (S fuel) (String "{" s) = '(m, out) ← object_members (parse_value fuel) fuel s []; Some (JObj m, out).
Proof. by intros ->. Qed.
Lemma parse_array fuel s rest :
  s = String "{" rest ->
  parse_value (S fuel) (String "[" s) = '(l, out) ← array_values (parse_value fuel) fuel s []; Some (JArr l, out).
Proof. by intros ->. Qed.

Lemma members_comma value fuel kv s s' acc :
  object_member value s = Some (kv, String "," s') -> object_members value (S fuel) s acc = object_members value fuel s' (acc ++ [kv]).
Proof. intros H. cbn [object_members]. by rewrite H. Qed.
Lemma members_last value fuel kv s s' acc :
  object_member value s = Some (kv, String "}" s') -> object_members value (S fuel) s acc = Some (acc ++ [kv], s').
Proof. intros H. cbn [object_members]. by rewrite H. Qed.

Lemma ParseInt10_Itoa z : in_i64 z -> ParseInt10 (Itoa z) = Ok z.
Proof.
  intros [Hl Hh]. unfold ParseInt10, parse_int. rewrite parse_Itoa.
  by rewrite (proj2 (Z.leb_le _ _) Hl), (proj2 (Z.leb_le _ _) Hh).
Qed.
