(* ===== verification/NfsApi.v ===== *)
(** [api/nfsapiclient.go]: the export rules of a file system and the deletion of
    file systems with their exports, metadata and tagged ancestors. Slices that
    [removeIndex] shifts in place share their array with the export they came
    from; the array is threaded where it is read again. *)
From stdpp Require Import base strings list gmap.
From S2P Require Import Prelude GoLib IboxTypes Csi.
From Stdlib Require Import ZArith Lia.

Local Open Scope string_scope.
Local Open Scope list_scope.

Definition compareClientIP (permissionIP ipAddress : string) : bool :=
  if Contains permissionIP "-" then
    match Split permissionIP "-" with
    | from :: to :: _ => bytes_le (ParseIP from) (ParseIP ipAddress) && bytes_le (ParseIP ipAddress) (ParseIP to)
    | _ => false
    end
  else String.eqb permissionIP ipAddress.

(** [removeIndex s index] is [append(s[:index], s[index+1:]...)]: the shorter
    slice, and what its array holds afterwards in the extent of [s]. *)
Definition removeIndex (s : list Permissions) (index : nat) : list Permissions * list Permissions :=
  let shorter := take index s ++ drop (S index) s in
  (shorter, shorter ++ drop (length s - 1) s).

(** The last index an element of [l] satisfies [f] at. *)
Fixpoint last_index {A} (f : A -> bool) (l : list A) (i : nat) (found : option nat) : option nat :=
  match l with
  | [] => found
  | x :: l' => last_index f l' (S i) (if f x then Some i else found)
  end.

Definition covers_all (ipAddress : string) (p : Permissions) : bool :=
  negb (compareClientIP (Permissions_Client p) ipAddress) && String.eqb (Permissions_Client p) "*".
Definition covers (ipAddress : string) (p : Permissions) : bool :=
  compareClientIP (Permissions_Client p) ipAddress || String.eqb (Permissions_Client p) "*".

(** [AddNodeInExport]. When the export cannot be read the error path
    dereferences the nil export. *)
Definition AddNodeInExport (exportID : Z) (access : string) (noRootSquash : bool) (ipAddress : string)
    : prog call (res Export) :=
  try export <- iboxAPI (GetExportByID exportID) catch _ => Panic ;;
  let permissionList := Export_Permissions export in
  let flag := existsb (covers ipAddress) permissionList in
  let index := last_index (covers_all ipAddress) permissionList 0 None in
  let export := match index with
                | Some i => Export_set_Permissions (snd (removeIndex permissionList i)) export
                | None => export
                end in
  if flag then Ret (Ok export)
  else
    let newPermission := MkPermissions access noRootSquash ipAddress in
    let permissionList := permissionList ++ [newPermission] in
    try updated <- iboxAPI (UpdateExportPermissions export (ExportPathRef_of permissionList)) catch err =>
      Ret (Err (EWrap ("error updating export rule - exportID: " +:+ Itoa exportID +:+ " access: " +:+ access
                  +:+ " norootsquash: %!s(bool=" +:+ FormatBool noRootSquash +:+ ") ipAddress: " +:+ ipAddress
                  +:+ " error: ") err "")) ;;
    Ret (Ok updated).

Definition defaultPermission : Permissions := MkPermissions "RW" true "*".

(** [DeleteNodeFromExport], with what the array of the export's permissions
    holds when it returns; the last rule of the client is removed, and the
    default rule is written over the array's first element when no rule is left. *)
Definition DeleteNodeFromExport (export : Export) (noRootSquash : bool) (ipAddress : string)
    : prog call (res (option Export) * list Permissions) :=
  let permissionList := Export_Permissions export in
  match last_index (fun p => String.eqb (Permissions_Client p) ipAddress) permissionList 0 None with
  | Some index =>
      let '(shorter, backing) := removeIndex permissionList index in
      let '(sent, backing) := match shorter with
                              | [] => ([defaultPermission], defaultPermission :: drop 1 backing)
                              | _ => (shorter, backing)
                              end in
      r <- iboxAPI (UpdateExportPermissions (Export_set_Permissions backing export) (ExportPathRef_of sent)) ;;
      Ret (match r with
           | Ok exportResponse => Ok (Some exportResponse)
           | Err err => Err (EWrap "error occurred while updating permission - error: " err "")
           end, backing)
  | None => Ret (Ok None, permissionList)
  end.

(** The inner loop of [DeleteExportRule]: the indices are those of the slice,
    the elements are read from its array as the removals leave it. *)
Fixpoint DeleteExportRule_permissions (export : Export) (ipAddress : string) (indices : list nat)
    (backing : list Permissions) : prog call (option error) :=
  match indices with
  | [] => Ret None
  | i :: rest =>
      match backing !! i with
      | None => Panic
      | Some permission =>
          if String.eqb (Permissions_Client permission) ipAddress then
            out <- DeleteNodeFromExport (Export_set_Permissions backing export)
                     (Permissions_NoRootSquash permission) ipAddress ;;
            match fst out with
            | Err err => Ret (Some (EWrap "error occurred while getting export path - error: " err ""))
            | Ok _ => DeleteExportRule_permissions export ipAddress rest (snd out)
            end
          else DeleteExportRule_permissions export ipAddress rest backing
      end
  end.
Fixpoint DeleteExportRule_exports (exports : list Export) (ipAddress : string) : prog call (option error) :=
  match exports with
  | [] => Ret None
  | export :: rest =>
      e <- DeleteExportRule_permissions export ipAddress (seq 0 (length (Export_Permissions export)))
             (Export_Permissions export) ;;
      match e with
      | Some err => Ret (Some err)
      | None => DeleteExportRule_exports rest ipAddress
      end
  end.
Definition DeleteExportRule (fileSystemID : Z) (ipAddress : string) : prog call (option error) :=
  exports <- iboxAPI (GetExportsByFileSystemID fileSystemID) ;;
  match snd exports with
  | Some err => Ret (Some (EWrap "error occurred while getting export - error: " err ""))
  | None => DeleteExportRule_exports (fst exports) ipAddress
  end.

(** The exports of a file system are deleted one after the other; only a
    not-found answer stops the loop, any other error is passed over. *)
Fixpoint delete_exports (exports : list Export) : prog call (option error) :=
  match exports with
  | [] => Ret None
  | export :: rest =>
      r <- iboxAPI (DeleteExport (Export_ID export)) ;;
      match r with
      | Err err => if is_ErrNotFound err then Ret (Some err) else delete_exports rest
      | Ok _ => delete_exports rest
      end
  end.
Definition DeleteFileSystemComplete (fileSystemID : Z) : prog call (option error) :=
  exportResp <- iboxAPI (GetExportsByFileSystemID fileSystemID) ;;
  let refused := match snd exportResp with
                 | Some err => negb (Contains (Error err) "EXPORT_NOT_FOUND")
                 | None => false
                 end in
  if refused then Ret (snd exportResp)
  else
    e <- delete_exports (fst exportResp) ;;
    match e with
    | Some err => Ret (Some err)
    | None =>
        m <- iboxAPI (DeleteMetadata fileSystemID) ;;
        match m with
        | Err err => if Contains (Error err) "METADATA_IS_NOT_SUPPORTED_FOR_ENTITY"
                     then iboxAPI (DeleteFileSystem fileSystemID)
                     else Ret (Some err)
        | Ok _ => iboxAPI (DeleteFileSystem fileSystemID)
        end
    end.

Definition TOBEDELETED : string := "host.k8s.to_be_deleted".

(** [DeleteParentFileSystem] climbs as long as it finds tagged ancestors without
    children; [fuel] bounds the climb. *)
Fixpoint DeleteParentFileSystem (fuel : nat) (fileSystemID : Z) : prog call (option error) :=
  match fuel with
  | O => NoFuel
  | S fuel =>
      metadataList <- iboxAPI (GetMetadata fileSystemID) ;;
      match snd metadataList with
      | Some err => Ret (Some err)
      | None =>
          let toBeDeleted := existsb (fun m => String.eqb (GetMetadataResult_Key m) TOBEDELETED) (fst metadataList) in
          childFileSystems <- iboxAPI (GetFileSystemsByParentID fileSystemID) ;;
          match snd childFileSystems with
          | Some err => Ret (Some err)
          | None =>
              if bool_decide (fst childFileSystems = []) && toBeDeleted then
                f <- iboxAPI (GetFileSystemByID fileSystemID) ;;
                match f with
                | Err err => Ret (Some err)
                | Ok fileSystem =>
                    d <- DeleteFileSystemComplete fileSystemID ;;
                    match d with
                    | Some err => Ret (Some err)
                    | None =>
                        if (FileSystem_ParentID fileSystem =? 0)%Z then Ret None
                        else DeleteParentFileSystem fuel (FileSystem_ParentID fileSystem)
                    end
                end
              else Ret None
          end
      end
  end.
