(* ===== verification/Nfs.v ===== *)
(** Package [storage/nfs]: export permissions ([nfspermissions.go]) and the
    controller service of NFS file systems ([nfscontroller.go]). A method of
    [*NFSstorage] takes the object and returns it updated. *)
From stdpp Require Import base strings list gmap.
From S2P Require Import Prelude GoLib Regexp IboxTypes Csi Helper StorageCommon Json NfsApi.
From Stdlib Require Import ZArith Lia Ascii.

Local Open Scope string_scope.
Local Open Scope list_scope.

(** ** nfspermissions.go *)

Definition NFSExportPermNoRootSquash : string := "no_root_squash".
Definition NFSExportPermClient : string := "client".
Definition NFSExportPermAccess : string := "access".

(** A string value of [no_root_squash] becomes a boolean; one that does not
    parse becomes true. *)
Definition fix_no_root_squash (pass : gmap string json) : gmap string json :=
  match pass !! NFSExportPermNoRootSquash with
  | Some (JStr s) =>
      <[NFSExportPermNoRootSquash := JBool (match ParseBool s with Ok b => b | Err _ => true end)]> pass
  | _ => pass
  end.
Definition getPermissionMaps (permission : string) : res (list (gmap string json)) :=
  let permissionFixed := ReplaceByte permission squote dquote in
  match Unmarshal_maps permissionFixed with
  | Err err => Err (EWrap ("unmarshal error permission: " +:+ permission +:+ " permissionFixed: " +:+ permissionFixed
                      +:+ " perms: " +:+ StorageClassNFSExportPermissions +:+ " error: ") err "")
  | Ok permissionsMapArray => Ok (map fix_no_root_squash permissionsMapArray)
  end.

Definition ValidateNFSExportPermissions (scParameters : gmap string string) : option error :=
  if String.eqb scParameters.[StorageClassNFSExportPermissions] "" then None
  else match getPermissionMaps scParameters.[StorageClassNFSExportPermissions] with
       | Err err => Some err
       | Ok permissionsMapArray =>
           if negb (String.eqb scParameters.[StorageClassUID] "") || negb (String.eqb scParameters.[StorageClassGID] "")
              || negb (String.eqb scParameters.[StorageClassUNIXPermissions] "")
           then match permissionsMapArray with
                | first :: _ =>
                    match first !! NFSExportPermNoRootSquash with
                    | Some (JBool false) =>
                        Some (EText "error: uid, gid, or unix_permissions were set, but no_root_squash is false, this is not valid, no_root_squash is required to be true for uid,gid,unix_permissions to be applied")
                    | _ => None
                    end
                | [] => None
                end
           else None
       end.

(** ** The service object *)

Record NFSstorage := MkNFSstorage {
  UniqueID : Z;
  StorageClassParameters : gmap string string;
  PVName : string;
  Capacity : Z;
  FileSystemID : Z;
  ExportPath : string;
  UsePrivilegedPorts : bool;
  SnapdirVisible : bool;
  ExportID : Z;
  ExportBlock : string;
  IPAddress : string;
  CS : Commonservice
}.

Definition NewNFSstorage (capacity : Z) (cs : Commonservice) : NFSstorage :=
  {| UniqueID := 0; StorageClassParameters := ∅; PVName := ""; Capacity := capacity; FileSystemID := 0;
     ExportPath := ""; UsePrivilegedPorts := false; SnapdirVisible := false; ExportID := 0; ExportBlock := "";
     IPAddress := ""; CS := cs |}.

(** Assignments to the fields. *)
Definition set_UniqueID (v : Z) (n : NFSstorage) : NFSstorage :=
  {| UniqueID := v; StorageClassParameters := StorageClassParameters n; PVName := PVName n; Capacity := Capacity n;
     FileSystemID := FileSystemID n; ExportPath := ExportPath n; UsePrivilegedPorts := UsePrivilegedPorts n;
     SnapdirVisible := SnapdirVisible n; ExportID := ExportID n; ExportBlock := ExportBlock n;
     IPAddress := IPAddress n; CS := CS n |}.
Definition set_CS (v : Commonservice) (n : NFSstorage) : NFSstorage :=
  {| UniqueID := UniqueID n; StorageClassParameters := StorageClassParameters n; PVName := PVName n;
     Capacity := Capacity n; FileSystemID := FileSystemID n; ExportPath := ExportPath n;
     UsePrivilegedPorts := UsePrivilegedPorts n; SnapdirVisible := SnapdirVisible n; ExportID := ExportID n;
     ExportBlock := ExportBlock n; IPAddress := IPAddress n; CS := v |}.
Definition set_request (pvName : string) (params : gmap string string) (n : NFSstorage) : NFSstorage :=
  {| UniqueID := UniqueID n; StorageClassParameters := params; PVName := pvName; Capacity := Capacity n;
     FileSystemID := FileSystemID n; ExportPath := "/" +:+ pvName; UsePrivilegedPorts := UsePrivilegedPorts n;
     SnapdirVisible := SnapdirVisible n; ExportID := ExportID n; ExportBlock := ExportBlock n;
     IPAddress := IPAddress n; CS := CS n |}.
Definition set_IPAddress (v : string) (n : NFSstorage) : NFSstorage :=
  {| UniqueID := UniqueID n; StorageClassParameters := StorageClassParameters n; PVName := PVName n;
     Capacity := Capacity n; FileSystemID := FileSystemID n; ExportPath := ExportPath n;
     UsePrivilegedPorts := UsePrivilegedPorts n; SnapdirVisible := SnapdirVisible n; ExportID := ExportID n;
     ExportBlock := ExportBlock n; IPAddress := v; CS := CS n |}.
Definition set_FileSystemID (v : Z) (n : NFSstorage) : NFSstorage :=
  {| UniqueID := UniqueID n; StorageClassParameters := StorageClassParameters n; PVName := PVName n;
     Capacity := Capacity n; FileSystemID := v; ExportPath := ExportPath n;
     UsePrivilegedPorts := UsePrivilegedPorts n; SnapdirVisible := SnapdirVisible n; ExportID := ExportID n;
     ExportBlock := ExportBlock n; IPAddress := IPAddress n; CS := CS n |}.
Definition set_export (id : Z) (block : string) (n : NFSstorage) : NFSstorage :=
  {| UniqueID := UniqueID n; StorageClassParameters := StorageClassParameters n; PVName := PVName n;
     Capacity := Capacity n; FileSystemID := FileSystemID n; ExportPath := ExportPath n;
     UsePrivilegedPorts := UsePrivilegedPorts n; SnapdirVisible := SnapdirVisible n; ExportID := id;
     ExportBlock := block; IPAddress := IPAddress n; CS := CS n |}.
Definition set_StorageClassParameters (v : gmap string string) (n : NFSstorage) : NFSstorage :=
  {| UniqueID := UniqueID n; StorageClassParameters := v; PVName := PVName n;
     Capacity := Capacity n; FileSystemID := FileSystemID n; ExportPath := ExportPath n;
     UsePrivilegedPorts := UsePrivilegedPorts n; SnapdirVisible := SnapdirVisible n; ExportID := ExportID n;
     ExportBlock := ExportBlock n; IPAddress := IPAddress n; CS := CS n |}.
Definition set_SnapdirVisible (v : bool) (n : NFSstorage) : NFSstorage :=
  {| UniqueID := UniqueID n; StorageClassParameters := StorageClassParameters n; PVName := PVName n;
     Capacity := Capacity n; FileSystemID := FileSystemID n; ExportPath := ExportPath n;
     UsePrivilegedPorts := UsePrivilegedPorts n; SnapdirVisible := v; ExportID := ExportID n;
     ExportBlock := ExportBlock n; IPAddress := IPAddress n; CS := CS n |}.
Definition set_UsePrivilegedPorts (v : bool) (n : NFSstorage) : NFSstorage :=
  {| UniqueID := UniqueID n; StorageClassParameters := StorageClassParameters n; PVName := PVName n;
     Capacity := Capacity n; FileSystemID := FileSystemID n; ExportPath := ExportPath n;
     UsePrivilegedPorts := v; SnapdirVisible := SnapdirVisible n; ExportID := ExportID n;
     ExportBlock := ExportBlock n; IPAddress := IPAddress n; CS := CS n |}.

Definition set_Capacity (v : Z) (n : NFSstorage) : NFSstorage :=
  {| UniqueID := UniqueID n; StorageClassParameters := StorageClassParameters n; PVName := PVName n;
     Capacity := v; FileSystemID := FileSystemID n; ExportPath := ExportPath n;
     UsePrivilegedPorts := UsePrivilegedPorts n; SnapdirVisible := SnapdirVisible n; ExportID := ExportID n;
     ExportBlock := ExportBlock n; IPAddress := IPAddress n; CS := CS n |}.
Definition set_ExportPath (v : string) (n : NFSstorage) : NFSstorage :=
  {| UniqueID := UniqueID n; StorageClassParameters := StorageClassParameters n; PVName := PVName n;
     Capacity := Capacity n; FileSystemID := FileSystemID n; ExportPath := v;
     UsePrivilegedPorts := UsePrivilegedPorts n; SnapdirVisible := SnapdirVisible n; ExportID := ExportID n;
     ExportBlock := ExportBlock n; IPAddress := IPAddress n; CS := CS n |}.

(** ** Storage class *)

Definition nfs_required : list (string * pattern) :=
  [(StorageClassNetworkSpace, re_any_line); (StorageClassPoolName, re_letters)].
Definition nfs_optional : list (string * pattern) :=
  [(StorageClassUID, re_digits); (StorageClassGID, re_digits)].

(** An optional boolean parameter: false when it is not set. *)
Definition bool_param (s : string) : res bool := if String.eqb s "" then Ok false else ParseBool s.

Definition ValidateStorageClass (nfs : NFSstorage) (params : gmap string string) : option error * NFSstorage :=
  match ValidateRequiredOptionalSCParameters nfs_required nfs_optional params with
  | Some err => (Some (impl InvalidArgument (Error err)), nfs)
  | None =>
      match ValidateNFSExportPermissions params with
      | Some err => (Some (impl InvalidArgument (Error err)), nfs)
      | None =>
          match bool_param params.[StorageClassSnapDirVisible] with
          | Err err => (Some (impl InvalidArgument (Error err)), nfs)
          | Ok snapdirVisible =>
              let nfs := set_SnapdirVisible snapdirVisible nfs in
              match bool_param params.[StorageClassPrivPorts] with
              | Err err => (Some (impl InvalidArgument (Error err)), nfs)
              | Ok usePrivilegedPorts => (None, set_UsePrivilegedPorts usePrivilegedPorts nfs)
              end
          end
      end
  end.

(** ** Creating *)

(** [getNfsCsiResponse] writes the volume's attributes into the parameter map it
    answers as the volume context. *)
Definition getNfsCsiResponse (nfs : NFSstorage) (req : CSICreateVolumeRequest) : CreateVolumeResponse * NFSstorage :=
  let params := <["volPathd" := ExportPath nfs]> (<["exportID" := Itoa (ExportID nfs)]>
                (<["ipAddress" := IPAddress nfs]> (StorageClassParameters nfs))) in
  (Some {| CSIVolume_VolumeId := Itoa (FileSystemID nfs);
           CSIVolume_CapacityBytes := Capacity nfs;
           CSIVolume_VolumeContext := params;
           CSIVolume_ContentSource := Req_VolumeContentSource req |}, set_StorageClassParameters params nfs).

Definition createExportPath (nfs : NFSstorage) : prog call (option error * NFSstorage) :=
  match getPermissionMaps (StorageClassParameters nfs).[StorageClassNFSExportPermissions] with
  | Err err => Ret (Some (impl Internal (Error err)), nfs)
  | Ok permissionsMapArray =>
      let exportFileSystem :=
        {| CreateExportRequest_FilesystemID := FileSystemID nfs;
           CreateExportRequest_Name := "";
           CreateExportRequest_TransportProtocols := "TCP";
           CreateExportRequest_PrivilegedPort := UsePrivilegedPorts nfs;
           CreateExportRequest_ExportPath := ExportPath nfs;
           CreateExportRequest_Permissionsput := permissionsMapArray;
           CreateExportRequest_SnapdirVisible := SnapdirVisible nfs |} in
      r <- iboxAPI (CreateExport exportFileSystem) ;;
      Ret (match r with
           | Err err => (Some (impl Internal (Error err)), nfs)
           | Ok exportResp => (None, set_export (Export_ID exportResp) (Export_ExportPath exportResp) nfs)
           end)
  end.

(** The deferred reverts: they run when the named result [err] is set. *)
Definition revert_filesystem (r : option (option error * NFSstorage)) : prog call unit :=
  match r with
  | Some (Some _, nfs) =>
      if (FileSystemID nfs =? 0)%Z then Ret tt
      else iboxAPI (DeleteFileSystem (FileSystemID nfs)) ;;; Ret tt
  | _ => Ret tt
  end.
Definition revert_export (r : option (option error * NFSstorage)) : prog call unit :=
  match r with
  | Some (Some _, nfs) =>
      if (ExportID nfs =? 0)%Z then Ret tt
      else iboxAPI (DeleteExport (ExportID nfs)) ;;; Ret tt
  | _ => Ret tt
  end.

Definition CreateExportPathAndAddMetadata (nfs : NFSstorage) : prog call (option error * NFSstorage) :=
  defer
    (out <- (if String.eqb (StorageClassParameters nfs).[StorageClassNFSExportPermissions] ""
             then Ret (None, nfs) else createExportPath nfs) ;;
     match out with
     | (Some err, nfs) => Ret (Some (impl Internal (Error err)), nfs)
     | (None, nfs) =>
         defer
           (createdBy <- GetCreatedBy (CS nfs) ;;
            let metadata := <["host.k8s.pvname" := JStr (PVName nfs)]> {[ "host.created_by" := JStr createdBy ]} in
            r <- iboxAPI (PutMetadata (FileSystemID nfs) metadata) ;;
            Ret (match r with
                 | Err err => Some (impl Internal (Error err))
                 | Ok _ => None
                 end, nfs))
           revert_export
     end)
    revert_filesystem.

Definition CreateFileSystem (nfs : NFSstorage) (fileSystemName : string) : prog call (option error * NFSstorage) :=
  let poolName := (StorageClassParameters nfs).[StorageClassPoolName] in
  try pool <- iboxAPI (GetPoolByName poolName) catch err => Ret (Some (impl Internal (Error err)), nfs) ;;
  let entered := ToUpper (StorageClassParameters nfs).[StorageClassProvisionType] in
  let provtype := if String.eqb entered "" then StorageClassThinProvision else entered in
  if negb (String.eqb provtype StorageClassThinProvision) && negb (String.eqb provtype StorageClassThickProvision)
  then Ret (Some (impl Internal ("nfs - " +:+ StorageClassProvisionType +:+ " valid values are THICK or THIN, THIN is the default when not specified, entered value was ["
                    +:+ provtype +:+ "]")), nfs)
  else match DetermineSSDValue (StorageClassParameters nfs).[StorageClassSSDEnabled] pool with
       | Err err => Ret (Some (impl Internal (Error err)), nfs)
       | Ok ssdEnabled =>
           r <- iboxAPI (IboxTypes.CreateFileSystem
                  {| CreateFileSystemRequest_AtimeMode := "";
                     CreateFileSystemRequest_PoolID := PoolResult_ID pool;
                     CreateFileSystemRequest_Name := fileSystemName;
                     CreateFileSystemRequest_Provtype := provtype;
                     CreateFileSystemRequest_Size := Capacity nfs;
                     CreateFileSystemRequest_SsdEnabled := ssdEnabled |}) ;;
           match r with
           | Err err => Ret (Some (impl Internal (Error err)), nfs)
           | Ok fileSystem => Ret (None, set_FileSystemID (FileSystem_ID fileSystem) nfs)
           end
       end.

Definition CreateNFSVolume (nfs : NFSstorage) (req : CSICreateVolumeRequest)
    : prog call (res CreateVolumeResponse * NFSstorage) :=
  created <- CreateFileSystem nfs (PVName nfs) ;;
  match created with
  | (Some err, nfs) => Ret (Err (impl Internal (Error err)), nfs)
  | (None, nfs) =>
      exported <- CreateExportPathAndAddMetadata nfs ;;
      match exported with
      | (Some err, nfs) => Ret (Err (impl Internal (Error err)), nfs)
      | (None, nfs) => let '(resp, nfs) := getNfsCsiResponse nfs req in Ret (Ok resp, nfs)
      end
  end.

Definition createVolumeFromPVCSource (nfs : NFSstorage) (req : CSICreateVolumeRequest) (size : Z)
    (storagePool srcVolumeID : string) : prog call (res CreateVolumeResponse * NFSstorage) :=
  match ValidateVolumeID srcVolumeID with
  | Err err => Ret (Err (impl NotFound (Error err)), nfs)
  | Ok volproto =>
      let sourceVolumeID := VolumeProtocolConfig_VolumeID volproto in
      try srcfsys <- iboxAPI (GetFileSystemByID sourceVolumeID) catch err =>
        Ret (Err (impl NotFound (Error err)), nfs) ;;
      if negb (FileSystem_Size srcfsys =? size)%Z then
        Ret (Err (impl InvalidArgument ("nfs volumeID: " +:+ Itoa sourceVolumeID +:+ ", invalid size: "
                    +:+ Itoa (FileSystem_Size srcfsys) +:+ ", requested size: " +:+ Itoa size +:+ " ")), nfs)
      else
      try pool <- iboxAPI (GetPoolByName storagePool) catch err =>
        Ret (Err (impl InvalidArgument (Error err)), nfs) ;;
      if negb (PoolResult_ID pool =? FileSystem_PoolID srcfsys)%Z then
        Ret (Err (impl InvalidArgument ("nfs source storagepool id differs from requested: " +:+ storagePool)), nfs)
      else
      try newSnapshot <- iboxAPI (CreateFileSystemSnapshot
          {| FileSystemSnapshot_LockExpiresAt := 0;
             FileSystemSnapshot_ParentID := sourceVolumeID;
             FileSystemSnapshot_SnapshotName := Req_Name req;
             FileSystemSnapshot_WriteProtected := false;
             FileSystemSnapshot_SSDEnabled := false |}) catch err =>
        Ret (Err (impl Internal (Error err)), nfs) ;;
      let nfs := set_FileSystemID (FileSystemSnapshotResponse_SnapshotID newSnapshot) nfs in
      exported <- CreateExportPathAndAddMetadata nfs ;;
      match exported with
      | (Some err, nfs) => Ret (Err (impl Internal (Error err)), nfs)
      | (None, nfs) => let '(resp, nfs) := getNfsCsiResponse nfs req in Ret (Ok resp, nfs)
      end
  end.

(** The part of [CreateVolume] behind the look-up of the name: the volume is new. *)
Definition create_new (nfs : NFSstorage) (req : CSICreateVolumeRequest)
    : prog call (res CreateVolumeResponse * NFSstorage) :=
  let pool := (Req_Parameters req).[StorageClassPoolName] in
  out <- (match Req_VolumeContentSource req with
          | Some (SourceSnapshot id) => createVolumeFromPVCSource nfs req (Capacity nfs) pool id
          | Some (SourceVolume id) => createVolumeFromPVCSource nfs req (Capacity nfs) pool id
          | _ => CreateNFSVolume nfs req
          end) ;;
  Ret (map_err (fun err => impl Internal (Error err)) (fst out), snd out).

(** [CreateVolume]. The struct printed at the end of the already-exists message
    is left out. *)
Definition CreateVolume (nfs : NFSstorage) (req : CSICreateVolumeRequest)
    : prog call (res CreateVolumeResponse * NFSstorage) :=
  let params := Req_Parameters req in
  let pvName := Req_Name req in
  GetHostInfo (Req_Secrets req) ;;;
  if existsb GetBlock (default [] (Req_VolumeCapabilities req))
  then Ret (Err (impl InvalidArgument "block not allowed for NFS"), nfs)
  else
  let nfs := set_request pvName params nfs in
  try ipAddress <- GetNetworkSpaceIP (Trim params.[StorageClassNetworkSpace] " ") catch err =>
    Ret (Err (impl InvalidArgument (Error err)), nfs) ;;
  let nfs := set_IPAddress ipAddress nfs in
  found <- iboxAPI (GetFileSystemByName pvName) ;;
  match found with
  | Err err => if is_ErrNotFound err then create_new nfs req
               else Ret (Err (impl Internal (Error err)), nfs)
  | Ok volume =>
      let nfs := set_FileSystemID (FileSystem_ID volume) nfs in
      exportArray <- iboxAPI (GetExportsByFileSystemID (FileSystemID nfs)) ;;
      match snd exportArray with
      | Some err => Ret (Err (impl Internal (Error err)), nfs)
      | None =>
          if negb (Capacity nfs =? FileSystem_Size volume)%Z then
            Ret (Err (impl AlreadyExists ("nfs - error nfs.capacity not equal volume.Size capacity: "
                        +:+ Itoa (Capacity nfs) +:+ " volume: ")), nfs)
          else
            let nfs := match fst exportArray with
                       | export :: _ => set_export (Export_ID export) (Export_ExportPath export) nfs
                       | [] => nfs
                       end in
            let '(resp, nfs) := getNfsCsiResponse nfs req in Ret (Ok resp, nfs)
      end
  end.

(** ** Deleting *)

Definition DeleteNFSVolume (fuel : nat) (nfs : NFSstorage) : prog call (option error) :=
  let id := UniqueID nfs in
  f <- iboxAPI (GetFileSystemByID id) ;;
  match f with
  | Err err => Ret (Some (impl Internal (Error err)))
  | Ok fileSystem =>
      if String.eqb (FileSystem_LockState fileSystem) LockedState then
        until <- osAPI (LocalTimeStringMilli (FileSystem_LockExpiresAt fileSystem)) ;;
        Ret (Some (impl Aborted ("snapshot " +:+ Itoa id +:+ " is locked and can't be deleted till it expires at " +:+ until)))
      else
      fileSystems <- iboxAPI (GetFileSystemsByParentID id) ;;
      match snd fileSystems, fst fileSystems with
      | Some err, _ => Ret (Some (impl Internal (Error err)))
      | None, _ :: _ =>
          r <- iboxAPI (PutMetadata id ∅) ;;
          Ret (match r with Err err => Some (impl Internal (Error err)) | Ok _ => None end)
      | None, [] =>
          d <- DeleteFileSystemComplete id ;;
          match d with
          | Some err => Ret (Some (impl Internal (Error err)))
          | None =>
              if (FileSystem_ParentID fileSystem =? 0)%Z then Ret None
              else p <- DeleteParentFileSystem fuel (FileSystem_ParentID fileSystem) ;;
                   Ret (match p with Some err => Some (impl Internal (Error err)) | None => None end)
          end
      end
  end.

(** A file system the array does not know counts as deleted. *)
Definition forgive_not_found (e : option error) : option error :=
  match e with
  | Some err => if Contains (Error err) "FILESYSTEM_NOT_FOUND" then None else Some err
  | None => None
  end.

Definition DeleteVolume (fuel : nat) (nfs : NFSstorage) : prog call (option error) :=
  let nfs := set_UniqueID (VolumeProtocolConfig_VolumeID (VolProto (CS nfs))) nfs in
  e <- DeleteNFSVolume fuel nfs ;;
  Ret (forgive_not_found e).

Definition DeleteSnapshot (fuel : nat) (nfs : NFSstorage) (snapshotId : string) : prog call (option error) :=
  match Atoi snapshotId with
  | Err err => Ret (Some (impl Aborted (Error err)))
  | Ok snapshotID =>
      e <- DeleteNFSVolume fuel (set_UniqueID snapshotID nfs) ;;
      Ret (forgive_not_found e)
  end.

(** ** Publishing *)

(** [exportPermissionMapArray[0]["access"].(string)]: another kind of value
    panics; without permission maps the access stays empty. *)
Definition first_access (maps : list (gmap string json)) : option string :=
  match maps with
  | [] => Some ""
  | first :: _ => match first !! NFSExportPermAccess with Some (JStr s) => Some s | _ => None end
  end.

Definition ControllerPublishVolume (req : CSIPublishRequest) : prog call (option error) :=
  let ctx := GetVolumeContext req in
  GetHostInfo (Pub_Secrets req) ;;;
  if String.eqb (Pub_NodeId req) "" then Ret (Some (impl InvalidArgument "node ID is required"))
  else match IsValidAccessModeNfs req with
  | Err err => Ret (Some (impl Internal (Error err)))
  | Ok _ =>
      if String.eqb ctx.[StorageClassNFSExportPermissions] "" then Ret None
      else match getPermissionMaps ctx.[StorageClassNFSExportPermissions] with
      | Err err => Ret (Some (impl Internal (Error err)))
      | Ok maps =>
          match first_access maps with
          | None => Panic
          | Some access =>
              match Split (Pub_NodeId req) "$$" with
              | [_; nodeIP] =>
                  let exportid := Atoi_value ctx.["exportID"] in
                  r <- AddNodeInExport exportid access true nodeIP ;;
                  Ret (match r with Err err => Some (impl Internal (Error err)) | Ok _ => None end)
              | parts => Ret (Some (impl Internal ("node ID not found [" +:+ join_with " " parts +:+ "]")))
              end
          end
      end
  end.

Definition ControllerUnpublishVolume (nfs : NFSstorage) : prog call (option error) :=
  let vp := VolProto (CS nfs) in
  e <- DeleteExportRule (VolumeProtocolConfig_VolumeID vp) (VolumeProtocolConfig_NodeID vp) ;;
  Ret (match e with Some err => Some (impl Internal (Error err)) | None => None end).

(** ** Snapshots and expansion *)

Definition CreateSnapshot (nfs : NFSstorage) (req : CSISnapshotRequest) : prog call (res CSISnapshot) :=
  let vp := VolProto (CS nfs) in
  let sourceFilesystemID := VolumeProtocolConfig_VolumeID vp in
  found <- iboxAPI (GetFileSystemByName (Snap_Name req)) ;;
  match found with
  | Ok snap =>
      if (FileSystem_ParentID snap =? sourceFilesystemID)%Z then
        now <- osAPI Now ;;
        Ret (Ok {| CSISnapshot_SizeBytes := FileSystem_Size snap;
                   CSISnapshot_SnapshotId := Itoa (FileSystem_ID snap) +:+ "$$" +:+ VolumeProtocolConfig_StorageType vp;
                   CSISnapshot_SourceVolumeId := Snap_SourceVolumeId req;
                   CSISnapshot_CreationTime := now;
                   CSISnapshot_ReadyToUse := true |})
      else Ret (Err (impl AlreadyExists "CreateSnapshot (nfs) - snapshot with already existing name and different source volume ID"))
  | Err err =>
      if negb (is_ErrNotFound err) then Ret (Err (impl Internal (Error err)))
      else
      try parentFilesystem <- iboxAPI (GetFileSystemByID sourceFilesystemID) catch err =>
        Ret (Err (impl AlreadyExists (Error err))) ;;
      try lockExpiresAt <- lockExpiry (Snap_Parameters req).[LockExpiresAtParameter]
          (fun e => impl AlreadyExists (Error e)) (fun e => impl Internal (Error e)) catch err => Ret (Err err) ;;
      try resp <- iboxAPI (CreateFileSystemSnapshot
          {| FileSystemSnapshot_LockExpiresAt := lockExpiresAt;
             FileSystemSnapshot_ParentID := sourceFilesystemID;
             FileSystemSnapshot_SnapshotName := Snap_Name req;
             FileSystemSnapshot_WriteProtected := true;
             FileSystemSnapshot_SSDEnabled := FileSystem_SSDEnabled parentFilesystem |}) catch err =>
        Ret (Err (impl Internal (Error err))) ;;
      now <- osAPI Now ;;
      Ret (Ok {| CSISnapshot_SizeBytes := FileSystemSnapshotResponse_Size resp;
                 CSISnapshot_SnapshotId := Itoa (FileSystemSnapshotResponse_SnapshotID resp) +:+ "$$"
                                           +:+ VolumeProtocolConfig_StorageType vp;
                 CSISnapshot_SourceVolumeId := Snap_SourceVolumeId req;
                 CSISnapshot_CreationTime := now;
                 CSISnapshot_ReadyToUse := true |})
  end.

Definition ControllerExpandVolume (nfs : NFSstorage) : prog call (res CSIExpandResponse) :=
  let volumeID := VolumeProtocolConfig_VolumeID (VolProto (CS nfs)) in
  try _fs <- iboxAPI (UpdateFileSystem volumeID (FileSystem_of 0 "" (Capacity nfs) 0 0 "")) catch err =>
    Ret (Err (impl Internal (Error err))) ;;
  Ret (Ok (MkCSIExpandResponse (Capacity nfs) false)).
