(* ===== verification/NfsProofs.v ===== *)
(** Correctness of the NFS file-system service: export rules, deletion, creation
    with its reverts. *)
From stdpp Require Import base strings list gmap.
From S2P Require Import Prelude GoLib Regexp IboxTypes Traces Csi Helper StorageCommon Json NfsApi Nfs.
From Stdlib Require Import ZArith Lia Ascii.

Local Open Scope string_scope.
Local Open Scope list_scope.

(** ** What a trace did to file systems and exports *)

(** File systems brought into being, by id: created ones and snapshots. *)
Definition fs_creation {X} (c : call X) : X -> option Z :=
  match c with
  | Ibox i => match i with
              | IboxTypes.CreateFileSystem _ => fun r => match r with Ok f => Some (FileSystem_ID f) | Err _ => None end
              | CreateFileSystemSnapshot _ =>
                  fun r => match r with Ok f => Some (FileSystemSnapshotResponse_SnapshotID f) | Err _ => None end
              | _ => fun _ => None
              end
  | _ => fun _ => None
  end.
Definition fs_created (t : trace) : list Z := observe (@fs_creation) t.

Definition export_creation {X} (c : call X) : X -> option Z :=
  match c with
  | Ibox i => match i with
              | CreateExport _ => fun r => match r with Ok e => Some (Export_ID e) | Err _ => None end
              | _ => fun _ => None
              end
  | _ => fun _ => None
  end.
Definition exports_created (t : trace) : list Z := observe (@export_creation) t.

(** Deletions asked for, in order: exports on the left, file systems on the right. *)
Definition deletion {X} (c : call X) : X -> option (Z + Z) :=
  match c with
  | Ibox i => match i with
              | DeleteExport e => fun _ => Some (inl e)
              | DeleteFileSystem f => fun _ => Some (inr f)
              | _ => fun _ => None
              end
  | _ => fun _ => None
  end.
Definition deletions (t : trace) : list (Z + Z) := observe (@deletion) t.

Lemma fs_created_app t t' : fs_created (t ++ t') = fs_created t ++ fs_created t'.
Proof. apply observe_app. Qed.
Lemma exports_created_app t t' : exports_created (t ++ t') = exports_created t ++ exports_created t'.
Proof. apply observe_app. Qed.
Lemma deletions_app t t' : deletions (t ++ t') = deletions t ++ deletions t'.
Proof. apply observe_app. Qed.
#[local] Hint Rewrite fs_created_app exports_created_app deletions_app : csi_rw.

(** ** Creating with reverts *)

Definition with_export (nfs : NFSstorage) : bool :=
  negb (String.eqb (StorageClassParameters nfs).[StorageClassNFSExportPermissions] "").

Lemma export_and_tag_runs nfs t o :
  ExportID nfs = 0%Z ->
  runs (CreateExportPathAndAddMetadata nfs) t o ->
  fs_created t = [] /\
  match o with
  | Done (None, nfs') =>
      deletions t = [] /\ FileSystemID nfs' = FileSystemID nfs /\
      exports_created t = (if with_export nfs then [ExportID nfs'] else []) /\
      (exists m r, Evt (Ibox (PutMetadata (FileSystemID nfs) m)) (Ok r) ∈ t /\
                   m !! "host.k8s.pvname" = Some (JStr (PVName nfs)))
  | Done (Some e, nfs') =>
      (exists c m, e = EImpl c m) /\
      deletions t = map inl (filter (fun id => id <> 0%Z) (exports_created t))
                    ++ (if (FileSystemID nfs =? 0)%Z then [] else [inr (FileSystemID nfs)])
  | _ => False
  end.
Proof.
  intros H0. revert t o. wp_start.
  unfold CreateExportPathAndAddMetadata, createExportPath, GetCreatedBy, getClusterVersion, revert_export, revert_filesystem. wp_run.
  all: wp_leaf; unfold with_export; cbn [FileSystemID ExportID set_export] in *.
  all: repeat match goal with
       | H : (_ =? _)%string = _ |- _ => rewrite H in *; clear H
       | H : (_ =? _)%Z = true |- _ => try rewrite H; apply Z.eqb_eq in H
       | H : (_ =? _)%Z = false |- _ => try rewrite H; apply Z.eqb_neq in H
       end; try done.
  all: split; [reflexivity|].
  all: lazymatch goal with
       | |- _ /\ _ /\ _ => do 3 (split; [reflexivity|]); eexists _, _; split; [in_trace|by rewrite lookup_insert_eq]
       | _ => split; [by eexists _, _|]; cbn; try case_decide; try done; congruence
       end.
Qed.

(** Exporting a new file system and tagging it either succeeds, deletes
    nothing and records the export that was created, or fails and reverts: the
    export created on the way is deleted first, then the file system itself. *)
Theorem CreateExportPathAndAddMetadata_reverts nfs t o :
  ExportID nfs = 0%Z ->
  runs (CreateExportPathAndAddMetadata nfs) t o ->
  fs_created t = [] /\
  match o with
  | Done (None, nfs') =>
      deletions t = [] /\ FileSystemID nfs' = FileSystemID nfs /\
      exports_created t = (if with_export nfs then [ExportID nfs'] else []) /\
      (exists m r, Evt (Ibox (PutMetadata (FileSystemID nfs) m)) (Ok r) ∈ t /\
                   m !! "host.k8s.pvname" = Some (JStr (PVName nfs)))
  | Done (Some e, nfs') =>
      (exists c m, e = EImpl c m) /\
      deletions t = map inl (filter (fun id => id <> 0%Z) (exports_created t))
                    ++ (if (FileSystemID nfs =? 0)%Z then [] else [inr (FileSystemID nfs)])
  | _ => False
  end.
Proof. apply export_and_tag_runs. Qed.

(** What a run that had to make a new volume leaves behind: on success one new
    file system, which the answer names; on failure a deletion was asked for
    everything that was created, exports first. *)
Definition accounted (cap : Z) (t : trace) (o : outcome (res CreateVolumeResponse * NFSstorage)) : Prop :=
  match o with
  | Done (Ok (Some v), _) =>
      deletions t = [] /\ CSIVolume_CapacityBytes v = cap /\
      exists id, fs_created t = [id] /\ CSIVolume_VolumeId v = Itoa id
  | Done (Err e, _) =>
      (exists c m, e = EImpl c m) /\
      deletions t = map inl (filter (fun id => id <> 0%Z) (exports_created t))
                    ++ map inr (filter (fun id => id <> 0%Z) (fs_created t))
  | _ => False
  end.

Lemma filter_nonzero_one (id : Z) :
  map (@inr Z Z) (filter (fun id => id <> 0%Z) [id]) = if (id =? 0)%Z then [] else [inr id].
Proof. cbn. destruct (Z.eqb_spec id 0); case_decide; done. Qed.

Lemma export_and_tag_capacity nfs t r nfs' :
  runs (CreateExportPathAndAddMetadata nfs) t (Done (r, nfs')) -> Capacity nfs' = Capacity nfs.
Proof.
  revert t. enough (H : forall t o, runs (CreateExportPathAndAddMetadata nfs) t o ->
    match o with Done (_, nfs') => Capacity nfs' = Capacity nfs | _ => True end) by (intros t Ht; exact (H _ _ Ht)).
  wp_start. unfold CreateExportPathAndAddMetadata, createExportPath, GetCreatedBy, getClusterVersion, revert_export, revert_filesystem.
  wp_run. all: by wp_leaf.
Qed.

(** The tail of both ways to make a volume: the calls before it created the
    file system [id] and nothing else. *)
Lemma accounted_tail nfs req pre id :
  fs_created pre = [id] -> exports_created pre = [] -> deletions pre = [] ->
  ExportID nfs = 0%Z -> FileSystemID nfs = id ->
  wp (exported <- CreateExportPathAndAddMetadata nfs ;;
      match exported with
      | (Some err, nfs) => Ret (Err (impl Internal (Error err)), nfs)
      | (None, nfs) => let '(resp, nfs) := getNfsCsiResponse nfs req in Ret (Ok resp, nfs)
      end) (fun t o => accounted (Capacity nfs) (pre ++ t) o).
Proof.
  intros Hf He Hd H0 <-.
  apply (wp_call _ _ (fun t o => runs (CreateExportPathAndAddMetadata nfs) t o)); [done|].
  intros t o Ht. pose proof (export_and_tag_runs _ _ _ H0 Ht) as [Hfs Ho].
  destruct o as [[[e|] nfs']| |]; [..|destruct Ho|destruct Ho]; cbn; rewrite app_nil_r.
  all: rewrite deletions_app, ?exports_created_app, fs_created_app, Hf, Hfs, Hd, ?He.
  - destruct Ho as [_ Ho]. split; [by eexists _, _|]. cbn [app]. by rewrite Ho, filter_nonzero_one.
  - destruct Ho as (Hd' & Hid & _). rewrite Hd'. split; [done|].
    split; [by eapply export_and_tag_capacity|]. rewrite <- Hid. eauto.
Qed.

Lemma createVolumeFromPVCSource_accounted nfs req size pool src t o :
  ExportID nfs = 0%Z -> runs (createVolumeFromPVCSource nfs req size pool src) t o ->
  accounted (Capacity nfs) t o.
Proof.
  intros H0. revert t o. wp_start. unfold createVolumeFromPVCSource.
  wp_run.
  all: lazymatch goal with
       | |- wp _ _ => subst Post; eapply (accounted_tail (set_FileSystemID _ nfs) req [_; _; _]); reflexivity || exact H0
       | _ => wp_leaf; split; [by eexists _, _|reflexivity]
       end.
Qed.

Lemma CreateNFSVolume_accounted nfs req t o :
  ExportID nfs = 0%Z -> runs (CreateNFSVolume nfs req) t o -> accounted (Capacity nfs) t o.
Proof.
  intros H0. revert t o. wp_start. unfold CreateNFSVolume, CreateFileSystem. wp_run.
  all: lazymatch goal with
       | |- wp _ _ => subst Post; eapply (accounted_tail (set_FileSystemID _ nfs) req [_; _]); reflexivity || exact H0
       | _ => wp_leaf; split; [by eexists _, _|reflexivity]
       end.
Qed.

Lemma create_new_accounted nfs req t o :
  ExportID nfs = 0%Z -> runs (create_new nfs req) t o -> accounted (Capacity nfs) t o.
Proof.
  intros H0. revert t o. wp_start. unfold create_new.
  apply (wp_call _ _ (accounted (Capacity nfs))).
  { intros t o. destruct (Req_VolumeContentSource req) as [[]|];
      eauto using createVolumeFromPVCSource_accounted, CreateNFSVolume_accounted. }
  intros t [[[[v|]|e] nfs']| |] Ht; try done; cbn; wp_leaf; rewrite app_nil_r.
  - exact Ht.
  - destruct Ht as [_ Ht]. split; [by eexists _, _|exact Ht].
Qed.

(** C2: creating an NFS volume never leaves anything behind and never deletes
    anything else. On success either the array already knew a file system of the
    requested name and capacity, which is answered and nothing was made, or
    exactly one file system was made, which is answered, and nothing was deleted.
    On failure the deletions asked for are exactly the exports and then the file
    system this run made, and the error carries a status code. No run panics. *)
Theorem CreateVolume_no_leak cap cs req t o :
  runs (CreateVolume (NewNFSstorage cap cs) req) t o ->
  accounted cap t o \/
  (fs_created t = [] /\ deletions t = [] /\
   exists v nfs f, o = Done (Ok (Some v), nfs) /\
     Evt (Ibox (GetFileSystemByName (Req_Name req))) (Ok f) ∈ t /\
     FileSystem_Size f = cap /\ CSIVolume_VolumeId v = Itoa (FileSystem_ID f) /\ CSIVolume_CapacityBytes v = cap).
Proof.
  revert t o. wp_start. unfold CreateVolume, GetHostInfo, GetNetworkSpaceIP. wp_run.
  all: try (wp_leaf; left; split; [by eexists _, _|reflexivity]).
  all: lazymatch goal with
       | H : getNfsCsiResponse _ _ = _ |- _ =>
           injection H as <- <-; wp_leaf; right; do 2 (split; [reflexivity|]);
           eexists _, _, _; split; [reflexivity|]; split; [in_trace|]; repeat split;
           symmetry; apply Z.eqb_eq, negb_false_iff; eassumption
       | |- wp _ _ => apply runs_wp; intros t o Ht; wp_leaf; left; by eapply create_new_accounted in Ht
       end.
Qed.

(** ** Deleting *)

(** A file system may lose its exports, its metadata and itself when [ok] holds
    of the calls before; an export goes only as one listed for such a file
    system; metadata is written where [tag] allows it. Nothing else changes. *)
Definition fs_guard (ok tag : trace -> Z -> Prop) (before : trace) (e : evt call) : Prop :=
  match e with
  | Evt (Ibox i) _ =>
      match i with
      | DeleteFileSystem fs => ok before fs
      | DeleteMetadata fs => ok before fs
      | DeleteExport x =>
          exists fs es err, Evt (Ibox (GetExportsByFileSystemID fs)) (es, err) ∈ before /\
            x ∈ map Export_ID es /\ ok before fs
      | PutMetadata fs _ => tag before fs
      | i => changes i = false
      end
  | _ => True
  end.

Lemma fs_guard_mono (ok ok' tag tag' : trace -> Z -> Prop) pre t e :
  (forall t fs, ok t fs -> ok' (pre ++ t) fs) -> (forall t fs, tag t fs -> tag' (pre ++ t) fs) ->
  fs_guard ok tag t e -> fs_guard ok' tag' (pre ++ t) e.
Proof.
  intros H H'. destruct e as [X c x]; destruct c as [X' i| |]; try done. destruct i; cbn; eauto.
  intros (fs & es & err & H1 & H2 & H3). exists fs, es, err. rewrite elem_of_app. eauto.
Qed.

(** Extending a guarded trace of a called program at a place where [ok'] follows. *)
Lemma guarded_call (ok ok' tag tag' : trace -> Z -> Prop) pre t :
  guarded (fs_guard ok tag) t -> (forall t fs, ok t fs -> ok' (pre ++ t) fs) ->
  (forall t fs, tag t fs -> tag' (pre ++ t) fs) ->
  guarded (fun t1 => fs_guard ok' tag' (pre ++ t1)) t.
Proof. intros Ht H H'. eapply guarded_mono, Ht. intros t1 e. by apply fs_guard_mono. Qed.

Definition no_tag (_ : trace) (_ : Z) : Prop := False.
(** The requested file system is tagged only when children of it were listed. *)
Definition has_children (id : Z) (before : trace) (fs : Z) : Prop :=
  fs = id /\ exists f l, Evt (Ibox (GetFileSystemsByParentID id)) (f :: l, None) ∈ before.
Lemma has_children_app id pre t fs : has_children id t fs -> has_children id (pre ++ t) fs.
Proof. unfold has_children. set_solver. Qed.

Definition is_fs (id : Z) (_ : trace) (fs : Z) : Prop := fs = id.

Lemma delete_exports_runs fs es pre err t o :
  Evt (Ibox (GetExportsByFileSystemID fs)) (es, err) ∈ pre ->
  forall es', (forall e, e ∈ es' -> e ∈ es) ->
  runs (delete_exports es') t o ->
  guarded (fun t1 => fs_guard (is_fs fs) no_tag (pre ++ t1)) t /\ exists r, o = Done r.
Proof.
  intros Hpre es'. revert t o pre Hpre. induction es' as [|e es' IH]; intros t o pre Hpre Hin; cbn.
  { intros [-> ->]. split; [apply guarded_nil|eauto]. }
  assert (He : fs_guard (is_fs fs) no_tag pre (Evt (Ibox (DeleteExport (Export_ID e))) (Err ErrNotFound))).
  { exists fs, es, err. split; [done|]. split; [|done].
    apply list_elem_of_In, in_map, list_elem_of_In, Hin. by left. }
  intros (x & t' & -> & Ht). rewrite guarded_cons, app_nil_r.
  assert (Hnext : runs (delete_exports es') t' o ->
    guarded (fun t1 => fs_guard (is_fs fs) no_tag (pre ++ Evt (Ibox (DeleteExport (Export_ID e))) x :: t1)) t' /\
    exists r, o = Done r).
  { intros Ht'. destruct (IH t' o (pre ++ [Evt (Ibox (DeleteExport (Export_ID e))) x])) as [Hg Hr];
      [rewrite elem_of_app; by left|intros; apply Hin; by right|done|].
    split; [|done]. eapply guarded_mono, Hg. intros t1 ev. cbn beta. by rewrite <- app_assoc. }
  destruct x as [x|x]; cbn in Ht; [|destruct (is_ErrNotFound x)].
  - destruct (Hnext Ht). done.
  - destruct Ht as [-> ->]. split; [split; [done|apply guarded_nil]|eauto].
  - destruct (Hnext Ht). done.
Qed.

Lemma DeleteFileSystemComplete_runs fs t o :
  runs (DeleteFileSystemComplete fs) t o ->
  guarded (fs_guard (is_fs fs) no_tag) t /\
  exists r, o = Done r /\ (r = None -> Evt (Ibox (DeleteFileSystem fs)) None ∈ t).
Proof.
  revert t o. wp_start. unfold DeleteFileSystemComplete. wp_reduce. intros [es err]. cbn [fst snd].
  destruct (match err with Some _ => _ | None => _ end) eqn:Hrefused.
  { wp_reduce. wp_leaf. split; [guard_event|]. eexists. split; [done|]. by destruct err. }
  apply (wp_call _ _ (fun t o => guarded (fun t1 => fs_guard (is_fs fs) no_tag
    ([Evt (Ibox (GetExportsByFileSystemID fs)) (es, err)] ++ t1)) t /\ exists r, o = Done r)).
  { intros t o. apply (delete_exports_runs fs es _ err); [by left|done]. }
  intros t _ [Hg [[e|] ->]]; cbn [wp].
  { wp_leaf. rewrite app_nil_r. split; [|by eexists].
    rewrite guarded_cons. split; [done|exact Hg]. }
  wp_run; wp_leaf; (split; [|eexists; split; [reflexivity|]]).
  all: try (intros ->; rewrite elem_of_cons, elem_of_app, !elem_of_cons; tauto).
  all: try done.
  all: rewrite guarded_cons, guarded_app; split; [done|]; split; [exact Hg|]; guard_event; reflexivity.
Qed.

Definition tagged_fs (before : trace) (fs : Z) : Prop :=
  exists ms m, Evt (Ibox (GetMetadata fs)) (ms, None) ∈ before /\ m ∈ ms /\ GetMetadataResult_Key m = TOBEDELETED.

(** What must have been seen before the file system [fs] is touched, when the
    request names [id]. *)
Definition fs_delete_justified (id : Z) (before : trace) (fs : Z) : Prop :=
  Evt (Ibox (GetFileSystemsByParentID fs)) ([], None) ∈ before /\
  exists f, Evt (Ibox (GetFileSystemByID fs)) (Ok f) ∈ before /\
    (tagged_fs before fs \/ (fs = id /\ FileSystem_LockState f <> LockedState)).

Lemma fs_delete_justified_app id pre t fs :
  fs_delete_justified id t fs -> fs_delete_justified id (pre ++ t) fs.
Proof. unfold fs_delete_justified, tagged_fs. set_solver. Qed.
Lemma fs_delete_justified_prefix id pre t fs :
  fs_delete_justified id pre fs -> fs_delete_justified id (pre ++ t) fs.
Proof. unfold fs_delete_justified, tagged_fs. set_solver. Qed.

Lemma existsb_tag k ms :
  existsb (fun m => GetMetadataResult_Key m =? k)%string ms = true ->
  exists m, m ∈ ms /\ GetMetadataResult_Key m = k.
Proof.
  intros (m & Hin & Hk)%existsb_exists. exists m.
  rewrite list_elem_of_In. split; [done|by apply String.eqb_eq].
Qed.

(** Using a complete deletion behind a prefix that justifies it. *)
Lemma complete_behind id fs pre t :
  fs_delete_justified id pre fs -> guarded (fs_guard (is_fs fs) no_tag) t ->
  guarded (fun t1 => fs_guard (fs_delete_justified id) (has_children id) (pre ++ t1)) t.
Proof.
  intros Hpre Ht. apply (guarded_call (is_fs fs) (fs_delete_justified id) no_tag (has_children id) pre t Ht); [|done].
  intros t' fs' ->. by apply fs_delete_justified_prefix.
Qed.

(** A guard relative to a prefix, stated of an explicit list of calls. *)
Lemma guarded_behind P (pre : trace) t :
  guarded P pre -> guarded (fun t1 => P (pre ++ t1)) t -> guarded P (pre ++ t).
Proof. intros. by apply guarded_app. Qed.

Lemma DeleteParentFileSystem_guarded fuel id fs t o :
  runs (DeleteParentFileSystem fuel fs) t o -> guarded (fs_guard (fs_delete_justified id) (has_children id)) t.
Proof.
  revert fs t o. induction fuel as [|fuel IH]; intros fs.
  { intros t o [-> _]. apply guarded_nil. }
  wp_start. cbn [DeleteParentFileSystem]. wp_run.
  all: try solve [wp_leaf; guard_event].
  match goal with H : _ && _ = true |- _ =>
    apply andb_true_iff in H as [->%bool_decide_eq_true (m & Hm & Hk)%existsb_tag] end.
  match goal with |- wp _ (fun t o => _ (?e1 :: ?e2 :: ?e3 :: t) o) => set (pre := [e1; e2; e3]) end.
  assert (Hpre : fs_delete_justified id pre fs).
  { split; [in_trace|]. eexists. split; [in_trace|]. left. eexists _, m. split; [in_trace|done]. }
  assert (Hg : guarded (fs_guard (fs_delete_justified id) (has_children id)) pre) by (subst pre; guard_event).
  change (wp (d <- DeleteFileSystemComplete fs ;;
    match d with
    | Some err => Ret (Some err)
    | None => if (FileSystem_ParentID a =? 0)%Z then Ret None else DeleteParentFileSystem fuel (FileSystem_ParentID a)
    end) (fun t o => Post (pre ++ t) o)).
  apply (wp_call _ _ (fun t _ => guarded (fs_guard (is_fs fs) no_tag) t)).
  { intros t o. apply DeleteFileSystemComplete_runs. }
  intros t o' Ht. destruct o' as [[err|]| |]; cbn [wp].
  all: try (wp_leaf; rewrite ?app_nil_r; apply guarded_behind; [done|]; by eapply complete_behind).
  destruct (FileSystem_ParentID a =? 0)%Z; [wp_reduce|apply runs_wp; intros t' o' Ht'%IH]; wp_leaf; rewrite ?app_nil_r.
  all: apply guarded_behind; [done|]; rewrite ?guarded_app.
  - by eapply complete_behind.
  - split; [by eapply complete_behind|]. eapply guarded_mono, Ht'. intros t1 e. cbn beta. rewrite app_assoc.
    apply fs_guard_mono; intros; [by apply fs_delete_justified_app|by apply has_children_app].
Qed.

(** C3: in every run of a deletion, a file system, its metadata and its exports
    are removed only after its children were listed, without error, as none, and
    it was read; the one the request names must have been read unlocked, any
    other must be tagged for deletion by its own metadata. Metadata is rewritten
    only on the requested file system when it has children, and nothing else is
    changed. Success means that the file system was deleted or has children. *)
Theorem DeleteNFSVolume_guarded fuel nfs t o :
  runs (DeleteNFSVolume fuel nfs) t o ->
  guarded (fs_guard (fs_delete_justified (UniqueID nfs)) (has_children (UniqueID nfs))) t /\
  (o = Done None ->
   Evt (Ibox (DeleteFileSystem (UniqueID nfs))) None ∈ t \/
   exists f fs, Evt (Ibox (GetFileSystemsByParentID (UniqueID nfs))) (f :: fs, None) ∈ t).
Proof.
  revert t o. wp_start. unfold DeleteNFSVolume. wp_run.
  all: try solve [wp_leaf; split;
    [guard_event; (split; [done|]; eexists _, _; in_trace)|]; first [done|intros _; right; eexists _, _; in_trace]].
  match goal with |- wp _ (fun t o => _ (?e1 :: ?e2 :: t) o) => set (pre := [e1; e2]) end.
  set (id := UniqueID nfs) in *.
  assert (Hpre : fs_delete_justified id pre id).
  { split; [in_trace|]. eexists. split; [in_trace|]. right. split; [done|]. by apply String.eqb_neq. }
  assert (Hg : guarded (fs_guard (fs_delete_justified id) (has_children id)) pre) by (subst pre; guard_event).
  apply (wp_call _ _ (fun t o => guarded (fs_guard (is_fs id) no_tag) t /\
    exists r, o = Done r /\ (r = None -> Evt (Ibox (DeleteFileSystem id)) None ∈ t))).
  { intros t o. apply DeleteFileSystemComplete_runs. }
  intros t _ (Ht & r & -> & Hr).
  change (wp (match r with
    | Some err => Ret (Some (impl Internal (Error err)))
    | None => if (FileSystem_ParentID a =? 0)%Z then Ret None
              else p <- DeleteParentFileSystem fuel (FileSystem_ParentID a) ;;
                   Ret (match p with Some err => Some (impl Internal (Error err)) | None => None end)
    end) (fun t' o' => Post (pre ++ t ++ t') o')).
  destruct r as [e|]; [|specialize (Hr eq_refl); destruct (FileSystem_ParentID a =? 0)%Z]; wp_reduce.
  - wp_leaf. rewrite app_nil_r. split; [|done]. apply guarded_behind; [done|]. by eapply complete_behind.
  - wp_leaf. rewrite app_nil_r. split; [|left; apply elem_of_app; by right].
    apply guarded_behind; [done|]. by eapply complete_behind.
  - apply (wp_call _ _ (fun t _ => guarded (fs_guard (fs_delete_justified id) (has_children id)) t)).
    { intros t' o'. apply DeleteParentFileSystem_guarded. }
    intros t' o' Ht'.
    assert (guarded (fs_guard (fs_delete_justified id) (has_children id)) (pre ++ t ++ t')).
    { apply guarded_behind; [done|]. rewrite guarded_app. split; [by eapply complete_behind|].
      eapply guarded_mono, Ht'. intros t1 e. cbn beta. rewrite app_assoc.
      apply fs_guard_mono; intros; [by apply fs_delete_justified_app|by apply has_children_app]. }
    destruct o'; cbn [wp]; wp_leaf; rewrite ?app_nil_r;
      (split; [done|intros _; left; rewrite !elem_of_app; tauto]).
Qed.

(** The parent links read in a trace decrease a rank. *)
Definition fs_ranked (rank : Z -> nat) (t : trace) : Prop :=
  forall q f, Evt (Ibox (GetFileSystemByID q)) (Ok f) ∈ t ->
    FileSystem_ParentID f <> 0%Z -> rank (FileSystem_ParentID f) < rank q.

Lemma DeleteParentFileSystem_terminates rank fuel fs t o :
  runs (DeleteParentFileSystem fuel fs) t o -> fs_ranked rank t -> rank fs < fuel -> exists r, o = Done r.
Proof.
  revert fs t o. induction fuel as [|fuel IH]; intros fs; [lia|].
  wp_start. cbn [DeleteParentFileSystem]. wp_run.
  all: try solve [wp_leaf; intros; by eexists].
  apply (wp_call _ _ (fun _ o => exists r, o = Done r)).
  { intros t o (_ & r & -> & _)%DeleteFileSystemComplete_runs. eauto. }
  intros t _ [[err|] ->]; [wp_reduce; wp_leaf; intros; by eexists|].
  destruct (Z.eqb_spec (FileSystem_ParentID a) 0) as [_|Hp]; [wp_reduce; wp_leaf; intros; by eexists|].
  apply runs_wp. intros t' o' Ht'. wp_leaf. intros Hrank Hfuel. apply (IH _ _ _ Ht').
  - intros q f Hq. apply Hrank. rewrite !elem_of_cons, elem_of_app. tauto.
  - assert (rank (FileSystem_ParentID a) < rank fs) by (apply (Hrank fs a); [in_trace|done]). lia.
Qed.

(** If the parent links the array reports are well-founded, the climb to
    tagged ancestors ends within the rank of the file system: the deletion
    returns, without panic. *)
Theorem DeleteNFSVolume_terminates rank fuel nfs t o :
  runs (DeleteNFSVolume fuel nfs) t o -> fs_ranked rank t -> rank (UniqueID nfs) <= fuel ->
  exists r, o = Done r.
Proof.
  revert t o. wp_start. unfold DeleteNFSVolume. wp_run.
  all: try solve [wp_leaf; intros; by eexists].
  apply (wp_call _ _ (fun _ o => exists r, o = Done r)).
  { intros t o (_ & r & -> & _)%DeleteFileSystemComplete_runs. eauto. }
  intros t _ [[err|] ->]; [wp_reduce; wp_leaf; intros; by eexists|].
  destruct (Z.eqb_spec (FileSystem_ParentID a) 0) as [_|Hp]; [wp_reduce; wp_leaf; intros; by eexists|].
  apply (wp_call _ _ (fun t o => fs_ranked rank t -> rank (FileSystem_ParentID a) < fuel -> exists r, o = Done r)).
  { intros t' o' Ht'. by apply (DeleteParentFileSystem_terminates _ _ _ _ _ Ht'). }
  intros t' o' Ho'.
  assert (H : fs_ranked rank (Evt (Ibox (GetFileSystemByID (UniqueID nfs))) (Ok a)
      :: Evt (Ibox (GetFileSystemsByParentID (UniqueID nfs))) ([], None) :: t ++ t') ->
    rank (UniqueID nfs) <= fuel -> exists r, o' = Done r).
  { intros Hrank Hfuel. apply Ho'.
    - intros q f Hq. apply Hrank. rewrite !elem_of_cons, elem_of_app. tauto.
    - assert (rank (FileSystem_ParentID a) < rank (UniqueID nfs)) by (apply (Hrank _ a); [in_trace|done]). lia. }
  destruct o' as [e| |]; cbn [wp]; wp_leaf; rewrite ?app_nil_r; intros Hrank Hfuel; [by eexists|..].
  all: by destruct (H Hrank Hfuel).
Qed.

(** ** Export rules *)

(** The updates of export permissions in a trace: the export's id and the
    permissions sent. *)
Definition update {X} (c : call X) : X -> option (Z * list Permissions) :=
  match c with
  | Ibox i => match i with
              | UpdateExportPermissions e r => fun _ => Some (Export_ID e, ExportPathRef_Permissions r)
              | _ => fun _ => None
              end
  | _ => fun _ => None
  end.
Definition updates (t : trace) : list (Z * list Permissions) := observe (@update) t.
Lemma updates_app t t' : updates (t ++ t') = updates t ++ updates t'.
Proof. apply observe_app. Qed.

Lemma last_index_found {A} (f : A -> bool) l i found :
  existsb f l = false -> last_index f l i found = found.
Proof.
  revert i found. induction l as [|x l IH]; intros i found; cbn; [done|].
  intros [-> H]%orb_false_iff. by apply IH.
Qed.

Lemma last_index_app {A} (f : A -> bool) l1 l2 i found :
  last_index f (l1 ++ l2) i found = last_index f l2 (i + length l1) (last_index f l1 i found).
Proof.
  revert i found. induction l1 as [|x l1 IH]; intros i found; cbn; [by rewrite Nat.add_0_r|].
  rewrite IH. f_equal. lia.
Qed.

Lemma existsb_weaken {A} (f g : A -> bool) l :
  (forall x, f x = true -> g x = true) -> existsb g l = false -> existsb f l = false.
Proof.
  intros H Hg. apply not_true_is_false. intros (x & Hx & Hf)%existsb_exists.
  assert (existsb g l = true) by (apply existsb_exists; eauto). congruence.
Qed.

(** Adding a node to an export's rules reads the export, and sends exactly
    one update when no rule covers the address, namely the old rules, in order,
    and one for the address; when a rule covers it nothing is sent. An export
    that cannot be read makes the driver panic. *)
Theorem AddNodeInExport_spec exportID access noRootSquash ip t o :
  runs (AddNodeInExport exportID access noRootSquash ip) t o ->
  exists r t', t = Evt (Ibox (GetExportByID exportID)) r :: t' /\
  match r with
  | Err _ => o = Panicked /\ t' = []
  | Ok export =>
      if existsb (covers ip) (Export_Permissions export) then t' = [] /\ exists e, o = Done (Ok e)
      else exists x, t' = [Evt (Ibox (UpdateExportPermissions export (ExportPathRef_of
                               (Export_Permissions export ++ [MkPermissions access noRootSquash ip])))) x] /\
           match x with Ok e => o = Done (Ok e) | Err _ => exists e, o = Done (Err e) end
  end.
Proof.
  revert t o. wp_start. unfold AddNodeInExport. wp_run; wp_leaf.
  all: eexists _, _; split; [reflexivity|]; cbn match; try by split.
  all: match goal with H : existsb _ _ = _ |- _ => rewrite H end.
  1: by split; [|eexists].
  all: rewrite last_index_found by (eapply existsb_weaken, Hcase; intros x;
         unfold covers, covers_all; intros [_ ->]%andb_true_iff; by rewrite orb_true_r).
  all: eexists; split; [reflexivity|]; by try eexists.
Qed.

Definition client_is (ip : string) (p : Permissions) : bool := String.eqb (Permissions_Client p) ip.

(** The rules of an export without those of a client; none left gives the
    default rule. *)
Definition without_client (ip : string) (l : list Permissions) : list Permissions :=
  match filter (fun p => client_is ip p = false) l with
  | [] => [defaultPermission]
  | l' => l'
  end.

Lemma permissions_loop_skip export ip ix1 ix2 backing :
  (forall i, i ∈ ix1 -> exists p, backing !! i = Some p /\ client_is ip p = false) ->
  DeleteExportRule_permissions export ip (ix1 ++ ix2) backing =
  DeleteExportRule_permissions export ip ix2 backing.
Proof.
  induction ix1 as [|i ix1 IH]; intros H; cbn; [done|].
  destruct (H i) as (p & -> & Hp); [by left|]. unfold client_is in Hp. rewrite Hp.
  apply IH. intros j Hj. apply H. by right.
Qed.

Lemma permissions_loop_none export ip ix backing :
  (forall i, i ∈ ix -> exists p, backing !! i = Some p /\ client_is ip p = false) ->
  DeleteExportRule_permissions export ip ix backing = Ret None.
Proof. intros H. rewrite <- (app_nil_r ix), permissions_loop_skip; done. Qed.

Lemma no_client_lookup ip l i :
  Forall (fun p => client_is ip p = false) l -> i < length l ->
  exists p, l !! i = Some p /\ client_is ip p = false.
Proof.
  intros Hl Hi. destruct (lookup_lt_is_Some_2 l i Hi) as [p Hp]. exists p. split; [done|].
  by eapply Forall_lookup_1 in Hl.
Qed.

Lemma filter_all {A} (P : A -> Prop) `{forall x, Decision (P x)} l : Forall P l -> filter P l = l.
Proof. induction 1 as [|x l Hx _ IH]; [done|]. by rewrite filter_cons_True, IH. Qed.

Lemma without_client_split ip l1 p l2 :
  Forall (fun p => client_is ip p = false) l1 -> Forall (fun p => client_is ip p = false) l2 ->
  client_is ip p = true ->
  filter (fun p => client_is ip p = false) (l1 ++ p :: l2) = l1 ++ l2.
Proof.
  intros H1 H2 Hp. rewrite filter_app, filter_cons, decide_False by congruence.
  by rewrite !filter_all.
Qed.

Lemma removeIndex_at l1 p l2 :
  removeIndex (l1 ++ p :: l2) (length l1) =
  (l1 ++ l2, (l1 ++ l2) ++ match l2 with [] => [p] | _ => drop (length l2 - 1) l2 end).
Proof.
  assert (Hs : take (length l1) (l1 ++ p :: l2) ++ drop (S (length l1)) (l1 ++ p :: l2) = l1 ++ l2).
  { rewrite take_app_length, drop_app_ge by lia. by replace (S (length l1) - length l1) with 1 by lia. }
  unfold removeIndex. rewrite Hs. f_equal. f_equal. rewrite length_app. cbn [length].
  destruct l2 as [|q l2].
  - cbn [length]. replace (length l1 + 1 - 1) with (length l1) by lia. by rewrite drop_app_length.
  - rewrite drop_app_ge by (cbn; lia). cbn [length].
    replace (length l1 + S (S (length l2)) - 1 - length l1) with (S (length l2)) by lia.
    cbn [drop]. f_equal. lia.
Qed.

(** What is left of the array behind the removed rule holds no rule of the
    client. *)
Lemma shifted_no_client ip l1 p l2 i :
  Forall (fun p => client_is ip p = false) l1 -> Forall (fun p => client_is ip p = false) l2 ->
  S (length l1) <= i < S (length l1) + length l2 ->
  exists q, snd (removeIndex (l1 ++ p :: l2) (length l1)) !! i = Some q /\ client_is ip q = false.
Proof.
  intros H1 H2 Hi. rewrite removeIndex_at. cbn [snd]. destruct l2 as [|q l2]; [cbn in Hi; lia|].
  apply no_client_lookup; [|rewrite !length_app, length_drop; cbn in *; lia].
  rewrite !Forall_app. split_and!; [done..|]. by apply Forall_drop.
Qed.

Lemma last_index_client ip l1 p l2 :
  Forall (fun p => client_is ip p = false) l2 -> client_is ip p = true ->
  last_index (fun p => String.eqb (Permissions_Client p) ip) (l1 ++ p :: l2) 0 None = Some (length l1).
Proof.
  intros H2 Hp. rewrite last_index_app. cbn. unfold client_is in Hp. rewrite Hp.
  apply last_index_found, not_true_is_false. intros (q & Hq & Hc)%existsb_exists.
  rewrite Forall_forall in H2. specialize (H2 q ltac:(by apply list_elem_of_In)). unfold client_is in H2. congruence.
Qed.

(** The loop over an export with one rule of the client: one update, without it. *)
Lemma permissions_loop_one export ip l1 p l2 t o :
  Export_Permissions export = l1 ++ p :: l2 ->
  Forall (fun p => client_is ip p = false) l1 -> Forall (fun p => client_is ip p = false) l2 ->
  client_is ip p = true ->
  runs (DeleteExportRule_permissions export ip (seq 0 (length (Export_Permissions export)))
          (Export_Permissions export)) t o ->
  updates t = [(Export_ID export, without_client ip (Export_Permissions export))] /\ exists r, o = Done r.
Proof.
  intros Hl H1 H2 Hp. rewrite Hl. unfold without_client. rewrite without_client_split by done.
  rewrite length_app. cbn [length]. rewrite seq_app, permissions_loop_skip.
  2: { intros i Hi%elem_of_seq. rewrite lookup_app_l by lia. apply no_client_lookup; [done|lia]. }
  revert t o. wp_start. cbn [seq DeleteExportRule_permissions Nat.add].
  rewrite lookup_app_r, Nat.sub_diag by lia. cbn [lookup list_lookup]. pose proof Hp as Hc. unfold client_is in Hc. rewrite Hc.
  unfold DeleteNodeFromExport. cbn [Export_Permissions Export_set_Permissions].
  rewrite (last_index_client ip) by done.
  destruct (removeIndex _ _) as [shorter backing] eqn:Hr.
  pose proof (removeIndex_at l1 p l2) as Hat. rewrite Hr in Hat. injection Hat as Hs _.
  assert (Hrest : shorter <> [] \/ l2 = [] ->
    DeleteExportRule_permissions export ip (seq (S (length l1)) (length l2)) backing = Ret None).
  { intros _. apply permissions_loop_none. intros i Hi%elem_of_seq.
    pose proof (shifted_no_client ip l1 p l2 i H1 H2) as Hq. rewrite Hr in Hq. apply Hq. lia. }
  assert (Hnil : shorter = [] -> l2 = []) by (intros ->; symmetry in Hs; by apply app_nil in Hs as [_ ->]).
  destruct shorter as [|q qs].
  - rewrite (Hnil eq_refl). wp_run; wp_leaf; rewrite <- Hs; (split; [reflexivity|by eexists]).
  - wp_run; rewrite ?Hrest by (by left); wp_reduce; wp_leaf; rewrite <- Hs; (split; [reflexivity|by eexists]).
Qed.

(** At most one rule of the client. *)
Definition single_rule (ip : string) (export : Export) : Prop :=
  length (filter (fun p => client_is ip p = true) (Export_Permissions export)) <= 1.

Lemma single_rule_split ip l :
  length (filter (fun p => client_is ip p = true) l) <= 1 ->
  (existsb (client_is ip) l = false /\ Forall (fun p => client_is ip p = false) l) \/
  (exists l1 p l2, l = l1 ++ p :: l2 /\ existsb (client_is ip) l = true /\ client_is ip p = true /\
     Forall (fun p => client_is ip p = false) l1 /\ Forall (fun p => client_is ip p = false) l2).
Proof.
  induction l as [|q l IH]; intros Hlen; [by left|].
  rewrite filter_cons in Hlen. cbn [existsb]. case_decide as Hq.
  - right. exists [], q, l. rewrite Hq. split_and!; try done.
    cbn in Hlen. destruct (filter _ l) eqn:Hf; [|cbn in Hlen; lia].
    rewrite Forall_forall. intros p Hp. apply not_true_is_false. intros Hc.
    by apply (filter_nil_not_elem_of _ _ p Hf).
  - apply not_true_is_false in Hq. destruct (IH Hlen) as [[He Hl]|(l1 & p & l2 & -> & He & Hp & Hl1 & Hl2)].
    + left. rewrite Hq, He. split; [done|by constructor].
    + right. exists (q :: l1), p, l2. rewrite He, orb_true_r. split_and!; try done. by constructor.
Qed.

(** The updates removing a client from [exports] takes. *)
Definition removals (ip : string) (exports : list Export) : list (Z * list Permissions) :=
  omap (fun e => if existsb (client_is ip) (Export_Permissions e)
                 then Some (Export_ID e, without_client ip (Export_Permissions e)) else None) exports.

Lemma exports_loop ip exports t o :
  Forall (single_rule ip) exports -> runs (DeleteExportRule_exports exports ip) t o ->
  (exists n, updates t = take n (removals ip exports)) /\ 
  (o = Done None -> updates t = removals ip exports) /\ exists r, o = Done r.
Proof.
  intros Hall. revert t o. induction Hall as [|e exports He _ IH]; intros t o.
  { cbn. intros [-> ->]. split; [by exists 0|]. split; [done|by eexists]. }
  revert t o. wp_start. cbn [DeleteExportRule_exports].
  apply (wp_call _ _ (fun t o => (exists r, o = Done r) /\ updates t =
    if existsb (client_is ip) (Export_Permissions e)
    then [(Export_ID e, without_client ip (Export_Permissions e))] else [])).
  { intros t o Ht. destruct (single_rule_split ip _ He) as [[Hno Hl]|(l1 & p & l2 & Hl & Hyes & Hp & H1 & H2)].
    - rewrite Hno. rewrite permissions_loop_none in Ht.
      + destruct Ht as [-> ->]. by split; [eexists|].
      + intros i Hi%elem_of_seq. apply no_client_lookup; [done|lia].
    - rewrite Hyes. destruct (permissions_loop_one e ip l1 p l2 t o Hl H1 H2 Hp Ht) as [Hu Hr].
      by split. }
  intros t _ [[r ->] Hu].
  assert (Hcons : removals ip (e :: exports) = updates t ++ removals ip exports)
    by (rewrite Hu; unfold removals; cbn; by destruct (existsb _ _)).
  destruct r as [err|]; [|apply runs_wp; intros t' o' Ht'; destruct (IH _ _ Ht') as ((n & Hn) & Hd & Hr)].
  - wp_reduce. wp_leaf. rewrite app_nil_r, Hcons. split; [|by split; [|eexists]].
    exists (length (updates t)). by rewrite take_app_length.
  - wp_leaf. rewrite updates_app, Hcons. split; [|split; [intros Ho; by rewrite (Hd Ho)|done]].
    exists (length (updates t) + n). rewrite take_app_ge by lia. rewrite Hn. f_equal. f_equal. lia.
Qed.

(** If no export of the file system has two rules for a client, removing
    the client sends, export by export in the listed order, one update for each
    export that has a rule for it, with exactly its other rules (or the default
    rule when there is none); a failure stops after some of these updates, and
    no run panics. *)
Theorem DeleteExportRule_spec fs ip t o :
  runs (DeleteExportRule fs ip) t o ->
  exists exports err t', t = Evt (Ibox (GetExportsByFileSystemID fs)) (exports, err) :: t' /\
  (Forall (single_rule ip) exports ->
   (exists r, o = Done r) /\
   (exists n, updates t = take n (removals ip exports)) /\
   (o = Done None -> err = None /\ updates t = removals ip exports)).
Proof.
  revert t o. wp_start. unfold DeleteExportRule. wp_reduce. intros [exports err]. cbn [fst snd].
  destruct err as [err|].
  - wp_reduce. wp_leaf. eexists _, _, _. split; [reflexivity|]. intros _.
    split; [by eexists|]. split; [by exists 0|done].
  - apply runs_wp. intros t o Ht. wp_leaf. eexists _, _, _. split; [reflexivity|]. intros Hall.
    destruct (exports_loop ip exports t o Hall Ht) as (Hn & Hd & Hr). split; [done|]. split; [exact Hn|].
    intros Ho. by split; [|apply Hd].
Qed.

(** Two rules of one client: the loop reads the shifted array, and one of the
    rules stays whatever the array answers. *)
Example DeleteExportRule_two_rules e :
  let rule := MkPermissions "RW" true "10.0.0.1" in
  let export := Export_of 4 "/x" [rule; rule] in
  let sent := Evt (Ibox (UpdateExportPermissions export (ExportPathRef_of [rule]))) (Ok e) in
  runs (DeleteExportRule 3 "10.0.0.1")
    [Evt (Ibox (GetExportsByFileSystemID 3)) ([export], None); sent; sent] (Done None).
Proof. replay. Qed.

(** ** What creating a volume asks for *)

Definition create_guard (cap : Z) (req : CSICreateVolumeRequest) (before : trace) (e : evt call) : Prop :=
  match e with
  | Evt (Ibox i) _ =>
      match i with
      | IboxTypes.CreateFileSystem r =>
          CreateFileSystemRequest_Name r = Req_Name req /\ CreateFileSystemRequest_Size r = cap /\
          CreateFileSystemRequest_Provtype r ∈ [StorageClassThinProvision; StorageClassThickProvision] /\
          (exists pool, Evt (Ibox (GetPoolByName (Req_Parameters req).[StorageClassPoolName])) (Ok pool) ∈ before /\
                        CreateFileSystemRequest_PoolID r = PoolResult_ID pool) /\
          (exists err, Evt (Ibox (GetFileSystemByName (Req_Name req))) (Err err) ∈ before /\ is_ErrNotFound err = true)
      | CreateFileSystemSnapshot r =>
          FileSystemSnapshot_SnapshotName r = Req_Name req /\ FileSystemSnapshot_WriteProtected r = false /\
          (exists src pool, Evt (Ibox (GetFileSystemByID (FileSystemSnapshot_ParentID r))) (Ok src) ∈ before /\
             FileSystem_Size src = cap /\
             Evt (Ibox (GetPoolByName (Req_Parameters req).[StorageClassPoolName])) (Ok pool) ∈ before /\
             PoolResult_ID pool = FileSystem_PoolID src) /\
          (exists err, Evt (Ibox (GetFileSystemByName (Req_Name req))) (Err err) ∈ before /\ is_ErrNotFound err = true)
      | CreateExport r =>
          CreateExportRequest_ExportPath r = "/" +:+ Req_Name req /\
          fs_created before = [CreateExportRequest_FilesystemID r] /\
          getPermissionMaps (Req_Parameters req).[StorageClassNFSExportPermissions] = Ok (CreateExportRequest_Permissionsput r)
      | PutMetadata id _ => fs_created before = [id]
      | DeleteFileSystem id => fs_created before = [id]
      | DeleteExport id => exports_created before = [id]
      | i => changes i = false
      end
  | _ => True
  end.

(** The part of it behind the creation of the file system. *)
Definition export_guard (nfs : NFSstorage) (before : trace) (e : evt call) : Prop :=
  match e with
  | Evt (Ibox i) _ =>
      match i with
      | CreateExport r =>
          CreateExportRequest_ExportPath r = ExportPath nfs /\ CreateExportRequest_FilesystemID r = FileSystemID nfs /\
          getPermissionMaps (StorageClassParameters nfs).[StorageClassNFSExportPermissions]
            = Ok (CreateExportRequest_Permissionsput r)
      | PutMetadata id _ | DeleteFileSystem id => id = FileSystemID nfs
      | DeleteExport id => exports_created before = [id]
      | i => changes i = false
      end
  | _ => True
  end.

Lemma export_and_tag_requests nfs t o :
  ExportID nfs = 0%Z -> runs (CreateExportPathAndAddMetadata nfs) t o -> guarded (export_guard nfs) t.
Proof.
  intros H0. revert t o. wp_start.
  unfold CreateExportPathAndAddMetadata, createExportPath, GetCreatedBy, getClusterVersion, revert_export, revert_filesystem.
  wp_run; wp_leaf; guard_event; try reflexivity.
  all: try by split_and!.
  all: match goal with H : (ExportID _ =? 0)%Z = false |- _ => by rewrite H0 in H end.
Qed.

Lemma export_guard_behind cap req nfs pre t :
  ExportPath nfs = "/" +:+ Req_Name req -> StorageClassParameters nfs = Req_Parameters req ->
  fs_created pre = [FileSystemID nfs] -> exports_created pre = [] -> fs_created t = [] ->
  guarded (export_guard nfs) t -> guarded (fun t1 => create_guard cap req (pre ++ t1)) t.
Proof.
  intros Hpath Hparams Hf He Hft Hg t1 e t2 Ht. specialize (Hg t1 e t2 Ht).
  assert (Hf1 : fs_created t1 = []) by (rewrite Ht, fs_created_app in Hft; apply app_nil in Hft; tauto).
  destruct e as [X c x]; destruct c as [X' i| |]; try done.
  destruct i; try done; cbn in *; rewrite ?fs_created_app, ?exports_created_app, ?Hf, ?Hf1, ?He.
  all: try (rewrite Hg; reflexivity).
  destruct Hg as (H1 & H2 & H3). rewrite H1, H2, <- Hparams. by rewrite Hpath.
Qed.

(** The tail of both ways to make a volume. *)
Lemma requests_tail cap nfs req pre :
  ExportPath nfs = "/" +:+ Req_Name req -> StorageClassParameters nfs = Req_Parameters req ->
  fs_created pre = [FileSystemID nfs] -> exports_created pre = [] -> ExportID nfs = 0%Z ->
  guarded (create_guard cap req) pre ->
  wp (exported <- CreateExportPathAndAddMetadata nfs ;;
      match exported with
      | (Some err, nfs) => Ret (Err (impl Internal (Error err)), nfs)
      | (None, nfs) => let '(resp, nfs) := getNfsCsiResponse nfs req in Ret (Ok resp, nfs)
      end) (fun t _ => guarded (create_guard cap req) (pre ++ t)).
Proof.
  intros Hpath Hparams Hf He H0 Hpre.
  apply (wp_call _ _ (fun t _ => fs_created t = [] /\ guarded (export_guard nfs) t)).
  { intros t o Ht. split; [by eapply export_and_tag_runs|by eapply export_and_tag_requests]. }
  intros t o [Hft Hg].
  assert (guarded (create_guard cap req) (pre ++ t)) by (apply guarded_behind; [done|by eapply export_guard_behind]).
  destruct o as [[[e|] n]| |]; cbn; by rewrite ?app_nil_r.
Qed.

Lemma provision_types (provtype : string) :
  negb (provtype =? StorageClassThinProvision)%string && negb (provtype =? StorageClassThickProvision)%string = false ->
  provtype ∈ [StorageClassThinProvision; StorageClassThickProvision].
Proof.
  rewrite andb_false_iff, !negb_false_iff, !String.eqb_eq, !elem_of_cons. tauto.
Qed.

Lemma wp_behind {A B} P pre (p : prog call (A * NFSstorage)) (f : A * NFSstorage -> B * NFSstorage) :
  wp p (fun t _ => guarded P (pre ++ t)) ->
  wp p (fun t o => match o with
                   | Done a => wp (Ret (f a)) (fun t' _ => guarded P (pre ++ t ++ t'))
                   | Panicked => guarded P (pre ++ t)
                   | Exhausted => guarded P (pre ++ t)
                   end).
Proof. intros Hp. eapply wp_mono; [exact Hp|]. intros t [a| |]; cbn; by rewrite ?app_nil_r. Qed.

(** A file system is created, or cloned, only after the array answered that
    no file system has the name; it gets the requested name and size, lies in the
    requested pool, and is thin or thick; the export lies under the volume's
    name on the file system just made, with the permissions of the storage class
    and nothing is exported, tagged or deleted but what this run made. *)
Theorem CreateVolume_requests cap cs req t o :
  runs (CreateVolume (NewNFSstorage cap cs) req) t o -> guarded (create_guard cap req) t.
Proof.
  revert t o. wp_start.
  unfold CreateVolume, GetHostInfo, GetNetworkSpaceIP, create_new, createVolumeFromPVCSource, CreateNFSVolume, CreateFileSystem.
  wp_run.
  all: repeat match goal with
       | H : negb _ && negb _ = false |- _ => apply provision_types in H
       | H : negb (_ =? _)%Z = false |- _ => apply negb_false_iff, Z.eqb_eq in H
       end.
  all: lazymatch goal with
       | |- wp _ (fun t o => _ (?e1 :: ?e2 :: ?e3 :: ?e4 :: ?e5 :: ?e6 :: ?e7 :: t) o) =>
           apply wp_bind, (wp_behind (create_guard cap req) [e1; e2; e3; e4; e5; e6; e7]), requests_tail; try reflexivity
       | |- wp _ (fun t o => _ (?e1 :: ?e2 :: ?e3 :: ?e4 :: ?e5 :: ?e6 :: t) o) =>
           apply wp_bind, (wp_behind (create_guard cap req) [e1; e2; e3; e4; e5; e6]), requests_tail; try reflexivity
       | _ => wp_leaf
       end.
  all: guard_event.
  all: repeat (split; [first [reflexivity|assumption]|]).
  all: try (split; [eexists; split; [in_trace|reflexivity]|]; eexists; split; [in_trace|assumption]).
  all: split; [|eexists; split; [in_trace|assumption]]; eexists _, _; split; [in_trace|]; split; [done|]; split; [in_trace|done].
Qed.

(** ** The theorems at concrete runs *)

#[local] Transparent gmap_empty.

Definition nfs_cs : Commonservice :=
  {| storagePoolIDName := None; driverVersion := "2.22.0";
     VolProto := MkVolumeProtocolConfig 5 ProtocolNFS "" None "10.0.0.9" 0 |}.
Definition nfs_params : gmap string string :=
  <[StorageClassPoolName := "pool"]> (<[StorageClassNetworkSpace := "nas"]>
  {[ StorageClassNFSExportPermissions := "[{'access':'RW','client':'*','no_root_squash':true}]" ]}).
Definition nfs_req : CSICreateVolumeRequest :=
  MkCSICreateVolumeRequest "pvc-5" (Some 1073741824%Z) None nfs_params ∅ None.
Definition nfs_perms : list (gmap string json) :=
  match getPermissionMaps nfs_params.[StorageClassNFSExportPermissions] with Ok l => l | Err _ => [] end.
Definition nfs_export_request : CreateExportRequest := MkCreateExportRequest 5 "" "TCP" false "/pvc-5" nfs_perms false.
Definition nfs_tags : gmap string json :=
  <["host.k8s.pvname" := JStr "pvc-5"]> {[ "host.created_by" := JStr "CSI/2.22.0" ]}.

(** The export is created, the metadata refused: both are taken back. *)
Definition revert_calls : trace :=
  [Evt (Ibox (CreateExport nfs_export_request)) (Ok (Export_of 4 "/pvc-5" []));
   Evt (Kube BuildClient) (Some (EText "no cluster"));
   Evt (Ibox (PutMetadata 5 nfs_tags)) (Err (EText "refused"));
   Evt (Ibox (DeleteExport 4)) (Ok (Export_of 4 "/pvc-5" []));
   Evt (Ibox (DeleteFileSystem 5)) None].
Definition new_nfs : NFSstorage :=
  set_FileSystemID 5 (set_request "pvc-5" nfs_params (NewNFSstorage 1073741824 nfs_cs)).

Lemma CreateExportPathAndAddMetadata_reverts_witness :
  exists e n, runs (CreateExportPathAndAddMetadata new_nfs) revert_calls (Done (Some e, n)) /\
  deletions revert_calls = [inl 4%Z; inr 5%Z].
Proof.
  assert (H : exists e n, runs (CreateExportPathAndAddMetadata new_nfs) revert_calls (Done (Some e, n)))
    by (eexists _, _; replay).
  destruct H as (e & n & H). exists e, n. split; [exact H|].
  exact (proj2 (proj2 (CreateExportPathAndAddMetadata_reverts new_nfs _ _ eq_refl H))).
Defined.

Definition create_calls (rest : trace) : trace :=
  Evt (Ibox GetSystem) (Ok 1%Z)
  :: Evt (Ibox (GetNetworkSpaceByName "nas")) (Ok (NetworkSpace_of "nas" "NAS_SERVICE" [Portal_of "10.1.1.1"]))
  :: Evt (Os (RandIntn 1)) 0%Z
  :: Evt (Ibox (GetFileSystemByName "pvc-5")) (Err ErrNotFound)
  :: Evt (Ibox (GetPoolByName "pool")) (Ok (PoolResult_of 1 "pool" false))
  :: Evt (Ibox (IboxTypes.CreateFileSystem (MkCreateFileSystemRequest "" 1 "pvc-5" "THIN" 1073741824 false)))
         (Ok (FileSystem_of 5 "pvc-5" 1073741824 0 1 ""))
  :: rest.

Lemma create_calls_runs :
  exists e n, runs (CreateVolume (NewNFSstorage 1073741824 nfs_cs) nfs_req) (create_calls revert_calls) (Done (Err e, n)).
Proof. eexists _, _. replay. Qed.

Lemma CreateVolume_no_leak_witness :
  exists e n, runs (CreateVolume (NewNFSstorage 1073741824 nfs_cs) nfs_req) (create_calls revert_calls) (Done (Err e, n)) /\
  accounted 1073741824 (create_calls revert_calls) (Done (Err e, n)).
Proof.
  destruct create_calls_runs as (e & n & H). exists e, n. split; [exact H|].
  destruct (CreateVolume_no_leak 1073741824 nfs_cs nfs_req _ _ H) as [Hok|(_ & Hno & _)]; [exact Hok|discriminate].
Defined.

Lemma CreateVolume_requests_witness :
  exists e n, runs (CreateVolume (NewNFSstorage 1073741824 nfs_cs) nfs_req) (create_calls revert_calls) (Done (Err e, n)) /\
  guarded (create_guard 1073741824 nfs_req) (create_calls revert_calls).
Proof.
  destruct create_calls_runs as (e & n & H). exists e, n. split; [exact H|].
  exact (CreateVolume_requests 1073741824 nfs_cs nfs_req _ _ H).
Defined.

(** A clone is deleted, and then its tagged parent. *)
Definition fs_delete_calls (id : Z) : trace :=
  [Evt (Ibox (GetExportsByFileSystemID id)) ([Export_of 4 "/x" []], None);
   Evt (Ibox (DeleteExport 4)) (Ok (Export_of 4 "/x" [])); Evt (Ibox (DeleteMetadata id)) (Err (EText "METADATA_IS_NOT_SUPPORTED_FOR_ENTITY"));
   Evt (Ibox (DeleteFileSystem id)) None].
Definition fs_delete_trace : trace :=
  [Evt (Ibox (GetFileSystemByID 5)) (Ok (FileSystem_of 5 "clone" 1 3 1 "UNLOCKED"));
   Evt (Ibox (GetFileSystemsByParentID 5)) ([], None)] ++ fs_delete_calls 5 ++
  [Evt (Ibox (GetMetadata 3)) ([GetMetadataResult_of TOBEDELETED "true"], None);
   Evt (Ibox (GetFileSystemsByParentID 3)) ([], None);
   Evt (Ibox (GetFileSystemByID 3)) (Ok (FileSystem_of 3 "parent" 1 0 1 "UNLOCKED"))] ++ fs_delete_calls 3.
Definition nfs5 : NFSstorage := set_UniqueID 5 (NewNFSstorage 0 nfs_cs).

Lemma fs_delete_runs : runs (DeleteNFSVolume 1 nfs5) fs_delete_trace (Done None).
Proof. replay. Qed.

Lemma DeleteNFSVolume_guarded_witness :
  runs (DeleteNFSVolume 1 nfs5) fs_delete_trace (Done None) /\
  guarded (fs_guard (fs_delete_justified 5) (has_children 5)) fs_delete_trace.
Proof. split; [exact fs_delete_runs|exact (proj1 (DeleteNFSVolume_guarded 1 nfs5 _ _ fs_delete_runs))]. Defined.

Definition reads_fs (e : evt call) : option (Z * res FileSystem) :=
  match e with
  | Evt c x => match c in call X return X -> _ with
               | Ibox i => match i in ibox X return X -> _ with
                           | GetFileSystemByID q => fun r => Some (q, r)
                           | _ => fun _ => None
                           end
               | _ => fun _ => None
               end x
  end.
Lemma fs_delete_ranked : fs_ranked (fun z => if (z =? 5)%Z then 1 else 0) fs_delete_trace.
Proof.
  intros q f Hin%(list_elem_of_fmap_2 reads_fs) Hp.
  cbn in Hin. rewrite !elem_of_cons in Hin.
  repeat match goal with
         | H : _ \/ _ |- _ => destruct H
         | H : _ ∈ [] |- _ => by apply not_elem_of_nil in H
         end; simplify_eq; cbn in *; lia.
Qed.

Lemma DeleteNFSVolume_terminates_witness :
  runs (DeleteNFSVolume 1 nfs5) fs_delete_trace (Done None) /\ exists r, Done None = Done (A := option error) r.
Proof.
  split; [exact fs_delete_runs|].
  exact (DeleteNFSVolume_terminates _ 1 nfs5 _ _ fs_delete_runs fs_delete_ranked (le_n 1)).
Defined.

Definition ranged : Export := Export_of 4 "/x" [MkPermissions "RW" true "10.0.0.1-10.0.0.8"].
Definition add_trace : trace :=
  [Evt (Ibox (GetExportByID 4)) (Ok ranged);
   Evt (Ibox (UpdateExportPermissions ranged (ExportPathRef_of (Export_Permissions ranged ++ [MkPermissions "RW" true "10.0.0.9"]))))
       (Ok ranged)].

Lemma AddNodeInExport_spec_witness :
  runs (AddNodeInExport 4 "RW" true "10.0.0.9") add_trace (Done (Ok ranged)) /\
  existsb (covers "10.0.0.9") (Export_Permissions ranged) = false /\ existsb (covers "10.0.0.8") (Export_Permissions ranged) = true /\
  exists r t', add_trace = Evt (Ibox (GetExportByID 4)) r :: t'.
Proof.
  assert (H : runs (AddNodeInExport 4 "RW" true "10.0.0.9") add_trace (Done (Ok ranged))) by replay.
  do 3 (split; [exact H || vm_compute; reflexivity|]).
  destruct (AddNodeInExport_spec 4 "RW" true "10.0.0.9" _ _ H) as (r & t' & Ht & _). exists r, t'. exact Ht.
Defined.

Definition two_clients : Export :=
  Export_of 4 "/x" [MkPermissions "RW" true "10.0.0.9"; MkPermissions "RO" true "10.0.0.8"].
Definition rule_trace : trace :=
  [Evt (Ibox (GetExportsByFileSystemID 5)) ([two_clients], None);
   Evt (Ibox (UpdateExportPermissions
     (Export_of 4 "/x" [MkPermissions "RO" true "10.0.0.8"; MkPermissions "RO" true "10.0.0.8"])
     (ExportPathRef_of [MkPermissions "RO" true "10.0.0.8"]))) (Ok two_clients)].

Definition reads_exports (e : evt call) : option (list Export) :=
  match e with
  | Evt c x => match c in call X return X -> _ with
               | Ibox i => match i in ibox X return X -> _ with
                           | GetExportsByFileSystemID _ => fun r => Some (fst r)
                           | _ => fun _ => None
                           end
               | _ => fun _ => None
               end x
  end.

Lemma DeleteExportRule_spec_witness :
  runs (DeleteExportRule 5 "10.0.0.9") rule_trace (Done None) /\
  updates rule_trace = [(4%Z, [MkPermissions "RO" true "10.0.0.8"])].
Proof.
  assert (H : runs (DeleteExportRule 5 "10.0.0.9") rule_trace (Done None)) by replay.
  split; [exact H|].
  destruct (DeleteExportRule_spec 5 "10.0.0.9" _ _ H) as (exports & err & t' & Ht & Hall).
  assert (exports = [two_clients]) as ->.
  { apply (f_equal (omap reads_exports)) in Ht. by injection Ht. }
  assert (Hone : Forall (single_rule "10.0.0.9") [two_clients]) by (constructor; [vm_compute; lia|constructor]).
  exact (proj2 (proj2 (proj2 (Hall Hone)) eq_refl)).
Defined.
