(* ===== verification/Treeq.v ===== *)
(** Package [storage/treeq]: volumes that are tree quotas of shared file systems.
    [treeqservice.go] keeps a count of the treeqs of a file system in its
    metadata, creates the first one with its file system and deletes the last one
    with it; [treeqcontroller.go] is the controller service on top of it. *)
From stdpp Require Import base strings list gmap.
From S2P Require Import Prelude GoLib Regexp IboxTypes Csi Helper StorageCommon Json NfsApi Nfs.
From Stdlib Require Import ZArith Lia Ascii.

Local Open Scope string_scope.
Local Open Scope list_scope.

(** ** treeqservice.go *)

Definition TreeqCount : string := "host.k8s.treeqs".

Inductive Action := IncrementTreeqCount | DecrementTreeqCount | NONE.

(** [Service]: its own copy of the NFS service object, the pool and the number
    of treeqs of the file system it chose. *)
Record Service := MkService {
  Service_NFS : NFSstorage;
  Service_PoolID : Z;
  Service_TreeqCnt : Z
}.
Definition set_NFS (v : NFSstorage) (ts : Service) : Service := MkService v (Service_PoolID ts) (Service_TreeqCnt ts).
Definition set_PoolID (v : Z) (ts : Service) : Service := MkService (Service_NFS ts) v (Service_TreeqCnt ts).
Definition set_TreeqCnt (v : Z) (ts : Service) : Service := MkService (Service_NFS ts) (Service_PoolID ts) v.

(** [getExportPath] remembers the path of the first export. *)
Definition getExportPath (ts : Service) (filesystemID : Z) : prog call (option error * Service) :=
  exportResponse <- iboxAPI (GetExportsByFileSystemID filesystemID) ;;
  match snd exportResponse, fst exportResponse with
  | Some err, _ => Ret (Some err, ts)
  | None, export :: _ => Ret (None, set_NFS (set_ExportPath (Export_ExportPath export) (Service_NFS ts)) ts)
  | None, [] => Ret (None, ts)
  end.

(** The look-ups of [checkTreeqName], one goroutine per file system: those that
    found the treeq. *)
Fixpoint find_treeqs (fileSystems : list FileSystem) (name : string) : prog call (list Treeq) :=
  match fileSystems with
  | [] => Ret []
  | fileSystem :: rest =>
      r <- iboxAPI (GetTreeqByName (FileSystem_ID fileSystem) name) ;;
      items <- find_treeqs rest name ;;
      Ret (match r with Ok treeq => treeq :: items | Err _ => items end)
  end.
(** The goroutines append to one slice without a lock: appends may be lost, and
    any of them may be the first in the end. *)
Definition checkTreeqName (fileSystems : list FileSystem) (name : string) : prog call (option Treeq) :=
  items <- find_treeqs fileSystems name ;;
  match items with
  | [] => Ret None
  | first :: _ =>
      i <- osAPI (RaceWinner (length items)) ;;
      Ret (Some (nth (i mod length items) items first))
  end.

(** [IsTreeqAlreadyExist]: the treeq's context, empty when there is none, and
    the named error. A failing network space is answered with the error of the
    export look-up. *)
Definition IsTreeqAlreadyExist (ts : Service) (poolName networkSpace pvName fileSystemPrefix : string)
    : prog call (gmap string string * option error * Service) :=
  try pool <- iboxAPI (GetPoolByName poolName) catch err => Ret (∅, Some err, ts) ;;
  let ts := set_PoolID (PoolResult_ID pool) ts in
  fileSystemMetaData <- iboxAPI (GetFileSystemsByPool (Service_PoolID ts) fileSystemPrefix) ;;
  match snd fileSystemMetaData with
  | Some _ => Ret (∅, Some (EText ("failed to get filesystems from poolName " +:+ poolName)), ts)
  | None =>
      treeqData <- checkTreeqName (fst fileSystemMetaData) pvName ;;
      match treeqData with
      | None => Ret (∅, None, ts)
      | Some treeq =>
          exported <- getExportPath ts (Treeq_FilesystemID treeq) ;;
          let '(exportErr, ts) := exported in
          ip <- GetNetworkSpaceIP networkSpace ;;
          match ip with
          | Err _ => Ret (∅, exportErr, ts)
          | Ok ipAddress =>
              let ts := set_NFS (set_IPAddress ipAddress (Service_NFS ts)) ts in
              let context : gmap string string :=
                <["volumePath" := PathJoin [ExportPath (Service_NFS ts); Treeq_Path treeq]]>
                (<["ipAddress" := IPAddress (Service_NFS ts)]>
                (<["TREEQID" := Itoa (Treeq_ID treeq)]> {[ "ID" := Itoa (Treeq_FilesystemID treeq) ]})) in
              Ret (context, exportErr, ts)
          end
      end
  end.

(** [convertToByte] ranges over the map of units: the first unit that occurs in
    [size], in small letters or in capitals, is the one it splits at. *)
Definition sizeUnits : list (string * Z) := [("gib", GIB); ("tib", TIB)].
Fixpoint convert_units (size : string) (units : list (string * Z)) : res Z :=
  match units with
  | [] => Err (EText "unexpected maxfilesystemsize, expected format: gib,tib")
  | (key, unit) :: rest =>
      if Contains size (ToLower key) || Contains size (ToUpper key) then
        match ParseInt10 (hd "" (Split size key)) with
        | Err errConvert => Err errConvert
        | Ok sizeUnit => Ok (i64 (sizeUnit * unit))
        end
      else convert_units size rest
  end.
Definition convertToByte (size : string) : prog call (res Z) :=
  order <- osAPI (MapOrder (map fst sizeUnits)) ;;
  Ret (convert_units size (if bool_decide (order = ["tib"; "gib"]) then reverse sizeUnits else sizeUnits)).

(** The search for a file system with room: the first one, in the order the array
    lists them, that stays below the maximum size and has fewer treeqs than allowed. *)
Fixpoint choose_filesystem (ts : Service) (maxFileSystemSize maxTreeqPerFS : Z) (fileSystems : list FileSystem)
    : prog call (res FileSystem * Service) :=
  match fileSystems with
  | [] => Ret (Err ErrNotFound, ts)
  | fileSystem :: rest =>
      if (i64 (FileSystem_Size fileSystem + Capacity (Service_NFS ts)) <? maxFileSystemSize)%Z then
        treeqs <- iboxAPI (GetTreeqsByFileSystem (FileSystem_ID fileSystem)) ;;
        match snd treeqs with
        | Some _ => Ret (Err (EText ("failed to get treeq count of filesystemID " +:+ Itoa (FileSystem_ID fileSystem))), ts)
        | None =>
            if (Z.of_nat (length (fst treeqs)) <? maxTreeqPerFS)%Z then
              let ts := set_TreeqCnt (Z.of_nat (length (fst treeqs))) ts in
              exported <- getExportPath ts (FileSystem_ID fileSystem) ;;
              match exported with
              | (Some exportErr, ts) => Ret (Err exportErr, ts)
              | (None, ts) => Ret (Ok fileSystem, ts)
              end
            else choose_filesystem ts maxFileSystemSize maxTreeqPerFS rest
        end
      else choose_filesystem ts maxFileSystemSize maxTreeqPerFS rest
  end.

Definition fs_prefix (params : gmap string string) : string :=
  let fsPrefix := params.[StorageClassFSPrefix] in
  if String.eqb fsPrefix "" then StorageClassFSPrefixDefault else fsPrefix.

Definition getExpectedFileSystemID (ts : Service) (maxFileSystemSize : Z) : prog call (res FileSystem * Service) :=
  let params := StorageClassParameters (Service_NFS ts) in
  if (maxFileSystemSize <? Capacity (Service_NFS ts))%Z
  then Ret (Err (EText "request treeq size is greater than allowed max_filesystem_size"), ts)
  else
  try limit <- iboxAPI GetMaxTreeqPerFs catch err => Ret (Err err, ts) ;;
  let tmpValue := params.[StorageClassMaxTreeqsPerFS] in
  match (if String.eqb tmpValue "" then Ok limit else Atoi tmpValue) with
  | Err err => Ret (Err err, ts)
  | Ok maxTreeqPerFS =>
      fileSystemMetaData <- iboxAPI (GetFileSystemsByPool (Service_PoolID ts) (fs_prefix params)) ;;
      match snd fileSystemMetaData with
      | Some _ => Ret (Err (EText ("failed to get filesystems from poolName " +:+ params.[StorageClassPoolName])), ts)
      | None => choose_filesystem ts maxFileSystemSize maxTreeqPerFS (fst fileSystemMetaData)
      end
  end.

(** [UpdateTreeqCnt] counts the treeqs itself when it is given the count 0. *)
Definition UpdateTreeqCnt (fileSystemID : Z) (action : Action) (treeqCnt : Z) : prog call (res Z) :=
  try cnt <- (if (treeqCnt =? 0)%Z
              then treeqs <- iboxAPI (GetTreeqsByFileSystem fileSystemID) ;;
                   Ret (match snd treeqs with
                        | Some err => Err err
                        | None => Ok (Z.of_nat (length (fst treeqs)))
                        end)
              else Ret (Ok treeqCnt)) catch err => Ret (Err err) ;;
  let treeqCnt := match action with
                  | IncrementTreeqCount => i64 (cnt + 1)
                  | DecrementTreeqCount => i64 (cnt - 1)
                  | NONE => cnt
                  end in
  try _m <- iboxAPI (PutMetadata fileSystemID {[ TreeqCount := JNum (Itoa treeqCnt) ]}) catch err => Ret (Err err) ;;
  Ret (Ok treeqCnt).

(** The end of [CreateTreeqVolume]: the treeq itself, on the chosen file system
    [filesys] or, when that is nil, on the one made for it. *)
Definition create_treeq (ts : Service) (filesys : option FileSystem) (filesystemID : Z)
    : prog call (gmap string string * option error * Service) :=
  let nfs := Service_NFS ts in
  let treeqParameters :=
    {| CreateTreeqRequest_SoftInodes := 0; CreateTreeqRequest_Path := PathJoin ["/"; PVName nfs];
       CreateTreeqRequest_HardCapacity := Capacity nfs; CreateTreeqRequest_HardInodes := 0;
       CreateTreeqRequest_Name := PVName nfs |} in
  try treeqResponse <- iboxAPI (CreateTreeq filesystemID treeqParameters) catch _ =>
    ((match filesys with
      | None => DeleteFileSystemComplete filesystemID ;;; Ret tt
      | Some _ => Ret tt
      end) ;;;
     Ret (∅, Some (EText "failed to create Treeq"), ts)) ;;
  let context : gmap string string :=
    <["volumePath" := PathJoin [ExportPath nfs; Treeq_Path treeqResponse]]>
    (<["ipAddress" := IPAddress nfs]>
    (<["TREEQID" := Itoa (Treeq_ID treeqResponse)]> {[ "ID" := Itoa filesystemID ]})) in
  let treeqCount := i64 (Service_TreeqCnt ts + 1) in
  try _c <- UpdateTreeqCnt filesystemID NONE treeqCount catch _ =>
    ((if (FileSystemID nfs =? 0)%Z then Ret tt
      else iboxAPI (DeleteTreeq (FileSystemID nfs) (Treeq_ID treeqResponse)) ;;; Ret tt) ;;;
     Ret (context, Some (EText "failed to increment treeq count as metadata"), ts)) ;;
  match filesys with
  | None => Ret (context, None, ts)
  | Some fileSystem =>
      r <- iboxAPI (UpdateFileSystem filesystemID
             (FileSystem_of 0 "" (i64 (FileSystem_Size fileSystem + Capacity nfs)) 0 0 "")) ;;
      match r with
      | Ok _ => Ret (context, None, ts)
      | Err _ =>
          (if (filesystemID =? 0)%Z then Ret tt
           else UpdateTreeqCnt filesystemID DecrementTreeqCount 0 ;;; Ret tt) ;;;
          Ret (context, Some (EText "failed to update files size"), ts)
      end
  end.

(** The part of [CreateTreeqVolume] that holds the volume mutex. *)
Definition create_treeq_locked (ts : Service) (maxFileSystemSize : Z)
    : prog call (gmap string string * option error * Service) :=
  found <- getExpectedFileSystemID ts maxFileSystemSize ;;
  match found with
  | (Ok filesys, ts) => create_treeq ts (Some filesys) (FileSystem_ID filesys)
  | (Err err, ts) =>
      if negb (is_ErrNotFound err) then Ret (∅, Some err, ts)
      else match Split (PVName (Service_NFS ts)) "-" with
      | _ :: second :: _ =>
          let treeqFileSystemName := fs_prefix (StorageClassParameters (Service_NFS ts)) +:+ second in
          created <- CreateFileSystem (set_ExportPath ("/" +:+ treeqFileSystemName) (Service_NFS ts)) treeqFileSystemName ;;
          match created with
          | (Some err, nfs) => Ret (∅, Some err, set_NFS nfs ts)
          | (None, nfs) =>
              exported <- CreateExportPathAndAddMetadata nfs ;;
              match exported with
              | (Some err, nfs) => Ret (∅, Some err, set_NFS nfs ts)
              | (None, nfs) => create_treeq (set_NFS nfs ts) None (FileSystemID nfs)
              end
          end
      | _ => Ret (∅, Some err, ts)
      end
  end.

Definition CreateTreeqVolume (ts : Service) (params : gmap string string) (capacity : Z) (pvName : string)
    : prog call (gmap string string * option error * Service) :=
  let ts := set_NFS (set_Capacity capacity (set_request pvName params (Service_NFS ts))) ts in
  try ipAddress <- GetNetworkSpaceIP (Trim params.[StorageClassNetworkSpace] " ") catch err => Ret (∅, Some err, ts) ;;
  let ts := set_NFS (set_IPAddress ipAddress (Service_NFS ts)) ts in
  try pool <- iboxAPI (GetPoolByName params.[StorageClassPoolName]) catch err => Ret (∅, Some err, ts) ;;
  let ts := set_PoolID (PoolResult_ID pool) ts in
  maxFileSystemSize <- (if String.eqb params.[StorageClassMaxFilesystemSize] "" then Ret int64_max
                        else r <- convertToByte params.[StorageClassMaxFilesystemSize] ;;
                             Ret (match r with Ok n => n | Err _ => 0%Z end)) ;;
  osAPI (Lock VolumeMutex) ;;;
  defer (create_treeq_locked ts maxFileSystemSize) (fun _ => osAPI (Unlock VolumeMutex)).

(** The part of [DeleteTreeqVolume] that holds the deletion mutex. *)
Definition delete_treeq_locked (filesystemID treeqID : Z) : prog call (option error) :=
  try treeqCnt <- UpdateTreeqCnt filesystemID DecrementTreeqCount 0 catch err => Ret (Some err) ;;
  d <- iboxAPI (DeleteTreeq filesystemID treeqID) ;;
  match d with
  | Err err => UpdateTreeqCnt filesystemID IncrementTreeqCount 0 ;;; Ret (Some err)
  | Ok _ => if (treeqCnt =? 0)%Z then DeleteFileSystemComplete filesystemID else Ret None
  end.
Definition DeleteTreeqVolume (filesystemID treeqID : Z) : prog call (option error) :=
  try treeq <- iboxAPI (GetTreeq filesystemID treeqID) catch err => Ret (Some err) ;;
  if (0 <? Treeq_UsedCapacity treeq)%Z then Ret (Some (EText "can't delete NFS-treeq PV with data"))
  else
    osAPI (Lock DeleteMutex) ;;;
    defer (delete_treeq_locked filesystemID treeqID) (fun _ => osAPI (Unlock DeleteMutex)).

Fixpoint sum_capacity (treeqs : list Treeq) (acc : Z) : Z :=
  match treeqs with
  | [] => acc
  | t :: rest => sum_capacity rest (i64 (acc + Treeq_HardCapacity t))
  end.

Definition UpdateTreeqVolume (filesystemID treeqID capacity : Z) (maxFileSystemSize : string) : prog call (option error) :=
  try fileSystemResponse <- iboxAPI (GetFileSystemByID filesystemID) catch err => Ret (Some err) ;;
  try treeq <- iboxAPI (GetTreeq filesystemID treeqID) catch err =>
    Ret (if is_ErrNotFound err then None else Some err) ;;
  treeqsInFileSystem <- iboxAPI (GetTreeqsByFileSystem filesystemID) ;;
  match snd treeqsInFileSystem with
  | Some err => Ret (Some err)
  | None =>
      let totalTreeqSize := sum_capacity (fst treeqsInFileSystem) 0 in
      let needToIncreaseSize := i64 (capacity - Treeq_HardCapacity treeq) in
      grown <- (if (FileSystem_Size fileSystemResponse <? i64 (totalTreeqSize + needToIncreaseSize))%Z then
                  let freeSpace := i64 (FileSystem_Size fileSystemResponse - totalTreeqSize) in
                  let increaseFileSizeBy := i64 (needToIncreaseSize - freeSpace) in
                  let size := i64 (FileSystem_Size fileSystemResponse + increaseFileSizeBy) in
                  allowed <- (if String.eqb maxFileSystemSize "" then Ret None
                              else r <- convertToByte maxFileSystemSize ;;
                                   Ret (match r with
                                        | Err err => Some err
                                        | Ok maxBytes => if (maxBytes <? size)%Z
                                                         then Some (EStatus PermissionDenied "expansion capacity not allowed")
                                                         else None
                                        end)) ;;
                  match allowed with
                  | Some err => Ret (Some err)
                  | None => r <- iboxAPI (UpdateFileSystem filesystemID (FileSystem_of 0 "" size 0 0 "")) ;;
                            Ret (match r with Err err => Some err | Ok _ => None end)
                  end
                else Ret None) ;;
      match grown with
      | Some err => Ret (Some err)
      | None =>
          let body := {| UpdateTreeqRequest_SoftInodes := 0; UpdateTreeqRequest_Path := "";
                         UpdateTreeqRequest_HardCapacity := capacity; UpdateTreeqRequest_HardInodes := 0;
                         UpdateTreeqRequest_Name := "" |} in
          r <- iboxAPI (UpdateTreeq filesystemID treeqID body) ;;
          Ret (match r with Err err => Some err | Ok _ => None end)
      end
  end.

(** ** treeqcontroller.go *)

(** [Interface]: what the controller service asks of the treeq service; the
    state is that of the implementation. *)
Record Interface (S : Type) := MkInterface {
  Interface_Create : S -> gmap string string -> Z -> string -> prog call (gmap string string * option error * S);
  Interface_Delete : S -> Z -> Z -> prog call (option error);
  Interface_Update : S -> Z -> Z -> Z -> string -> prog call (option error);
  Interface_Exists : S -> string -> string -> string -> string -> prog call (gmap string string * option error * S)
}.
Arguments Interface_Create {S} _.
Arguments Interface_Delete {S} _.
Arguments Interface_Update {S} _.
Arguments Interface_Exists {S} _.

Definition TreeqService : Interface Service :=
  {| Interface_Create := CreateTreeqVolume;
     Interface_Delete := fun _ => DeleteTreeqVolume;
     Interface_Update := fun _ => UpdateTreeqVolume;
     Interface_Exists := IsTreeqAlreadyExist |}.

(** [Treeqstorage] has an NFS service object of its own beside the service's. *)
Record Treeqstorage (S : Type) := MkTreeqstorage {
  Treeqstorage_service : S;
  Treeqstorage_NFS : NFSstorage
}.
Arguments MkTreeqstorage {S} _ _.
Arguments Treeqstorage_service {S} _.
Arguments Treeqstorage_NFS {S} _.

Definition NewTreeqstorage (capacity : Z) (cs : Commonservice) : Treeqstorage Service :=
  let nfs := NewNFSstorage capacity cs in
  MkTreeqstorage (MkService nfs 0 0) nfs.

Definition treeq_required : list (string * pattern) :=
  [(StorageClassNetworkSpace, re_any_line); (StorageClassPoolName, re_letters)].
Definition treeq_optional : list (string * pattern) :=
  [(StorageClassUID, re_digits); (StorageClassGID, re_digits); (StorageClassMaxFilesystems, re_digits);
   (StorageClassMaxTreeqsPerFS, re_digits); (StorageClassMaxFilesystemSize, re_any_line)].

Definition ValidateStorageClass (params : gmap string string) : option error :=
  match ValidateRequiredOptionalSCParameters treeq_required treeq_optional params with
  | Some err => Some (impl InvalidArgument (Error err))
  | None => match ValidateNFSExportPermissions params with
            | Some err => Some (impl InvalidArgument (Error err))
            | None => None
            end
  end.

Section Controller.
Context {S : Type} (I : Interface S).

Definition CreateVolume (treeq : Treeqstorage S) (req : CSICreateVolumeRequest)
    : prog call (res CreateVolumeResponse * S) :=
  let params := Req_Parameters req in
  let s := Treeqstorage_service treeq in
  GetHostInfo (Req_Secrets req) ;;;
  if existsb GetBlock (default [] (Req_VolumeCapabilities req))
  then Ret (Err (impl InvalidArgument ("treeq GetBlock - block access requested for "
                   +:+ params.[StorageClassStorageProtocol] +:+ " PV: " +:+ Req_Name req)), s)
  else
  existing <- Interface_Exists I s params.[StorageClassPoolName] (Trim params.[StorageClassNetworkSpace] "")
                (Req_Name req) (fs_prefix params) ;;
  match existing with
  | (_, Some err, s) => Ret (Err (impl Internal (Error err)), s)
  | (context, None, s) =>
      made <- (if bool_decide (context = ∅)
               then Interface_Create I s params (Capacity (Treeqstorage_NFS treeq)) (Req_Name req)
               else Ret (context, None, s)) ;;
      match made with
      | (_, Some err, s) => Ret (Err (impl Internal (Error err)), s)
      | (context, None, s) =>
          let context := <[StorageClassGID := params.[StorageClassGID]]>
                        (<[StorageClassUID := params.[StorageClassUID]]>
                        (<[StorageClassStorageProtocol := params.[StorageClassStorageProtocol]]>
                        (<[StorageClassNFSExportPermissions := params.[StorageClassNFSExportPermissions]]> context))) in
          Ret (Ok (Some {| CSIVolume_VolumeId := context.["ID"] +:+ "#" +:+ context.["TREEQID"];
                           CSIVolume_CapacityBytes := Capacity (Treeqstorage_NFS treeq);
                           CSIVolume_VolumeContext := context;
                           CSIVolume_ContentSource := Req_VolumeContentSource req |}), s)
      end
  end.

Definition DeleteVolume (treeq : Treeqstorage S) : prog call (option error) :=
  let vp := VolProto (CS (Treeqstorage_NFS treeq)) in
  e <- Interface_Delete I (Treeqstorage_service treeq)
         (VolumeProtocolConfig_VolumeID vp) (VolumeProtocolConfig_TreeqID vp) ;;
  Ret (match e with
       | Some err => if is_ErrNotFound err then None else Some err
       | None => None
       end).

Definition ControllerPublishVolume : prog call (option error) := Ret None.

Definition ControllerUnpublishVolume (treeq : Treeqstorage S) : prog call (option error) :=
  let vp := VolProto (CS (Treeqstorage_NFS treeq)) in
  e <- DeleteExportRule (VolumeProtocolConfig_VolumeID vp) (VolumeProtocolConfig_NodeID vp) ;;
  Ret (match e with Some err => Some (impl Internal (Error err)) | None => None end).

Definition CreateSnapshot : res CSISnapshot := Err (EStatus Unimplemented "Unsupported operation for treeq").
Definition DeleteSnapshot : option error := Some (EStatus Unimplemented "Unsupported operation for treeq").

Definition ControllerExpandVolume (treeq : Treeqstorage S) (req : CSIExpandRequest) : prog call (res CSIExpandResponse) :=
  let maxFileSystemSize := (StorageClassParameters (Treeqstorage_NFS treeq)).[StorageClassMaxFilesystemSize] in
  let vp := VolProto (CS (Treeqstorage_NFS treeq)) in
  let capacity := Z.max (default 0%Z (Exp_CapacityRange req)) GIB in
  e <- Interface_Update I (Treeqstorage_service treeq)
         (VolumeProtocolConfig_VolumeID vp) (VolumeProtocolConfig_TreeqID vp) capacity maxFileSystemSize ;;
  Ret (match e with
       | Some err => Err (impl Internal (Error err))
       | None => Ok (MkCSIExpandResponse capacity false)
       end).
End Controller.
