(* ===== verification/Storage.v ===== *)
(** [storage/storageservice.go]: the protocol implementations behind one
    interface, and how one is chosen. *)
From stdpp Require Import base strings list gmap.
From S2P Require Import Prelude GoLib IboxTypes Csi Helper StorageCommon Nfs Treeq.
From S2P Require Fc Iscsi Nvme.
From Stdlib Require Import ZArith Ascii.

Local Open Scope string_scope.
Local Open Scope list_scope.

(** A value of [StorageOperations]: one of the five implementations. *)
Inductive StorageOperations :=
| OpFC (s : Fc.FCstorage)
| OpISCSI (s : Iscsi.ISCSIstorage)
| OpNVME (s : Nvme.NVMEstorage)
| OpNFS (s : NFSstorage)
| OpTreeq (s : Treeqstorage Service).

Definition NewStorageNode (commonService : Commonservice) (capacity : Z) : res StorageOperations :=
  let storageProtocol := VolumeProtocolConfig_StorageType (VolProto commonService) in
  if String.eqb storageProtocol ProtocolFC then Ok (OpFC (Fc.NewFCstorage capacity commonService))
  else if String.eqb storageProtocol ProtocolISCSI then Ok (OpISCSI (Iscsi.NewISCSIstorage capacity commonService))
  else if String.eqb storageProtocol ProtocolNVME then Ok (OpNVME (Nvme.NewNVMEstorage capacity commonService))
  else if String.eqb storageProtocol ProtocolNFS then Ok (OpNFS (NewNFSstorage capacity commonService))
  else if String.eqb storageProtocol ProtocolTreeq then Ok (OpTreeq (NewTreeqstorage capacity commonService))
  else Err (EText ("Error: Invalid storage protocol -" +:+ storageProtocol)).

Section NewController.
Variable url_Parse : string -> res (string * string).
Variable url_ParseRequestURI : string -> bool.

Definition NewStorageController (config secrets : gmap string string) (volumePrototype : VolumeProtocolConfig)
    (capacity : Z) : prog call (res (StorageOperations * Commonservice)) :=
  try commonService <- BuildCommonService url_Parse url_ParseRequestURI config secrets volumePrototype catch err =>
    Ret (Err err) ;;
  match NewStorageNode commonService capacity with
  | Err err => Ret (Err err)
  | Ok operations => Ret (Ok (operations, commonService))
  end.
End NewController.

(** The implementation shares the volume's description with the controller
    server, which may change it after the implementation was made. *)
Definition share_VolProto (vp : VolumeProtocolConfig) (ops : StorageOperations) : StorageOperations :=
  let share (cs : Commonservice) := MkCommonservice (storagePoolIDName cs) (driverVersion cs) vp in
  match ops with
  | OpFC s => OpFC (Fc.MkFCstorage (Fc.FC_Capacity s) (share (Fc.FC_CS s)))
  | OpISCSI s => OpISCSI (Iscsi.MkISCSIstorage (Iscsi.ISCSI_Capacity s) (share (Iscsi.ISCSI_CS s)))
  | OpNVME s => OpNVME (Nvme.MkNVMEstorage (Nvme.NVME_Capacity s) (share (Nvme.NVME_CS s)))
  | OpNFS s => OpNFS (set_CS (share (CS s)) s)
  | OpTreeq s => OpTreeq (MkTreeqstorage
      (Treeq.set_NFS (set_CS (share (CS (Service_NFS (Treeqstorage_service s)))) (Service_NFS (Treeqstorage_service s)))
         (Treeqstorage_service s))
      (set_CS (share (CS (Treeqstorage_NFS s))) (Treeqstorage_NFS s)))
  end.

(** ** The methods, dispatched *)

Definition ValidateStorageClass (ops : StorageOperations) (params : gmap string string)
    : option error * StorageOperations :=
  match ops with
  | OpFC _ => (Fc.ValidateStorageClass params, ops)
  | OpISCSI _ => (Iscsi.ValidateStorageClass params, ops)
  | OpNVME _ => (Nvme.ValidateStorageClass params, ops)
  | OpNFS s => let '(e, s) := Nfs.ValidateStorageClass s params in (e, OpNFS s)
  | OpTreeq _ => (Treeq.ValidateStorageClass params, ops)
  end.

(** The response and the request's parameters afterwards: the NFS service object
    keeps the request's map and writes the volume's attributes into it. *)
Definition CreateVolume (ops : StorageOperations) (req : CSICreateVolumeRequest)
    : prog call (res CreateVolumeResponse * gmap string string) :=
  let same (p : prog call (res CreateVolumeResponse)) := r <- p ;; Ret (r, Req_Parameters req) in
  match ops with
  | OpFC s => same (Fc.CreateVolume s req)
  | OpISCSI s => same (Iscsi.CreateVolume s req)
  | OpNVME s => same (Nvme.CreateVolume s req)
  | OpNFS s => r <- Nfs.CreateVolume s req ;;
               Ret (match r with
                    | (Ok v, s) => (Ok v, StorageClassParameters s)
                    | (Err err, _) => (Err err, Req_Parameters req)
                    end)
  | OpTreeq s => r <- Treeq.CreateVolume TreeqService s req ;; Ret (fst r, Req_Parameters req)
  end.

Definition DeleteVolume (fuel : nat) (ops : StorageOperations) : prog call (option error) :=
  match ops with
  | OpFC s => Fc.DeleteVolume fuel s
  | OpISCSI s => Iscsi.DeleteVolume fuel s
  | OpNVME s => Nvme.DeleteVolume fuel s
  | OpNFS s => Nfs.DeleteVolume fuel s
  | OpTreeq s => Treeq.DeleteVolume TreeqService s
  end.

(** The publish context. *)
Definition ControllerPublishVolume (ops : StorageOperations) (req : CSIPublishRequest)
    : prog call (res (gmap string string)) :=
  match ops with
  | OpFC _ => Fc.ControllerPublishVolume req
  | OpISCSI _ => Iscsi.ControllerPublishVolume req
  | OpNVME _ => Nvme.ControllerPublishVolume req
  | OpNFS _ => e <- Nfs.ControllerPublishVolume req ;;
               Ret (match e with Some err => Err err | None => Ok ∅ end)
  | OpTreeq _ => e <- Treeq.ControllerPublishVolume ;;
                 Ret (match e with Some err => Err err | None => Ok ∅ end)
  end.

Definition ControllerUnpublishVolume (ops : StorageOperations) : prog call (option error) :=
  match ops with
  | OpFC s => Fc.ControllerUnpublishVolume s
  | OpISCSI s => Iscsi.ControllerUnpublishVolume s
  | OpNVME s => Nvme.ControllerUnpublishVolume s
  | OpNFS s => Nfs.ControllerUnpublishVolume s
  | OpTreeq s => Treeq.ControllerUnpublishVolume s
  end.

Definition CreateSnapshot (ops : StorageOperations) (req : CSISnapshotRequest) : prog call (res CSISnapshot) :=
  match ops with
  | OpFC s => Fc.CreateSnapshot s req
  | OpISCSI s => Iscsi.CreateSnapshot s req
  | OpNVME s => Nvme.CreateSnapshot s req
  | OpNFS s => Nfs.CreateSnapshot s req
  | OpTreeq _ => Ret Treeq.CreateSnapshot
  end.

Definition DeleteSnapshot (fuel : nat) (ops : StorageOperations) (snapshotId : string) : prog call (option error) :=
  match ops with
  | OpFC _ => Fc.DeleteSnapshot fuel snapshotId
  | OpISCSI _ => Iscsi.DeleteSnapshot fuel snapshotId
  | OpNVME _ => Nvme.DeleteSnapshot fuel snapshotId
  | OpNFS s => Nfs.DeleteSnapshot fuel s snapshotId
  | OpTreeq _ => Ret Treeq.DeleteSnapshot
  end.

Definition ControllerExpandVolume (ops : StorageOperations) (req : CSIExpandRequest)
    : prog call (res CSIExpandResponse) :=
  match ops with
  | OpFC s => Fc.ControllerExpandVolume s req
  | OpISCSI s => Iscsi.ControllerExpandVolume s req
  | OpNVME s => Nvme.ControllerExpandVolume s req
  | OpNFS s => Nfs.ControllerExpandVolume s
  | OpTreeq s => Treeq.ControllerExpandVolume TreeqService s req
  end.
