(* ===== verification/BlockProofs.v ===== *)
(** Properties of the block controllers (Fibre Channel, iSCSI, NVMe): what a
    volume creation asks of the array and answers, and when a volume is mapped to
    a host. The three implementations satisfy the same statements. *)
From stdpp Require Import base strings list gmap.
From S2P Require Import Prelude GoLib IboxTypes Traces Csi Helper StorageCommon Block Storage.
From S2P Require Fc Iscsi Nvme.
From Stdlib Require Import ZArith Lia.

Local Open Scope string_scope.
Local Open Scope list_scope.

(** One of the three, made for a request of [capacity] bytes. *)
Definition block_ops (capacity : Z) (cs : Commonservice) (ops : StorageOperations) : Prop :=
  ops = OpFC (Fc.NewFCstorage capacity cs) \/ ops = OpISCSI (Iscsi.NewISCSIstorage capacity cs) \/
  ops = OpNVME (Nvme.NewNVMEstorage capacity cs).

Lemma await_volume_runs n id t o :
  runs (Nvme.await_volume n id) t o ->
  changed t = [] /\
  match o with
  | Done (Some v) => Evt (Ibox (GetVolume id)) (Ok v) ∈ t
  | Done None => True
  | _ => False
  end.
Proof.
  revert t o. induction n as [|n IH]; cbn; intros t o.
  { by intros [-> ->]. }
  intros (r & t1 & -> & Hr). destruct r as [v|e]; cbn in Hr.
  - destruct Hr as [-> ->]. split; [done|by left].
  - destruct Hr as (u & t2 & -> & Hr). destruct (IH _ _ Hr) as [H1 H2].
    split; [done|]. destruct o as [[v|]| |]; try done. by do 2 right.
Qed.

(** ** Creation *)

(** What the array answered before the creation of a volume, and the request
    made of it. *)
Definition requested (capacity : Z) (req : CSICreateVolumeRequest) (before : trace) (r : CreateVolumeRequest) : Prop :=
  let params := Req_Parameters req in
  exists err pool,
    Evt (Ibox (GetVolumeByName (Req_Name req))) (Err err) ∈ before /\ is_ErrNotFound err = true /\
    Evt (Ibox (GetPoolByName params.[StorageClassPoolName])) (Ok pool) ∈ before /\
    CreateVolumeRequest_Name r = Req_Name req /\ CreateVolumeRequest_VolumeSize r = capacity /\
    CreateVolumeRequest_PoolID r = PoolResult_ID pool /\
    CreateVolumeRequest_ProvisionType r = default StorageClassThinProvision (params !! StorageClassProvisionType) /\
    DetermineSSDValue params.[StorageClassSSDEnabled] pool = Ok (CreateVolumeRequest_SSDEnabled r).

(** Nothing was changed: the array already has the volume, or the request failed;
    the only panic is that of the pool-name cache. *)
Definition unchanged (capacity : Z) (req : CSICreateVolumeRequest) (t : trace)
    (o : outcome (res CreateVolumeResponse * gmap string string)) : Prop :=
  match o with
  | Done (Ok (Some v), _) =>
      exists f, Evt (Ibox (GetVolumeByName (Req_Name req))) (Ok f) ∈ t /\ Volume_Size f = capacity /\
        CSIVolume_VolumeId v = Itoa (Volume_ID f) /\ CSIVolume_CapacityBytes v = capacity
  | Done (Ok None, _) => False
  | Done (Err _, _) => True
  | Panicked => exists f, Evt (Ibox (GetVolumeByName (Req_Name req))) (Ok f) ∈ t /\ Volume_PoolName f = ""
  | Exhausted => False
  end.

(** What follows the creation of [vol]: at most the volume's own tag. *)
Definition after_creation (vol : Volume) (t : trace)
    (o : outcome (res CreateVolumeResponse * gmap string string)) : Prop :=
  (changed t = [] /\ ((exists e m, o = Done (Err e, m)) \/ (o = Panicked /\ Volume_PoolName vol = ""))) \/
  (exists vol' a, changed t = [Evt (Ibox (PutMetadata (Volume_ID vol')
                                      {[ "host.k8s.pvname" := JStr (Volume_Name vol') ]})) a] /\
     (vol' = vol \/ Evt (Ibox (GetVolume (Volume_ID vol))) (Ok vol') ∈ t) /\
     match a with
     | Err _ => exists e m, o = Done (Err e, m)
     | Ok _ => exists v m, o = Done (Ok (Some v), m) /\ CSIVolume_VolumeId v = Itoa (Volume_ID vol) /\
                 CSIVolume_CapacityBytes v = Volume_Size vol
     end).

Definition creation capacity req t o : Prop :=
  (changed t = [] /\ unchanged capacity req t o) \/
  (exists t1 r a t2, t = t1 ++ Evt (Ibox (IboxTypes.CreateVolume r)) a :: t2 /\
     changed t1 = [] /\ requested capacity req t1 r /\
     match a with
     | Err _ => t2 = [] /\ exists e m, o = Done (Err e, m)
     | Ok vol => after_creation vol t2 o
     end).

Ltac before_create l :=
  lazymatch l with
  | Evt (Ibox (IboxTypes.CreateVolume _)) _ :: _ => constr:(@nil (evt call))
  | ?e :: ?l => let p := before_create l in constr:(e :: p)
  end.

(** Close the leaves of a creation: the trace shows whether a volume was asked
    for, what was known before, and what followed. *)
Ltac solve_requested :=
  do 2 eexists; split; [in_trace|]; split; [assumption|]; split; [in_trace|];
  repeat (split; [reflexivity|]); assumption.
Ltac solve_unchanged :=
  cbn; first
    [ exact I
    | eexists; split; [in_trace|]; split; [by apply Z.eqb_eq|]; split; [reflexivity|by apply Z.eqb_eq]
    | eexists; split; [in_trace|by apply String.eqb_eq] ].
Ltac solve_changed :=
  rewrite ?changed_cons, ?changed_app; cbn [mutates changes];
  repeat match goal with H : changed _ = [] |- _ => rewrite H end; reflexivity.
Ltac solve_member := rewrite ?elem_of_cons, ?elem_of_app; tauto.
Ltac solve_after :=
  first
    [ left; split; [solve_changed|]; first [ by left; eexists _, _ | right; split; [reflexivity|by apply String.eqb_eq] ]
    | right; do 2 eexists; split; [solve_changed|];
      split; [first [by left | right; solve_member]|];
      first [ by eexists _, _ | eexists _, _; split; [reflexivity|by split] ] ].
Ltac solve_creation :=
  cbn [CSIVolume_VolumeId fst] in *;
  repeat match goal with
         | H : negb _ = false |- _ => apply negb_false_iff in H
         | H : Atoi (Itoa _) = Ok _ |- _ => apply Atoi_Itoa_inv in H as ->
         end;
  lazymatch goal with
  | |- creation _ _ ?t _ =>
      first
        [ let p := before_create t in
          right; exists p; do 3 eexists; split; [reflexivity|]; split; [reflexivity|]; split; [solve_requested|];
          first [ by split; [|eexists _, _] | solve_after ]
        | left; split; [reflexivity|]; solve_unchanged ]
  end.

Lemma fc_creation cap cs req t o :
  Req_VolumeContentSource req = None ->
  runs (Storage.CreateVolume (OpFC (Fc.NewFCstorage cap cs)) req) t o -> creation cap req t o.
Proof.
  intros Hsrc. revert t o. wp_start.
  unfold Storage.CreateVolume, Fc.CreateVolume, existing_volume, request_volume, tag_volume, GetCSIResponse,
    getStoragePoolNameFromID, GetHostInfo, Fc.NewFCstorage.
  cbn [Fc.FC_CS Fc.FC_Capacity]. rewrite Hsrc. wp_run.
  all: wp_leaf. all: solve_creation.
Qed.

Lemma iscsi_creation cap cs req t o :
  Req_VolumeContentSource req = None ->
  runs (Storage.CreateVolume (OpISCSI (Iscsi.NewISCSIstorage cap cs)) req) t o -> creation cap req t o.
Proof.
  intros Hsrc. revert t o. wp_start.
  unfold Storage.CreateVolume, Iscsi.CreateVolume, existing_volume, request_volume, tag_volume, GetCSIResponse,
    getStoragePoolNameFromID, GetHostInfo, Iscsi.NewISCSIstorage.
  cbn [Iscsi.ISCSI_CS Iscsi.ISCSI_Capacity]. rewrite Hsrc. wp_run.
  all: wp_leaf. all: solve_creation.
Qed.

Lemma nvme_creation cap cs req t o :
  Req_VolumeContentSource req = None ->
  runs (Storage.CreateVolume (OpNVME (Nvme.NewNVMEstorage cap cs)) req) t o -> creation cap req t o.
Proof.
  intros Hsrc. revert t o. wp_start.
  unfold Storage.CreateVolume, Nvme.CreateVolume, existing_volume, request_volume, tag_volume, GetCSIResponse,
    getStoragePoolNameFromID, GetHostInfo, Nvme.NewNVMEstorage.
  cbn [Nvme.NVME_CS Nvme.NVME_Capacity]. rewrite Hsrc. wp_run.
  all: try (wp_leaf; solve_creation).
  all: apply wp_bind; eapply wp_call; [apply await_volume_runs|]; intros t o [Ht Ho].
  all: destruct o as [[v|]| |]; [| |done..].
  all: wp_run; wp_leaf; solve_creation.
Qed.

(** C18: creating a volume without a content source, over Fibre Channel, iSCSI or
    NVMe, changes nothing when the array already has a volume of the name, and
    then answers it only if it has the requested size. Otherwise it asks once for
    a volume, after the array answered that the name is free and knew the pool,
    with the requested name, size, pool, provisioning and SSD setting; then it
    writes at most the tag of the new volume. Success answers the volume made and
    its size; a volume made is never deleted, so a failed request leaves it to be
    found by name when the request is repeated. The only panic is that of the
    pool-name cache. *)
Theorem CreateVolume_block_spec ops capacity cs req t o :
  block_ops capacity cs ops -> Req_VolumeContentSource req = None ->
  runs (Storage.CreateVolume ops req) t o -> creation capacity req t o.
Proof.
  intros [->|[->| ->]] Hsrc.
  - exact (fc_creation _ _ _ _ _ Hsrc).
  - exact (iscsi_creation _ _ _ _ _ Hsrc).
  - exact (nvme_creation _ _ _ _ _ Hsrc).
Qed.

(** ** Publishing *)

(** The names the node's host object may have. *)
Definition host_of_node (suffix nodeID name : string) : Prop :=
  exists full port n, Split nodeID "$$" = [full; port] /\ (n = full \/ n = shortHost full) /\
    (name = n +:+ suffix \/ name = shortHost (n +:+ suffix)).
Definition known_host (suffix nodeID : string) (t : trace) (host : Host) : Prop :=
  exists name, host_of_node suffix nodeID name /\
    (Evt (Ibox (GetHostByName name)) (Ok host) ∈ t \/ Evt (Ibox (CreateHost name)) (Ok host) ∈ t).

Definition may_have_more (maxVols : string) (mapped : nat) : Prop :=
  maxVols = "" \/ exists n, Atoi maxVols = Ok n /\ (1 <= n)%Z /\ (Z.of_nat mapped < n)%Z.

(** What was known when a call that changes the array is made. *)
Definition publish_guard (suffix : string) (req : CSIPublishRequest) (before : trace) (e : evt call) : Prop :=
  match e with
  | Evt (Ibox i) _ =>
      match i with
      | MapVolumeToHost hostID volumeID lun =>
          lun = (-1)%Z /\
          exists vp volume luns host,
            ValidateVolumeID (Pub_VolumeId req) = Ok vp /\ volumeID = VolumeProtocolConfig_VolumeID vp /\
            Evt (Ibox (GetVolume volumeID)) (Ok volume) ∈ before /\ is_ok (IsValidAccessMode volume req) = true /\
            known_host suffix (Pub_NodeId req) before host /\ hostID = Host_ID host /\
            Evt (Ibox (GetAllLunByHost hostID)) (luns, None) ∈ before /\ find_lun volumeID luns = None /\
            may_have_more (GetVolumeContext req).[StorageClassMaxVolsPerHost] (length luns)
      | CreateHost name =>
          host_of_node suffix (Pub_NodeId req) name /\
          exists err, Evt (Ibox (GetHostByName name)) (Err err) ∈ before /\ is_ErrNotFound err = true
      | PutMetadata id m =>
          m = {[ CSICreatedHost := JBool true ]} /\
          exists name host, Evt (Ibox (CreateHost name)) (Ok host) ∈ before /\ id = Host_ID host
      | _ => changes i = false
      end
  | _ => True
  end.

(** The LUN answered is the one the host already had, or the new mapping's. *)
Definition published (suffix : string) (req : CSIPublishRequest) (t : trace) (ctx : gmap string string) : Prop :=
  exists vp host lun,
    ValidateVolumeID (Pub_VolumeId req) = Ok vp /\ known_host suffix (Pub_NodeId req) t host /\
    ctx.[HostIDPublishContext] = Itoa (Host_ID host) /\ ctx.[LunPublishContext] = Itoa (LunInfo_Lun lun) /\
    ((exists luns, Evt (Ibox (GetAllLunByHost (Host_ID host))) (luns, None) ∈ t /\
        find_lun (VolumeProtocolConfig_VolumeID vp) luns = Some lun) \/
     Evt (Ibox (MapVolumeToHost (Host_ID host) (VolumeProtocolConfig_VolumeID vp) (-1))) (Ok lun) ∈ t \/
     Evt (Ibox (GetLunByHostVolume (Host_ID host) (VolumeProtocolConfig_VolumeID vp))) (Ok lun) ∈ t).

Definition publishing suffix req t (o : outcome (res (gmap string string))) : Prop :=
  guarded (publish_guard suffix req) t /\
  match o with
  | Done (Ok ctx) => published suffix req t ctx
  | Done (Err e) => exists c m, e = EImpl c m
  | _ => False
  end.

Lemma check_max_vols_none s n invalid limit :
  check_max_vols s n invalid limit = None -> may_have_more s n.
Proof.
  unfold check_max_vols, may_have_more. destruct (String.eqb_spec s "") as [->|_]; [by left|].
  destruct (Atoi s) as [m|]; [|done]. repeat case_match; try done. intros _. right. exists m.
  split; [done|]. split; lia.
Qed.
Lemma check_max_vols_some s n invalid limit e :
  check_max_vols s n invalid limit = Some e ->
  (exists c m, invalid = EImpl c m) -> (forall k, exists c m, limit k = EImpl c m) -> exists c m, e = EImpl c m.
Proof. unfold check_max_vols. intros H Hi Hl. repeat case_match; simplify_eq; eauto. Qed.

Lemma host_of_node_suffixed suffix nodeID s port (b0 b1 : bool) :
  Split nodeID "$$" = [s; port] ->
  host_of_node suffix nodeID
    (if b1 then shortHost ((if b0 then shortHost s else s) +:+ suffix) else (if b0 then shortHost s else s) +:+ suffix).
Proof.
  intros H. exists s, port, (if b0 then shortHost s else s). split; [done|].
  split; [destruct b0; tauto|destruct b1; tauto].
Qed.
Lemma host_of_node_plain nodeID s port (b0 b1 : bool) :
  Split nodeID "$$" = [s; port] ->
  host_of_node "" nodeID
    (if b1 then shortHost (if b0 then shortHost s else s) else if b0 then shortHost s else s).
Proof.
  intros H. pose proof (host_of_node_suffixed "" _ _ _ b0 b1 H) as Hn. by rewrite !app_nil_s in Hn.
Qed.

(** Close the leaves of a publication. *)
Ltac solve_name := first [eapply host_of_node_plain; eassumption | eapply host_of_node_suffixed; eassumption].
Ltac solve_known := eexists; split; [|first [left; in_trace | right; in_trace]]; solve_name.
Ltac solve_publish_guard :=
  lazymatch goal with
  | |- publish_guard _ _ _ (Evt (Ibox (MapVolumeToHost _ _ _)) _) =>
      split; [reflexivity|]; do 4 eexists; split; [eassumption|]; split; [reflexivity|]; split; [in_trace|];
      split; [match goal with H : IsValidAccessMode _ _ = Ok _ |- _ => by rewrite H end|];
      split; [solve_known|]; split; [reflexivity|]; split; [in_trace|]; split; [assumption|];
      eapply check_max_vols_none; eassumption
  | |- publish_guard _ _ _ (Evt (Ibox (CreateHost _)) _) =>
      split; [solve_name|]; eexists; split; [in_trace|assumption]
  | |- publish_guard _ _ _ (Evt (Ibox (PutMetadata _ _)) _) =>
      split; [reflexivity|]; eexists _, _; split; [in_trace|reflexivity]
  end.
Ltac solve_published :=
  lazymatch goal with
  | |- published _ _ _ _ =>
      do 3 eexists; split; [eassumption|]; split; [solve_known|];
      split; [reflexivity|]; split; [reflexivity|];
      first [ left; eexists; split; [in_trace|eassumption] | right; left; in_trace | right; right; in_trace ]
  | |- exists c m, _ = _ =>
      first [ by eexists _, _
            | eapply check_max_vols_some; [eassumption|by eexists _, _|by intros k; eexists _, _] ]
  end.

Lemma fc_publishing req t o : runs (Fc.ControllerPublishVolume req) t o -> publishing "" req t o.
Proof.
  revert t o. wp_start.
  unfold Fc.ControllerPublishVolume, publish_lun, ValidateHost, DetermineHostName, MapVolumeTohost, GetHostInfo.
  wp_run. all: wp_leaf; split; [guard_event; solve_publish_guard|solve_published].
Qed.
Lemma iscsi_publishing req t o : runs (Iscsi.ControllerPublishVolume req) t o -> publishing "" req t o.
Proof.
  revert t o. wp_start.
  unfold Iscsi.ControllerPublishVolume, publish_lun, ValidateHost, DetermineHostName, MapVolumeTohost, GetHostInfo.
  wp_run. all: wp_leaf; split; [guard_event; solve_publish_guard|solve_published].
Qed.
Lemma nvme_publishing req t o : runs (Nvme.ControllerPublishVolume req) t o -> publishing "-nvme" req t o.
Proof.
  revert t o. wp_start.
  unfold Nvme.ControllerPublishVolume, publish_lun, ValidateHost, DetermineHostName, MapVolumeTohost, GetHostInfo.
  wp_run. all: wp_leaf; split; [guard_event; solve_publish_guard|solve_published].
Qed.

Definition host_suffix (ops : StorageOperations) : string :=
  match ops with OpNVME _ => Nvme.NVMEHostSuffix | _ => "" end.

(** C19: publishing a volume over Fibre Channel, iSCSI or NVMe maps it to a host
    only after the array answered the volume, whose access mode fits the request,
    and the LUNs of the host of the node, which the volume is not among and which
    are fewer than the limit of the storage class. The host is made, and tagged
    as the driver's, only when the array does not know one of the node's name.
    Nothing else is changed. Success answers the host and the LUN of the volume,
    found or mapped; every error is one of the driver's own. *)
Theorem ControllerPublishVolume_block_spec ops capacity cs req t o :
  block_ops capacity cs ops -> runs (Storage.ControllerPublishVolume ops req) t o ->
  publishing (host_suffix ops) req t o.
Proof.
  intros [->|[->| ->]]; [apply fc_publishing|apply iscsi_publishing|apply nvme_publishing].
Qed.

(** ** Examples *)

#[local] Transparent gmap_empty.

Definition cs_fc : Commonservice :=
  {| storagePoolIDName := None; driverVersion := "2.22"; VolProto := MkVolumeProtocolConfig 0 ProtocolFC "" None "" 0 |}.
Definition vol_fc : Volume := Volume_of 7 "pvc-7" 1073741824 0 1 "pool" "UNLOCKED" false.
Definition create_fc : CSICreateVolumeRequest :=
  MkCSICreateVolumeRequest "pvc-7" (Some 1073741824%Z) None {[ StorageClassPoolName := "pool" ]} ∅ None.
Definition create_fc_trace : trace :=
  [Evt (Ibox GetSystem) (Ok 1%Z); Evt (Ibox (GetVolumeByName "pvc-7")) (Err ErrNotFound);
   Evt (Ibox (GetPoolByName "pool")) (Ok (PoolResult_of 1 "pool" true));
   Evt (Ibox (IboxTypes.CreateVolume {| CreateVolumeRequest_Name := "pvc-7"; CreateVolumeRequest_PoolID := 1;
      CreateVolumeRequest_SSDEnabled := true; CreateVolumeRequest_ProvisionType := "THIN";
      CreateVolumeRequest_VolumeSize := 1073741824 |})) (Ok vol_fc);
   Evt (Os (LocalTimeString 0)) "now"; Evt (Ibox (GetVolume 7)) (Ok vol_fc);
   Evt (Ibox (PutMetadata 7 {[ "host.k8s.pvname" := JStr "pvc-7" ]})) (Ok (MkResponse (Metadata_of 1) [] (APIError_of "" "")))].

Lemma CreateVolume_block_spec_witness :
  let ops := OpFC (Fc.NewFCstorage 1073741824 cs_fc) in
  exists r, runs (Storage.CreateVolume ops create_fc) create_fc_trace (Done r) /\
    creation 1073741824 create_fc create_fc_trace (Done r).
Proof.
  cbv zeta. set (ops := OpFC _).
  assert (H : exists r, runs (Storage.CreateVolume ops create_fc) create_fc_trace (Done r))
    by (eexists; subst ops; unfold create_fc_trace; rerun).
  destruct H as [r H]. exists r. split; [exact H|].
  exact (CreateVolume_block_spec ops 1073741824 cs_fc create_fc _ _ (or_introl eq_refl) eq_refl H).
Defined.

Definition publish_fc : CSIPublishRequest :=
  {| Pub_VolumeId := "7$$fc"; Pub_NodeId := "node1$$10.0.0.1";
     Pub_VolumeCapability := Some (MkVolumeCapability (Some SINGLE_NODE_WRITER) AccessBlock);
     Pub_Readonly := false; Pub_Secrets := ∅; Pub_VolumeContext := Some ∅ |}.
Definition publish_fc_trace : trace :=
  [Evt (Ibox GetSystem) (Ok 1%Z); Evt (Os (Getenv EnvVarRemoveDomainName)) "";
   Evt (Os (Getenv EnvVarRemoveDomainName)) ""; Evt (Ibox (GetHostByName "node1")) (Ok (Host_of 3 "node1" []));
   Evt (Ibox (GetVolume 7)) (Ok vol_fc); Evt (Ibox (GetAllLunByHost 3)) ([], None);
   Evt (Ibox (MapVolumeToHost 3 7 (-1))) (Ok LunInfo_zero)].

Lemma ControllerPublishVolume_block_spec_witness :
  let ops := OpFC (Fc.NewFCstorage 0 cs_fc) in
  exists ctx, runs (Storage.ControllerPublishVolume ops publish_fc) publish_fc_trace (Done (Ok ctx)) /\
    published "" publish_fc publish_fc_trace ctx.
Proof.
  cbv zeta. set (ops := OpFC _).
  assert (H : exists ctx, runs (Storage.ControllerPublishVolume ops publish_fc) publish_fc_trace (Done (Ok ctx)))
    by (eexists; subst ops; unfold publish_fc_trace; rerun).
  destruct H as [ctx H]. exists ctx. split; [exact H|].
  exact (proj2 (ControllerPublishVolume_block_spec ops 0 cs_fc publish_fc _ _ (or_introl eq_refl) H)).
Defined.
