(* ===== verification/Controller.v ===== *)
(** [service/controller.go] and [service/protocolsecret.go]: the controller
    service the orchestrator calls. Each handler validates its request, chooses
    the protocol implementation and turns its errors into gRPC statuses. *)
From stdpp Require Import base strings list gmap.
From S2P Require Import Prelude GoLib IboxTypes Csi KubeClient Helper StorageCommon Storage ScReplica.
From S2P Require Nvme.
From Stdlib Require Import ZArith Ascii.

Local Open Scope string_scope.
Local Open Scope list_scope.

(** The fields of [Driver] the handlers read. *)
Record Driver := MkDriver { nodeID : string; version : string }.

Record CSIDeleteVolumeRequest := MkCSIDeleteVolumeRequest { Del_VolumeId : string; Del_Secrets : gmap string string }.
Record CSIUnpublishRequest := MkCSIUnpublishRequest {
  Unpub_VolumeId : string;
  Unpub_NodeId : string;
  Unpub_Secrets : gmap string string
}.
Record CSIDeleteSnapshotRequest := MkCSIDeleteSnapshotRequest {
  DelSnap_SnapshotId : string;
  DelSnap_Secrets : gmap string string
}.
Record CSIValidateRequest := MkCSIValidateRequest {
  Val_VolumeId : string;
  Val_VolumeCapabilities : option (list VolumeCapability);
  Val_Parameters : gmap string string;
  Val_Secrets : gmap string string
}.

(** ** protocolsecret.go *)

Definition ProtocolSecretISCSINetworkSpace : string := "iscsi.network_space".
Definition ProtocolSecretISCSIUseCHAP : string := "iscsi.useCHAP".
Definition ProtocolSecretNVMENetworkSpace : string := "nvme.network_space".
Definition ProtocolSecretNFSNetworkSpace : string := "nfs.network_space".
Definition ProtocolSecretNFSExportPermissions : string := "nfs.nfs_export_permissions".

Definition protocol_of_secret (storageProtocol : string) : bool :=
  bool_decide (storageProtocol ∈ [""; ProtocolNFS; ProtocolTreeq; ProtocolNVME; ProtocolFC; ProtocolISCSI; ProtocolAuto]).

(** [GetProtocolSecret]: [None] when no protocol secret is in use. *)
Definition GetProtocolSecret : prog call (res (option (gmap string string))) :=
  secretName <- osAPI (Getenv EnvVarProtocolSecret) ;;
  secretNamespace <- osAPI (Getenv EnvVarPodNamespace) ;;
  if String.eqb secretName "" then Ret (Ok None)
  else if String.eqb secretNamespace "" then
    Ret (Err (EStatus InvalidArgument
           "error - protocol secret namespace is blank - verify your StorageClass has the values set"))
  else
    client <- kubeAPI BuildClient ;;
    match client with
    | Some err => Ret (Err (EStatus InvalidArgument ("error " +:+ Error err +:+ " - could not get kube client")))
    | None =>
        try protocolSecret <- GetSecret secretName secretNamespace catch err =>
          Ret (Err (EStatus InvalidArgument ("error " +:+ Error err +:+ " - could not get protocol secret"))) ;;
        let storageProtocol := protocolSecret.[StorageClassStorageProtocol] in
        if protocol_of_secret storageProtocol then Ret (Ok (Some protocolSecret))
        else Ret (Err (EStatus InvalidArgument ("error - unsupported protocol specified " +:+ storageProtocol)))
    end.

(** ** Validation of requests *)

(** The two switches on the access mode accept the same modes. *)
Definition supported_mode (m : AccessMode) : bool :=
  match m with
  | MULTI_NODE_READER_ONLY | SINGLE_NODE_WRITER | MULTI_NODE_MULTI_WRITER => true
  | _ => false
  end.
Definition supported_fstype (fsType : string) : bool :=
  bool_decide (fsType ∈ [""; FSTypeExt3; FSTypeExt4; FSTypeXFS]).

(** The body of the loop: an error, or whether the capability asks for a block
    device and for a file system. *)
Definition check_capability (capability : VolumeCapability) (mode : AccessMode) : res (bool * bool) :=
  if GetBlock capability && negb (supported_mode mode)
  then Err (EText ("access mode [" +:+ AccessMode_String mode +:+ "] is not a supported block access mode"))
  else match GetMount capability with
       | None => Ok (GetBlock capability, false)
       | Some (fsType, _) =>
           if negb (supported_mode mode)
           then Err (EText ("access mode [" +:+ AccessMode_String mode +:+ "] is not a supported file access mode"))
           else if negb (supported_fstype fsType)
           then Err (EText ("fstype [" +:+ fsType +:+ "] is not supported"))
           else Ok (GetBlock capability, true)
       end.

Fixpoint check_capabilities (capabilities : list VolumeCapability) (isBlock isFile : bool) (modes : string)
    : res (bool * bool * string) :=
  match capabilities with
  | [] => Ok (isBlock, isFile, modes)
  | capability :: rest =>
      match GetAccessMode capability with
      | None => Err (EText "no accessmode specified in volume capability")
      | Some mode =>
          match check_capability capability mode with
          | Err err => Err err
          | Ok (block, file) =>
              check_capabilities rest (isBlock || block) (isFile || file)
                ((if String.eqb modes "" then modes else modes +:+ ", ")
                   +:+ "mode: " +:+ AccessMode_String mode)
          end
      end
  end.

Definition validateCapabilities (capabilities : option (list VolumeCapability)) : res string :=
  match capabilities with
  | None => Err (EText "no volume capabilities specified")
  | Some [] => Err (EStatus InvalidArgument "volume capabilities empty")
  | Some l =>
      match check_capabilities l false false "" with
      | Err err => Err err
      | Ok (isBlock, isFile, modes) =>
          if isBlock && isFile then Err (EText "both file and block volume capabilities specified")
          else Ok ("modes: " +:+ modes +:+ " isBlock: " +:+ FormatBool isBlock +:+ " isFile: " +:+ FormatBool isFile)
      end
  end.

Definition validateNodeID (nodeID : string) : option error :=
  if String.eqb nodeID "" then Some (EStatus InvalidArgument "node ID empty")
  else match Split nodeID "$$" with
       | [_; _] => None
       | _ => Some (EStatus NotFound ("node ID: " +:+ nodeID +:+ " does not follow '<fqdn>$$<id>' pattern"))
       end.

Definition validateExpandVolumeRequest (req : CSIExpandRequest) : option error :=
  if String.eqb (Exp_VolumeId req) "" then Some (EStatus InvalidArgument "volume ID cannot be empty")
  else match Exp_CapacityRange req with
       | None => Some (EStatus InvalidArgument "capacityRange cannot be empty")
       | Some _ => None
       end.

Definition validateSecret (volumeID secretName secretNamespace : string) (secrets : gmap string string) : option error :=
  if String.eqb secrets.[CredentialUsername] "" || String.eqb secrets.[CredentialPassword] ""
     || String.eqb secrets.[CredentialHostname] ""
  then Some (EStatus InvalidArgument ("volumeID " +:+ volumeID
         +:+ " - hostname/username/password secrets are not found and are required - verify your StorageClass has the "
         +:+ secretName +:+ " and " +:+ secretNamespace +:+ " parameters"))
  else None.

Definition requiredSecretParams : list string :=
  [CSIProvisionerSecretName; CSIProvisionerSecretNamespace; CSIControllerPublishSecretName;
   CSIControllerPublishSecretNamespace; CSINodeStageSecretName; CSINodeStageSecretNamespace;
   CSINodePublishSecretName; CSINodePublishSecretNamespace; CSIControllerExpandSecretName;
   CSIControllerExpandSecretNamespace; CSINodeExpandSecretName; CSINodeExpandSecretNamespace].

Definition validateStorageClassSecretParameters (reqParameters : gmap string string) : prog call (option error) :=
  let pvcName := reqParameters.[CSIPVCName] in
  client <- kubeAPI BuildClient ;;
  match client with
  | Some err => Ret (Some (EWrap "BuildClient error " err ""))
  | None =>
      try scName <- kubeAPI (GetPVCStorageClassName reqParameters.[CSIPVCNamespace] pvcName) catch err =>
        Ret (Some (EWrap ("GetPVC - name " +:+ pvcName +:+ " error ") err "")) ;;
      let name := default "" scName in
      if String.eqb name "" then Ret (Some (EText ("PVC " +:+ pvcName +:+ " has no StorageClassName")))
      else
        try parameters <- kubeAPI (GetStorageClassParameters name) catch err =>
          Ret (Some (EWrap ("GetStorageClass - name " +:+ name +:+ " error ") err "")) ;;
        match List.find (fun param => String.eqb parameters.[param] "") requiredSecretParams with
        | Some param => Ret (Some (EText ("required CSI parameter " +:+ Quote param
            +:+ " is missing - verify your StorageClass includes all csi.storage.k8s.io secret parameters")))
        | None => Ret None
        end
  end.

Definition invalidFormatError (parameterName enteredValue : string) : error :=
  EText ("format error in StorageClass, storage class parameter [" +:+ parameterName
    +:+ "] appears to not be a valid integer, value entered was " +:+ enteredValue).

(** The optional parameters, in the order they are checked: whether a set value
    is of the right form. *)
Definition at_least_minus_one (v : string) : bool :=
  match Atoi v with Ok n => (-1 <=? n)%Z | Err _ => false end.
Definition provision_type_ok (v : string) : bool :=
  let p := ToUpper v in String.eqb p StorageClassThickProvision || String.eqb p StorageClassThinProvision.
Definition optional_formats : list (string * (string -> bool)) :=
  [(StorageClassGID, at_least_minus_one);
   (StorageClassUID, at_least_minus_one);
   (StorageClassUNIXPermissions, fun v => is_ok (ParseUint8_32 v));
   (StorageClassMaxVolsPerHost, at_least_minus_one);
   (StorageClassProvisionType, provision_type_ok);
   (StorageClassSSDEnabled, fun v => is_ok (ParseBool v))].
Fixpoint check_formats (scParameters : gmap string string) (formats : list (string * (string -> bool))) : option error :=
  match formats with
  | [] => None
  | (param, ok) :: rest =>
      let v := scParameters.[param] in
      if String.eqb v "" || ok v then check_formats scParameters rest
      else Some (invalidFormatError param v)
  end.

Fixpoint check_network_spaces (names : list string) : prog call (option error) :=
  match names with
  | [] => Ret None
  | name :: rest =>
      try _n <- iboxAPI (GetNetworkSpaceByName name) catch err =>
        Ret (Some (EWrap ("network space " +:+ name +:+ " - ") err "")) ;;
      check_network_spaces rest
  end.

Definition validateCommonStorageClassParameters (scParameters : gmap string string) (protocol : string)
    : prog call (option error) :=
  let poolName := scParameters.[StorageClassPoolName] in
  try _pool <- iboxAPI (GetPoolByName poolName) catch err =>
    Ret (Some (EWrap ("pool " +:+ poolName +:+ " - ") err "")) ;;
  spaces <- (if String.eqb protocol ProtocolFC then Ret None
             else
               let arrayofNetworkSpaces := Split scParameters.[StorageClassNetworkSpace] "," in
               known <- check_network_spaces arrayofNetworkSpaces ;;
               match known with
               | Some err => Ret (Some err)
               | None => ValidateProtocolToNetworkSpace protocol arrayofNetworkSpaces
               end) ;;
  match spaces with
  | Some err => Ret (Some err)
  | None => Ret (check_formats scParameters optional_formats)
  end.

(** ** Choosing the protocol *)

Definition isFC (output : string) : bool := Contains output "Online".
Definition isISCSI (output : string) : bool := negb (String.eqb (TrimSpace output) "").
Definition isNVME (output : string) : bool := negb (String.eqb output "").

(** Run a command in the driver's pod: an error, or anything on its error
    output, means the protocol is not usable. *)
Definition probe (pod namespace command : string) (test : string -> bool) : prog call bool :=
  r <- kubeAPI (ExecCmdInPod pod namespace command "driver") ;;
  Ret (match r with
       | (output, "", None) => test output
       | _ => false
       end).

Definition first_enabled (order : list string) (fc nvme iscsi : bool) : option string :=
  List.find (fun p => (String.eqb p ProtocolFC && fc) || (String.eqb p ProtocolISCSI && iscsi)
                      || (String.eqb p ProtocolNVME && nvme)) order.

(** [DetermineProtocol] probes the first node pod; an empty list of pods panics. *)
Definition DetermineProtocol : prog call (res string) :=
  try secret <- GetProtocolSecret catch err =>
    Ret (Err (EText ("error: could not get protocol secret " +:+ Error err))) ;;
  match secret with
  | None => Ret (Err (EText "error: protocol secret not in use"))
  | Some protocolSecret =>
      let userPreferredOrder := protocolSecret.[StorageClassProtocolSecretAutoOrder] in
      let preferredOrder := if String.eqb userPreferredOrder "" then [ProtocolFC; ProtocolNVME; ProtocolISCSI]
                            else Split userPreferredOrder "," in
      client <- kubeAPI BuildClient ;;
      match client with
      | Some err => Ret (Err (EWrap "BuildClient - error: " err ""))
      | None =>
          namespace <- osAPI (Getenv "POD_NAMESPACE") ;;
          if String.eqb namespace ""
          then Ret (Err (EText "env var POD_NAMESPACE was not set, this is a required env var"))
          else
            try pods <- GetRunningDriverNodePods namespace catch err =>
              Ret (Err (EWrap "GetRunningDriverNodePods - error: " err "")) ;;
            match pods with
            | [] => Panic
            | podToTest :: _ =>
                fcEnabled <- probe podToTest namespace "cat /sys/class/fc_host/ho*/port_state" isFC ;;
                nvmeEnabled <- probe podToTest namespace "nvme list" isNVME ;;
                iscsiEnabled <- probe podToTest namespace "pgrep iscsid" isISCSI ;;
                Ret (Ok (default ProtocolFC (first_enabled preferredOrder fcEnabled nvmeEnabled iscsiEnabled)))
            end
      end
  end.

Definition NODE_PROTOCOL_LABEL : string := "infinidat.com/node-protocol".

Definition getNodeProtocol (nodeID : string) : prog call (res string) :=
  let fullNodeName := hd "" (Split nodeID "$$") in
  let shortNodeName := hd "" (Split fullNodeName ".") in
  client <- kubeAPI BuildClient ;;
  match client with
  | Some err => Ret (Err err)
  | None =>
      try nodes <- kubeAPI GetNodes catch err => Ret (Err err) ;;
      match nodes with
      | [] => Ret (Err (EText "zero nodes found, problem getting a node"))
      | _ =>
          match List.find (fun node => String.eqb shortNodeName (Node_Name node)
                                       || String.eqb fullNodeName (Node_Name node)) nodes with
          | Some node => Ret (Ok (Node_Labels node).[NODE_PROTOCOL_LABEL])
          | None => Ret (Ok "")
          end
      end
  end.

(** What the protocol secret says: the protocol, the parameters with what it
    writes into them, and the network space looked at below. *)
Definition secret_protocol (protocolSecretMap reqParameters : gmap string string) (networkSpace : string)
    : prog call (res (string * gmap string string * string)) :=
  let storageProtocol := protocolSecretMap.[StorageClassStorageProtocol] in
  if String.eqb storageProtocol ProtocolAuto then
    try calculatedProtocol <- DetermineProtocol catch err => Ret (Err (EStatus Internal (Error err))) ;;
    Ret (Ok (calculatedProtocol, reqParameters, networkSpace))
  else if String.eqb storageProtocol "" then Ret (Ok (ProtocolFC, reqParameters, networkSpace))
  else if String.eqb storageProtocol ProtocolISCSI then
    Ret (Ok (storageProtocol,
      <[StorageClassNetworkSpace := protocolSecretMap.[ProtocolSecretISCSINetworkSpace]]>
      (<[StorageClassUseCHAP := protocolSecretMap.[ProtocolSecretISCSIUseCHAP]]> reqParameters), networkSpace))
  else if String.eqb storageProtocol ProtocolNVME then
    Ret (Ok (storageProtocol, reqParameters, protocolSecretMap.[ProtocolSecretNVMENetworkSpace]))
  else if String.eqb storageProtocol ProtocolNFS || String.eqb storageProtocol ProtocolTreeq then
    Ret (Ok (storageProtocol,
      <[StorageClassNFSExportPermissions := protocolSecretMap.[ProtocolSecretNFSExportPermissions]]> reqParameters,
      protocolSecretMap.[ProtocolSecretNFSNetworkSpace]))
  else Ret (Ok (storageProtocol, reqParameters, networkSpace)).

(** The protocol, and the request's parameters, which it may write. *)
Definition determineStorageProtocol (reqParameters : gmap string string)
    : prog call (res (string * gmap string string)) :=
  let given := (reqParameters.[StorageClassStorageProtocol], reqParameters, reqParameters.[StorageClassNetworkSpace]) in
  try chosen <-
    (if negb (String.eqb reqParameters.[StorageClassStorageProtocol] "") then Ret (Ok given)
     else
       try secret <- GetProtocolSecret catch err => Ret (Err (EStatus InvalidArgument (Error err))) ;;
       match secret with
       | None => Ret (Ok given)
       | Some protocolSecretMap =>
           secret_protocol protocolSecretMap reqParameters reqParameters.[StorageClassNetworkSpace]
       end) catch err => Ret (Err err) ;;
  let '(storageProtocol, reqParameters, networkSpace) := chosen in
  if String.eqb storageProtocol "" then Ret (Err (EText "storage protocol empty"))
  else if negb (String.eqb storageProtocol ProtocolFC) && String.eqb networkSpace ""
  then Ret (Err (EText "network space empty"))
  else Ret (Ok (storageProtocol, reqParameters)).

(** ** CreateVolume *)

(** [determineCapacity] reads the capacity range without looking whether it is
    there. *)
Definition determineCapacity (req : CSICreateVolumeRequest) : prog call (res Z) :=
  match Req_CapacityRange req with
  | None => Panic
  | Some capacity =>
      let roundUpParameter := (Req_Parameters req).[StorageClassRoundup] in
      match (if String.eqb roundUpParameter "" then Ok true else ParseBool roundUpParameter) with
      | Err err => Ret (Err (EText ("parse error " +:+ roundUpParameter +:+ " - error " +:+ Error err)))
      | Ok roundUp => Ret (Ok (if (roundUp : bool) then RoundUp capacity else capacity))
      end
  end.

(** The secrets to use, and the request's parameters as the annotations of the
    claim change them. *)
Definition annotate (pvcAnnotations params : gmap string string) : gmap string string :=
  let pool := pvcAnnotations.[PVCAnnotationPoolName] in
  let space := pvcAnnotations.[PVCAnnotationNetworkSpace] in
  let metadata := pvcAnnotations.[PVCAnnotationVolumeMetadata] in
  let set (k v : string) (m : gmap string string) := if String.eqb v "" then m else <[k := v]> m in
  set PVCAnnotationVolumeMetadata metadata
    (set StorageClassNetworkSpace space
      (set StorageClassPoolName pool
        (<[PVCAnnotationPoolName := pool]> (<[PVCAnnotationNetworkSpace := space]> params)))).

Definition handlePVCAnnotations (req : CSICreateVolumeRequest)
    : prog call (res (gmap string string * gmap string string)) :=
  client <- kubeAPI BuildClient ;;
  match client with
  | Some err => Ret (Err (status_of Internal "BuildClient - error " err))
  | None =>
      let pvcName := (Req_Parameters req).["csi.storage.k8s.io/pvc/name"] in
      let pvcNamespace := (Req_Parameters req).["csi.storage.k8s.io/pvc/namespace"] in
      try pvcAnnotations <-
        (if negb (String.eqb pvcName "") && negb (String.eqb pvcNamespace "")
         then kubeAPI (GetPVCAnnotations pvcName pvcNamespace) else Ret (Ok ∅)) catch err =>
        Ret (Err (status_of InvalidArgument ("GetPVCAnnotations - name " +:+ Req_Name req +:+ " error ") err)) ;;
      let pvcAnnoSecret := pvcAnnotations.[PVCAnnotationIBOXSecret] in
      try secretsToUse <-
        (if String.eqb pvcAnnoSecret "" then Ret (Ok (Req_Secrets req))
         else namespace <- osAPI (Getenv EnvVarPodNamespace) ;;
              GetSecret pvcAnnoSecret namespace) catch err =>
        Ret (Err (status_of InvalidArgument ("GetSecrets - " +:+ pvcAnnoSecret +:+ " error ") err)) ;;
      Ret (Ok (secretsToUse, annotate pvcAnnotations (Req_Parameters req)))
  end.

(** A volume identifier that is no number leaves the volume without the
    metadata. *)
Definition handlePVCAnnotationForMetadata (metadataValue volumeIDString : string) : prog call unit :=
  if String.eqb metadataValue "" then Ret tt
  else match Atoi volumeIDString with
       | Err _ => Ret tt
       | Ok volumeID =>
           iboxAPI (PutMetadata volumeID {[ PVCAnnotationVolumeMetadata := JStr metadataValue ]}) ;;; Ret tt
       end.

Section ControllerServer.
Variable url_Parse : string -> res (string * string).
Variable url_ParseRequestURI : string -> bool.
Variable driver : Driver.
(** The fuel given to the climbs through the ancestors of a deleted volume. *)
Variable fuel : nat.

Definition new_controller := NewStorageController url_Parse url_ParseRequestURI.

Definition set_VolumeId (id : string) (v : CSIVolume) : CSIVolume :=
  {| CSIVolume_VolumeId := id; CSIVolume_CapacityBytes := CSIVolume_CapacityBytes v;
     CSIVolume_VolumeContext := CSIVolume_VolumeContext v; CSIVolume_ContentSource := CSIVolume_ContentSource v |}.

(** What follows the protocol's [CreateVolume]. *)
Definition finish_volume (name storageProtocol : string) (answer : CreateVolumeResponse) (params : gmap string string)
    : prog call (res CreateVolumeResponse) :=
  match answer with
  | None => Ret (Err (EStatus Internal "sc.CreateVolume response is nil"))
  | Some volume =>
      let volumeIDString := CSIVolume_VolumeId volume in
      if String.eqb volumeIDString "" then Ret (Err (EStatus Internal "sc.CreateVolume response is nil"))
      else
        handlePVCAnnotationForMetadata params.[PVCAnnotationVolumeMetadata] volumeIDString ;;;
        replicated <- handleSCReplica name storageProtocol params ;;
        match replicated with
        | Some err => Ret (Err (status_of Internal "" err))
        | None =>
            osAPI (Increment "EventCreatedVolumes") ;;;
            Ret (Ok (Some (set_VolumeId (volumeIDString +:+ "$$" +:+ storageProtocol) volume)))
        end
  end.

(** The part that talks to the array: [params] are the request's parameters as
    the protocol secret and the claim's annotations left them. *)
Definition create_on_array (req : CSICreateVolumeRequest) (storageProtocol : string)
    (secretsToUse params : gmap string string) (capacity : Z) (exportPermissions : string)
    : prog call (res CreateVolumeResponse) :=
  let name := Req_Name req in
  let req := Req_set_Parameters params req in
  let configparams := <[StorageClassNFSExportPermissions := exportPermissions]>
                     (<["driverversion" := version driver]> {[ "nodeid" := nodeID driver ]}) in
  try controller <- new_controller configparams secretsToUse
                      (MkVolumeProtocolConfig 0 storageProtocol "" None "" 0) capacity catch err =>
    Ret (Err (status_of Internal ("NewStorageController - name " +:+ name +:+ " error ") err)) ;;
  common <- validateCommonStorageClassParameters params storageProtocol ;;
  match common with
  | Some err => Ret (Err (status_of Internal ("validateCommonStorageClassParameters - name " +:+ name +:+ " error ") err))
  | None =>
      match ValidateStorageClass (fst controller) params with
      | (Some err, _) => Ret (Err (status_of Internal ("ValidateStorageClass - name " +:+ name +:+ " error ") err))
      | (None, operations) =>
          made <- Storage.CreateVolume operations req ;;
          match made with
          | (Err err, _) => Ret (Err err)
          | (Ok answer, params) => finish_volume name storageProtocol answer params
          end
      end
  end.

Definition CreateVolume (req : CSICreateVolumeRequest) : prog call (res CreateVolumeResponse) :=
  let volName := Req_Name req in
  if String.eqb volName "" then Ret (Err (EStatus InvalidArgument "volume name empty"))
  else if bool_decide (Req_Parameters req = ∅) then Ret (Err (EStatus InvalidArgument "GetParameters empty"))
  else
  try chosen <- determineStorageProtocol (Req_Parameters req) catch err =>
    Ret (Err (status_of InvalidArgument "determineStorageProtocol error " err)) ;;
  let '(storageProtocol, params) := chosen in
  match validateCapabilities (Req_VolumeCapabilities req) with
  | Err err => Ret (Err (EStatus InvalidArgument ("validateCapabilities - error " +:+ Error err +:+ " summary ")))
  | Ok _ =>
      let exportPermissions := params.[StorageClassNFSExportPermissions] in
      try annotated <- handlePVCAnnotations (Req_set_Parameters params req) catch err =>
        Ret (Err (status_of InvalidArgument "handlePVCAnnotation error " err)) ;;
      let '(secretsToUse, params) := annotated in
      try capacity <- determineCapacity (Req_set_Parameters params req) catch err =>
        Ret (Err (status_of Internal "" err)) ;;
      match validateSecret "" CSIProvisionerSecretName CSIProvisionerSecretNamespace (Req_Secrets req) with
      | Some err => Ret (Err (status_of InvalidArgument "" err))
      | None =>
          secretParams <- validateStorageClassSecretParameters params ;;
          match secretParams with
          | Some err => Ret (Err (status_of InvalidArgument "validateStorageClassSecretParameters error " err))
          | None => create_on_array req storageProtocol secretsToUse params capacity exportPermissions
          end
      end
  end.

(** ** DeleteVolume *)

(** The secret the volume's persistent volume names; a persistent volume that is
    not a CSI volume, met on the way, panics. *)
Fixpoint pv_secret (items : list PersistentVolume) (volumeID : string) : option (option string) :=
  match items with
  | [] => Some None
  | persistentVolume :: rest =>
      match PV_CSI persistentVolume with
      | None => None
      | Some csi =>
          if String.eqb (PV_VolumeHandle csi) volumeID
          then Some (match PV_ControllerPublishSecretRef csi with
                     | Some (name, _) => if String.eqb name "" then None else Some name
                     | None => None
                     end)
          else pv_secret rest volumeID
      end
  end.

Definition DeleteVolume (req : CSIDeleteVolumeRequest) : prog call (option error) :=
  let volumeID := Del_VolumeId req in
  match ValidateVolumeID volumeID with
  | Err err => Ret (Some (status_of InvalidArgument ("ValidateVolumeID - volume ID: " +:+ volumeID +:+ " error: ") err))
  | Ok volumeInfo =>
      client <- kubeAPI BuildClient ;;
      match client with
      | Some err => Ret (Some (status_of Internal "BuildClient - error " err))
      | None =>
          try items <- GetAllPersistentVolumes catch err =>
            Ret (Some (status_of InvalidArgument "GetAllPersistentVolumes - error " err)) ;;
          match pv_secret items volumeID with
          | None => Panic
          | Some annotated =>
              try secretsToUse <-
                (match annotated with
                 | None => Ret (Ok (Del_Secrets req))
                 | Some annoPVCSecretName =>
                     namespace <- osAPI (Getenv "POD_NAMESPACE") ;;
                     r <- GetSecret annoPVCSecretName namespace ;;
                     Ret (map_err (status_of InvalidArgument ("GetSecret - volume ID: " +:+ volumeID +:+ " anno "
                                                           +:+ annoPVCSecretName +:+ " error ")) r)
                 end) catch err => Ret (Some err) ;;
              try controller <- new_controller {[ "nodeid" := nodeID driver ]} secretsToUse volumeInfo 0 catch err =>
                Ret (Some (status_of Internal ("NewStorageController - volume ID: " +:+ volumeID +:+ " error: ") err)) ;;
              e <- Storage.DeleteVolume fuel (fst controller) ;;
              Ret (option_map (status_of Internal ("sc.DeleteVolume volume ID: " +:+ volumeID +:+ " error: ")) e)
          end
      end
  end.

(** ** Publishing *)

(** The request as the protocol chosen by the node's label changes it: the
    protocol secret gives the network space of iSCSI and NVMe. Writing a nil
    volume context panics. *)
Definition node_network_space (nodeProtocol : string) (protocolSecret : gmap string string) : option (res string) :=
  if String.eqb nodeProtocol ProtocolISCSI then
    Some (let s := protocolSecret.[ProtocolSecretISCSINetworkSpace] in
          if String.eqb s "" then Err (EStatus InvalidArgument "error: protocol secret specified ISCSI but network_space is empty")
          else Ok s)
  else if String.eqb nodeProtocol ProtocolNVME then
    Some (let s := protocolSecret.[ProtocolSecretNVMENetworkSpace] in
          if String.eqb s "" then Err (EStatus InvalidArgument "error: protocol secret specified NVMe but network_space is empty")
          else Ok s)
  else None.

Definition set_VolumeContext (ctx : gmap string string) (req : CSIPublishRequest) : CSIPublishRequest :=
  {| Pub_VolumeId := Pub_VolumeId req; Pub_NodeId := Pub_NodeId req;
     Pub_VolumeCapability := Pub_VolumeCapability req; Pub_Readonly := Pub_Readonly req;
     Pub_Secrets := Pub_Secrets req; Pub_VolumeContext := Some ctx |}.

Definition apply_node_protocol (nodeProtocol : string) (req : CSIPublishRequest)
    : prog call (res CSIPublishRequest) :=
  if String.eqb nodeProtocol "" then Ret (Ok req)
  else
    try secret <- GetProtocolSecret catch err =>
      Ret (Err (status_of InvalidArgument "error: could not get protocol secret " err)) ;;
    match secret with
    | None => Ret (Err (EStatus InvalidArgument
                "error: protocol secret not in use, but is required when nodeProtocol label is set on node"))
    | Some protocolSecret =>
        match node_network_space nodeProtocol protocolSecret with
        | None => Ret (Ok req)
        | Some (Err err) => Ret (Err err)
        | Some (Ok networkSpace) =>
            match Pub_VolumeContext req with
            | None => Panic
            | Some ctx => Ret (Ok (set_VolumeContext (<[StorageClassNetworkSpace := networkSpace]> ctx) req))
            end
        end
    end.

Definition with_StorageType (nodeProtocol : string) (volumeInfo : VolumeProtocolConfig) : VolumeProtocolConfig :=
  if String.eqb nodeProtocol "" then volumeInfo else VolumeProtocolConfig_set_StorageType nodeProtocol volumeInfo.

(** [ControllerPublishVolume] holds the node-volume mutex around the protocol's
    publishing. *)
Definition ControllerPublishVolume (req : CSIPublishRequest) : prog call (res (gmap string string)) :=
  let volumeID := Pub_VolumeId req in
  let nodeID := Pub_NodeId req in
  match Pub_VolumeCapability req with
  | None => Ret (Err (EStatus InvalidArgument "request VolumeCapability was nil"))
  | Some capability =>
  match validateCapabilities (Some [capability]) with
  | Err err => Ret (Err (EStatus FailedPrecondition ("validateCapabilities - error " +:+ Error err
                          +:+ ", node ID " +:+ nodeID +:+ ", volume cap ")))
  | Ok _ =>
  if String.eqb volumeID "" then Ret (Err (EStatus InvalidArgument "request volumeId was empty"))
  else match ValidateVolumeID volumeID with
  | Err err => Ret (Err (status_of InvalidArgument ("ValidateVolumeID - volume ID: " +:+ volumeID +:+ " error: ") err))
  | Ok volumeInfo =>
  try nodeProtocol <- getNodeProtocol nodeID catch err =>
    Ret (Err (status_of InvalidArgument ("ValidateVolumeID - volume ID: " +:+ volumeID +:+ " error: ") err)) ;;
  try req <- apply_node_protocol nodeProtocol req catch err => Ret (Err err) ;;
  if String.eqb nodeID ""
  then Ret (Err (EStatus InvalidArgument ("volume ID: " +:+ volumeID +:+ " request nodeId was empty")))
  else match validateNodeID nodeID with
  | Some err => Ret (Err (EStatus Internal (Error err)))
  | None =>
  match validateSecret volumeID CSIControllerPublishSecretName CSIControllerPublishSecretNamespace (Pub_Secrets req) with
  | Some err => Ret (Err (status_of InvalidArgument "" err))
  | None =>
  try controller <- new_controller ∅ (Pub_Secrets req) (with_StorageType nodeProtocol volumeInfo) 0 catch err =>
    Ret (Err (status_of Internal ("NewStorageController - volume ID: " +:+ volumeID +:+ " type error: ") err)) ;;
  ManageNodeVolumeMutex true ;;;
  defer
    (try context <- Storage.ControllerPublishVolume (fst controller) req catch err =>
       Ret (Err (status_of Internal ("ControllerPublishVolume - failed proto: volume ID: " +:+ volumeID
                   +:+ " node ID: " +:+ nodeID +:+ " error: ") err)) ;;
     Ret (Ok context))
    (fun _ => ManageNodeVolumeMutex false)
  end end end end end.

(** The host object of the node, for the protocols that map volumes to hosts;
    [Ok None] when the array does not know it. *)
Definition find_host (storageType hostName : string) : prog call (res (option (option Host))) :=
  if String.eqb storageType ProtocolNFS || String.eqb storageType ProtocolTreeq then Ret (Ok (Some None))
  else
    let hostName := if String.eqb storageType ProtocolNVME then hostName +:+ Nvme.NVMEHostSuffix else hostName in
    r <- iboxAPI (GetHostByName hostName) ;;
    Ret (match r with
         | Ok host => Ok (Some (Some host))
         | Err err => if is_ErrNotFound err then Ok None else Err err
         end).

Definition ControllerUnpublishVolume (req : CSIUnpublishRequest) : prog call (option error) :=
  let volumeID := Unpub_VolumeId req in
  let nodeID := Unpub_NodeId req in
  if String.eqb volumeID "" then Ret (Some (EStatus InvalidArgument "request volumeId parameter was empty"))
  else match ValidateVolumeID volumeID with
  | Err err => Ret (Some (status_of InvalidArgument ("ValidateVolumeID -  volume ID: " +:+ volumeID +:+ " error: ") err))
  | Ok volumeInfo =>
  match (if String.eqb nodeID "" then None else validateNodeID nodeID) with
  | Some err => Ret (Some (status_of InvalidArgument ("validateNodeID - node ID: " +:+ nodeID +:+ " error: ") err))
  | None =>
  try nodeProtocol <- getNodeProtocol nodeID catch err =>
    Ret (Some (status_of InvalidArgument ("volume ID: " +:+ volumeID +:+ " node ID: " +:+ nodeID +:+ " error: ") err)) ;;
  try hostName <- DetermineHostName nodeID catch err =>
    Ret (Some (status_of Internal ("DetermineHostName - volume ID: " +:+ volumeID +:+ " error: ") err)) ;;
  let volumeInfo := VolumeProtocolConfig_set_NodeID nodeID (with_StorageType nodeProtocol volumeInfo) in
  try controller <- new_controller ∅ (Unpub_Secrets req) volumeInfo 0 catch err =>
    Ret (Some (status_of Internal ("NewStorageController - volume ID: " +:+ volumeID +:+ " error: ") err)) ;;
  try host <- find_host (VolumeProtocolConfig_StorageType volumeInfo) hostName catch err =>
    Ret (Some (status_of Internal ("GetHostByName - volume ID: " +:+ volumeID +:+ " error: ") err)) ;;
  match host with
  | None => Ret None
  | Some host =>
      let operations := match host with
                        | None => fst controller
                        | Some host => share_VolProto (VolumeProtocolConfig_set_Host (Some host) volumeInfo) (fst controller)
                        end in
      e <- Storage.ControllerUnpublishVolume operations ;;
      Ret (option_map (status_of Internal ("sc.ControllerUnpublishVolume - volume ID: " +:+ volumeID +:+ " error: ")) e)
  end
  end end.

(** ** Capabilities of an existing volume *)

Definition ValidateVolumeCapabilities (req : CSIValidateRequest) : prog call (res (list VolumeCapability)) :=
  let volumeID := Val_VolumeId req in
  if String.eqb volumeID "" then Ret (Err (EStatus InvalidArgument "error volumeId parameter was empty"))
  else match Val_VolumeCapabilities req with
  | None => Ret (Err (EStatus InvalidArgument
              ("volume ID: " +:+ volumeID +:+ " error volumeCapabilities parameter was nil")))
  | Some [] => Ret (Err (EStatus InvalidArgument
              ("volume ID: " +:+ volumeID +:+ " error volumeCapabilities parameter was empty")))
  | Some capabilities =>
  match ValidateVolumeID volumeID with
  | Err err => Ret (Err (status_of InvalidArgument ("ValidateVolumeID - volume ID: " +:+ volumeID +:+ " error: ") err))
  | Ok volumeInfo =>
  try _cs <- BuildCommonService url_Parse url_ParseRequestURI ∅ (Val_Secrets req) volumeInfo catch err =>
    Ret (Err (status_of Internal ("BuildCommonService - volume ID: " +:+ volumeID +:+ " error: ") err)) ;;
  try secret <- GetProtocolSecret catch err =>
    Ret (Err (status_of Internal "BuildCommonService - error getting protocol secret: " err)) ;;
  let protocol := match secret with
                  | Some protocolSecretMap => protocolSecretMap.[StorageClassStorageProtocol]
                  | None => (Val_Parameters req).[StorageClassStorageProtocol]
                  end in
  let id := VolumeProtocolConfig_VolumeID volumeInfo in
  if String.eqb protocol ProtocolNFS || String.eqb protocol ProtocolTreeq then
    try _fs <- iboxAPI (GetFileSystemByID id) catch err =>
      Ret (Err (status_of NotFound ("GetFileSystemByID volume ID: " +:+ Itoa id +:+ " error: ") err)) ;;
    Ret (Ok capabilities)
  else
    try _v <- iboxAPI (GetVolume id) catch err =>
      Ret (Err (status_of NotFound ("GetVolume - failed to find volume ID: " +:+ Itoa id +:+ " Error: ") err)) ;;
    Ret (Ok capabilities)
  end end.

(** ** Snapshots and expansion *)

Definition CreateSnapshot (req : CSISnapshotRequest) : prog call (res CSISnapshot) :=
  let what := "snapshot name: " +:+ Snap_Name req +:+ " source volume ID: " +:+ Snap_SourceVolumeId req in
  match ValidateVolumeID (Snap_SourceVolumeId req) with
  | Err err => Ret (Err (status_of InvalidArgument ("ValidateVolumeID - snapshot Name: " +:+ Snap_Name req
                 +:+ " source volume ID: " +:+ Snap_SourceVolumeId req +:+ " failed to validate storage type error ") err))
  | Ok volumeInfo =>
      try controller <- new_controller {[ "nodeid" := nodeID driver ]} (Snap_Secrets req) volumeInfo 0 catch err =>
        Ret (Err (status_of Internal ("NewStorageController - " +:+ what +:+ " error: ") err)) ;;
      try snapshot <- Storage.CreateSnapshot (fst controller) req catch err =>
        Ret (Err (status_of Internal ("sc.CreateSnapshot - " +:+ what +:+ " error: ") err)) ;;
      osAPI (Increment "EventCreatedSnapshots") ;;;
      Ret (Ok snapshot)
  end.

(** Only an [ImplementationError] itself, not a wrapped one, keeps its code. *)
Definition implementation_code (err : error) : Code :=
  match err with EImpl c _ => c | _ => Internal end.

Definition DeleteSnapshot (req : CSIDeleteSnapshotRequest) : prog call (option error) :=
  let snapshotID := DelSnap_SnapshotId req in
  match ValidateVolumeID snapshotID with
  | Err err => Ret (Some (status_of InvalidArgument ("ValidateVolumeID - snapshot ID: " +:+ snapshotID +:+ " invalid, error: ") err))
  | Ok volumeInfo =>
      try controller <- new_controller {[ "nodeid" := nodeID driver ]} (DelSnap_Secrets req) volumeInfo 0 catch err =>
        Ret (Some (status_of Internal ("NewStorageController - snapshot ID: " +:+ snapshotID +:+ " error ") err)) ;;
      let id := Itoa (VolumeProtocolConfig_VolumeID volumeInfo) in
      e <- Storage.DeleteSnapshot fuel (fst controller) id ;;
      Ret (option_map (fun err => status_of (implementation_code err)
                         ("sc.DeleteSnapshot - snapshot ID: " +:+ id +:+ " error: ") err) e)
  end.

Definition expand_capacity (requested : Z) : Z := RoundUp (Z.max requested GIB).

Definition set_Exp_VolumeId (id : string) (req : CSIExpandRequest) : CSIExpandRequest :=
  MkCSIExpandRequest id (Exp_CapacityRange req) (Exp_Secrets req) (Exp_VolumeCapability req).

Definition ControllerExpandVolume (req : CSIExpandRequest) : prog call (res CSIExpandResponse) :=
  let volumeID := Exp_VolumeId req in
  match validateExpandVolumeRequest req with
  | Some err => Ret (Err (status_of InvalidArgument ("validate - volume ID: " +:+ volumeID +:+ " error: ") err))
  | None =>
  match ValidateVolumeID volumeID with
  | Err err => Ret (Err (status_of InvalidArgument ("ValidateVolumeID - volume ID: " +:+ volumeID +:+ " error: ") err))
  | Ok volumeInfo =>
  let capacity := expand_capacity (default 0%Z (Exp_CapacityRange req)) in
  match validateSecret volumeID CSIControllerExpandSecretName CSIControllerExpandSecretNamespace (Exp_Secrets req) with
  | Some err => Ret (Err (status_of InvalidArgument "" err))
  | None =>
  try controller <- new_controller {[ "nodeid" := nodeID driver ]} (Exp_Secrets req) volumeInfo capacity catch err =>
    Ret (Err (status_of Internal ("NewStorageController - volume ID: " +:+ volumeID +:+ " error: ") err)) ;;
  let id := Itoa (VolumeProtocolConfig_VolumeID volumeInfo) in
  try answer <- Storage.ControllerExpandVolume (fst controller) (set_Exp_VolumeId id req) catch err =>
    Ret (Err (status_of Internal ("sc.ControllerExpandVolume - volume ID: " +:+ id +:+ " error: ") err)) ;;
  Ret (Ok answer)
  end end end.

Definition GetCapacity : error := EStatus Unimplemented "".
Definition ControllerGetVolume : error := EStatus Unimplemented "".
End ControllerServer.
