(* ===== verification/ControllerProofs.v ===== *)
(** Properties of the controller service: what is validated before the array is
    changed, how the protocol implementation's answer becomes the caller's, the
    mutex around publishing, and which status an error carries. *)
From stdpp Require Import base strings list gmap.
From S2P Require Import Prelude GoLib IboxTypes Traces Csi KubeClient Helper StorageCommon StorageCommonProofs Storage ScReplica Controller.
From S2P Require Block Fc Iscsi Nvme NfsApi Nfs Treeq.
From Stdlib Require Import ZArith Lia.

Local Open Scope string_scope.
Local Open Scope list_scope.

(** ** Programs that only ask *)

Lemma GetProtocolSecret_quiet : quiet GetProtocolSecret.
Proof. unfold GetProtocolSecret. every_tac. Qed.
Lemma probe_quiet pod ns cmd test : quiet (probe pod ns cmd test).
Proof. unfold probe. every_tac. Qed.
#[local] Hint Resolve GetProtocolSecret_quiet probe_quiet : csi.
Lemma DetermineProtocol_quiet : quiet DetermineProtocol.
Proof. unfold DetermineProtocol. every_tac. Qed.
#[local] Hint Resolve DetermineProtocol_quiet : csi.
Lemma determineStorageProtocol_quiet params : quiet (determineStorageProtocol params).
Proof. unfold determineStorageProtocol, secret_protocol. every_tac. Qed.
Lemma handlePVCAnnotations_quiet req : quiet (handlePVCAnnotations req).
Proof. unfold handlePVCAnnotations. every_tac. Qed.
Lemma determineCapacity_quiet req : quiet (determineCapacity req).
Proof. unfold determineCapacity. every_tac. Qed.
Lemma validateStorageClassSecretParameters_quiet params : quiet (validateStorageClassSecretParameters params).
Proof. unfold validateStorageClassSecretParameters. every_tac. Qed.
Lemma check_network_spaces_quiet names : quiet (check_network_spaces names).
Proof. induction names as [|n names IH]; cbn [check_network_spaces ValidateProtocolToNetworkSpace_loop]; every_tac. Qed.
Lemma ValidateProtocolToNetworkSpace_loop_quiet proto names : quiet (ValidateProtocolToNetworkSpace_loop proto names).
Proof. induction names as [|n names IH]; cbn [check_network_spaces ValidateProtocolToNetworkSpace_loop]; every_tac. Qed.
#[local] Hint Resolve check_network_spaces_quiet ValidateProtocolToNetworkSpace_loop_quiet : csi.
Lemma ValidateProtocolToNetworkSpace_quiet proto names : quiet (ValidateProtocolToNetworkSpace proto names).
Proof. unfold ValidateProtocolToNetworkSpace. every_tac. Qed.
#[local] Hint Resolve ValidateProtocolToNetworkSpace_quiet : csi.
Lemma validateCommonStorageClassParameters_quiet params proto : quiet (validateCommonStorageClassParameters params proto).
Proof. unfold validateCommonStorageClassParameters. every_tac. Qed.
Lemma new_controller_quiet p q config secrets vp cap : quiet (new_controller p q config secrets vp cap).
Proof. unfold new_controller, NewStorageController. every_tac. Qed.
Lemma getNodeProtocol_quiet nodeID : quiet (getNodeProtocol nodeID).
Proof. unfold getNodeProtocol. every_tac. Qed.
Lemma apply_node_protocol_quiet proto req : quiet (apply_node_protocol proto req).
Proof. unfold apply_node_protocol. every_tac. Qed.
Lemma verifyLinkExists_quiet name : quiet (verifyLinkExists name).
Proof. unfold verifyLinkExists. every_tac. Qed.
Lemma await_group_quiet n name : quiet (await_group n name).
Proof. induction n as [|n IH]; cbn [await_group]; every_tac. Qed.
#[local] Hint Resolve verifyLinkExists_quiet await_group_quiet : csi.
Lemma handleSCReplica_quiet name proto params : quiet (handleSCReplica name proto params).
Proof. unfold handleSCReplica, verifyCGExists, remote_fields. every_tac. Qed.

(** None of them runs out of fuel. *)
Lemma GetProtocolSecret_fuelled : fuelled GetProtocolSecret.
Proof. unfold GetProtocolSecret. ends_tac. Qed.
Lemma probe_fuelled pod ns cmd test : fuelled (probe pod ns cmd test).
Proof. unfold probe. ends_tac. Qed.
#[local] Hint Resolve GetProtocolSecret_fuelled probe_fuelled : csi.
Lemma DetermineProtocol_fuelled : fuelled DetermineProtocol.
Proof. unfold DetermineProtocol. ends_tac. Qed.
#[local] Hint Resolve DetermineProtocol_fuelled : csi.
Lemma determineStorageProtocol_fuelled params : fuelled (determineStorageProtocol params).
Proof. unfold determineStorageProtocol, secret_protocol. ends_tac. Qed.
Lemma handlePVCAnnotations_fuelled req : fuelled (handlePVCAnnotations req).
Proof. unfold handlePVCAnnotations. ends_tac. Qed.
Lemma determineCapacity_fuelled req : fuelled (determineCapacity req).
Proof. unfold determineCapacity. ends_tac. Qed.
Lemma validateStorageClassSecretParameters_fuelled params : fuelled (validateStorageClassSecretParameters params).
Proof. unfold validateStorageClassSecretParameters. ends_tac. Qed.
Lemma check_network_spaces_fuelled names : fuelled (check_network_spaces names).
Proof. induction names as [|n names IH]; cbn [check_network_spaces]; ends_tac. Qed.
Lemma ValidateProtocolToNetworkSpace_loop_fuelled proto names : fuelled (ValidateProtocolToNetworkSpace_loop proto names).
Proof. induction names as [|n names IH]; cbn [ValidateProtocolToNetworkSpace_loop]; ends_tac. Qed.
#[local] Hint Resolve check_network_spaces_fuelled ValidateProtocolToNetworkSpace_loop_fuelled : csi.
Lemma validateCommonStorageClassParameters_fuelled params proto : fuelled (validateCommonStorageClassParameters params proto).
Proof. unfold validateCommonStorageClassParameters, ValidateProtocolToNetworkSpace. ends_tac. Qed.
Lemma new_controller_fuelled p q config secrets vp cap : fuelled (new_controller p q config secrets vp cap).
Proof. unfold new_controller, NewStorageController, BuildCommonService, verifyAPIClient, getAPIConfig. ends_tac. Qed.
Lemma getNodeProtocol_fuelled nodeID : fuelled (getNodeProtocol nodeID).
Proof. unfold getNodeProtocol. ends_tac. Qed.
Lemma apply_node_protocol_fuelled proto req : fuelled (apply_node_protocol proto req).
Proof. unfold apply_node_protocol. ends_tac. Qed.
Lemma await_group_returning n name : returning (await_group n name).
Proof. induction n as [|n IH]; cbn [await_group]; ends_tac. Qed.
#[local] Hint Resolve await_group_returning : csi.
Lemma handleSCReplica_returning name proto params : returning (handleSCReplica name proto params).
Proof. unfold handleSCReplica, verifyCGExists, verifyLinkExists, remote_fields. ends_tac. Qed.
#[local] Hint Resolve determineStorageProtocol_quiet handlePVCAnnotations_quiet determineCapacity_quiet
  validateStorageClassSecretParameters_quiet validateCommonStorageClassParameters_quiet new_controller_quiet
  getNodeProtocol_quiet apply_node_protocol_quiet handleSCReplica_quiet
  determineStorageProtocol_fuelled handlePVCAnnotations_fuelled determineCapacity_fuelled
  validateStorageClassSecretParameters_fuelled validateCommonStorageClassParameters_fuelled new_controller_fuelled
  getNodeProtocol_fuelled apply_node_protocol_fuelled handleSCReplica_returning : csi.

(** Publishing by the protocol takes no mutex and always returns or panics. *)
Lemma ControllerPublishVolume_lock_free ops req : lock_free (Storage.ControllerPublishVolume ops req).
Proof.
  unfold Storage.ControllerPublishVolume, Fc.ControllerPublishVolume, Iscsi.ControllerPublishVolume,
    Nvme.ControllerPublishVolume, Nfs.ControllerPublishVolume, Treeq.ControllerPublishVolume, Block.publish_lun,
    ValidateHost, DetermineHostName, MapVolumeTohost, GetHostInfo, NfsApi.AddNodeInExport. every_tac.
Qed.
Lemma ControllerPublishVolume_fuelled ops req : fuelled (Storage.ControllerPublishVolume ops req).
Proof.
  unfold Storage.ControllerPublishVolume, Fc.ControllerPublishVolume, Iscsi.ControllerPublishVolume,
    Nvme.ControllerPublishVolume, Nfs.ControllerPublishVolume, Treeq.ControllerPublishVolume, Block.publish_lun,
    ValidateHost, DetermineHostName, MapVolumeTohost, GetHostInfo, NfsApi.AddNodeInExport. ends_tac.
Qed.

(** ** Publishing *)

(** The names a node object may have for the node of an identifier. *)
Definition node_names (nodeID : string) : list string :=
  let full := hd "" (Split nodeID "$$") in [hd "" (Split full "."); full].
(** The protocol label of the node, as the cluster answered it. *)
Definition labelled (nodeID proto : string) (t : trace) : Prop :=
  exists nodes, Evt (Kube GetNodes) (Ok nodes) ∈ t /\
    ((exists n, n ∈ nodes /\ Node_Name n ∈ node_names nodeID /\ proto = (Node_Labels n).[NODE_PROTOCOL_LABEL]) \/
     (proto = "" /\ forall n, n ∈ nodes -> Node_Name n ∉ node_names nodeID)).

(** The request the implementation gets: without a label the caller's; with one
    the protocol secret gives the network space of iSCSI and NVMe. *)
Definition relabelled (proto : string) (req req' : CSIPublishRequest) (t : trace) : Prop :=
  (proto = "" /\ req' = req) \/
  (proto <> "" /\ exists name namespace secret, Evt (Kube (SecretsGet namespace name)) (Ok secret) ∈ t /\
     match node_network_space proto (secret_map secret) with
     | None => req' = req
     | Some space => exists s ctx, space = Ok s /\ s <> "" /\ Pub_VolumeContext req = Some ctx /\
                       req' = set_VolumeContext (<[StorageClassNetworkSpace := s]> ctx) req
     end).

Lemma getNodeProtocol_labelled nodeID t proto :
  runs (getNodeProtocol nodeID) t (Done (Ok proto)) -> labelled nodeID proto t.
Proof.
  enough (H : forall t o, runs (getNodeProtocol nodeID) t o ->
            match o with Done (Ok proto) => labelled nodeID proto t | _ => True end) by apply H.
  wp_start. unfold getNodeProtocol. wp_run. all: wp_leaf; try exact I.
  all: eexists; split; [in_trace|].
  - apply List.find_some in Hcase as [Hin Hn]. left. eexists. split; [by apply list_elem_of_In|].
    split; [|done]. unfold node_names. apply orb_true_iff in Hn as [Hn|Hn]; apply String.eqb_eq in Hn; set_solver.
  - right. split; [done|]. intros nd Hin Hn. apply list_elem_of_In in Hin.
    pose proof (List.find_none _ _ Hcase _ Hin) as Hnone. cbn beta in Hnone.
    apply orb_false_iff in Hnone as [H1 H2]. apply String.eqb_neq in H1, H2. unfold node_names in Hn. set_solver.
Qed.

Lemma node_network_space_status proto secret e :
  node_network_space proto secret = Some (Err e) -> exists m, e = EStatus InvalidArgument m.
Proof. unfold node_network_space. repeat case_match; intros; simplify_eq; by eexists. Qed.
Lemma apply_node_protocol_status proto req t e :
  runs (apply_node_protocol proto req) t (Done (Err e)) -> exists m, e = EStatus InvalidArgument m.
Proof.
  enough (H : forall t o, runs (apply_node_protocol proto req) t o ->
            match o with Done (Err e) => exists m, e = EStatus InvalidArgument m | _ => True end) by apply H.
  wp_start. unfold apply_node_protocol, GetProtocolSecret, GetSecret. wp_run. all: wp_leaf; try exact I.
  all: first [by eexists|by eapply node_network_space_status].
Qed.
Lemma node_network_space_nonempty proto secret s :
  node_network_space proto secret = Some (Ok s) -> s <> "".
Proof.
  unfold node_network_space. repeat case_match; try done; intros; simplify_eq; by apply String.eqb_neq.
Qed.

Lemma apply_node_protocol_relabelled proto req t req' :
  runs (apply_node_protocol proto req) t (Done (Ok req')) -> relabelled proto req req' t.
Proof.
  enough (H : forall t o, runs (apply_node_protocol proto req) t o ->
            match o with Done (Ok req') => relabelled proto req req' t | _ => True end) by apply H.
  wp_start. unfold apply_node_protocol, GetProtocolSecret, GetSecret. wp_run. all: wp_leaf; try exact I.
  { left. split; [by apply String.eqb_eq|done]. }
  all: right; split; [by apply String.eqb_neq|].
  all: do 3 eexists; split; [in_trace|].
  all: match goal with H : node_network_space _ _ = _ |- _ => rewrite H end.
  - do 2 eexists. split; [done|]. split; [by eapply node_network_space_nonempty|]. by split.
  - done.
Qed.

(** What is validated of a publication before anything is changed. *)
Record publishable (req : CSIPublishRequest) (vi : VolumeProtocolConfig) : Prop := {
  publishable_capability : exists c, Pub_VolumeCapability req = Some c /\ is_ok (validateCapabilities (Some [c])) = true;
  publishable_volume : ValidateVolumeID (Pub_VolumeId req) = Ok vi;
  publishable_node : exists host id, Split (Pub_NodeId req) "$$" = [host; id];
  publishable_secret : forall key, key ∈ [CredentialUsername; CredentialPassword; CredentialHostname] ->
                         (Pub_Secrets req).[key] <> ""
}.

(** The implementation made for the volume, over the protocol of the node's
    label if it has one. *)
Definition implements (ops : StorageOperations) (capacity : Z) (vi : VolumeProtocolConfig) : Prop :=
  exists cs, VolProto cs = vi /\ NewStorageNode cs capacity = Ok ops.

Definition published_under_lock (req : CSIPublishRequest) (t : trace) (o : outcome (res (gmap string string))) : Prop :=
  exists pre mid vi proto req' ops o',
    t = pre ++ Evt (Os (Lock NodeVolumeMutex)) tt :: mid ++ [Evt (Os (Unlock NodeVolumeMutex)) tt] /\ calm pre /\
    publishable req vi /\ labelled (Pub_NodeId req) proto pre /\ relabelled proto req req' pre /\
    implements ops 0 (with_StorageType proto vi) /\ runs (Storage.ControllerPublishVolume ops req') mid o' /\
    match o' with
    | Done (Ok ctx) => o = Done (Ok ctx)
    | Done (Err err) => exists pre, o = Done (Err (status_of Internal pre err))
    | Panicked => o = Panicked
    | Exhausted => False
    end.
Definition status {A} (r : res A) : Prop := match r with Err (EStatus _ _) => True | _ => False end.
Definition refused {A} (o : outcome (res A)) : Prop :=
  match o with Done r => status r | Panicked => True | Exhausted => False end.

Lemma validateNodeID_none nodeID : validateNodeID nodeID = None -> exists host id, Split nodeID "$$" = [host; id].
Proof. unfold validateNodeID. repeat case_match; try done. eauto. Qed.
Lemma validateSecret_none v n ns secrets :
  validateSecret v n ns secrets = None ->
  forall key, key ∈ [CredentialUsername; CredentialPassword; CredentialHostname] -> secrets.[key] <> "".
Proof.
  unfold validateSecret. case_match; [done|]. intros _ key Hkey.
  repeat match goal with H : _ || _ = false |- _ => apply orb_false_iff in H as [] end.
  repeat match goal with H : String.eqb _ _ = false |- _ => apply String.eqb_neq in H end.
  set_solver.
Qed.
Lemma new_controller_implements p q config secrets vp cap t ops cs :
  runs (new_controller p q config secrets vp cap) t (Done (Ok (ops, cs))) -> implements ops cap vp.
Proof.
  enough (H : forall t o, runs (new_controller p q config secrets vp cap) t o ->
            match o with Done (Ok (ops, cs)) => implements ops cap vp | _ => True end) by apply H.
  wp_start. unfold new_controller, NewStorageController, BuildCommonService, verifyAPIClient, getAPIConfig.
  wp_run. all: wp_leaf; try exact I. all: eexists; split; [|eassumption]; reflexivity.
Qed.

(** The fields of the request relabelling leaves alone. *)
Lemma relabelled_same proto req req' t :
  relabelled proto req req' t -> Pub_Secrets req' = Pub_Secrets req.
Proof.
  intros [[_ ->]|(_ & ? & ? & secret & _ & H)]; [done|].
  destruct (node_network_space proto (secret_map secret)) as [space|]; [|by subst].
  by destruct H as (s & ctx & _ & _ & _ & ->).
Qed.
Lemma labelled_before nodeID proto t t' : labelled nodeID proto t -> labelled nodeID proto (t ++ t').
Proof. intros (nodes & H & Hn). exists nodes. split; [set_solver|done]. Qed.
Lemma labelled_after nodeID proto t t' : labelled nodeID proto t -> labelled nodeID proto (t' ++ t).
Proof. intros (nodes & H & Hn). exists nodes. split; [set_solver|done]. Qed.
Lemma relabelled_before proto req req' t t' : relabelled proto req req' t -> relabelled proto req req' (t ++ t').
Proof. intros [H|(Hne & n & ns & s & H & Hs)]; [by left|]. right. split; [done|]. exists n, ns, s. split; [set_solver|done]. Qed.
Lemma relabelled_after proto req req' t t' : relabelled proto req req' t -> relabelled proto req req' (t' ++ t).
Proof. intros [H|(Hne & n & ns & s & H & Hs)]; [by left|]. right. split; [done|]. exists n, ns, s. split; [set_solver|done]. Qed.

(** C21: publishing either refuses the request, having changed nothing, or
    validates it, works out the protocol from the label of the node and the
    protocol secret, and then runs the protocol's own publication between taking
    the node-volume mutex and releasing it, once, also when that fails or panics;
    it answers the protocol's context, or its error as status Internal. *)
Theorem ControllerPublishVolume_spec p q req t o :
  runs (ControllerPublishVolume p q req) t o ->
  serialized NodeVolumeMutex t /\ ((calm t /\ refused o) \/ published_under_lock req t o).
Proof.
  intros Ht. enough (H : (calm t /\ refused o) \/ published_under_lock req t o).
  { split; [|done]. destruct H as [[[? ?] _]|(pre & mid & ? & ? & ? & ? & ? & -> & [? ?] & _ & _ & _ & _ & Hmid & _)]; [by left|].
    right. exists pre, mid. repeat (split; [done|]). by eapply lock_free_runs, Hmid; apply ControllerPublishVolume_lock_free. }
  revert t o Ht. apply leads_start. unfold ControllerPublishVolume.
  pose proof calm_nil. repeat lead_step.
  all: try (apply leads_ret; by left). all: try by left.
  2: { apply leads_ret. left. split; [assumption|].
       match goal with H : runs (apply_node_protocol _ _) _ _ |- _ => by eapply apply_node_protocol_status in H as [m ->] end. }
  intros t2 o Ht. rename a3 into ctl. destruct ctl as [ops cs].
  apply runs_bind_inv in Ht as [([] & u1 & u2 & -> & Hlock & Hrun)|[[_ Hl]|[_ Hl]]];
    [|by destruct Hl as (? & ? & ? & ? & ?)..].
  destruct Hlock as ([] & u & -> & -> & _).
  apply defer_unlock in Hrun as (mid & -> & Hmid).
  2: { intros u Hu. eapply fuelled_runs, Hu. apply ends_bind; [apply ControllerPublishVolume_fuelled|by intros [|]]. }
  assert (Hrel : relabelled a1 req a2 t0) by by eapply apply_node_protocol_relabelled.
  assert (Hsame : Pub_Secrets a2 = Pub_Secrets req) by by eapply relabelled_same.
  assert (Hmid' : exists mid' o', mid = mid' /\ runs (Storage.ControllerPublishVolume ops a2) mid' o' /\
    match o' with
    | Done (Ok ctx) => o = Done (Ok ctx)
    | Done (Err err) => exists pre, o = Done (Err (status_of Internal pre err))
    | Panicked => o = Panicked
    | Exhausted => False
    end).
  { apply runs_bind_inv in Hmid as [(r & m1 & m2 & -> & H1' & H2')|[[-> Hm]|[-> Hm]]].
    - exists m1, (Done r). destruct r as [ctx|err]; destruct H2' as [-> ->]; rewrite app_nil_r; eauto.
    - by exists mid, Panicked.
    - by destruct (fuelled_runs _ _ (ControllerPublishVolume_fuelled ops a2) Hm). }
  destruct Hmid' as (mid' & o' & -> & Hmid' & Ho').
  right. exists ((([] ++ t) ++ t0) ++ t1), mid', a0, a1, a2, ops, o'.
  split; [done|]. split; [done|]. split.
  { split; [by eexists; split; [|by rewrite Hcase0]|done|by apply validateNodeID_none|].
    rewrite <- Hsame. by eapply validateSecret_none. }
  split; [by apply labelled_before, labelled_before, labelled_after, getNodeProtocol_labelled|].
  split; [by apply relabelled_before, relabelled_after|].
  split; [by eapply new_controller_implements|]. by split.
Qed.

(** ** Creating *)

(** The request a protocol gets to create a volume, and what was validated
    before: the secrets, the storage class, the pool and the network spaces. *)
Record creatable (req : CSICreateVolumeRequest) (proto : string) (params : gmap string string) (capacity : Z)
    (ops : StorageOperations) (t : trace) : Prop := {
  creatable_name : Req_Name req <> "";
  creatable_capabilities : is_ok (validateCapabilities (Req_VolumeCapabilities req)) = true;
  creatable_protocol : exists given secrets, during (determineStorageProtocol (Req_Parameters req)) (Ok (proto, given)) t /\
    during (handlePVCAnnotations (Req_set_Parameters given req)) (Ok (secrets, params)) t;
  creatable_capacity : exists bytes, Req_CapacityRange req = Some bytes /\
    (capacity = RoundUp bytes \/ (capacity = bytes /\ ParseBool params.[StorageClassRoundup] = Ok false));
  creatable_secrets : forall key, key ∈ [CredentialUsername; CredentialPassword; CredentialHostname] ->
    (Req_Secrets req).[key] <> "";
  creatable_class : exists scName sc, Evt (Kube (GetStorageClassParameters scName)) (Ok sc) ∈ t /\
    forall param, param ∈ requiredSecretParams -> sc.[param] <> "";
  creatable_pool : exists pool, Evt (Ibox (GetPoolByName params.[StorageClassPoolName])) (Ok pool) ∈ t;
  creatable_spaces : proto = ProtocolFC \/ forall name, name ∈ Split params.[StorageClassNetworkSpace] "," ->
    exists space, Evt (Ibox (GetNetworkSpaceByName name)) (Ok space) ∈ t;
  creatable_formats : check_formats params optional_formats = None;
  creatable_protocol_class : exists made, implements made capacity (MkVolumeProtocolConfig 0 proto "" None "" 0) /\
    ValidateStorageClass made params = (None, ops)
}.

(** After the protocol's creation: at most the metadata of the claim's
    annotation is written; the volume's identifier gets the protocol. *)
Definition finished_creation (proto : string) (answer : CreateVolumeResponse) (t : trace)
    (o : outcome (res CreateVolumeResponse)) : Prop :=
  match answer with
  | Some volume =>
      (CSIVolume_VolumeId volume <> "" /\
       (changed t = [] \/ exists id m a, Atoi (CSIVolume_VolumeId volume) = Ok id /\
          changed t = [Evt (Ibox (PutMetadata id {[ PVCAnnotationVolumeMetadata := JStr m ]})) a]) /\
       (o = Done (Ok (Some (set_VolumeId (CSIVolume_VolumeId volume +:+ "$$" +:+ proto) volume))) \/
        exists err, o = Done (Err (status_of Internal "" err)))) \/
      (CSIVolume_VolumeId volume = "" /\ t = [] /\ exists m, o = Done (Err (EStatus Internal m)))
  | None => t = [] /\ exists m, o = Done (Err (EStatus Internal m))
  end.

Definition created_by_protocol (req : CSICreateVolumeRequest) (t : trace) (o : outcome (res CreateVolumeResponse)) : Prop :=
  exists t1 t2 t3 proto params capacity ops o',
    t = t1 ++ t2 ++ t3 /\ calm t1 /\ creatable req proto params capacity ops t1 /\
    runs (Storage.CreateVolume ops (Req_set_Parameters params req)) t2 o' /\
    match o' with
    | Done (Ok answer, _) => finished_creation proto answer t3 o
    | Done (Err err, _) => t3 = [] /\ o = Done (Err err)
    | Panicked => t3 = [] /\ o = Panicked
    | Exhausted => t3 = [] /\ o = Exhausted
    end.

Lemma finish_volume_finished name proto answer params t o :
  runs (finish_volume name proto answer params) t o -> finished_creation proto answer t o.
Proof.
  revert t o. wp_start. unfold finish_volume. destruct answer as [volume|].
  2: { wp_leaf. split; [done|by eexists]. }
  destruct (String.eqb_spec (CSIVolume_VolumeId volume) "") as [Hid|Hid].
  { wp_run. wp_leaf. right. split; [done|]. split; [done|by eexists]. }
  wp_reduce. unfold handlePVCAnnotationForMetadata. wp_run.
  all: apply wp_bind, runs_wp; intros t o Ht.
  all: pose proof (quiet_runs _ _ _ (handleSCReplica_quiet _ _ _) Ht) as [Hro _].
  all: destruct (returning_runs _ _ _ (handleSCReplica_returning _ _ _) Ht) as [r ->].
  all: wp_run; wp_leaf; left; (split; [done|]).
  all: rewrite ?changed_cons, ?changed_app, (changed_readonly _ Hro); cbn.
  all: split; [first [by left|right; by do 3 eexists]|].
  all: first [by left|right; by eexists].
Qed.

(** What the validations answered without an error have seen. *)
Lemma validateStorageClassSecretParameters_none params t :
  runs (validateStorageClassSecretParameters params) t (Done None) ->
  exists scName sc, Evt (Kube (GetStorageClassParameters scName)) (Ok sc) ∈ t /\
    forall param, param ∈ requiredSecretParams -> sc.[param] <> "".
Proof.
  enough (H : forall t o, runs (validateStorageClassSecretParameters params) t o -> o = Done None ->
            exists scName sc, Evt (Kube (GetStorageClassParameters scName)) (Ok sc) ∈ t /\
              forall param, param ∈ requiredSecretParams -> sc.[param] <> "") by eauto.
  wp_start. unfold validateStorageClassSecretParameters. wp_run. all: wp_leaf; try done.
  intros _. do 2 eexists. split; [in_trace|]. intros param Hin%list_elem_of_In.
  apply String.eqb_neq. by eapply (List.find_none _ _ Hcase0).
Qed.

Lemma check_network_spaces_none names t :
  runs (check_network_spaces names) t (Done None) ->
  forall name, name ∈ names -> exists space, Evt (Ibox (GetNetworkSpaceByName name)) (Ok space) ∈ t.
Proof.
  revert t. induction names as [|n names IH]; intros t Ht name Hin; [by apply not_elem_of_nil in Hin|].
  destruct Ht as (r & t' & -> & Ht). destruct r as [space|]; [|by destruct Ht].
  apply elem_of_cons in Hin as [->|Hin]; [eexists; by left|].
  destruct (IH _ Ht _ Hin) as [sp Hsp]. eexists. by right.
Qed.

Lemma validateCommonStorageClassParameters_none params proto t :
  runs (validateCommonStorageClassParameters params proto) t (Done None) ->
  (exists pool, Evt (Ibox (GetPoolByName params.[StorageClassPoolName])) (Ok pool) ∈ t) /\
  (proto = ProtocolFC \/ forall name, name ∈ Split params.[StorageClassNetworkSpace] "," ->
     exists space, Evt (Ibox (GetNetworkSpaceByName name)) (Ok space) ∈ t) /\
  check_formats params optional_formats = None.
Proof.
  intros Ht. apply runs_call_inv in Ht as (r & t' & -> & Ht). destruct r as [pool|]; [|by destruct Ht].
  apply runs_bind_inv in Ht as [(r & t1 & t2 & -> & H1 & H2)|[[? _]|[? _]]]; [|done..].
  destruct r; [by destruct H2|]. destruct H2 as [-> [= Hf]]. split; [eexists; by left|]. split; [|done].
  destruct (String.eqb_spec proto ProtocolFC) as [->|_]; [by left|]. right. intros name Hin.
  apply runs_bind_inv in H1 as [(r & t3 & t4 & -> & H3 & H4)|[[? _]|[? _]]]; [|done..].
  destruct r; [by destruct H4|]. destruct (check_network_spaces_none _ _ H3 _ Hin) as [sp Hsp].
  exists sp. set_solver.
Qed.

Lemma determineCapacity_ok req t capacity :
  runs (determineCapacity req) t (Done (Ok capacity)) ->
  exists bytes, Req_CapacityRange req = Some bytes /\
    (capacity = RoundUp bytes \/ (capacity = bytes /\ ParseBool (Req_Parameters req).[StorageClassRoundup] = Ok false)).
Proof.
  unfold determineCapacity. destruct (Req_CapacityRange req) as [bytes|]; [|by intros [_ ?]].
  intros Ht. exists bytes. split; [done|]. revert Ht. repeat case_match; intros [_ ?]; simplify_eq; auto.
Qed.


(** The protocol's creation and what follows it. *)
Lemma hand_over req proto params capacity ops pre :
  calm pre -> creatable req proto params capacity ops pre ->
  leads pre (made <- Storage.CreateVolume ops (Req_set_Parameters params req) ;;
             match made with
             | (Err err, _) => Ret (Err err)
             | (Ok answer, params) => finish_volume (Req_Name req) proto answer params
             end) (fun t o => created_by_protocol req t o).
Proof.
  intros Hpre Hok t o Ht.
  apply runs_bind_inv in Ht as [([r params'] & t2 & t3 & -> & H1 & H2)|[[-> H1]|[-> H1]]].
  - exists pre, t2, t3, proto, params, capacity, ops, (Done (r, params')). do 4 (split; [done|]).
    destruct r as [answer|err]; [by eapply finish_volume_finished|by destruct H2 as [-> ->]].
  - exists pre, t, [], proto, params, capacity, ops, Panicked. by rewrite app_nil_r.
  - exists pre, t, [], proto, params, capacity, ops, Exhausted. by rewrite app_nil_r.
Qed.

(** C20: a creation either refuses the request with a gRPC status, or panics on a
    request without a capacity, having changed nothing; or, once everything is
    validated, it runs the protocol's creation with the parameters the protocol
    secret and the claim's annotations gave, for the rounded capacity. The
    protocol's error is answered as it is; a volume it answers gets the protocol
    behind its identifier, and at most the metadata of the annotation is written
    after it was made. *)
Theorem CreateVolume_spec p q driver req t o :
  runs (CreateVolume p q driver req) t o ->
  (calm t /\ refused o) \/ created_by_protocol req t o.
Proof.
  revert t o. apply leads_start. unfold CreateVolume.
  pose proof calm_nil. repeat lead_step.
  all: try (apply leads_ret; by left). all: try by left.
  unfold create_on_array. repeat lead_step.
  all: try (apply leads_ret; by left). all: try by left.
  simplify_eq. intros u oo Hu. right. revert u oo Hu.
  destruct (validateCommonStorageClassParameters_none _ _ _ ltac:(eassumption)) as ([pool Hpool] & Hspaces & Hf).
  destruct (validateStorageClassSecretParameters_none _ _ ltac:(eassumption)) as (scn & sc & Hsc & Hreq).
  destruct (determineCapacity_ok _ _ _ ltac:(eassumption)) as (bytes & Hb & Hcap).
  eapply hand_over; [assumption|].
  split; try assumption.
  - by apply String.eqb_neq.
  - by rewrite Hcase3.
  - do 2 eexists. split; repeat first [eassumption|apply during_before].
  - by eexists.
  - by eapply validateSecret_none.
  - exists scn, sc. split; [set_solver|done].
  - exists pool. set_solver.
  - destruct Hspaces as [|Hspaces]; [by left|]. right. intros n Hn. destruct (Hspaces n Hn) as [sp Hsp].
    exists sp. set_solver.
  - destruct a3 as [made cs]. exists made. split; [by eapply new_controller_implements|done].
Qed.

(** ** Handing a request over *)

(** After a quiet beginning that keeps [P], a run of [callee], whose result the
    handler turns into its own. *)
Definition handed_over {A B} (P : trace -> Prop) (callee : prog call A) (answer : A -> B -> Prop)
    (t : trace) (o : outcome B) : Prop :=
  exists pre mid o', t = pre ++ mid /\ calm pre /\ P pre /\ runs callee mid o' /\
    match o' with
    | Done a => exists b, o = Done b /\ answer a b
    | Panicked => o = Panicked
    | Exhausted => o = Exhausted
    end.

Lemma handed_over_bind {A B} (P : trace -> Prop) (callee : prog call A) (f : A -> B) (answer : A -> B -> Prop) pre :
  calm pre -> P pre -> (forall a, answer a (f a)) ->
  leads pre (bind callee (fun a => Ret (f a))) (handed_over P callee answer).
Proof.
  intros Hpre HP Ha t o Ht. exists pre, t.
  apply runs_bind_inv in Ht as [(a & t1 & t2 & -> & H1 & [-> ->])|[[-> H1]|[-> H1]]].
  - exists (Done a). rewrite app_nil_r. do 4 (split; [done|]). eauto.
  - by exists Panicked.
  - by exists Exhausted.
Qed.

Lemma handed_over_case {A B} (P : trace -> Prop) (callee : prog call A) (k : A -> prog call B) (answer : A -> B -> Prop) pre :
  calm pre -> P pre -> (forall a, exists b, k a = Ret b /\ answer a b) ->
  leads pre (bind callee k) (handed_over P callee answer).
Proof.
  intros Hpre HP Hk t o Ht. exists pre, t.
  apply runs_bind_inv in Ht as [(a & t1 & t2 & -> & H1 & H2)|[[-> H1]|[-> H1]]].
  - exists (Done a). destruct (Hk a) as (b & Hb & Ha). rewrite Hb in H2. destruct H2 as [-> ->].
    rewrite app_nil_r. do 4 (split; [done|]). eauto.
  - by exists Panicked.
  - by exists Exhausted.
Qed.

(** An error of the callee becomes a status; without one there is none. *)
Definition as_status (code : Code) (e e' : option error) : Prop :=
  match e with
  | None => e' = None
  | Some err => exists pre, e' = Some (status_of code pre err)
  end.
Definition as_result {A} (code : Code) (r r' : res A) : Prop :=
  match r with
  | Ok a => r' = Ok a
  | Err err => exists pre, r' = Err (status_of code pre err)
  end.
Definition rejected (o : outcome (option error)) : Prop :=
  match o with Done (Some (EStatus _ _)) | Panicked => True | _ => False end.

(** The secret of the volume's persistent volume, if the cluster has one of the
    volume's identifier that names a secret; else the request's. *)
Definition deletion_secrets (req : CSIDeleteVolumeRequest) (secrets : gmap string string) (t : trace) : Prop :=
  exists items, Evt (Kube PersistentVolumesList) (Ok items) ∈ t /\
    match pv_secret (driver_volumes items) (Del_VolumeId req) with
    | Some None => secrets = Del_Secrets req
    | Some (Some name) => exists namespace secret,
        Evt (Kube (SecretsGet namespace name)) (Ok secret) ∈ t /\ secrets = secret_map secret
    | None => False
    end.

(** Deleting a volume either rejects the request having changed nothing, or
    hands the volume of the identifier over to its protocol, with the secret its
    persistent volume names; the protocol's error becomes status Internal. *)
Theorem DeleteVolume_spec p q driver fuel req t o :
  runs (DeleteVolume p q driver fuel req) t o ->
  (calm t /\ rejected o) \/
  exists vi ops, ValidateVolumeID (Del_VolumeId req) = Ok vi /\ implements ops 0 vi /\
    handed_over (fun pre => exists secrets, deletion_secrets req secrets pre /\
                   exists cs, during (new_controller p q {[ "nodeid" := nodeID driver ]} secrets vi 0) (Ok (ops, cs)) pre)
      (Storage.DeleteVolume fuel ops) (as_status Internal) t o.
Proof.
  revert t o. apply leads_start. unfold DeleteVolume.
  pose proof calm_nil. repeat lead_step.
  all: try (apply leads_ret; by left). all: try (apply leads_panic; by left). all: try by left.
  all: lazymatch goal with H : runs (match ?x with Some _ => _ | None => _ end) _ _ |- _ => rename H into Hsec end.
  2: { apply leads_ret. left. split; [done|]. destruct o as [name|]; [|by destruct Hsec].
       destruct Hsec as (ns & u & -> & r & u' & -> & Hr). by destruct r; destruct Hr as [-> [= Hr]]; simplify_eq/=. }
  destruct a2 as [ops cs].
  intros u oo Hu. right. exists a, ops. split; [done|]. split; [by eapply new_controller_implements|]. revert u oo Hu.
  apply handed_over_bind; [done| |by intros [|]; [eexists|]].
  exists a1. split; [|by exists cs].
  match goal with H : runs GetAllPersistentVolumes _ _ |- _ => apply GetAllPersistentVolumes_ok in H as (items & -> & ->) end.
  exists items. split; [set_solver|]. rewrite Hcase2. destruct o as [name|]; [|by destruct Hsec; simplify_eq].
  destruct Hsec as (ns & u & -> & r & u' & -> & Hr). destruct r; destruct Hr as [-> [= ->]].
  eexists ns, _. split; [|done]. set_solver.
Qed.

(** ** Unpublishing *)

(** The name of the host object of a node, for a volume of the storage type. *)
Definition node_host_name (storageType nodeID name : string) : Prop :=
  exists full port n, Split nodeID "$$" = [full; port] /\ (n = full \/ n = shortHost full) /\
    name = if String.eqb storageType ProtocolNVME then n +:+ Nvme.NVMEHostSuffix else n.
Definition unpublished_volume (req : CSIUnpublishRequest) (vi : VolumeProtocolConfig) (proto : string) : VolumeProtocolConfig :=
  VolumeProtocolConfig_set_NodeID (Unpub_NodeId req) (with_StorageType proto vi).
Definition exported (storageType : string) : Prop := storageType = ProtocolNFS \/ storageType = ProtocolTreeq.

(** The implementation gets the host the array answered for the node's name;
    over NFS there is no host. *)
Definition with_host (vi : VolumeProtocolConfig) (nodeID : string) (ops : StorageOperations) (t : trace) : Prop :=
  exists made, implements made 0 vi /\
    ((exported (VolumeProtocolConfig_StorageType vi) /\ ops = made) \/
     exists name host, node_host_name (VolumeProtocolConfig_StorageType vi) nodeID name /\
       Evt (Ibox (GetHostByName name)) (Ok host) ∈ t /\ ops = share_VolProto (VolumeProtocolConfig_set_Host (Some host) vi) made).

Lemma DetermineHostName_quiet nodeID : quiet (DetermineHostName nodeID).
Proof. unfold DetermineHostName. every_tac. Qed.
Lemma DetermineHostName_returning nodeID : returning (DetermineHostName nodeID).
Proof. unfold DetermineHostName. ends_tac. Qed.
Lemma find_host_quiet storageType hostName : quiet (find_host storageType hostName).
Proof. unfold find_host. every_tac. Qed.
Lemma find_host_returning storageType hostName : returning (find_host storageType hostName).
Proof. unfold find_host. ends_tac. Qed.
#[local] Hint Resolve DetermineHostName_quiet DetermineHostName_returning find_host_quiet find_host_returning : csi.
Lemma DetermineHostName_ok nodeID t name :
  runs (DetermineHostName nodeID) t (Done (Ok name)) ->
  exists full port, Split nodeID "$$" = [full; port] /\ (name = full \/ name = shortHost full).
Proof.
  enough (H : forall t o, runs (DetermineHostName nodeID) t o -> o = Done (Ok name) ->
            exists full port, Split nodeID "$$" = [full; port] /\ (name = full \/ name = shortHost full)) by eauto.
  wp_start. unfold DetermineHostName. wp_run. all: wp_leaf; try done.
  intros [= <-]. do 2 eexists. split; [done|]. case_match; auto.
Qed.
Lemma find_host_answer storageType hostName t r :
  runs (find_host storageType hostName) t (Done r) ->
  let name := if String.eqb storageType ProtocolNVME then hostName +:+ Nvme.NVMEHostSuffix else hostName in
  match r with
  | Ok (Some (Some host)) => Evt (Ibox (GetHostByName name)) (Ok host) ∈ t
  | Ok (Some None) => exported storageType
  | Ok None => exists err, Evt (Ibox (GetHostByName name)) (Err err) ∈ t /\ is_ErrNotFound err = true
  | Err _ => True
  end.
Proof.
  intros Ht. unfold find_host in Ht. unfold exported.
  destruct (String.eqb_spec storageType ProtocolNFS), (String.eqb_spec storageType ProtocolTreeq); cbn in Ht;
    [destruct Ht; simplify_eq; tauto..|].
  destruct Ht as (x & t' & -> & -> & [= ->]). destruct x as [host|err]; [by left|].
  destruct (is_ErrNotFound err) eqn:He; [|done]. exists err. split; [by left|done].
Qed.

(** Unpublishing either rejects the request having changed nothing; or finds
    that the array knows no host of the node's name, and succeeds without a
    change; or hands the volume, over the protocol of the node's label, with the
    host of the node, over to its protocol. *)
Theorem ControllerUnpublishVolume_spec p q req t o :
  runs (ControllerUnpublishVolume p q req) t o ->
  (calm t /\ rejected o) \/
  exists vi proto, ValidateVolumeID (Unpub_VolumeId req) = Ok vi /\ labelled (Unpub_NodeId req) proto t /\
    let vi := unpublished_volume req vi proto in
    (calm t /\ o = Done None /\ exists name err, node_host_name (VolumeProtocolConfig_StorageType vi) (Unpub_NodeId req) name /\
       Evt (Ibox (GetHostByName name)) (Err err) ∈ t /\ is_ErrNotFound err = true) \/
    exists ops, handed_over (with_host vi (Unpub_NodeId req) ops)
      (Storage.ControllerUnpublishVolume ops) (as_status Internal) t o.
Proof.
  revert t o. apply leads_start. unfold ControllerUnpublishVolume.
  pose proof calm_nil. repeat lead_step.
  all: try (apply leads_ret; by left). all: try by left.
  all: match goal with H : runs (DetermineHostName _) _ _ |- _ => apply DetermineHostName_ok in H as (full & port & Hsplit & Hname) end.
  all: match goal with H : runs (find_host _ _) _ _ |- _ => apply find_host_answer in H end.
  all: match goal with H : runs (getNodeProtocol _) _ _ |- _ => apply getNodeProtocol_labelled in H; rename H into Hlab end.
  all: fold (unpublished_volume req a a0) in *.
  all: assert (Hn : node_host_name (VolumeProtocolConfig_StorageType (unpublished_volume req a a0)) (Unpub_NodeId req)
                      (if String.eqb (VolumeProtocolConfig_StorageType (unpublished_volume req a a0)) ProtocolNVME
                       then a1 +:+ Nvme.NVMEHostSuffix else a1)) by by exists full, port, a1.
  - intros u oo Hu. right. exists a, a0. split; [done|].
    split; [by do 4 apply labelled_before; apply labelled_after|]. right.
    exists (match o with
            | Some host => share_VolProto (VolumeProtocolConfig_set_Host (Some host) (unpublished_volume req a a0)) a2.1
            | None => a2.1
            end). revert u oo Hu.
    apply handed_over_bind; [done| |by intros [|]; [eexists|]].
    destruct a2 as [made cs]. exists made. split; [by eapply new_controller_implements|].
    destruct o as [host|]; [right|by left]. eexists _, host. split; [exact Hn|]. split; [set_solver|done].
  - apply leads_ret. right. exists a, a0. split; [done|].
    split; [by do 3 apply labelled_before; apply labelled_after|]. left. split; [done|]. split; [done|].
    destruct H9 as (err & Herr & He). eexists _, err. split; [exact Hn|]. split; [set_solver|done].
Qed.

(** ** Expansion and snapshots *)

(** The one call that resizes the object of a volume, and its answer. *)
Definition resizing (vi : VolumeProtocolConfig) (size : Z) (t : trace) (o : outcome (res CSIExpandResponse)) : Prop :=
  let id := VolumeProtocolConfig_VolumeID vi in
  exists r : res unit,
    ((VolumeProtocolConfig_StorageType vi = ProtocolNFS /\ exists a, r = res_bind a (fun _ => Ok tt) /\
        t = [Evt (Ibox (UpdateFileSystem id (FileSystem_of 0 "" size 0 0 ""))) a]) \/
     (VolumeProtocolConfig_StorageType vi <> ProtocolNFS /\ exists a, r = res_bind a (fun _ => Ok tt) /\
        t = [Evt (Ibox (UpdateVolume id (Volume_of 0 "" size 0 0 "" "" false))) a])) /\
    match r with
    | Ok _ => exists node, o = Done (Ok (MkCSIExpandResponse size node))
    | Err err => o = Done (Err (impl Internal (Error err)))
    end.

Lemma ControllerExpandVolume_resizing ops size vi req t o :
  implements ops size vi -> VolumeProtocolConfig_StorageType vi <> ProtocolTreeq ->
  runs (Storage.ControllerExpandVolume ops req) t o -> resizing vi size t o.
Proof.
  intros (cs & <- & Hn) Htree. unfold NewStorageNode in Hn. unfold resizing.
  repeat match type of Hn with
         | (if ?b then _ else _) = _ => let H := fresh "Hp" in destruct b eqn:H
         end; simplify_eq.
  all: rewrite ?String.eqb_eq, ?String.eqb_neq in *; try done.
  all: intros (a & t' & -> & Ht); exists (res_bind a (fun _ => Ok tt)).
  all: destruct a as [a|e]; destruct Ht as [-> ->]; (split; [|by try eexists]).
  all: first [left; split; [assumption|eexists; split; [|reflexivity]; reflexivity]
             |right; split; [by intros E; rewrite E in *|eexists; split; [|reflexivity]; reflexivity]].
Qed.

(** C22: expanding either refuses the request having changed nothing, or hands it
    over to the volume's protocol with the requested size, at least a gibibyte
    and rounded up; the answer is the protocol's, its error status Internal.
    Unless the volume is a treeq, the only change is one call that sets the size
    of its object to exactly that. *)
Theorem ControllerExpandVolume_spec p q driver req t o :
  runs (ControllerExpandVolume p q driver req) t o ->
  (calm t /\ refused o) \/
  exists vi bytes ops, ValidateVolumeID (Exp_VolumeId req) = Ok vi /\ Exp_CapacityRange req = Some bytes /\
    let size := RoundUp (Z.max bytes GIB) in
    let callee := Storage.ControllerExpandVolume ops (set_Exp_VolumeId (Itoa (VolumeProtocolConfig_VolumeID vi)) req) in
    implements ops size vi /\
    (forall key, key ∈ [CredentialUsername; CredentialPassword; CredentialHostname] -> (Exp_Secrets req).[key] <> "") /\
    handed_over (fun _ => True) callee (as_result Internal) t o /\
    (VolumeProtocolConfig_StorageType vi <> ProtocolTreeq -> forall mid o', runs callee mid o' -> resizing vi size mid o').
Proof.
  revert t o. apply leads_start. unfold ControllerExpandVolume.
  pose proof calm_nil. repeat lead_step.
  all: try (apply leads_ret; by left). all: try by left.
  destruct a0 as [ops cs]. intros u oo Hu. right.
  destruct (Exp_CapacityRange req) as [bytes|] eqn:Hbytes.
  2: { unfold validateExpandVolumeRequest in Hcase. rewrite Hbytes in Hcase. by destruct (String.eqb _ _). }
  exists a, bytes, ops. do 2 (split; [done|]).
  assert (Himpl : implements ops (RoundUp (Z.max bytes GIB)) a) by by eapply new_controller_implements.
  split; [done|]. split; [by eapply validateSecret_none|]. split; [|by intros; eapply ControllerExpandVolume_resizing].
  revert u oo Hu. apply handed_over_case; [done..|]. intros [ans|err]; by repeat eexists.
Qed.

Definition snapshot_taken (req : CSISnapshotRequest) (t : trace) (o : outcome (res CSISnapshot)) : Prop :=
  exists vi ops pre mid post o', ValidateVolumeID (Snap_SourceVolumeId req) = Ok vi /\ implements ops 0 vi /\
    t = pre ++ mid ++ post /\ calm pre /\ calm post /\ runs (Storage.CreateSnapshot ops req) mid o' /\
    match o' with
    | Done (Ok snapshot) => o = Done (Ok snapshot)
    | Done (Err err) => exists pre, o = Done (Err (status_of Internal pre err))
    | Panicked => o = Panicked
    | Exhausted => False
    end.

Lemma CreateSnapshot_fuelled ops req : fuelled (Storage.CreateSnapshot ops req).
Proof.
  unfold Storage.CreateSnapshot, Fc.CreateSnapshot, Iscsi.CreateSnapshot, Nvme.CreateSnapshot, Nfs.CreateSnapshot,
    CommonCreateSnapshot, lockExpiry. ends_tac.
Qed.

Lemma CreateSnapshot_taken p q driver req t o :
  runs (CreateSnapshot p q driver req) t o -> (calm t /\ refused o) \/ snapshot_taken req t o.
Proof.
  revert t o. apply leads_start. unfold CreateSnapshot.
  pose proof calm_nil. repeat lead_step.
  all: try (apply leads_ret; by left). all: try by left.
  destruct a0 as [ops cs]. intros u oo Hu. right.
  assert (Himpl : implements ops 0 a) by by eapply new_controller_implements.
  apply runs_bind_inv in Hu as [([snap|err] & t1 & t2 & -> & Hs & Hr)|[[-> Hs]|[_ Hs]]].
  - destruct Hr as ([] & t3 & -> & -> & ->).
    eexists a, ops, ([] ++ t), t1, _, (Done (Ok snap)). do 4 (split; [done|]). split; [|done].
    split; [solve_readonly|done].
  - destruct Hr as [-> ->]. exists a, ops, ([] ++ t), t1, [], (Done (Err err)).
    do 5 (split; [done|]). split; [done|]. by eexists.
  - exists a, ops, ([] ++ t), u, [], Panicked. rewrite app_nil_r. do 5 (split; [done|]). done.
  - by destruct (fuelled_runs _ _ (CreateSnapshot_fuelled ops req) Hs).
Qed.

(** A snapshot request is refused having changed nothing, or handed over to
    the protocol of its source volume or of the snapshot. The protocol's snapshot
    is the answer. An error becomes status Internal, except that a deletion keeps
    the code of the driver's own errors. *)
Theorem snapshots_spec p q driver fuel :
  (forall req t o, runs (CreateSnapshot p q driver req) t o -> (calm t /\ refused o) \/ snapshot_taken req t o) /\
  (forall req t o, runs (DeleteSnapshot p q driver fuel req) t o ->
     (calm t /\ rejected o) \/
     exists vi ops, ValidateVolumeID (DelSnap_SnapshotId req) = Ok vi /\ implements ops 0 vi /\
       handed_over (fun _ => True) (Storage.DeleteSnapshot fuel ops (Itoa (VolumeProtocolConfig_VolumeID vi)))
         (fun e e' => as_status (match e with Some (EImpl c _) => c | _ => Internal end) e e') t o).
Proof.
  split; [apply CreateSnapshot_taken|]. intros req. apply leads_start. unfold DeleteSnapshot.
  pose proof calm_nil. repeat lead_step.
  all: try (apply leads_ret; by left). all: try by left.
  destruct a0 as [ops cs]. intros u oo Hu. right. exists a, ops. split; [done|].
  split; [by eapply new_controller_implements|]. revert u oo Hu.
  apply handed_over_bind; [done..|]. intros [err|]; [|done]. by eexists.
Qed.

(** ** Examples *)

#[local] Transparent gmap_empty.

Definition url_Parse0 (s : string) : res (string * string) := Ok ("", s).
Definition url_ok0 (_ : string) : bool := true.
Definition secrets0 : gmap string string :=
  {[ CredentialHostname := "ibox1"; CredentialUsername := "u"; CredentialPassword := "p" ]}.
Definition pub_req0 : CSIPublishRequest :=
  {| Pub_VolumeId := "7$$fc"; Pub_NodeId := "node1$$10.0.0.1";
     Pub_VolumeCapability := Some (MkVolumeCapability (Some SINGLE_NODE_WRITER) AccessBlock);
     Pub_Readonly := false; Pub_Secrets := secrets0; Pub_VolumeContext := Some ∅ |}.
Definition pub_trace0 : trace :=
  [Evt (Kube BuildClient) None; Evt (Kube GetNodes) (Ok [MkNode "node1" ∅]);
   Evt (Os (Lock NodeVolumeMutex)) tt; Evt (Ibox GetSystem) (Ok 1%Z);
   Evt (Os (Getenv EnvVarRemoveDomainName)) "";
   Evt (Os (Getenv EnvVarRemoveDomainName)) ""; Evt (Ibox (GetHostByName "node1")) (Ok (Host_of 3 "node1" []));
   Evt (Ibox (GetVolume 7)) (Ok (Volume_of 7 "pvc-7" 1073741824 0 1 "pool" "UNLOCKED" false));
   Evt (Ibox (GetAllLunByHost 3)) ([], None);
   Evt (Ibox (MapVolumeToHost 3 7 (-1))) (Ok LunInfo_zero);
   Evt (Os (Unlock NodeVolumeMutex)) tt].

Lemma ControllerPublishVolume_spec_witness :
  exists ctx, runs (ControllerPublishVolume url_Parse0 url_ok0 pub_req0) pub_trace0 (Done (Ok ctx)) /\
    serialized NodeVolumeMutex pub_trace0.
Proof.
  assert (H : exists ctx, runs (ControllerPublishVolume url_Parse0 url_ok0 pub_req0) pub_trace0 (Done (Ok ctx)))
    by (eexists; unfold pub_trace0; rerun).
  destruct H as [ctx H]. exists ctx. split; [exact H|].
  exact (proj1 (ControllerPublishVolume_spec _ _ _ _ _ H)).
Defined.

Definition class0 : gmap string string := list_to_map (map (fun p => (p, "s")) requiredSecretParams).
Definition create_req0 : CSICreateVolumeRequest :=
  MkCSICreateVolumeRequest "pvc-7" (Some 1073741824%Z)
    (Some [MkVolumeCapability (Some SINGLE_NODE_WRITER) AccessBlock])
    {[ StorageClassStorageProtocol := "fc"; StorageClassPoolName := "pool" ]} secrets0 None.
Definition create_trace0 : trace :=
  [Evt (Kube BuildClient) None; Evt (Kube BuildClient) None;
   Evt (Kube (GetPVCStorageClassName "" "")) (Ok (Some "sc")); Evt (Kube (GetStorageClassParameters "sc")) (Ok class0);
   Evt (Ibox (GetPoolByName "pool")) (Ok (PoolResult_of 1 "pool" true));
   Evt (Ibox GetSystem) (Ok 1%Z); Evt (Ibox (GetVolumeByName "pvc-7")) (Err ErrNotFound);
   Evt (Ibox (GetPoolByName "pool")) (Ok (PoolResult_of 1 "pool" true));
   Evt (Ibox (IboxTypes.CreateVolume {| CreateVolumeRequest_Name := "pvc-7"; CreateVolumeRequest_PoolID := 1;
      CreateVolumeRequest_SSDEnabled := true; CreateVolumeRequest_ProvisionType := "THIN";
      CreateVolumeRequest_VolumeSize := 1073741824 |})) (Ok (Volume_of 7 "pvc-7" 1073741824 0 1 "pool" "UNLOCKED" false));
   Evt (Os (LocalTimeString 0)) "now";
   Evt (Ibox (GetVolume 7)) (Ok (Volume_of 7 "pvc-7" 1073741824 0 1 "pool" "UNLOCKED" false));
   Evt (Ibox (PutMetadata 7 {[ "host.k8s.pvname" := JStr "pvc-7" ]})) (Ok (MkResponse (Metadata_of 1) [] (APIError_of "" "")));
   Evt (Os (Increment "EventCreatedVolumes")) tt].


Lemma CreateVolume_spec_witness :
  exists v, runs (CreateVolume url_Parse0 url_ok0 (MkDriver "node1" "2.22") create_req0) create_trace0 (Done (Ok (Some v))) /\
    created_by_protocol create_req0 create_trace0 (Done (Ok (Some v))).
Proof.
  assert (H : exists v, runs (CreateVolume url_Parse0 url_ok0 (MkDriver "node1" "2.22") create_req0) create_trace0
                (Done (Ok (Some v)))) by (eexists; unfold create_trace0; rerun).
  destruct H as [v H]. exists v. split; [exact H|].
  destruct (CreateVolume_spec _ _ _ _ _ _ H) as [[_ []]|Hc]. exact Hc.
Defined.

Lemma DeleteVolume_spec_witness :
  let req := MkCSIDeleteVolumeRequest "7$$fc" secrets0 in
  let t := [Evt (Kube BuildClient) None; Evt (Kube PersistentVolumesList) (Ok []);
            Evt (Ibox (GetVolume 7)) (Err ErrNotFound)] in
  exists o, runs (DeleteVolume url_Parse0 url_ok0 (MkDriver "node1" "2.22") 3 req) t o /\
    ((calm t /\ rejected o) \/ exists vi, ValidateVolumeID "7$$fc" = Ok vi).
Proof.
  cbv zeta. set (req := MkCSIDeleteVolumeRequest _ _). set (t := [_; _; _]).
  assert (H : exists o, runs (DeleteVolume url_Parse0 url_ok0 (MkDriver "node1" "2.22") 3 req) t o)
    by (eexists; subst req t; rerun).
  destruct H as [o H]. exists o. split; [exact H|].
  destruct (DeleteVolume_spec _ _ _ _ _ _ _ H) as [Hr|(vi & ops & Hv & _)]; [by left|right; by exists vi].
Defined.

Lemma ControllerUnpublishVolume_spec_witness :
  let req := MkCSIUnpublishRequest "7$$fc" "node1$$10.0.0.1" secrets0 in
  let t := [Evt (Kube BuildClient) None; Evt (Kube GetNodes) (Ok [MkNode "node1" ∅]);
            Evt (Os (Getenv EnvVarRemoveDomainName)) ""; Evt (Ibox (GetHostByName "node1")) (Err ErrNotFound)] in
  runs (ControllerUnpublishVolume url_Parse0 url_ok0 req) t (Done None) /\ exists proto, labelled "node1$$10.0.0.1" proto t.
Proof.
  cbv zeta. set (req := MkCSIUnpublishRequest _ _ _). set (t := [_; _; _; _]).
  assert (H : runs (ControllerUnpublishVolume url_Parse0 url_ok0 req) t (Done None)) by (subst req t; rerun).
  split; [exact H|].
  destruct (ControllerUnpublishVolume_spec _ _ _ _ _ H) as [[_ []]|(vi & proto & _ & Hl & _)]. by exists proto.
Defined.

Lemma ControllerExpandVolume_spec_witness :
  let req := MkCSIExpandRequest "7$$fc" (Some 5%Z) secrets0 None in
  let t := [Evt (Ibox (UpdateVolume 7 (Volume_of 0 "" 1073741824 0 0 "" "" false)))
              (Ok (Volume_of 7 "pvc-7" 1073741824 0 1 "pool" "UNLOCKED" false))] in
  runs (ControllerExpandVolume url_Parse0 url_ok0 (MkDriver "node1" "2.22") req) t (Done (Ok (MkCSIExpandResponse 1073741824 true))) /\
  exists vi, ValidateVolumeID "7$$fc" = Ok vi.
Proof.
  cbv zeta. set (req := MkCSIExpandRequest _ _ _ _). set (t := [_]).
  assert (H : runs (ControllerExpandVolume url_Parse0 url_ok0 (MkDriver "node1" "2.22") req) t
                (Done (Ok (MkCSIExpandResponse 1073741824 true)))) by (subst req t; rerun).
  split; [exact H|].
  destruct (ControllerExpandVolume_spec _ _ _ _ _ _ H) as [[_ []]|(vi & ? & ? & Hv & _)]. by exists vi.
Defined.
