(* ===== verification/ValidationProofs.v ===== *)
(** Properties of what the controller service decides before it talks to the
    array: which volume capabilities it accepts, and the protocol and network
    space a volume is created with. *)
From stdpp Require Import base strings list gmap.
From S2P Require Import Prelude GoLib IboxTypes Traces Csi KubeClient Helper StorageCommon Storage ScReplica Controller.
From Stdlib Require Import ZArith Lia.

Local Open Scope string_scope.
Local Open Scope list_scope.

(** ** Capabilities *)

(** What the loop accepts of one capability. *)
Record acceptable (c : VolumeCapability) : Prop := {
  acceptable_mode : exists m, GetAccessMode c = Some m /\
    (GetBlock c = true \/ is_Some (GetMount c) -> supported_mode m = true);
  acceptable_fstype : forall fs flags, GetMount c = Some (fs, flags) -> supported_fstype fs = true
}.
Definition wants_file (c : VolumeCapability) : bool := match GetMount c with Some _ => true | None => false end.

Lemma check_capability_ok c m b f :
  GetAccessMode c = Some m -> check_capability c m = Ok (b, f) ->
  acceptable c /\ b = GetBlock c /\ f = wants_file c.
Proof.
  intros Hm. unfold check_capability, wants_file.
  destruct (GetBlock c) eqn:Hb, (GetMount c) as [[fs flags]|] eqn:Hf, (supported_mode m) eqn:Hs; cbn; try done.
  all: try destruct (supported_fstype fs) eqn:Hfs; cbn; try done.
  all: intros [= <- <-]; (split; [split; [exists m; split; [done|]|]|done]); try done.
  all: try (intros ? ? [= <- <-]; done). all: try (intros ? ? Heq; congruence).
  intros [?|[? ?]]; congruence.
Qed.
Lemma check_capability_acceptable c m :
  GetAccessMode c = Some m -> acceptable c -> check_capability c m = Ok (GetBlock c, wants_file c).
Proof.
  intros Hm [(m' & Hm' & Hs) Hfs]. simplify_eq. unfold check_capability, wants_file.
  destruct (GetBlock c) eqn:Hb; cbn.
  - rewrite (Hs (or_introl eq_refl)). cbn.
    destruct (GetMount c) as [[fs flags]|] eqn:Hf; [|done]. by rewrite (Hfs _ _ eq_refl).
  - destruct (GetMount c) as [[fs flags]|] eqn:Hf; [|done].
    rewrite (Hs (or_intror (mk_is_Some _ _ eq_refl))). cbn. by rewrite (Hfs _ _ eq_refl).
Qed.

Lemma check_capabilities_ok l b f s b' f' s' :
  check_capabilities l b f s = Ok (b', f', s') ->
  Forall acceptable l /\ b' = b || existsb GetBlock l /\ f' = f || existsb wants_file l.
Proof.
  revert b f s. induction l as [|c l IH]; cbn; intros b f s H.
  - simplify_eq. by rewrite !orb_false_r.
  - destruct (GetAccessMode c) as [m|] eqn:Hm; [|done].
    destruct (check_capability c m) as [[cb cf]|] eqn:Hc; [|done].
    destruct (check_capability_ok _ _ _ _ Hm Hc) as (Ha & -> & ->).
    destruct (IH _ _ _ H) as (Hl & -> & ->). rewrite !orb_assoc. split; [by constructor|done].
Qed.
Lemma check_capabilities_acceptable l b f s :
  Forall acceptable l -> exists s', check_capabilities l b f s = Ok (b || existsb GetBlock l, f || existsb wants_file l, s').
Proof.
  intros Hl. revert b f s. induction Hl as [|c l Hc _ IH]; intros b f s; cbn.
  - rewrite !orb_false_r. by eexists.
  - pose proof (acceptable_mode _ Hc) as (m & Hm & _). rewrite Hm, (check_capability_acceptable _ _ Hm Hc), !orb_assoc.
    apply IH.
Qed.

(** The capabilities of a volume are accepted exactly when there is at least
    one; each has an access mode, which is one of the three supported ones if it
    asks for a block device or a file system, and a file system of a supported
    type if it asks for one; and no two ask for different kinds. *)
Theorem validateCapabilities_spec caps :
  is_ok (validateCapabilities caps) = true <->
  exists l, caps = Some l /\ l <> [] /\ Forall acceptable l /\
    ~ (exists c c', c ∈ l /\ c' ∈ l /\ GetBlock c = true /\ is_Some (GetMount c')).
Proof.
  assert (Hkinds : forall l, existsb GetBlock l && existsb wants_file l = true <->
            exists c c', c ∈ l /\ c' ∈ l /\ GetBlock c = true /\ is_Some (GetMount c')).
  { intros l. rewrite andb_true_iff, !existsb_exists. unfold wants_file. setoid_rewrite list_elem_of_In. split.
    - intros [(c & H1 & H2) (c' & H3 & H4)]. exists c, c'. destruct (GetMount c'); naive_solver.
    - intros (c & c' & H1 & H2 & H3 & [x Hx]). split; [by exists c|exists c'; by rewrite Hx]. }
  split.
  - destruct caps as [[|c l]|]; cbn [validateCapabilities]; [done| |done]. intros H.
    destruct (check_capabilities (c :: l) false false "") as [[[b f] s]|] eqn:Hc; [|done].
    destruct (check_capabilities_ok _ _ _ _ _ _ _ Hc) as (Hl & -> & ->). rewrite !orb_false_l in H.
    exists (c :: l). do 3 (split; [done|]). rewrite <- Hkinds. by destruct (_ && _).
  - intros ([|c l] & -> & Hne & Hl & Hk); [done|]. cbn [validateCapabilities].
    destruct (check_capabilities_acceptable _ false false "" Hl) as (s & ->). rewrite !orb_false_l.
    rewrite <- Hkinds in Hk. by destruct (_ && _).
Qed.

(** ** The protocol of a new volume *)

(** The test of a protocol in a node pod succeeded. *)
Definition probed (command : string) (test : string -> bool) (t : trace) : Prop :=
  exists pod namespace output,
    Evt (Kube (ExecCmdInPod pod namespace command "driver")) (output, "", None) ∈ t /\ test output = true.
Definition usable (proto : string) (t : trace) : Prop :=
  proto = ProtocolFC \/ (proto = ProtocolNVME /\ probed "nvme list" isNVME t) \/
  (proto = ProtocolISCSI /\ probed "pgrep iscsid" isISCSI t).

Lemma first_enabled_some order fc nvme iscsi p :
  first_enabled order fc nvme iscsi = Some p ->
  (p = ProtocolFC /\ fc = true) \/ (p = ProtocolNVME /\ nvme = true) \/ (p = ProtocolISCSI /\ iscsi = true).
Proof.
  intros H. apply List.find_some in H as [_ H].
  rewrite !orb_true_iff, !andb_true_iff, !String.eqb_eq in H. tauto.
Qed.

Lemma DetermineProtocol_usable t o :
  runs DetermineProtocol t o ->
  match o with
  | Done (Ok proto) => usable proto t
  | Done (Err _) => True
  | Panicked => False
  | Exhausted => False
  end.
Proof.
  revert t o. wp_start. unfold DetermineProtocol, GetProtocolSecret, GetSecret, GetRunningDriverNodePods, probe. wp_run. all: wp_leaf; try exact I.
  all: try done.
  all: lazymatch goal with |- usable (default _ ?x) _ => destruct x as [proto|] eqn:Hproto; cbn; [|by left] end.
  all: apply first_enabled_some in Hproto as [[-> _]|[[-> ?]|[-> ?]]]; [by left| |]; try done.
  - destruct x3 as [[out [|]] [|]]; try done. right. left. split; [done|]. do 3 eexists. split; [in_trace|done].
  - destruct x4 as [[out [|]] [|]]; try done. right. right. split; [done|]. do 3 eexists. split; [in_trace|done].
Qed.

Lemma usable_after proto t t' : (forall e, e ∈ t -> e ∈ t') -> usable proto t -> usable proto t'.
Proof. unfold usable, probed. naive_solver. Qed.

(** What the protocol secret decides, by the protocol it names: the protocol of
    the volume and the storage class parameters it overrides. *)
Inductive decided (secret given : gmap string string) (t : trace) : string -> gmap string string -> Prop :=
| decided_auto proto :
    secret.[StorageClassStorageProtocol] = ProtocolAuto -> usable proto t ->
    proto = ProtocolFC \/ given.[StorageClassNetworkSpace] <> "" -> decided secret given t proto given
| decided_fc :
    secret.[StorageClassStorageProtocol] = "" \/ secret.[StorageClassStorageProtocol] = ProtocolFC ->
    decided secret given t ProtocolFC given
| decided_iscsi :
    secret.[StorageClassStorageProtocol] = ProtocolISCSI -> given.[StorageClassNetworkSpace] <> "" ->
    decided secret given t ProtocolISCSI
      (<[StorageClassNetworkSpace := secret.[ProtocolSecretISCSINetworkSpace]]>
       (<[StorageClassUseCHAP := secret.[ProtocolSecretISCSIUseCHAP]]> given))
| decided_nvme :
    secret.[StorageClassStorageProtocol] = ProtocolNVME -> secret.[ProtocolSecretNVMENetworkSpace] <> "" ->
    decided secret given t ProtocolNVME given
| decided_nfs proto :
    proto = ProtocolNFS \/ proto = ProtocolTreeq -> secret.[StorageClassStorageProtocol] = proto ->
    secret.[ProtocolSecretNFSNetworkSpace] <> "" ->
    decided secret given t proto
      (<[StorageClassNFSExportPermissions := secret.[ProtocolSecretNFSExportPermissions]]> given).

Definition decision (given : gmap string string) (t : trace) (proto : string) (params : gmap string string) : Prop :=
  (given.[StorageClassStorageProtocol] <> "" /\ t = [] /\ proto = given.[StorageClassStorageProtocol] /\ params = given /\
   (proto = ProtocolFC \/ given.[StorageClassNetworkSpace] <> "")) \/
  (given.[StorageClassStorageProtocol] = "" /\ exists name namespace secret,
     Evt (Kube (SecretsGet namespace name)) (Ok secret) ∈ t /\ decided (secret_map secret) given t proto params).

Lemma network_space_given proto s :
  negb (String.eqb proto ProtocolFC) && String.eqb s "" = false -> proto = ProtocolFC \/ s <> "".
Proof. destruct (String.eqb_spec proto ProtocolFC), (String.eqb_spec s ""); cbn; auto. Qed.

(** The storage class decides the protocol if it names one, and the cluster
    is not asked; otherwise the protocol secret does. A protocol picked
    automatically is Fibre Channel, or one whose test in a node pod succeeded.
    Every protocol but Fibre Channel needs a network space: for iSCSI and the
    automatic choice only that of the storage class counts, for NVMe and NFS only
    that of the secret, which NVMe and NFS volumes do not get as a parameter.
    It never panics: the list of running node pods is not empty. *)
Theorem determineStorageProtocol_spec given t o :
  runs (determineStorageProtocol given) t o ->
  match o with
  | Done (Ok (proto, params)) => decision given t proto params
  | Done (Err _) => True
  | Panicked => False
  | Exhausted => False
  end.
Proof.
  revert t o. wp_start. unfold determineStorageProtocol, GetProtocolSecret, GetSecret, secret_protocol. wp_run.
  all: try (wp_leaf; exact I).
  all: repeat match goal with
       | H : negb _ = true |- _ => apply negb_true_iff in H
       | H : negb _ = false |- _ => apply negb_false_iff in H
       | H : String.eqb _ _ = true |- _ => apply String.eqb_eq in H
       | H : String.eqb _ _ = false |- _ => apply String.eqb_neq in H
       | H : _ && _ = false |- _ => apply network_space_given in H
       end; try done.
  { wp_leaf. left. split; [done|]. split; [done|]. split; [done|]. split; [done|]. assumption. }
  { apply wp_bind. eapply wp_call; [apply DetermineProtocol_usable|]. intros t [[proto|e]| |] Hu; [| |done..].
    all: wp_run; wp_leaf; try exact I.
    - match goal with H : _ && _ = false |- _ => apply network_space_given in H end.
      right. split; [done|]. do 3 eexists. split; [in_trace|]. apply decided_auto; [done| |done].
      rewrite app_nil_r. eapply usable_after, Hu. set_solver. }
  all: wp_leaf; right; (split; [done|]); do 3 eexists; (split; [in_trace|]).
  - apply decided_fc. tauto.
  - match goal with H : _ = ProtocolISCSI |- _ => rewrite H in * end. apply decided_iscsi; [done|].
    match goal with H : _ \/ _ |- _ => by destruct H end.
  - match goal with H : _ = ProtocolNVME |- _ => rewrite H in * end. apply decided_nvme; [done|].
    match goal with H : _ \/ _ |- _ => by destruct H end.
  - match goal with H : _ || _ = true |- _ =>
      apply orb_true_iff in H; rewrite !String.eqb_eq in H; rename H into Hnfs end.
    apply decided_nfs; [done|done|]. destruct Hnfs as [Hnfs|Hnfs]; rewrite Hnfs in *;
    match goal with H : _ \/ _ |- _ => by destruct H end.
  - match goal with H : _ || _ = false |- _ => apply orb_false_iff in H as []; rewrite !String.eqb_neq in * end.
    unfold protocol_of_secret in *.
    match goal with H : bool_decide _ = true |- _ => apply bool_decide_eq_true in H; rewrite !elem_of_cons in H end.
    assert (Hfc : (secret_map a).[StorageClassStorageProtocol] = ProtocolFC) by set_solver.
    rewrite Hfc. apply decided_fc. by right.
Qed.

#[local] Transparent gmap_empty.

Lemma determineStorageProtocol_spec_witness :
  let given : gmap string string := {[ StorageClassStorageProtocol := "fc" ]} in
  runs (determineStorageProtocol given) [] (Done (Ok ("fc", given))) /\ decision given [] "fc" given.
Proof.
  cbv zeta. set (given := {[ StorageClassStorageProtocol := "fc" ]}).
  assert (H : runs (determineStorageProtocol given) [] (Done (Ok ("fc", given)))) by (subst given; rerun).
  split; [exact H|]. exact (determineStorageProtocol_spec given [] _ H).
Defined.
