(* ===== verification/TreeqProofs.v ===== *)
(** Correctness of the treeq service and of its controller service. *)
From stdpp Require Import base strings list gmap.
From S2P Require Import Prelude GoLib Regexp IboxTypes Traces Csi Helper StorageCommon StorageCommonProofs Json NfsApi Nfs NfsProofs Treeq.
From Stdlib Require Import ZArith Lia Ascii.

Local Open Scope string_scope.
Local Open Scope list_scope.

(** ** The contract between the two layers *)

(** A context that names the treeq [tq] of the file system [fs]. *)
Definition names_treeq (context : gmap string string) (fs tq : Z) : Prop :=
  context !! "ID" = Some (Itoa fs) /\ context !! "TREEQID" = Some (Itoa tq).

(** The treeqs made in a trace, in order: file system and number. *)
Definition treeq_creation {X} (c : call X) : X -> option (Z * Z) :=
  match c with
  | Ibox i => match i with
              | CreateTreeq fs _ => fun r => match r with Ok t => Some (fs, Treeq_ID t) | Err _ => None end
              | _ => fun _ => None
              end
  | _ => fun _ => None
  end.
Definition treeqs_created (t : trace) : list (Z * Z) := observe (@treeq_creation) t.
Lemma treeqs_created_app t t' : treeqs_created (t ++ t') = treeqs_created t ++ treeqs_created t'.
Proof. apply observe_app. Qed.
Lemma treeqs_created_elem fs r tr t :
  Evt (Ibox (CreateTreeq fs r)) (Ok tr) ∈ t -> (fs, Treeq_ID tr) ∈ treeqs_created t.
Proof.
  intros (l1 & l2 & ->)%list_elem_of_split. rewrite treeqs_created_app. apply elem_of_app. right. by left.
Qed.
Lemma readonly_treeqs t : readonly t -> treeqs_created t = [].
Proof. apply readonly_observe. intros X c x. destruct c as [Y i| |]; [|done|done]. by destruct i. Qed.

(** The treeq is the only one made in the trace, with the name and the capacity. *)
Definition made_treeq (name : string) (cap : Z) (t : trace) (fs tq : Z) : Prop :=
  treeqs_created t = [(fs, tq)] /\
  exists r tr, Evt (Ibox (CreateTreeq fs r)) (Ok tr) ∈ t /\ Treeq_ID tr = tq /\
    CreateTreeqRequest_Name r = name /\ CreateTreeqRequest_HardCapacity r = cap.

(** The array answered with the treeq when it was asked for the name. *)
Definition found_treeq (name : string) (t : trace) (fs tq : Z) : Prop :=
  exists q tr, Evt (Ibox (GetTreeqByName q name)) (Ok tr) ∈ t /\
    Treeq_FilesystemID tr = fs /\ Treeq_ID tr = tq.

(** What the controller service may rely on: a successful creation names the
    treeq it made, and none makes a second one; a look-up changes nothing, and
    names the treeq it found. *)
Class TreeqLaws {S} (I : Interface S) (valid : S -> Prop) : Prop := {
  create_names : forall s params cap name t ctx s',
    valid s -> runs (Interface_Create I s params cap name) t (Done (ctx, None, s')) ->
    exists fs tq, names_treeq ctx fs tq /\ made_treeq name cap t fs tq;
  create_once : forall s params cap name t o,
    valid s -> runs (Interface_Create I s params cap name) t o -> length (treeqs_created t) <= 1;
  exists_names : forall s pool ns name prefix t ctx s',
    valid s -> runs (Interface_Exists I s pool ns name prefix) t (Done (ctx, None, s')) ->
    valid s' /\ (ctx = ∅ \/ exists fs tq, names_treeq ctx fs tq /\ found_treeq name t fs tq);
  exists_readonly : forall s pool ns name prefix t o,
    runs (Interface_Exists I s pool ns name prefix) t o -> readonly t;
  create_returns : forall s params cap name t o,
    valid s -> runs (Interface_Create I s params cap name) t o -> exists r, o = Done r;
  exists_returns : forall s pool ns name prefix t o,
    runs (Interface_Exists I s pool ns name prefix) t o -> exists r, o = Done r
}.

Lemma names_treeq_insert k v context fs tq :
  k <> "ID" -> k <> "TREEQID" -> names_treeq context fs tq -> names_treeq (<[k := v]> context) fs tq.
Proof. intros H1 H2 (Hf & Ht). split; by rewrite lookup_insert_ne. Qed.

(** A service object as it is before a treeq is made. *)
Definition fresh (ts : Service) : Prop := FileSystemID (Service_NFS ts) = 0%Z /\ ExportID (Service_NFS ts) = 0%Z.

Lemma find_treeqs_quiet l name : quiet (find_treeqs l name).
Proof. induction l; cbn [find_treeqs]; every_tac. Qed.
#[local] Hint Resolve find_treeqs_quiet : csi.

Lemma find_treeqs_runs l name t o :
  runs (find_treeqs l name) t o ->
  exists r, o = Done r /\ Forall (fun tr => exists q, Evt (Ibox (GetTreeqByName q name)) (Ok tr) ∈ t) r.
Proof.
  revert t o. induction l as [|f l IH]; [wp_start; cbn [find_treeqs]; wp_reduce; wp_leaf; by exists []|].
  wp_start. cbn [find_treeqs]. wp_reduce. intros r.
  apply (wp_call _ _ (fun t o => exists r, o = Done r /\
    Forall (fun tr => exists q, Evt (Ibox (GetTreeqByName q name)) (Ok tr) ∈ t) r)); [exact IH|].
  intros t _ (r' & -> & Hr). wp_reduce. wp_leaf. eexists. split; [reflexivity|].
  assert (Forall (fun tr => exists q, Evt (Ibox (GetTreeqByName q name)) (Ok tr) ∈
    Evt (Ibox (GetTreeqByName (FileSystem_ID f) name)) r :: t ++ []) r')
    by (rewrite app_nil_r; eapply list.Forall_impl; [exact Hr|]; intros tr (q & Hq); exists q; by right).
  destruct r as [tr|]; [|done]. constructor; [|done]. eexists. by left.
Qed.

Definition treeq_context_keys (path ip tq fs : string) : gmap string string :=
  <["volumePath" := path]> (<["ipAddress" := ip]> (<["TREEQID" := tq]> {[ "ID" := fs ]})).
Lemma treeq_context_names path ip fs tq : names_treeq (treeq_context_keys path ip (Itoa tq) (Itoa fs)) fs tq.
Proof. unfold treeq_context_keys. by split; simplify_map_eq. Qed.
Lemma treeq_context_nonempty path ip fs tq : treeq_context_keys path ip tq fs <> ∅.
Proof. apply insert_non_empty. Qed.

Lemma IsTreeqAlreadyExist_quiet ts pool ns name prefix : quiet (IsTreeqAlreadyExist ts pool ns name prefix).
Proof. unfold IsTreeqAlreadyExist, checkTreeqName, getExportPath, GetNetworkSpaceIP. every_tac. Qed.

Lemma IsTreeqAlreadyExist_runs ts pool ns name prefix t o :
  runs (IsTreeqAlreadyExist ts pool ns name prefix) t o ->
  exists ctx e ts', o = Done (ctx, e, ts') /\ (fresh ts -> fresh ts') /\
    (ctx = ∅ \/ exists fs tq, names_treeq ctx fs tq /\ found_treeq name t fs tq).
Proof.
  revert t o. wp_start. unfold IsTreeqAlreadyExist, checkTreeqName, getExportPath, GetNetworkSpaceIP. wp_run.
  all: try (wp_leaf; eexists _, _, _; split; [reflexivity|]; by split; [|left]).
  apply wp_bind, (wp_call _ _ (fun t o => exists r, o = Done r /\
    Forall (fun tr => exists q, Evt (Ibox (GetTreeqByName q name)) (Ok tr) ∈ t) r)); [apply find_treeqs_runs|].
  intros t _ (r & -> & Hr). wp_run; wp_leaf; eexists _, _, _; (split; [reflexivity|]); (split; [done|]).
  all: try by left.
  all: right; eexists _, _; split; [apply treeq_context_names|].
  all: match goal with |- context [nth ?i ?l ?d] => assert (Hin : nth i l d ∈ l) end.
  all: try (apply list_elem_of_In; match goal with |- In (nth ?i (?a :: ?l) ?a) _ =>
       destruct (nth_in_or_default i (a :: l) a) as [?|Hd]; [done|rewrite Hd; by left] end).
  all: rewrite Forall_forall in Hr; destruct (Hr _ Hin) as (q & Hq).
  all: eexists q, _; split; [repeat first [exact Hq|apply elem_of_cons; right|apply elem_of_app; left]|by split].
Qed.

(** ** Choosing a file system *)

(** The array lists [f] among the file systems, it stays below the maximum size
    with the new treeq, and it was seen with fewer treeqs than allowed. *)
Definition has_room (cap maxSize maxTreeqs : Z) (t : trace) (l : list FileSystem) (f : FileSystem) : Prop :=
  f ∈ l /\ (i64 (FileSystem_Size f + cap) < maxSize)%Z /\
  exists treeqs, Evt (Ibox (GetTreeqsByFileSystem (FileSystem_ID f))) (treeqs, None) ∈ t /\
                 (Z.of_nat (length treeqs) < maxTreeqs)%Z.

(** Only the export path of the NFS object may have been set. *)
Definition same_object (ts ts' : Service) : Prop :=
  exists p, Service_NFS ts' = set_ExportPath p (Service_NFS ts).
Lemma same_object_refl ts : same_object ts ts.
Proof. exists (ExportPath (Service_NFS ts)). by destruct ts as [[]]. Qed.

(** What choosing a file system does: it changes nothing and returns. *)
Definition chose (ts : Service) (P : trace -> FileSystem -> Prop)
    (t : trace) (o : outcome (res FileSystem * Service)) : Prop :=
  readonly t /\ lock_events t = [] /\
  exists r ts', o = Done (r, ts') /\ same_object ts ts' /\ match r with Ok f => P t f | Err _ => True end.

Lemma choose_filesystem_runs ts maxSize maxTreeqs l t o :
  runs (choose_filesystem ts maxSize maxTreeqs l) t o ->
  chose ts (fun t f => has_room (Capacity (Service_NFS ts)) maxSize maxTreeqs t l f) t o.
Proof.
  revert t o. induction l as [|f l IH]; intros t o.
  { intros [-> ->]. split; [apply readonly_nil|]. split; [done|].
    eexists _, _. split; [done|]. by split; [apply same_object_refl|]. }
  assert (Hskip : forall pre t' o', readonly pre -> lock_events pre = [] ->
    runs (choose_filesystem ts maxSize maxTreeqs l) t' o' ->
    chose ts (fun t f' => has_room (Capacity (Service_NFS ts)) maxSize maxTreeqs t (f :: l) f') (pre ++ t') o').
  { intros pre t' o' Hp Hl (Hr & Hk & r & ts' & -> & Hs & Hroom)%IH.
    split; [by apply readonly_app|]. split; [by rewrite lock_events_app, Hl|].
    eexists _, _. split; [done|]. split; [done|]. destruct r as [f'|]; [|done].
    destruct Hroom as (Hin & Hlt & treeqs & Hev & Hn). split; [by right|]. split; [done|].
    exists treeqs. by rewrite elem_of_app; split; [right|]. }
  revert t o. wp_start. cbn [choose_filesystem]. unfold getExportPath. wp_run.
  all: lazymatch goal with
       | |- wp _ (fun t o => _ (?e :: t) o) => apply runs_wp; intros t o Ht; wp_leaf; apply (Hskip [e]); [solve_readonly|reflexivity|exact Ht]
       | |- wp _ _ => apply runs_wp; intros t o Ht; wp_leaf; apply (Hskip []); [solve_readonly|reflexivity|exact Ht]
       | _ => wp_leaf
       end.
  all: split; [solve_readonly|]; split; [reflexivity|]; eexists _, _; split; [reflexivity|].
  all: split; [first [apply same_object_refl | eexists; reflexivity
                     | exists (ExportPath (Service_NFS ts)); destruct ts as [[]]; reflexivity]|].
  all: try exact I.
  all: split; [by left|]; split; [by apply Z.ltb_lt|]; eexists; split; [in_trace|by apply Z.ltb_lt].
Qed.

Lemma chose_behind ts P Q pre t o :
  readonly pre -> lock_events pre = [] -> (forall t f, P t f -> Q (pre ++ t) f) ->
  chose ts P t o -> chose ts Q (pre ++ t) o.
Proof.
  intros Hp Hl HPQ (Hr & Hk & r & ts' & -> & Hs & HP).
  split; [by apply readonly_app|]. split; [by rewrite lock_events_app, Hl|].
  eexists _, _. split; [done|]. split; [done|]. destruct r; eauto.
Qed.

(** The limit on treeqs in force: the storage class's, or the array's. *)
Definition treeq_limit (params : gmap string string) (t : trace) (limit : Z) : Prop :=
  if String.eqb params.[StorageClassMaxTreeqsPerFS] ""
  then Evt (Ibox GetMaxTreeqPerFs) (Ok limit) ∈ t
  else Atoi params.[StorageClassMaxTreeqsPerFS] = Ok limit.

Definition room_found (ts : Service) (maxSize : Z) (t : trace) (f : FileSystem) : Prop :=
  let params := StorageClassParameters (Service_NFS ts) in
  exists l limit, Evt (Ibox (GetFileSystemsByPool (Service_PoolID ts) (fs_prefix params))) (l, None) ∈ t /\
    treeq_limit params t limit /\ has_room (Capacity (Service_NFS ts)) maxSize limit t l f.

Lemma getExpectedFileSystemID_runs ts maxSize t o :
  runs (getExpectedFileSystemID ts maxSize) t o -> chose ts (room_found ts maxSize) t o.
Proof.
  revert t o. wp_start. unfold getExpectedFileSystemID. wp_run.
  all: lazymatch goal with
       | |- wp _ (fun t o => _ (?e1 :: ?e2 :: t) o) =>
           apply runs_wp; intros t o Ht; wp_leaf;
           eapply (chose_behind _ _ _ [e1; e2]), choose_filesystem_runs, Ht; [solve_readonly|reflexivity|]
       | _ => wp_leaf; split; [solve_readonly|]; split; [reflexivity|];
              eexists _, _; split; [reflexivity|]; by split; [apply same_object_refl|]
       end.
  all: intros t' f (Hin & Hlt & treeqs & Hev & Hn); eexists _, _; split; [in_trace|]; split.
  all: try (unfold treeq_limit; rewrite Hcase0; simplify_eq; first [in_trace|done]).
  all: split; [done|]; split; [done|]; exists treeqs; split; [by right; right|done].
Qed.

(** ** Creating a treeq *)

Lemma delete_exports_lock_free es : lock_free (delete_exports es).
Proof. induction es; cbn [delete_exports]; every_tac. Qed.
#[local] Hint Resolve delete_exports_lock_free : csi.
Lemma DeleteFileSystemComplete_lock_free fs : lock_free (DeleteFileSystemComplete fs).
Proof. unfold DeleteFileSystemComplete. every_tac. Qed.
Lemma UpdateTreeqCnt_lock_free fs a n : lock_free (UpdateTreeqCnt fs a n).
Proof. unfold UpdateTreeqCnt. every_tac. Qed.
Lemma export_and_tag_lock_free nfs : lock_free (CreateExportPathAndAddMetadata nfs).
Proof.
  unfold CreateExportPathAndAddMetadata, createExportPath, GetCreatedBy, getClusterVersion, revert_export, revert_filesystem.
  every_tac.
Qed.
Lemma CreateFileSystem_lock_free nfs name : lock_free (CreateFileSystem nfs name).
Proof. unfold CreateFileSystem. every_tac. Qed.
#[local] Hint Resolve DeleteFileSystemComplete_lock_free UpdateTreeqCnt_lock_free export_and_tag_lock_free
  CreateFileSystem_lock_free : csi.

Section Guard.
(** The request: name, capacity, and when a file system has room for it. *)
Context (name : string) (cap : Z) (room : trace -> FileSystem -> Prop).

(** Made in this run, or chosen as one with room. *)
Definition may_use (before : trace) (fs : Z) : Prop :=
  fs ∈ fs_created before \/ exists f, FileSystem_ID f = fs /\ room before f.

Definition treeq_guard (before : trace) (e : evt call) : Prop :=
  match e with
  | Evt (Ibox i) _ =>
      match i with
      | CreateTreeq fs r =>
          CreateTreeqRequest_Name r = name /\ CreateTreeqRequest_Path r = PathJoin ["/"; name] /\
          CreateTreeqRequest_HardCapacity r = cap /\ may_use before fs
      | UpdateFileSystem fs v =>
          exists f, FileSystem_ID f = fs /\ room before f /\ FileSystem_Size v = i64 (FileSystem_Size f + cap)
      | PutMetadata fs _ => may_use before fs
      | DeleteTreeq fs tq => (fs, tq) ∈ treeqs_created before
      | DeleteFileSystem fs | DeleteMetadata fs => fs ∈ fs_created before
      | DeleteExport x =>
          x ∈ exports_created before \/
          exists fs es err, Evt (Ibox (GetExportsByFileSystemID fs)) (es, err) ∈ before /\
            x ∈ map Export_ID es /\ fs ∈ fs_created before
      | CreateExport r => CreateExportRequest_FilesystemID r ∈ fs_created before
      | IboxTypes.CreateFileSystem r => CreateFileSystemRequest_Size r = cap
      | i => changes i = false
      end
  | _ => True
  end.

Context (room_prefix : forall pre t f, room pre f -> room (pre ++ t) f).

Lemma may_use_prefix pre t fs : may_use pre fs -> may_use (pre ++ t) fs.
Proof.
  unfold may_use. rewrite fs_created_app, elem_of_app. intros [H|(f & H1 & H2)]; [tauto|].
  right. exists f. auto.
Qed.

(** Lifting the guards of called programs behind a prefix. *)
Lemma complete_guard pre fs t :
  fs ∈ fs_created pre -> guarded (fs_guard (is_fs fs) no_tag) t -> guarded (fun t1 => treeq_guard (pre ++ t1)) t.
Proof.
  intros Hfs Ht. eapply guarded_mono, Ht. intros t1 [X c x].
  destruct c as [Y i| |]; [|done|done]. destruct i; try done; cbn; intros H; try done.
  - rewrite H, fs_created_app. set_solver.
  - destruct H as (fs' & es & err & H1 & H2 & ->). right. exists fs, es, err.
    rewrite elem_of_app, fs_created_app. set_solver.
  - rewrite H, fs_created_app. set_solver.
Qed.

Lemma export_guard_treeq pre nfs t :
  FileSystemID nfs ∈ fs_created pre -> guarded (export_guard nfs) t ->
  guarded (fun t1 => treeq_guard (pre ++ t1)) t.
Proof.
  intros Hfs Ht. eapply guarded_mono, Ht. intros t1 [X c x].
  destruct c as [Y i| |]; [|done|done]. destruct i; try done; cbn; intros H; try done.
  - rewrite H, fs_created_app. set_solver.
  - left. rewrite exports_created_app, H. set_solver.
  - destruct H as (_ & -> & _). rewrite fs_created_app. set_solver.
  - rewrite H. apply may_use_prefix. by left.
Qed.

Lemma readonly_treeq pre t : readonly t -> guarded (fun t1 => treeq_guard (pre ++ t1)) t.
Proof.
  apply readonly_guarded. intros t1 [X c x] H. destruct c as [Y i| |]; try done. by destruct i.
Qed.

(** Counting and tagging. *)
Lemma UpdateTreeqCnt_guard pre fs a n t o :
  may_use pre fs -> runs (UpdateTreeqCnt fs a n) t o ->
  guarded (fun t1 => treeq_guard (pre ++ t1)) t /\ exists r, o = Done r.
Proof.
  intros Hfs. revert t o. wp_start. unfold UpdateTreeqCnt. wp_run; wp_leaf; (split; [|by eexists]).
  all: guard_event.
  all: by apply may_use_prefix.
Qed.

(** [fs] is the file system a treeq is made on: the one [filesys] found with
    room, or the one just made for it. *)
Definition target (pre : trace) (nfs : NFSstorage) (filesys : option FileSystem) (fs : Z) : Prop :=
  match filesys with
  | Some f => FileSystem_ID f = fs /\ room pre f /\ FileSystemID nfs = 0%Z
  | None => fs ∈ fs_created pre /\ FileSystemID nfs = fs
  end.
Lemma target_may_use pre nfs filesys fs : target pre nfs filesys fs -> may_use pre fs.
Proof. destruct filesys as [f|]; cbn; [intros (<- & Hr & _); right; eauto|intros [? _]; by left]. Qed.

Lemma create_treeq_finished pre ts filesys fs t o :
  PVName (Service_NFS ts) = name -> Capacity (Service_NFS ts) = cap ->
  target pre (Service_NFS ts) filesys fs ->
  runs (create_treeq ts filesys fs) t o -> finished treeq_guard pre t o.
Proof.
  intros Hname Hcap Ht. pose proof (target_may_use _ _ _ _ Ht) as Huse. revert t o. unfold create_treeq.
  apply finished_bind.
  { intros t o. apply finished_call. intros x. cbn. by rewrite Hname, Hcap. }
  intros r t (x & t' & -> & -> & [= <-]). set (pre1 := pre ++ _).
  destruct r as [resp|err].
  - apply finished_bind.
    { intros t o. apply UpdateTreeqCnt_guard. by apply may_use_prefix. }
    intros [n|err] t Hc; [destruct filesys as [f|]|].
    + destruct Ht as (<- & Hroom & _). apply finished_bind.
      { intros t' o'. apply finished_call. intros x. cbn. exists f. split; [done|].
        split; [by apply room_prefix, room_prefix|]. by rewrite Hcap. }
      intros [v|err] t' _; [apply finished_ret|]. apply finished_bind; [|intros; by eapply finished_ret].
      intros t'' o''. destruct (_ =? 0)%Z; [apply finished_ret|].
      apply finished_bind; [|intros; by eapply finished_ret].
      intros ? ?. apply UpdateTreeqCnt_guard. by do 3 apply may_use_prefix.
    + apply finished_ret.
    + apply finished_bind; [|intros; by eapply finished_ret].
      intros t'' o''. destruct (Z.eqb_spec (FileSystemID (Service_NFS ts)) 0) as [_|Hne]; [apply finished_ret|].
      apply finished_bind; [|intros; by eapply finished_ret].
      intros ? ?. apply finished_call. intros x. cbn.
      destruct filesys as [f|]; [by destruct Ht as (_ & _ & Hz)|]. destruct Ht as [_ <-].
      unfold pre1. rewrite !treeqs_created_app. set_solver.
  - apply finished_bind; [|intros; by eapply finished_ret].
    destruct filesys as [f|]; [apply finished_ret|]. destruct Ht as [Hc _].
    apply finished_bind; [|intros; by eapply finished_ret].
    intros t o Hd. destruct (DeleteFileSystemComplete_runs _ _ _ Hd) as (Hg & r & -> & _).
    split; [|by eexists]. apply (complete_guard _ fs); [|exact Hg].
    unfold pre1. rewrite fs_created_app. set_solver.
Qed.
End Guard.

Lemma treeq_limit_prefix params pre t n : treeq_limit params pre n -> treeq_limit params (pre ++ t) n.
Proof. unfold treeq_limit. case_match; set_solver. Qed.
Lemma room_found_prefix ts ms pre t f : room_found ts ms pre f -> room_found ts ms (pre ++ t) f.
Proof.
  intros (l & n & H1 & H2 & H3 & H4 & tq & H5 & H6). exists l, n.
  split; [by apply elem_of_app; left|]. split; [by apply treeq_limit_prefix|]. split; [done|]. split; [done|].
  exists tq. split; [by apply elem_of_app; left|done].
Qed.

Lemma CreateFileSystem_runs nfs fsname t o :
  runs (CreateFileSystem nfs fsname) t o ->
  exists r nfs', o = Done (r, nfs') /\
  guarded (fun pre e => match e with
                        | Evt (Ibox i) _ => match i with
                                            | IboxTypes.CreateFileSystem q => CreateFileSystemRequest_Size q = Capacity nfs
                                            | i => changes i = false
                                            end
                        | _ => True
                        end) t /\
  (r = None -> exists id, fs_created t = [id] /\ nfs' = set_FileSystemID id nfs).
Proof.
  revert t o. wp_start. unfold CreateFileSystem. wp_run; wp_leaf; eexists _, _; (split; [reflexivity|]).
  all: split; [guard_event|first [done|intros _; eexists; split; reflexivity]].
Qed.

Lemma export_and_tag_keeps nfs t r nfs' :
  runs (CreateExportPathAndAddMetadata nfs) t (Done (r, nfs')) ->
  Capacity nfs' = Capacity nfs /\ PVName nfs' = PVName nfs /\ FileSystemID nfs' = FileSystemID nfs.
Proof.
  revert t. enough (H : forall t o, runs (CreateExportPathAndAddMetadata nfs) t o ->
    match o with
    | Done (_, nfs') => Capacity nfs' = Capacity nfs /\ PVName nfs' = PVName nfs /\ FileSystemID nfs' = FileSystemID nfs
    | _ => True
    end) by (intros t Ht; exact (H _ _ Ht)).
  wp_start. unfold CreateExportPathAndAddMetadata, createExportPath, GetCreatedBy, getClusterVersion, revert_export, revert_filesystem.
  wp_run. all: by wp_leaf.
Qed.

Lemma create_treeq_locked_finished ts ms t o :
  fresh ts -> runs (create_treeq_locked ts ms) t o ->
  finished (treeq_guard (PVName (Service_NFS ts)) (Capacity (Service_NFS ts)) (room_found ts ms)) [] t o.
Proof.
  intros [Hfs Hex]. revert t o. unfold create_treeq_locked. apply finished_bind.
  { intros t o Ht. destruct (getExpectedFileSystemID_runs _ _ _ _ Ht) as (Hr & _ & r & ts' & -> & _).
    split; [by apply readonly_treeq|by eexists]. }
  intros [r ts'] t Ht. cbn [app].
  destruct (getExpectedFileSystemID_runs _ _ _ _ Ht) as (Hr & _ & r' & ts'' & [= <- <-] & [p Hp] & Hroom).
  destruct r as [f|err].
  - intros t' o' Ht'. eapply (create_treeq_finished _ _ _ (room_found_prefix ts ms)), Ht'; rewrite Hp; try done.
  - destruct (negb _); [intros ? ?; apply finished_ret|].
    destruct (Split _ _) as [|? [|second rest]]; [intros ? ?; apply finished_ret..|].
    apply finished_bind.
    { intros t' o' Ht'. destruct (CreateFileSystem_runs _ _ _ _ Ht') as (r & n & -> & Hg & _).
      split; [|by eexists]. eapply guarded_mono, Hg. intros t1 [X c x]. destruct c as [Y i| |]; try done.
      destruct i; try done. cbn. intros ->. by rewrite Hp. }
    intros [[e|] nfs'] t' Ht'; [intros ? ?; apply finished_ret|].
    destruct (CreateFileSystem_runs _ _ _ _ Ht') as (? & ? & [= <- <-] & _ & Hid). destruct (Hid eq_refl) as (id & Hc & ->).
    set (nfs1 := set_FileSystemID id _). set (pre := t ++ t').
    assert (Hin : id ∈ fs_created pre) by (unfold pre; rewrite fs_created_app, Hc; set_solver).
    assert (Hex1 : ExportID nfs1 = 0%Z) by (unfold nfs1; by rewrite Hp).
    apply finished_bind.
    { intros t'' o'' Ht''. split.
      - apply (export_guard_treeq _ _ _ (room_found_prefix ts ms) pre nfs1); [exact Hin|by eapply export_and_tag_requests].
      - pose proof (export_and_tag_runs _ _ _ Hex1 Ht'') as [_ Ho]. destruct o'' as [a| |]; [by eexists|done..]. }
    intros [[e|] nfs2] t'' Ht''; [intros ? ?; apply finished_ret|]. destruct (export_and_tag_keeps _ _ _ _ Ht'') as (Hcap & Hname & Hid2).
    intros t3 o3. apply (create_treeq_finished _ _ _ (room_found_prefix ts ms)); cbn [Service_NFS set_NFS].
    + rewrite Hname. unfold nfs1. by rewrite Hp.
    + rewrite Hcap. unfold nfs1. by rewrite Hp.
    + rewrite Hid2. split; [|done]. rewrite fs_created_app. unfold nfs1. set_solver.
Qed.

Lemma choose_filesystem_lock_free ts a b l : lock_free (choose_filesystem ts a b l).
Proof. induction l; cbn [choose_filesystem]; unfold getExportPath; every_tac. Qed.
#[local] Hint Resolve choose_filesystem_lock_free : csi.
Lemma create_treeq_lock_free ts f fs : lock_free (create_treeq ts f fs).
Proof. unfold create_treeq. every_tac. Qed.
#[local] Hint Resolve create_treeq_lock_free : csi.
Lemma create_treeq_locked_lock_free ts ms : lock_free (create_treeq_locked ts ms).
Proof. unfold create_treeq_locked, getExpectedFileSystemID. every_tac. Qed.
Lemma delete_treeq_locked_lock_free fs tq : lock_free (delete_treeq_locked fs tq).
Proof. unfold delete_treeq_locked. every_tac. Qed.

(** The service object that enters the locked section: the request's name,
    capacity and parameters, and the pool the array answered for its name. *)
Definition prepared (ts : Service) (params : gmap string string) (cap : Z) (name : string) (pre : trace) (ts1 : Service) : Prop :=
  PVName (Service_NFS ts1) = name /\ Capacity (Service_NFS ts1) = cap /\
  StorageClassParameters (Service_NFS ts1) = params /\ Service_TreeqCnt ts1 = Service_TreeqCnt ts /\
  exists pool, Evt (Ibox (GetPoolByName params.[StorageClassPoolName])) (Ok pool) ∈ pre /\
               Service_PoolID ts1 = PoolResult_ID pool.

(** The limit on the size of a file system in force: the storage class's, read
    with the units in one of the two orders a map yields them in, or none; one
    that cannot be read counts as 0. *)
Definition size_limit (params : gmap string string) (ms : Z) : Prop :=
  if String.eqb params.[StorageClassMaxFilesystemSize] "" then ms = int64_max
  else exists units, (units = sizeUnits \/ units = reverse sizeUnits) /\
       ms = match convert_units params.[StorageClassMaxFilesystemSize] units with Ok n => n | Err _ => 0%Z end.


Lemma CreateTreeqVolume_split ts params cap name t o :
  fresh ts -> runs (CreateTreeqVolume ts params cap name) t o ->
  (readonly t /\ lock_events t = [] /\ exists e ts', o = Done (∅, Some e, ts')) \/
  (exists pre ts1 ms mid, t = pre ++ Evt (Os (Lock VolumeMutex)) tt :: mid ++ [Evt (Os (Unlock VolumeMutex)) tt] /\
     readonly pre /\ lock_events pre = [] /\ fresh ts1 /\ prepared ts params cap name pre ts1 /\
     size_limit params ms /\ runs (create_treeq_locked ts1 ms) mid o).
Proof.
  intros Hfresh. revert t o. wp_start. unfold CreateTreeqVolume, GetNetworkSpaceIP, convertToByte. wp_run.
  all: try solve [wp_leaf; left; split; [solve_readonly|]; split; [reflexivity|]; by eexists _, _].
  all: lazymatch goal with
       | |- wp (defer (create_treeq_locked ?ts1 ?ms) _) (fun t o => _ (?e1 :: ?e2 :: ?e3 :: ?e4 :: ?e5 :: t) o) =>
           apply runs_wp; intros t o Ht; wp_leaf; right; exists [e1; e2; e3; e4], ts1, ms
       | |- wp (defer (create_treeq_locked ?ts1 ?ms) _) (fun t o => _ (?e1 :: ?e2 :: ?e3 :: ?e4 :: t) o) =>
           apply runs_wp; intros t o Ht; wp_leaf; right; exists [e1; e2; e3], ts1, ms
       end.
  all: apply defer_unlock in Ht as (t' & -> & Ht);
    [|intros t2 H2; eapply create_treeq_locked_finished in H2; [by destruct H2 as [_ [? ?]]|exact Hfresh]].
  all: match goal with x : unit |- _ => destruct x end.
  all: exists t'; split; [reflexivity|]; split; [solve_readonly|]; split; [reflexivity|]; split; [exact Hfresh|].
  all: split; [do 4 (split; [reflexivity|]); eexists; split; [in_trace|reflexivity]|]; split; [|exact Ht].
  all: unfold size_limit; match goal with H : (_ =? "")%string = _ |- _ => rewrite H end; try reflexivity.
  all: eexists; split; [|reflexivity]; destruct (bool_decide _); [right|left]; reflexivity.
Qed.

(** Creating a treeq changes the array only while it holds the volume
    mutex, taken once and released by the last call, however it ends; and it
    always returns. *)
Theorem CreateTreeqVolume_serialized ts params cap name t o :
  fresh ts -> runs (CreateTreeqVolume ts params cap name) t o ->
  serialized VolumeMutex t /\ exists r, o = Done r.
Proof.
  intros Hfresh Ht.
  destruct (CreateTreeqVolume_split _ _ _ _ _ _ Hfresh Ht)
    as [(Hr & Hl & e & ts' & ->)|(pre & ts1 & ms & mid & -> & Hr & Hl & Hf1 & _ & _ & Hmid)].
  - split; [by left|by eexists].
  - split; [right; exists pre, mid|by eapply create_treeq_locked_finished].
    split; [done|]. split; [done|]. split; [done|].
    by eapply lock_free_runs, Hmid; apply create_treeq_locked_lock_free.
Qed.



(** ** Deleting a treeq *)

Lemma UpdateTreeqCnt_count fs t o :
  runs (UpdateTreeqCnt fs DecrementTreeqCount 0) t o ->
  exists r, o = Done r /\ lock_events t = [] /\
  guarded (fun _ e => match e with
                      | Evt (Ibox i) _ => match i with PutMetadata id _ => id = fs | i => changes i = false end
                      | _ => True
                      end) t /\
  match r with
  | Ok n => exists treeqs, Evt (Ibox (GetTreeqsByFileSystem fs)) (treeqs, None) ∈ t /\
                           n = i64 (Z.of_nat (length treeqs) - 1)
  | Err _ => True
  end.
Proof.
  revert t o. wp_start. unfold UpdateTreeqCnt. wp_run; wp_leaf; eexists; (split; [reflexivity|]).
  all: split; [reflexivity|]; split; [guard_event|].
  all: try exact I.
  all: try discriminate; try exact I.
  all: eexists; split; [in_trace|reflexivity].
Qed.

(** What must have been seen before a deletion touches the array: the treeq
    without data; and for its file system, that it was the only treeq (Go slices
    are no longer than an [int] counts) and is deleted. *)
Definition unused (fs tq : Z) (before : trace) : Prop :=
  exists t, Evt (Ibox (GetTreeq fs tq)) (Ok t) ∈ before /\ (Treeq_UsedCapacity t <= 0)%Z.
Definition last_one (fs tq : Z) (before : trace) : Prop :=
  exists l r, Evt (Ibox (GetTreeqsByFileSystem fs)) (l, None) ∈ before /\
    (length l = 1 \/ (int64_max < Z.of_nat (length l))%Z) /\ Evt (Ibox (DeleteTreeq fs tq)) (Ok r) ∈ before.

Definition treeq_delete_guard (fs tq : Z) (before : trace) (e : evt call) : Prop :=
  match e with
  | Evt (Ibox i) _ =>
      match i with
      | DeleteTreeq f q => f = fs /\ q = tq /\ unused fs tq before
      | PutMetadata f _ => f = fs /\ unused fs tq before
      | DeleteFileSystem f | DeleteMetadata f => f = fs /\ unused fs tq before /\ last_one fs tq before
      | DeleteExport x => unused fs tq before /\ last_one fs tq before /\
          exists es err, Evt (Ibox (GetExportsByFileSystemID fs)) (es, err) ∈ before /\ x ∈ map Export_ID es
      | i => changes i = false
      end
  | _ => True
  end.

Lemma unused_prefix fs tq pre t : unused fs tq pre -> unused fs tq (pre ++ t).
Proof. unfold unused. set_solver. Qed.
Lemma last_one_prefix fs tq pre t : last_one fs tq pre -> last_one fs tq (pre ++ t).
Proof. intros (l & r & H1 & H2 & H3). exists l, r. set_solver. Qed.

Lemma count_guard fs tq a n pre t o :
  unused fs tq pre -> runs (UpdateTreeqCnt fs a n) t o -> finished (treeq_delete_guard fs tq) pre t o.
Proof.
  intros Hu. revert t o. wp_start. unfold UpdateTreeqCnt. wp_run; wp_leaf; (split; [|by eexists]).
  all: guard_event.
  all: split; [done|by apply unused_prefix].
Qed.

Lemma delete_treeq_locked_finished fs tq pre t o :
  unused fs tq pre -> runs (delete_treeq_locked fs tq) t o -> finished (treeq_delete_guard fs tq) pre t o.
Proof.
  intros Hu. revert t o. unfold delete_treeq_locked. apply finished_bind.
  { intros t o. by apply count_guard. }
  intros [n|err] t Ht; [|intros ? ?; apply finished_ret].
  destruct (UpdateTreeqCnt_count _ _ _ Ht) as (r & [= <-] & _ & _ & l & Hl & Hn).
  apply finished_bind.
  { intros t' o'. apply finished_call. intros x. split_and!; try done. by apply unused_prefix. }
  intros d t' (x & t2 & -> & -> & [= <-]). destruct d as [d|err].
  - destruct (Z.eqb_spec n 0) as [->|Hne]; [|intros ? ?; apply finished_ret].
    set (pre1 := (pre ++ t) ++ _).
    assert (Hu1 : unused fs tq pre1) by (by do 2 apply unused_prefix).
    assert (Hl1 : last_one fs tq pre1).
    { exists l, d. unfold pre1. rewrite !elem_of_app. split; [tauto|]. split; [|right; by left].
      destruct (decide (Z.of_nat (length l) <= int64_max)%Z) as [Hle|]; [left|right; lia].
      rewrite i64_id in Hn by (unfold in_i64, int64_min, int64_max in *; lia). lia. }
    intros t3 o3 Ht3. destruct (DeleteFileSystemComplete_runs _ _ _ Ht3) as (Hg & r & -> & _).
    split; [|by eexists]. eapply guarded_mono, Hg. intros t1 [X c x].
    destruct c as [Y i| |]; [|done|done]. destruct i; try done; cbn; intros H; try done.
    + split; [done|]. split; [by apply unused_prefix|by apply last_one_prefix].
    + destruct H as (fs' & es & err & H1 & H2 & ->).
      split; [by apply unused_prefix|]. split; [by apply last_one_prefix|].
      exists es, err. split; [|done]. apply elem_of_app. by right.
    + split; [done|]. split; [by apply unused_prefix|by apply last_one_prefix].
  - apply finished_bind; [|intros ? ? _ ? ?; apply finished_ret].
    intros t2 o2. apply count_guard. by do 2 apply unused_prefix.
Qed.

(** C11: a treeq is deleted only when it was read without data, and its file
    system, exports and metadata only after that, when exactly one treeq was
    counted and the deletion of this treeq succeeded; the count and the deletions
    happen while the deletion mutex is held, released by the last call. *)
Theorem DeleteTreeqVolume_guarded fs tq t o :
  runs (DeleteTreeqVolume fs tq) t o ->
  guarded (treeq_delete_guard fs tq) t /\ serialized DeleteMutex t /\ exists r, o = Done r.
Proof.
  revert t o. wp_start. unfold DeleteTreeqVolume. wp_run.
  all: try solve [wp_leaf; split; [guard_event|]; split; [left; split; [solve_readonly|reflexivity]|by eexists]].
  apply runs_wp. intros t o Ht. destruct x.
  assert (Hu : unused fs tq [Evt (Ibox (GetTreeq fs tq)) (Ok a); Evt (Os (Lock DeleteMutex)) tt]).
  { exists a. split; [by left|]. by apply Z.ltb_ge. }
  apply defer_unlock in Ht as (t' & -> & Ht).
  2: { intros t2 H2. by destruct (delete_treeq_locked_finished _ _ _ _ _ Hu H2) as [_ [? ?]]. }
  destruct (delete_treeq_locked_finished _ _ _ _ _ Hu Ht) as [Hg Hr].
  wp_leaf. split; [|split; [|done]].
  - rewrite !guarded_cons, guarded_app. split; [done|]. split; [done|]. split; [exact Hg|by guard_event].
  - right. exists [Evt (Ibox (GetTreeq fs tq)) (Ok a)], t'. split; [done|]. split; [solve_readonly|]. split; [done|].
    by eapply lock_free_runs, Ht; apply delete_treeq_locked_lock_free.
Qed.

(** ** Expanding a treeq *)

(** Sizes set in a trace, in order: of file systems (left), of treeqs (right). *)
Definition sizing {X} (c : call X) : X -> option ((Z * Z) + (Z * Z * Z)) :=
  match c with
  | Ibox i => match i with
              | UpdateFileSystem fs v => fun _ => Some (inl (fs, FileSystem_Size v))
              | UpdateTreeq fs tq b => fun _ => Some (inr (fs, tq, UpdateTreeqRequest_HardCapacity b))
              | _ => fun _ => None
              end
  | _ => fun _ => None
  end.
Definition sizings (t : trace) : list ((Z * Z) + (Z * Z * Z)) := observe (@sizing) t.

(** The size the file system is grown to, computed through the free space, is
    the demand: the treeqs' sizes with the new one in place of the old. *)
Lemma grown_size size total need :
  i64 (size + i64 (i64 need - i64 (size - total))) = i64 (total + i64 need).
Proof.
  rewrite i64_add_r. replace (size + (i64 need - i64 (size - total)))%Z with (size + i64 need - i64 (size - total))%Z by lia.
  rewrite i64_sub_r, i64_add_r. replace (size + i64 need - (size - total))%Z with (total + i64 need)%Z by lia.
  by rewrite i64_add_r.
Qed.

Lemma sum_capacity_i64 l acc :
  i64 (sum_capacity l acc) = i64 (acc + foldr (fun t n => (Treeq_HardCapacity t + n)%Z) 0%Z l).
Proof.
  revert acc. induction l as [|t l IH]; intros acc; cbn; [f_equal; lia|].
  rewrite IH, i64_add_l. f_equal. lia.
Qed.

Lemma demand_i64 l need :
  i64 (sum_capacity l 0 + i64 need) = i64 (foldr (fun t n => (Treeq_HardCapacity t + n)%Z) 0%Z l + need).
Proof. by rewrite i64_add_r, <- (i64_add_l (sum_capacity l 0)), sum_capacity_i64, i64_add_l. Qed.

Definition allowed_size (maxSize : string) (size : Z) : Prop :=
  maxSize = "" \/ exists units n, Permutation units sizeUnits /\ convert_units maxSize units = Ok n /\ (size <= n)%Z.

(** A successful expansion of a treeq that exists sets its capacity, after
    growing its file system exactly when the capacities of its treeqs, with the
    new one, exceed the size; it is grown to that sum (as an [int64]), within
    the maximum size if one is given; so afterwards they fit. A treeq the array
    does not know is left alone and reported as a success. *)
Theorem UpdateTreeqVolume_spec fs tq cap maxSize t o :
  runs (UpdateTreeqVolume fs tq cap maxSize) t o -> o = Done None ->
  (readonly t /\ exists e, Evt (Ibox (GetTreeq fs tq)) (Err e) ∈ t /\ is_ErrNotFound e = true) \/
  exists f tr l, Evt (Ibox (GetFileSystemByID fs)) (Ok f) ∈ t /\ Evt (Ibox (GetTreeq fs tq)) (Ok tr) ∈ t /\
    Evt (Ibox (GetTreeqsByFileSystem fs)) (l, None) ∈ t /\
    let demand := i64 (foldr (fun t n => (Treeq_HardCapacity t + n)%Z) 0%Z l + (cap - Treeq_HardCapacity tr)) in
    let final := if (FileSystem_Size f <? demand)%Z then demand else FileSystem_Size f in
    sizings t = (if (FileSystem_Size f <? demand)%Z then [inl (fs, final)] else []) ++ [inr (fs, tq, cap)] /\
    (demand <= final)%Z /\ ((FileSystem_Size f < demand)%Z -> allowed_size maxSize final).
Proof.
  revert t o. wp_start. unfold UpdateTreeqVolume, convertToByte. wp_run.
  all: wp_leaf; intros Ho; try discriminate.
  all: lazymatch type of Ho with
       | Done (if is_ErrNotFound ?e then _ else _) = _ =>
           left; destruct (is_ErrNotFound e) eqn:He; [|discriminate];
           split; [solve_readonly|]; exists e; split; [in_trace|done]
       | _ => right; eexists _, _, _; split; [in_trace|]; split; [in_trace|]; split; [in_trace|]; cbv zeta
       end.
  all: rewrite <- demand_i64.
  all: match goal with H : (_ <? _)%Z = ?b |- _ => rewrite H end.
  all: split; [cbn; rewrite ?grown_size; reflexivity|].
  all: match goal with
       | H : (_ <? _)%Z = true |- _ => apply Z.ltb_lt in H
       | H : (_ <? _)%Z = false |- _ => apply Z.ltb_ge in H
       end.
  all: split; [lia|intros Hlt; try lia].
  1: left; by apply String.eqb_eq.
  all: right; match goal with H : convert_units _ ?u = Ok ?n |- _ => exists u, n end.
  all: split; [first [reflexivity|apply reverse_Permutation]|]; split; [done|].
  all: match goal with H : (_ <? i64 (_ + i64 (_ - i64 _)))%Z = false |- _ => rewrite grown_size in H; by apply Z.ltb_ge in H end.
Qed.

(** ** The controller service over the interface *)

(** Programs that make no treeq. *)
Definition no_treeq {A} : prog call A -> Prop :=
  every (fun X c => match c with Ibox (CreateTreeq _ _) => False | _ => True end).
Lemma no_treeq_runs {A} (p : prog call A) t o : no_treeq p -> runs p t o -> treeqs_created t = [].
Proof.
  intros Hp Ht. pose proof (every_runs _ _ _ _ Hp Ht) as Hall. clear Ht Hp.
  induction Hall as [|[X c x] t Hc _ IH]; [done|].
  unfold treeqs_created, observe in *. cbn. destruct c as [Y c| |]; try done. by destruct c.
Qed.
Ltac no_treeq_tac :=
  repeat first [every_step | match goal with |- every _ ?p => solve [change (no_treeq p); auto with csi] end];
  try exact I.

Lemma delete_exports_no_treeq es : no_treeq (delete_exports es).
Proof. unfold no_treeq. induction es; cbn [delete_exports]; no_treeq_tac. Qed.
#[local] Hint Resolve delete_exports_no_treeq : csi.
Lemma DeleteFileSystemComplete_no_treeq fs : no_treeq (DeleteFileSystemComplete fs).
Proof. unfold no_treeq, DeleteFileSystemComplete. no_treeq_tac. Qed.
Lemma UpdateTreeqCnt_no_treeq fs a n : no_treeq (UpdateTreeqCnt fs a n).
Proof. unfold no_treeq, UpdateTreeqCnt. no_treeq_tac. Qed.
Lemma export_and_tag_no_treeq nfs : no_treeq (CreateExportPathAndAddMetadata nfs).
Proof.
  unfold no_treeq, CreateExportPathAndAddMetadata, createExportPath, GetCreatedBy, getClusterVersion, revert_export, revert_filesystem.
  no_treeq_tac.
Qed.
Lemma CreateFileSystem_no_treeq nfs name : no_treeq (CreateFileSystem nfs name).
Proof. unfold no_treeq, CreateFileSystem. no_treeq_tac. Qed.
#[local] Hint Resolve DeleteFileSystemComplete_no_treeq UpdateTreeqCnt_no_treeq export_and_tag_no_treeq
  CreateFileSystem_no_treeq : csi.

(** The end of a creation makes one treeq at most, and the context it answers
    without an error names that one. *)
Definition makes_treeq (name : string) (cap : Z) (t : trace)
    (o : outcome (gmap string string * option error * Service)) : Prop :=
  length (treeqs_created t) <= 1 /\
  match o with
  | Done (ctx, None, _) => exists fs tq, names_treeq ctx fs tq /\ made_treeq name cap t fs tq
  | _ => True
  end.

Lemma makes_treeq_behind name cap pre t o :
  treeqs_created pre = [] -> makes_treeq name cap t o -> makes_treeq name cap (pre ++ t) o.
Proof.
  intros Hp [Hl Ho]. split; [by rewrite treeqs_created_app, Hp|].
  destruct o as [[[ctx [e|]] s]| |]; [done| |done..].
  destruct Ho as (fs & tq & Hn & Hc & r & tr & Hin & Hrest). exists fs, tq. split; [done|].
  split; [by rewrite treeqs_created_app, Hp|]. exists r, tr. split; [|done]. apply elem_of_app. by right.
Qed.

Lemma create_treeq_names ts filesys fs t o :
  runs (create_treeq ts filesys fs) t o ->
  match o with
  | Done (ctx, None, _) => exists r tr, Evt (Ibox (CreateTreeq fs r)) (Ok tr) ∈ t /\ names_treeq ctx fs (Treeq_ID tr) /\
      CreateTreeqRequest_Name r = PVName (Service_NFS ts) /\ CreateTreeqRequest_HardCapacity r = Capacity (Service_NFS ts)
  | _ => True
  end.
Proof.
  revert t o. wp_start. unfold create_treeq. wp_reduce. intros [resp|err].
  - wp_reduce. apply (wp_call _ _ (fun _ _ => True)); [done|]. intros t [[n|err]| |] _; cbn [wp]; try by wp_leaf.
    + destruct filesys as [f|]; wp_reduce; [intros [v|err]|].
      * wp_reduce. wp_leaf. eexists _, resp. split; [by left|]. split; [apply treeq_context_names|done].
      * wp_run; try (by wp_leaf). apply wp_bind, (wp_call _ _ (fun _ _ => True)); [done|].
        intros t' [?| |] _; wp_reduce; by wp_leaf.
      * wp_leaf. eexists _, resp. split; [by left|]. split; [apply treeq_context_names|done].
    + wp_run; by wp_leaf.
  - wp_reduce. destruct filesys as [f|]; wp_reduce; [by wp_leaf|].
    apply wp_bind, (wp_call _ _ (fun _ _ => True)); [done|]. intros t [?| |] _; wp_reduce; by wp_leaf.
Qed.

Lemma create_treeq_makes ts filesys fs t o :
  runs (create_treeq ts filesys fs) t o ->
  makes_treeq (PVName (Service_NFS ts)) (Capacity (Service_NFS ts)) t o.
Proof.
  intros Ht. pose proof (create_treeq_names _ _ _ _ _ Ht) as Hn. unfold create_treeq in Ht.
  destruct Ht as (x & t' & Et & Ht).
  apply no_treeq_runs in Ht; [|unfold no_treeq; no_treeq_tac].
  assert (Hc : treeqs_created t = match x with Ok tr => [(fs, Treeq_ID tr)] | Err _ => [] end)
    by (rewrite Et; unfold treeqs_created, observe in *; cbn; rewrite Ht; by destruct x).
  split; [rewrite Hc; by destruct x; cbn; lia|].
  destruct o as [[[ctx [e|]] s]| |]; [done| |done..].
  destruct Hn as (r & tr & Hin & Hctx & Hname & Hcap). exists fs, (Treeq_ID tr). split; [done|].
  split; [|by exists r, tr]. apply treeqs_created_elem in Hin. rewrite Hc in Hin |- *.
  destruct x as [tr'|]; [|by apply not_elem_of_nil in Hin]. by apply list_elem_of_singleton in Hin as [= ->].
Qed.

Lemma makes_treeq_bind {A} name cap (p : prog call A) f :
  no_treeq p ->
  (forall a t1, runs p t1 (Done a) -> forall t o, runs (f a) t o -> makes_treeq name cap t o) ->
  forall t o, runs (bind p f) t o -> makes_treeq name cap t o.
Proof.
  intros Hp Hf t o [(a & t1 & t2 & -> & H1 & H2)|[[-> H]|[-> H]]]%runs_bind_inv.
  - apply makes_treeq_behind; [by eapply no_treeq_runs|by eapply Hf].
  - split; [|done]. rewrite (no_treeq_runs _ _ _ Hp H). cbn. lia.
  - split; [|done]. rewrite (no_treeq_runs _ _ _ Hp H). cbn. lia.
Qed.

Lemma choose_filesystem_no_treeq ts a b l : no_treeq (choose_filesystem ts a b l).
Proof. unfold no_treeq. induction l; cbn [choose_filesystem]; unfold getExportPath; no_treeq_tac. Qed.
#[local] Hint Resolve choose_filesystem_no_treeq : csi.
Lemma getExpectedFileSystemID_no_treeq ts ms : no_treeq (getExpectedFileSystemID ts ms).
Proof. unfold no_treeq, getExpectedFileSystemID. no_treeq_tac. Qed.

Lemma makes_nothing name cap ctx e s t o : runs (Ret (ctx, Some e, s)) t o -> makes_treeq name cap t o.
Proof. intros [-> ->]. split; [cbn; lia|done]. Qed.

Lemma create_treeq_locked_makes ts ms t o :
  runs (create_treeq_locked ts ms) t o ->
  makes_treeq (PVName (Service_NFS ts)) (Capacity (Service_NFS ts)) t o.
Proof.
  revert t o. apply makes_treeq_bind; [apply getExpectedFileSystemID_no_treeq|]. intros [r ts1] t1 Ht1.
  destruct (getExpectedFileSystemID_runs _ _ _ _ Ht1) as (_ & _ & r' & ts'' & [= <- <-] & [p Hp] & _).
  destruct r as [f|err].
  - intros t o Ht. apply create_treeq_makes in Ht. by rewrite Hp in Ht.
  - destruct (negb _); [intros ? ?; apply makes_nothing|].
    destruct (Split _ _) as [|? [|second rest]]; [intros ? ?; apply makes_nothing..|].
    apply makes_treeq_bind; [apply CreateFileSystem_no_treeq|]. intros [[e|] nfs'] t2 Ht2; [intros ? ?; apply makes_nothing|].
    destruct (CreateFileSystem_runs _ _ _ _ Ht2) as (? & ? & [= <- <-] & _ & Hid). destruct (Hid eq_refl) as (id & _ & ->).
    apply makes_treeq_bind; [apply export_and_tag_no_treeq|]. intros [[e|] nfs2] t3 Ht3; [intros ? ?; apply makes_nothing|].
    destruct (export_and_tag_keeps _ _ _ _ Ht3) as (Hcap & Hname & _).
    intros t o Ht. apply create_treeq_makes in Ht. cbn [Service_NFS set_NFS] in Ht.
    rewrite Hname, Hcap, Hp in Ht. exact Ht.
Qed.

Lemma CreateTreeqVolume_makes ts params cap name t o :
  fresh ts -> runs (CreateTreeqVolume ts params cap name) t o -> makes_treeq name cap t o.
Proof.
  intros Hf Ht. destruct (CreateTreeqVolume_split _ _ _ _ _ _ Hf Ht)
    as [(Hr & _ & e & ts' & ->)|(pre & ts1 & ms & mid & -> & Hr & _ & _ & (Hn & Hc & _) & _ & Hmid)].
  - split; [rewrite (readonly_treeqs _ Hr); cbn; lia|done].
  - apply create_treeq_locked_makes in Hmid. rewrite Hn, Hc in Hmid.
    apply (makes_treeq_behind _ _ [Evt (Os (Lock VolumeMutex)) tt]) in Hmid; [|done].
    apply (makes_treeq_behind _ _ _ _ _ (readonly_treeqs _ Hr)) in Hmid. revert Hmid. unfold makes_treeq, made_treeq.
    cbn [app]. rewrite !treeqs_created_app. cbn. rewrite !treeqs_created_app. cbn. rewrite !app_nil_r.
    intros [Hl Ho]. split; [done|]. destruct o as [[[ctx [e|]] s]| |]; [done| |done..].
    destruct Ho as (fs & tq & H1 & H2 & r & tr & Hin & Hrest). exists fs, tq. split; [done|]. split; [done|].
    exists r, tr. split; [|done]. rewrite elem_of_app, elem_of_cons, elem_of_app in *. tauto.
Qed.

(** The treeq service keeps its side of the contract. *)
#[export] Instance TreeqService_laws : TreeqLaws TreeqService fresh.
Proof.
  split; cbn.
  - intros s params cap name t ctx s' Hf Ht. by apply (CreateTreeqVolume_makes _ _ _ _ _ _ Hf Ht).
  - intros s params cap name t o Hf Ht. by apply (CreateTreeqVolume_makes _ _ _ _ _ _ Hf Ht).
  - intros s pool ns name prefix t ctx s' Hf Ht.
    destruct (IsTreeqAlreadyExist_runs _ _ _ _ _ _ _ Ht) as (c & e & ts' & [= <- <- <-] & Hf' & Hc). auto.
  - intros s pool ns name prefix t o Ht. by apply (quiet_runs _ _ _ (IsTreeqAlreadyExist_quiet _ _ _ _ _) Ht).
  - intros s params cap name t o Hf Ht. by apply (CreateTreeqVolume_serialized _ _ _ _ _ _ Hf Ht).
  - intros s pool ns name prefix t o Ht.
    destruct (IsTreeqAlreadyExist_runs _ _ _ _ _ _ _ Ht) as (c & e & ts' & -> & _). by eexists.
Qed.

Lemma lookup_str_Some m k v : m !! k = Some v -> lookup_str m k = v.
Proof. unfold lookup_str. by intros ->. Qed.

(** What a successful creation did: it found the treeq under the name and
    changed nothing, or it made this treeq and no other. *)
Definition served_treeq (name : string) (cap : Z) (t : trace) (fs tq : Z) : Prop :=
  (readonly t /\ found_treeq name t fs tq) \/ made_treeq name cap t fs tq.

Section Steps.
Context {S : Type} (I : Interface S) (valid : S -> Prop) {laws : TreeqLaws I valid}.

(** The look-up, and the creation of a treeq that was not found, as the
    controller service sees them. *)
Definition looked_up (name : string) (t : trace) (o : outcome (gmap string string * option error * S)) : Prop :=
  readonly t /\ exists ctx e s, o = Done (ctx, e, s) /\
  (e = None -> valid s /\ (ctx = ∅ \/ exists fs tq, names_treeq ctx fs tq /\ found_treeq name t fs tq)).
Definition found_or_made (name : string) (cap : Z) (found : trace) (t : trace)
    (o : outcome (gmap string string * option error * S)) : Prop :=
  length (treeqs_created t) <= 1 /\ exists ctx e s, o = Done (ctx, e, s) /\
  (e = None -> exists fs tq, names_treeq ctx fs tq /\
     (t = [] /\ found_treeq name found fs tq \/ made_treeq name cap t fs tq)).

Lemma Exists_looks_up s pool ns name prefix t o :
  valid s -> runs (Interface_Exists I s pool ns name prefix) t o -> looked_up name t o.
Proof.
  intros Hv Ht. split; [by eapply exists_readonly|].
  destruct (exists_returns _ _ _ _ _ _ _ Ht) as ([[ctx e] s'] & ->). exists ctx, e, s'.
  split; [done|]. intros ->. by eapply exists_names.
Qed.

Lemma Create_unless_found s params cap name ctx found t o :
  valid s -> (ctx = ∅ \/ exists fs tq, names_treeq ctx fs tq /\ found_treeq name found fs tq) ->
  runs (if bool_decide (ctx = ∅) then Interface_Create I s params cap name else Ret (ctx, None, s)) t o ->
  found_or_made name cap found t o.
Proof.
  intros Hv Hctx. case_bool_decide as Hempty.
  - intros Ht. split; [by eapply create_once|].
    destruct (create_returns _ _ _ _ _ _ Hv Ht) as ([[c e] s'] & ->). exists c, e, s'.
    split; [done|]. intros ->. destruct (create_names _ _ _ _ _ _ _ Hv Ht) as (fs & tq & H1 & H2).
    exists fs, tq. auto.
  - intros [-> ->]. split; [cbn; lia|]. exists ctx, None, s. split; [done|]. intros _.
    destruct Hctx as [?|(fs & tq & H1 & H2)]; [done|]. exists fs, tq. auto.
Qed.
End Steps.

(** C12: over any treeq service that keeps the contract, creating a volume
    returns and makes at most one treeq. On success the id is [fs#treeq] of the
    treeq [treeq] of the file system [fs] that the array found under the
    requested name, and then nothing was changed, or else of the only treeq made,
    under that name with the capacity; the driver reads the id back to these two
    numbers once the protocol is appended; capacity and content source are those
    requested. A failure carries a status code. *)
Theorem CreateVolume_over_interface {S} (I : Interface S) valid `{!TreeqLaws I valid} treeq req t o :
  valid (Treeqstorage_service treeq) ->
  runs (CreateVolume I treeq req) t o ->
  length (treeqs_created t) <= 1 /\
  match o with
  | Done (Ok (Some v), _) =>
      CSIVolume_CapacityBytes v = Capacity (Treeqstorage_NFS treeq) /\
      CSIVolume_ContentSource v = Req_VolumeContentSource req /\
      exists fs tq, CSIVolume_VolumeId v = Itoa fs +:+ "#" +:+ Itoa tq /\
        served_treeq (Req_Name req) (Capacity (Treeqstorage_NFS treeq)) t fs tq /\
        (in_i64 fs -> in_i64 tq ->
         ValidateVolumeID (CSIVolume_VolumeId v +:+ "$$" +:+ ProtocolTreeq)
           = Ok (MkVolumeProtocolConfig fs ProtocolTreeq "" None "" tq))
  | Done (Err e, _) => exists c m, e = EImpl c m
  | _ => False
  end.
Proof.
  intros Hv. revert t o. wp_start. unfold CreateVolume, GetHostInfo. wp_reduce. intros n.
  destruct (existsb GetBlock _); wp_reduce; [wp_leaf; split; [cbn; lia|by eexists _, _]|].
  apply (wp_call _ _ (looked_up valid (Req_Name req))); [intros t o Ht; by eapply Exists_looks_up|].
  intros t _ (Hr & ctx & e & s & -> & Hctx). set (name := Req_Name req) in *.
  set (cap := Capacity (Treeqstorage_NFS treeq)) in *.
  assert (Hpre : forall sys, readonly (Evt (Ibox GetSystem) sys :: t)) by (intros; by apply readonly_cons).
  destruct e as [err|].
  { wp_reduce. wp_leaf. rewrite app_nil_r. rewrite readonly_treeqs by done. split; [cbn; lia|by eexists _, _]. }
  destruct (Hctx eq_refl) as [Hvs Hnames].
  apply (wp_call _ _ (found_or_made name cap t)); [intros t' o Ht; by eapply Create_unless_found|].
  intros t' _ (Hone & ctx' & e & s' & -> & Hn).
  assert (Hl : forall sys, treeqs_created (Evt (Ibox GetSystem) sys :: t ++ t') = treeqs_created t').
  { intros sys. rewrite app_comm_cons, treeqs_created_app. by rewrite readonly_treeqs. }
  destruct e as [err|]; wp_reduce; wp_leaf; rewrite app_nil_r, Hl; (split; [done|]); [by eexists _, _|].
  split; [done|]. split; [done|]. destruct (Hn eq_refl) as (fs & tq & Hids & Hserved). exists fs, tq.
  assert (Hn' : names_treeq (<[StorageClassGID := (Req_Parameters req).[StorageClassGID]]>
    (<[StorageClassUID := (Req_Parameters req).[StorageClassUID]]>
    (<[StorageClassStorageProtocol := (Req_Parameters req).[StorageClassStorageProtocol]]>
    (<[StorageClassNFSExportPermissions := (Req_Parameters req).[StorageClassNFSExportPermissions]]> ctx')))) fs tq)
    by (do 4 (apply names_treeq_insert; [done..|]); done).
  destruct Hn' as (Hfs & Htq). cbn [CSIVolume_VolumeId].
  rewrite (lookup_str_Some _ _ _ Hfs), (lookup_str_Some _ _ _ Htq). split; [done|].
  split; [|intros; by apply treeq_id_read]. destruct Hserved as [[-> (q & tr & Hin & Hq)]|(Hc & r & tr & Hin & Hq)].
  - left. rewrite app_nil_r. split; [done|]. exists q, tr. split; [by right|done].
  - right. split; [by rewrite Hl|]. exists r, tr. split; [|done]. right. apply elem_of_app. by right.
Qed.

(** ** Findings, as concrete runs *)

(** A treeq that exists is reported as missing when its network space has no
    address: the error assigned is that of the export look-up. *)
Example IsTreeqAlreadyExist_no_address :
  let treeq := MkTreeq 20000 3 "pvc-1" "/pvc-1" 1 0 in
  runs (IsTreeqAlreadyExist (MkService (NewNFSstorage 0 cs0) 0 0) "pool" "nas" "pvc-1" "csit_")
    [Evt (Ibox (GetPoolByName "pool")) (Ok (PoolResult_of 1 "pool" false));
     Evt (Ibox (GetFileSystemsByPool 1 "csit_")) ([FileSystem_of 3 "csit_1" 1 0 1 ""], None);
     Evt (Ibox (GetTreeqByName 3 "pvc-1")) (Ok treeq); Evt (Os (RaceWinner 1)) 0;
     Evt (Ibox (GetExportsByFileSystemID 3)) ([], None);
     Evt (Ibox (GetNetworkSpaceByName "nas")) (Err (EText "unreachable"))]
    (Done (∅, None, MkService (NewNFSstorage 0 cs0) 1 0)).
Proof. cbv zeta. replay. Qed.

(** Capital units are recognised but not converted. *)
Example convert_units_capitals :
  is_ok (convert_units "10GIB" sizeUnits) = false /\ convert_units "10gib" sizeUnits = Ok 10737418240%Z.
Proof. vm_compute. by split. Qed.

(** ** The theorems at concrete runs *)

#[local] Transparent gmap_empty.

Definition ts0 : Service := MkService (NewNFSstorage 0 nfs_cs) 0 0.
Definition treeq_params : gmap string string :=
  <[StorageClassPoolName := "pool"]> {[ StorageClassNetworkSpace := "nas" ]}.
Definition treeq_of (fs id cap : Z) : Treeq := MkTreeq id fs "csi-1" "/csi-1" cap 0.
Definition new_treeq : CreateTreeqRequest := MkCreateTreeqRequest 0 "/csi-1" 1073741824 0 "csi-1".

(** The second treeq of a file system. *)
Definition treeq_calls : trace :=
  [Evt (Ibox (GetNetworkSpaceByName "nas")) (Ok (NetworkSpace_of "nas" "NAS_SERVICE" [Portal_of "10.1.1.1"]));
   Evt (Os (RandIntn 1)) 0%Z; Evt (Ibox (GetPoolByName "pool")) (Ok (PoolResult_of 1 "pool" false));
   Evt (Os (Lock VolumeMutex)) tt; Evt (Ibox GetMaxTreeqPerFs) (Ok 1000%Z);
   Evt (Ibox (GetFileSystemsByPool 1 "csit_")) ([FileSystem_of 3 "csit_1" 1073741824 0 1 ""], None);
   Evt (Ibox (GetTreeqsByFileSystem 3)) ([treeq_of 3 20000 1073741824], None);
   Evt (Ibox (GetExportsByFileSystemID 3)) ([], None);
   Evt (Ibox (CreateTreeq 3 new_treeq)) (Ok (treeq_of 3 20001 1073741824));
   Evt (Ibox (PutMetadata 3 {[ TreeqCount := JNum "2" ]})) (Ok (ok_response []));
   Evt (Ibox (UpdateFileSystem 3 (FileSystem_of 0 "" 2147483648 0 0 ""))) (Ok (FileSystem_of 3 "csit_1" 2147483648 0 1 ""));
   Evt (Os (Unlock VolumeMutex)) tt].

Lemma treeq_calls_run :
  exists ctx s, runs (CreateTreeqVolume ts0 treeq_params 1073741824 "csi-1") treeq_calls (Done (ctx, None, s)).
Proof. eexists _, _. replay. Qed.

Lemma CreateTreeqVolume_serialized_witness :
  exists ctx s, runs (CreateTreeqVolume ts0 treeq_params 1073741824 "csi-1") treeq_calls (Done (ctx, None, s)) /\
  serialized VolumeMutex treeq_calls.
Proof.
  destruct treeq_calls_run as (ctx & s & H). exists ctx, s. split; [exact H|].
  exact (proj1 (CreateTreeqVolume_serialized ts0 _ _ _ _ _ (conj eq_refl eq_refl) H)).
Defined.


(** The last treeq goes, and its file system with it. *)
Definition last_treeq_calls : trace :=
  [Evt (Ibox (GetTreeq 3 20000)) (Ok (treeq_of 3 20000 1)); Evt (Os (Lock DeleteMutex)) tt;
   Evt (Ibox (GetTreeqsByFileSystem 3)) ([treeq_of 3 20000 1], None);
   Evt (Ibox (PutMetadata 3 {[ TreeqCount := JNum "0" ]})) (Ok (ok_response []));
   Evt (Ibox (DeleteTreeq 3 20000)) (Ok (treeq_of 3 20000 1));
   Evt (Ibox (GetExportsByFileSystemID 3)) ([], None); Evt (Ibox (DeleteMetadata 3)) (Ok (ok_response []));
   Evt (Ibox (DeleteFileSystem 3)) None; Evt (Os (Unlock DeleteMutex)) tt].

Lemma DeleteTreeqVolume_guarded_witness :
  runs (DeleteTreeqVolume 3 20000) last_treeq_calls (Done None) /\
  guarded (treeq_delete_guard 3 20000) last_treeq_calls /\ serialized DeleteMutex last_treeq_calls.
Proof.
  assert (H : runs (DeleteTreeqVolume 3 20000) last_treeq_calls (Done None)) by replay.
  split; [exact H|]. destruct (DeleteTreeqVolume_guarded 3 20000 _ _ H) as (H1 & H2 & _). by split.
Defined.

(** A treeq of 1 GiB grows to 3 GiB, its file system from 2 GiB to 4 GiB. *)
Definition resize_treeq : UpdateTreeqRequest := MkUpdateTreeqRequest 0 "" 3221225472 0 "".
Definition expand_calls : trace :=
  [Evt (Ibox (GetFileSystemByID 3)) (Ok (FileSystem_of 3 "csit_1" 2147483648 0 1 ""));
   Evt (Ibox (GetTreeq 3 20000)) (Ok (treeq_of 3 20000 1073741824));
   Evt (Ibox (GetTreeqsByFileSystem 3)) ([treeq_of 3 20000 1073741824; treeq_of 3 20001 1073741824], None);
   Evt (Os (MapOrder ["gib"; "tib"])) ["gib"; "tib"];
   Evt (Ibox (UpdateFileSystem 3 (FileSystem_of 0 "" 4294967296 0 0 ""))) (Ok (FileSystem_of 3 "csit_1" 4294967296 0 1 ""));
   Evt (Ibox (UpdateTreeq 3 20000 resize_treeq)) (Ok (treeq_of 3 20000 3221225472))].

Lemma UpdateTreeqVolume_spec_witness :
  runs (UpdateTreeqVolume 3 20000 3221225472 "8gib") expand_calls (Done None) /\
  exists f tr l, Evt (Ibox (GetFileSystemByID 3)) (Ok f) ∈ expand_calls /\ Evt (Ibox (GetTreeq 3 20000)) (Ok tr) ∈ expand_calls
    /\ Evt (Ibox (GetTreeqsByFileSystem 3)) (l, None) ∈ expand_calls.
Proof.
  assert (H : runs (UpdateTreeqVolume 3 20000 3221225472 "8gib") expand_calls (Done None)) by replay.
  split; [exact H|].
  destruct (UpdateTreeqVolume_spec 3 20000 3221225472 "8gib" _ _ H eq_refl) as [[Hr _]|(f & tr & l & H1 & H2 & H3 & _)].
  - exfalso. unfold expand_calls in Hr. rewrite !readonly_cons in Hr. cbn in Hr. naive_solver.
  - exists f, tr, l. by split_and!.
Defined.

(** The whole controller service, on a name the array does not know. *)
Definition treeq_req : CSICreateVolumeRequest :=
  MkCSICreateVolumeRequest "csi-1" (Some 1073741824%Z) None treeq_params ∅ None.
Definition treeq_storage : Treeqstorage Service := NewTreeqstorage 1073741824 nfs_cs.
Definition controller_calls : trace :=
  [Evt (Ibox GetSystem) (Ok 1%Z); Evt (Ibox (GetPoolByName "pool")) (Ok (PoolResult_of 1 "pool" false));
   Evt (Ibox (GetFileSystemsByPool 1 "csit_")) ([], None)] ++ treeq_calls.

Lemma CreateVolume_over_interface_witness :
  exists v s, runs (CreateVolume TreeqService treeq_storage treeq_req) controller_calls (Done (Ok (Some v), s)) /\
  exists fs tq, CSIVolume_VolumeId v = Itoa fs +:+ "#" +:+ Itoa tq /\
    served_treeq "csi-1" 1073741824 controller_calls fs tq.
Proof.
  assert (H : exists v s, runs (CreateVolume TreeqService treeq_storage treeq_req) controller_calls (Done (Ok (Some v), s)))
    by (eexists _, _; replay).
  destruct H as (v & s & H). exists v, s. split; [exact H|].
  destruct (CreateVolume_over_interface TreeqService fresh treeq_storage treeq_req _ _ (conj eq_refl eq_refl) H)
    as (_ & _ & _ & fs & tq & Hid & Hs & _).
  exists fs, tq. split; [exact Hid|exact Hs].
Defined.
