(* ===== verification/VolumeGroup.v ===== *)
(** Consistency groups: the group snapshots of [service/volumegroupcontroller.go]
    and the volume groups of [service/csiaddons/volumegroup.go]. Both build a
    client for the secrets of their request and drive the array with it. *)
From S2P Require Import Prelude GoLib IboxTypes Fmt Csi StorageCommon.
From stdpp Require Import base strings list gmap.
From Stdlib Require Import ZArith.

Local Open Scope string_scope.
Local Open Scope list_scope.

(** ** Messages *)

Record CreateVolumeGroupSnapshotRequest := MkCreateVolumeGroupSnapshotRequest {
  CVGS_SourceVolumeIds : list string;
  CVGS_Secrets : gmap string string;
  CVGS_Parameters : gmap string string
}.
(** [DeleteVolumeGroupSnapshotRequest] and [GetVolumeGroupSnapshotRequest]. *)
Record GroupSnapshotRequest := MkGroupSnapshotRequest {
  GS_GroupSnapshotId : string;
  GS_SnapshotIds : list string;
  GS_Secrets : gmap string string
}.
(** A [csi.Snapshot] with the id of its group. *)
Record MemberSnapshot := MkMemberSnapshot {
  Member_Snapshot : CSISnapshot;
  Member_GroupSnapshotId : string
}.
Record VolumeGroupSnapshot := MkVolumeGroupSnapshot {
  VGS_GroupSnapshotId : string;
  VGS_Snapshots : list MemberSnapshot;
  VGS_CreationTime : Z;
  VGS_ReadyToUse : bool
}.

Record CreateVolumeGroupRequest := MkCreateVolumeGroupRequest {
  CVG_Name : string;
  CVG_VolumeIds : list string;
  CVG_Secrets : gmap string string;
  CVG_Parameters : gmap string string
}.
(** The requests of the other operations on volume groups. *)
Record VolumeGroupRequest := MkVolumeGroupRequest {
  VGR_VolumeGroupId : string;
  VGR_VolumeIds : list string;
  VGR_Secrets : gmap string string
}.
(** A [volumegroup.VolumeGroup]: a volume is its id and capacity. *)
Record VolumeGroup := MkVolumeGroup {
  VG_VolumeGroupId : string;
  VG_Volumes : list (string * Z)
}.

Section handlers.
Context (url_Parse : string -> res (string * string)) (url_ParseRequestURI : string -> bool).

(** [BuildCommonService(make(map[string]string), secrets, nil)]. *)
Definition common_service (secrets : gmap string string) : prog call (res Commonservice) :=
  BuildCommonService url_Parse url_ParseRequestURI ∅ secrets VolumeProtocolConfig_zero.
(** [ClientService.NewClient]: the service it returns drives the same array. *)
Definition NewClient (secrets : gmap string string) : prog call (res unit) :=
  try _host <- getAPIConfig url_Parse url_ParseRequestURI secrets catch err => Ret (Err err) ;;
  Ret (Ok tt).

(** ** service/volumegroupcontroller.go *)

(** The beginning of every handler of this file. *)
Definition group_client (secrets : gmap string string) : prog call (res unit) :=
  try _cs <- common_service secrets catch err =>
    Ret (Err (status_of Internal "failed to get API connection error " err)) ;;
  try _client <- NewClient secrets catch err =>
    Ret (Err (status_of Internal "failed to get api client error " err)) ;;
  Ret (Ok tt).

(** The ids and the pool of the volumes to group; the pool is the last one's. *)
Fixpoint group_volumes (sourceVolumeIds : list string) (poolID : Z) (allVolumeIDs : list Z)
    : prog call (res (Z * list Z)) :=
  match sourceVolumeIds with
  | [] => Ret (Ok (poolID, allVolumeIDs))
  | id :: rest =>
      match Split id "$$" with
      | [volume; _proto] =>
          match Atoi volume with
          | Err err =>
              Ret (Err (EStatus Internal ("failed to convert volume ID " +:+ volume +:+ " to int error " +:+ Error err)))
          | Ok volumeID =>
              try v <- iboxAPI (GetVolume volumeID) catch err =>
                Ret (Err (EStatus Internal ("failed to get Volume with ID " +:+ Itoa volumeID +:+ " error " +:+ Error err))) ;;
              group_volumes rest (Volume_PoolID v) (allVolumeIDs ++ [volumeID])
          end
      | _ => Ret (Err (EText "volume Id and other details not found"))
      end
  end.
Fixpoint add_members (allVolumeIDs : list Z) (cgID : Z) : prog call (res unit) :=
  match allVolumeIDs with
  | [] => Ret (Ok tt)
  | volumeID :: rest =>
      err <- iboxAPI (AddMemberToSnapshotGroup volumeID cgID) ;;
      match err with
      | Some err => Ret (Err (status_of Internal "failed to add volume to cg error " err))
      | None => add_members rest cgID
      end
  end.
Definition createCG (cgName : string) (req : CreateVolumeGroupSnapshotRequest) : prog call (res ConsistencyGroupInfo) :=
  try group <- group_volumes (CVGS_SourceVolumeIds req) 0 [] catch err => Ret (Err err) ;;
  try newCG <- iboxAPI (CreateConsistencyGroup (MkCreateConsistencyGroupRequest cgName (fst group))) catch err =>
    Ret (Err (status_of Internal "failed to create cg error " err)) ;;
  try _ <- add_members (snd group) (ConsistencyGroupInfo_ID newCG) catch err => Ret (Err err) ;;
  Ret (Ok newCG).

(** The last of [ids] that contains the number. *)
Definition containing (ids : list string) (number : Z) : string :=
  default "" (last (List.filter (fun id => Contains id (Itoa number)) ids)).
(** The snapshots of the members. [key] is the number of a member looked for in
    [ids], [code] the status of a failure. *)
Fixpoint member_snapshots (code : Code) (ids : list string) (key : MemberInfo -> Z) (group : string)
    (creationTime : Z) (members : list MemberInfo) : prog call (res (list MemberSnapshot)) :=
  match members with
  | [] => Ret (Ok [])
  | member :: rest =>
      try volume <- iboxAPI (GetVolume (MemberInfo_ID member)) catch err =>
        Ret (Err (status_of code "failed to get snapshot volume  error " err)) ;;
      let sourceVolumeId := containing ids (key member) in
      match Split sourceVolumeId "$$" with
      | [_id; proto] =>
          let snapshot := {| Member_Snapshot :=
                               {| CSISnapshot_SizeBytes := MemberInfo_Size member;
                                  CSISnapshot_SnapshotId := Itoa (Volume_ID volume) +:+ "$$" +:+ proto;
                                  CSISnapshot_SourceVolumeId := sourceVolumeId;
                                  CSISnapshot_CreationTime := creationTime;
                                  CSISnapshot_ReadyToUse := true |};
                             Member_GroupSnapshotId := group |} in
          try snapshots <- member_snapshots code ids key group creationTime rest catch err => Ret (Err err) ;;
          Ret (Ok (snapshot :: snapshots))
      | parts => Ret (Err (EStatus code ("sourceVolumeId not parsing correctly " +:+ brackets parts)))
      end
  end.

Definition CreateVolumeGroupSnapshot (req : CreateVolumeGroupSnapshotRequest) : prog call (res VolumeGroupSnapshot) :=
  try _client <- group_client (CVGS_Secrets req) catch err => Ret (Err err) ;;
  let cgName := (CVGS_Parameters req).["infinidat.com/cgname"] in
  cg <- iboxAPI (GetConsistencyGroupByName cgName) ;;
  try newCG <- match cg with
               | Ok cg => Ret (Ok cg)
               | Err err =>
                   if is_ErrNotFound err
                   then r <- createCG cgName req ;; Ret (map_err (status_of Internal "failed to createCG error ") r)
                   else Ret (Err (status_of Internal "error getting cg " err))
               end catch err => Ret (Err err) ;;
  let vgsName := (CVGS_Parameters req).["csi.storage.k8s.io/volumegroupsnapshot/name"] in
  sg <- iboxAPI (GetConsistencyGroupByName vgsName) ;;
  match sg with
  | Ok _ => Ret (Err (EStatus InvalidArgument ("Snap Group already exists with that name " +:+ vgsName +:+ " error <nil>")))
  | Err err =>
      if negb (is_ErrNotFound err) then Ret (Err (status_of Internal "error getting sg cg " err))
      else
        try snapGroupCG <- iboxAPI (CreateSnapshotGroup
                             {| CreateSnapshotGroupRequest_CGID := ConsistencyGroupInfo_ID newCG;
                                CreateSnapshotGroupRequest_SnapName := vgsName;
                                CreateSnapshotGroupRequest_SnapPrefix := vgsName;
                                CreateSnapshotGroupRequest_SnapSuffix := "" |}) catch err =>
          Ret (Err (status_of Internal ("failed to create snap group error " +:+ vgsName +:+ " error ") err)) ;;
        creationTime <- osAPI Now ;;
        r <- iboxAPI (GetMembersByCGID (ConsistencyGroupInfo_ID snapGroupCG)) ;;
        match snd r with
        | Some err => Ret (Err (status_of Internal "failed to get snapgroup CG members error " err))
        | None =>
            try snapshots <- member_snapshots Internal (CVGS_SourceVolumeIds req) MemberInfo_FamilyID
                               (ConsistencyGroupInfo_Name snapGroupCG) creationTime (fst r)
              catch err => Ret (Err err) ;;
            Ret (Ok {| VGS_GroupSnapshotId := Itoa (ConsistencyGroupInfo_ID snapGroupCG);
                       VGS_Snapshots := snapshots;
                       VGS_CreationTime := creationTime;
                       VGS_ReadyToUse := true |})
        end
  end.

(** [strconv.Atoi(req.GroupSnapshotId)] and its error. *)
Definition group_snapshot_id (id : string) : res Z :=
  map_err (fun err => EStatus InvalidArgument
             ("failed to convert group_snapshot_id " +:+ id +:+ " to int error " +:+ Error err)) (Atoi id).

Definition DeleteVolumeGroupSnapshot (req : GroupSnapshotRequest) : prog call (res unit) :=
  try _client <- group_client (GS_Secrets req) catch err => Ret (Err err) ;;
  match group_snapshot_id (GS_GroupSnapshotId req) with
  | Err err => Ret (Err err)
  | Ok snapshotGroupID =>
      err <- iboxAPI (DeleteConsistencyGroup snapshotGroupID) ;;
      match err with
      | Some err => Ret (Err (EStatus Internal ("error deleting CG " +:+ GS_GroupSnapshotId req +:+ " error " +:+ Error err)))
      | None => Ret (Ok tt)
      end
  end.

Definition GetVolumeGroupSnapshot (req : GroupSnapshotRequest) : prog call (res VolumeGroupSnapshot) :=
  try _client <- group_client (GS_Secrets req) catch err => Ret (Err err) ;;
  match group_snapshot_id (GS_GroupSnapshotId req) with
  | Err err => Ret (Err err)
  | Ok snapshotGroupID =>
      try consistencyGroup <- iboxAPI (GetConsistencyGroup snapshotGroupID) catch err =>
        Ret (Err (EStatus NotFound ("error getting CG group_snapshot_id " +:+ GS_GroupSnapshotId req
                                    +:+ " error " +:+ Error err))) ;;
      creationTime <- osAPI Now ;;
      r <- iboxAPI (GetMembersByCGID snapshotGroupID) ;;
      match snd r with
      | Some err => Ret (Err (status_of Internal "failed to get snapgroup CG members error " err))
      | None =>
          try snapshots <- member_snapshots InvalidArgument (GS_SnapshotIds req) MemberInfo_ID
                             (ConsistencyGroupInfo_Name consistencyGroup) creationTime (fst r)
            catch err => Ret (Err err) ;;
          Ret (Ok {| VGS_GroupSnapshotId := Itoa snapshotGroupID;
                     VGS_Snapshots := snapshots;
                     VGS_CreationTime := creationTime;
                     VGS_ReadyToUse := true |})
      end
  end.

(** ** service/csiaddons/volumegroup.go *)

(** The beginning of every handler of this file. *)
Definition volume_group_service (name : string) (secrets : gmap string string) : prog call (res unit) :=
  try _cs <- common_service secrets catch err =>
    Ret (Err (status_of Unauthenticated ("error building commonService - volumeGroup: " +:+ name +:+ " error: ") err)) ;;
  Ret (Ok tt).
(** [strconv.Atoi(req.VolumeGroupId)]; the wordings differ. *)
Definition volume_group_id (pre id : string) : res Z :=
  map_err (status_of InvalidArgument (pre +:+ id +:+ " error: ")) (Atoi id).

(** The volumes of a new group, one after the other. [%d] is used for the text
    of the id. *)
Fixpoint add_volumes (cgInfo : ConsistencyGroupInfo) (volumeIDs : list string) : prog call (res (list (string * Z))) :=
  match volumeIDs with
  | [] => Ret (Ok [])
  | v :: rest =>
      let cg := ConsistencyGroupInfo_Name cgInfo in
      match Atoi v with
      | Err err =>
          Ret (Err (status_of Unknown ("error converting volumeID string to int - volumeID: " +:+ v
                                       +:+ " CG: " +:+ cg +:+ " error: ") err))
      | Ok vID =>
          try volume <- iboxAPI (GetVolume vID) catch err =>
            Ret (Err (status_of Unknown ("error getting volume - volumeID: " +:+ v +:+ " CG: " +:+ cg +:+ " error: ") err)) ;;
          let bad := bad_verb "d" (AString v) in
          if (0 <? Volume_CGID volume)%Z
          then Ret (Err (EStatus InvalidArgument
                 ("error adding volume to CG - volumeID: " +:+ bad +:+ " CG: " +:+ cg
                  +:+ " error: volume already belongs to CG " +:+ Itoa (Volume_CGID volume))))
          else
            err <- iboxAPI (AddMemberToCG (Volume_ID volume) (ConsistencyGroupInfo_ID cgInfo) (Volume_Name volume)) ;;
            match err with
            | Some err =>
                Ret (Err (status_of Unknown ("error adding volume to CG - volumeID: " +:+ bad +:+ " CG: " +:+ cg
                                             +:+ " error: ") err))
            | None =>
                try csiVolumes <- add_volumes cgInfo rest catch err => Ret (Err err) ;;
                Ret (Ok ((v, Volume_Size volume) :: csiVolumes))
            end
      end
  end.

(** On failure the array's answer is printed, a nil pointer. *)
Definition CreateVolumeGroup (req : CreateVolumeGroupRequest) : prog call (res VolumeGroup) :=
  try _cs <- volume_group_service (CVG_Name req) (CVG_Secrets req) catch err => Ret (Err err) ;;
  let poolName := (CVG_Parameters req).[StorageClassPoolName] in
  if String.eqb poolName ""
  then Ret (Err (EStatus InvalidArgument ("error poolName is empty and required to create a CG: " +:+ poolName)))
  else
    try pool <- iboxAPI (GetPoolByName poolName) catch err =>
      Ret (Err (status_of Unknown ("error getting pool - poolName: " +:+ poolName +:+ " error: ") err)) ;;
    try cgInfo <- iboxAPI (CreateConsistencyGroup
                             (MkCreateConsistencyGroupRequest (CVG_Name req) (PoolResult_ID pool))) catch err =>
      Ret (Err (status_of Unknown "error creating CG - request: <nil> error: " err)) ;;
    try csiVolumes <- add_volumes cgInfo (CVG_VolumeIds req) catch err => Ret (Err err) ;;
    Ret (Ok {| VG_VolumeGroupId := Itoa (ConsistencyGroupInfo_ID cgInfo); VG_Volumes := csiVolumes |}).

(** Any error of the lookup counts as a group that is gone. *)
Definition DeleteVolumeGroup (req : VolumeGroupRequest) : prog call (res unit) :=
  let id := VGR_VolumeGroupId req in
  try _cs <- volume_group_service id (VGR_Secrets req) catch err => Ret (Err err) ;;
  match volume_group_id "error converting volumeGroupID to int - volumeGroup: " id with
  | Err err => Ret (Err err)
  | Ok cgID =>
      r <- iboxAPI (GetConsistencyGroup cgID) ;;
      match r with
      | Err _ => Ret (Ok tt)
      | Ok cg =>
          err <- iboxAPI (DeleteConsistencyGroup (ConsistencyGroupInfo_ID cg)) ;;
          match err with
          | Some err => Ret (Err (status_of InvalidArgument ("error deleting CG - volumeGroup: " +:+ id +:+ " error: ") err))
          | None => Ret (Ok tt)
          end
      end
  end.

(** The current members that are not requested, the requested volumes that are
    not members yet: ids are compared as text. *)
Definition is_member (currentMembers : list MemberInfo) (v : string) : bool :=
  existsb (fun cm => String.eqb (Itoa (MemberInfo_ID cm)) v) currentMembers.
Fixpoint volumes_to_add (currentMembers : list MemberInfo) (volumeIDs : list string) : res (list Z) :=
  match volumeIDs with
  | [] => Ok []
  | v :: rest =>
      if is_member currentMembers v then volumes_to_add currentMembers rest
      else match Atoi v with
           | Err err => Err (status_of Unknown ("error converting volumeID to int: " +:+ v +:+ " error: ") err)
           | Ok vID => match volumes_to_add currentMembers rest with
                       | Err err => Err err
                       | Ok l => Ok (vID :: l)
                       end
           end
  end.
Definition volumes_to_remove (currentMembers : list MemberInfo) (volumeIDs : list string) : list Z :=
  map MemberInfo_ID (List.filter (fun cm => negb (existsb (String.eqb (Itoa (MemberInfo_ID cm))) volumeIDs)) currentMembers).

Fixpoint remove_all (cg : ConsistencyGroupInfo) (members : list MemberInfo) : prog call (res unit) :=
  match members with
  | [] => Ret (Ok tt)
  | v :: rest =>
      err <- iboxAPI (RemoveMemberFromCG (ConsistencyGroupInfo_ID cg) (MemberInfo_ID v)) ;;
      match err with
      | Some err =>
          Ret (Err (status_of Unknown ("error removing member " +:+ fmt_s_MemberInfo v +:+ " from CG: "
                                       +:+ ConsistencyGroupInfo_Name cg +:+ " error: ") err))
      | None => remove_all cg rest
      end
  end.
(** The loops over [volumesToAdd] and [volumesToRemove]: [change] is the call
    for a volume, [doing] its wording. *)
Fixpoint change_members (change : Volume -> ibox (option error)) (doing : string) (cg : ConsistencyGroupInfo)
    (volumes : list Z) : prog call (res unit) :=
  match volumes with
  | [] => Ret (Ok tt)
  | v :: rest =>
      try volume <- iboxAPI (GetVolume v) catch err =>
        Ret (Err (status_of Unknown ("error getting volume - volumeID: " +:+ s_int v +:+ " error: ") err)) ;;
      err <- iboxAPI (change volume) ;;
      match err with
      | Some err =>
          Ret (Err (status_of Unknown (doing +:+ s_int v +:+ " CG: " +:+ ConsistencyGroupInfo_Name cg +:+ " error: ") err))
      | None => change_members change doing cg rest
      end
  end.

Definition ModifyVolumeGroupMembership (req : VolumeGroupRequest) : prog call (res VolumeGroup) :=
  let id := VGR_VolumeGroupId req in
  try _cs <- volume_group_service id (VGR_Secrets req) catch err => Ret (Err err) ;;
  match volume_group_id "error converting volumeGroupID to int: " id with
  | Err err => Ret (Err err)
  | Ok cgID =>
      try cg <- iboxAPI (GetConsistencyGroup cgID) catch err =>
        Ret (Err (status_of InvalidArgument ("error getting CG volumeGroupID: " +:+ id +:+ " error: ") err)) ;;
      let members_error := status_of Unknown ("error getting CG members volumeGroupID: " +:+ id +:+ " error: ") in
      r <- iboxAPI (GetMembersByCGID (ConsistencyGroupInfo_ID cg)) ;;
      match snd r with
      | Some err => Ret (Err (members_error err))
      | None =>
          let currentMembers := fst r in
          if (length (VGR_VolumeIds req) =? 0)%nat && (0 <? length currentMembers)%nat
          then
            try _ <- remove_all cg currentMembers catch err => Ret (Err err) ;;
            Ret (Ok {| VG_VolumeGroupId := id; VG_Volumes := [] |})
          else
            match volumes_to_add currentMembers (VGR_VolumeIds req) with
            | Err err => Ret (Err err)
            | Ok volumesToAdd =>
                let cgid := ConsistencyGroupInfo_ID cg in
                try _ <- change_members (fun v => AddMemberToCG (Volume_ID v) cgid (Volume_Name v))
                           "error adding member to CG - volumeID: " cg volumesToAdd
                  catch err => Ret (Err err) ;;
                try _ <- change_members (fun v => RemoveMemberFromCG cgid (Volume_ID v))
                           "error removing member from CG - volumeID: " cg
                           (volumes_to_remove currentMembers (VGR_VolumeIds req))
                  catch err => Ret (Err err) ;;
                r <- iboxAPI (GetMembersByCGID cgid) ;;
                match snd r with
                | Some err => Ret (Err (members_error err))
                | None =>
                    Ret (Ok {| VG_VolumeGroupId := id;
                               VG_Volumes := map (fun v => (Itoa (MemberInfo_ID v), MemberInfo_Size v)) (fst r) |})
                end
            end
      end
  end.

Definition getCGMembers (cgID : Z) : prog call (res (list (string * Z))) :=
  r <- iboxAPI (GetMembersByCGID cgID) ;;
  match snd r with
  | Some err => Ret (Err err)
  | None => Ret (Ok (map (fun m => (Itoa (MemberInfo_ID m), 0%Z)) (fst r)))
  end.
(** [%s] is used for the number of the group. *)
Definition ControllerGetVolumeGroup (req : VolumeGroupRequest) : prog call (res VolumeGroup) :=
  let id := VGR_VolumeGroupId req in
  try _cs <- common_service (VGR_Secrets req) catch err =>
    Ret (Err (status_of Unauthenticated ("error building commonService - volumeGroup ID: " +:+ id +:+ " error: ") err)) ;;
  match volume_group_id "error converting volumeGroupId - volumeGroup ID: " id with
  | Err err => Ret (Err err)
  | Ok cgID =>
      try consistencyGroup <- iboxAPI (GetConsistencyGroup cgID) catch err =>
        Ret (Err (status_of Unknown ("error getting CG - cg ID: " +:+ s_int cgID +:+ " error: ") err)) ;;
      let id := Itoa (ConsistencyGroupInfo_ID consistencyGroup) in
      if (0 <? ConsistencyGroupInfo_MembersCount consistencyGroup)%Z
      then
        try volumes <- getCGMembers cgID catch err =>
          Ret (Err (status_of Unknown ("error members for CG - cg ID: " +:+ s_int cgID +:+ " error: ") err)) ;;
        Ret (Ok {| VG_VolumeGroupId := id; VG_Volumes := volumes |})
      else Ret (Ok {| VG_VolumeGroupId := id; VG_Volumes := [] |})
  end.
End handlers.
