(* ===== verification/VolumeGroupProofs.v ===== *)
(** Properties of consistency groups: what a change of membership does to the
    group, and what a group snapshot is made of. *)
From S2P Require Import Prelude GoLib IboxTypes Traces Fmt Csi StorageCommon StorageCommonProofs VolumeGroup.
From stdpp Require Import base strings list gmap.
From Stdlib Require Import ZArith Lia.

Local Open Scope string_scope.
Local Open Scope list_scope.

(** ** Changes of a group *)

Inductive move := Joins (cgID volumeID : Z) | Leaves (cgID memberID : Z).
(** What a changing call does to a group, and whether the array accepted it. *)
Definition move_of {X} (c : call X) : X -> option (move * bool) :=
  match c in call X return X -> _ with
  | Ibox i => match i in ibox X return X -> _ with
              | AddMemberToCG v cg _ => fun err => Some (Joins cg v, bool_decide (err = None))
              | RemoveMemberFromCG cg m => fun err => Some (Leaves cg m, bool_decide (err = None))
              | _ => fun _ => None
              end
  | _ => fun _ => None
  end.
(** The changes of a trace; [None] is one that is not of a group. *)
Definition moves (t : trace) : list (option (move * bool)) :=
  map (fun e => match e with Evt c x => move_of c x end) (changed t).

Lemma moves_app t t' : moves (t ++ t') = moves t ++ moves t'.
Proof. unfold moves. by rewrite changed_app, map_app. Qed.
Lemma moves_readonly t : readonly t -> moves t = [].
Proof. intros H. unfold moves. by rewrite changed_readonly. Qed.

(** The array answers the volume that was asked for. *)
Definition honest_answer {X} (c : call X) : X -> Prop :=
  match c in call X return X -> _ with
  | Ibox i => match i in ibox X return X -> _ with
              | GetVolume v => fun r => match r with Ok vol => Volume_ID vol = v | Err _ => True end
              | _ => fun _ => True
              end
  | _ => fun _ => True
  end.
Definition honest (t : trace) : Prop := Forall (fun e => match e with Evt c x => honest_answer c x end) t.
Lemma honest_app t t' : honest (t ++ t') <-> honest t /\ honest t'.
Proof. apply Forall_app. Qed.

(** The moves were asked for in turn, up to the first that was not possible;
    [ok] if all were, and the array accepted them. *)
Definition carried_out (mvs : list move) (t : trace) (ok : bool) : Prop :=
  exists n oks, moves t = zip_with (fun m ok => Some (m, ok)) (take n mvs) oks /\
    length oks = length (take n mvs) /\ (ok = true -> n = length mvs /\ Forall (eq true) oks).

Lemma carried_out_start mvs t ok : readonly t -> (ok = true -> mvs = []) -> carried_out mvs t ok.
Proof. intros Ht Hok. exists 0, []. rewrite (moves_readonly _ Ht). split_and!; [done..|]. by intros ->%Hok. Qed.
Lemma carried_out_step m mvs t1 t2 ok ok' :
  moves t1 = [Some (m, ok)] -> (if ok then carried_out mvs t2 ok' else moves t2 = [] /\ ok' = false) ->
  carried_out (m :: mvs) (t1 ++ t2) ok'.
Proof.
  intros Hm H. unfold carried_out. rewrite moves_app, Hm. destruct ok.
  - destruct H as (n & oks & -> & Hlen & Hok). exists (S n), (true :: oks). split; [done|].
    split; [cbn; by f_equal|]. intros [-> ?]%Hok. split; [done|]. by constructor.
  - destruct H as [-> ->]. exists 1, [false]. by split_and!.
Qed.
Lemma carried_out_app l1 l2 t1 t2 ok1 ok2 :
  carried_out l1 t1 ok1 -> (if ok1 then carried_out l2 t2 ok2 else moves t2 = [] /\ ok2 = false) ->
  carried_out (l1 ++ l2) (t1 ++ t2) ok2.
Proof.
  intros (n & oks & Hm1 & Hlen1 & Hok1) H2. unfold carried_out. rewrite moves_app, Hm1. destruct ok1.
  - destruct (Hok1 eq_refl) as [-> Hall]. destruct H2 as (n & oks2 & -> & Hlen2 & Hok2).
    rewrite firstn_all in *. exists (length l1 + n), (oks ++ oks2).
    rewrite take_app_add. split; [by rewrite zip_with_app|]. rewrite !length_app. split; [lia|].
    intros [-> ?]%Hok2. split; [done|]. by apply Forall_app.
  - destruct H2 as [-> ->]. exists (min n (length l1)), oks. rewrite app_nil_r.
    assert (take (min n (length l1)) (l1 ++ l2) = take n l1) as ->.
    { rewrite take_app_le by lia. destruct (decide (n <= length l1)%nat);
        [by rewrite Nat.min_l|rewrite Nat.min_r, !take_ge by lia; done]. }
    done.
Qed.

(** The loop over the volumes to change. *)
Lemma change_members_runs (change : Volume -> ibox (option error)) (mv : Z -> move) doing cg vs t o :
  (forall v x, changes (change v) = true /\
     move_of (Ibox (change v)) x = Some (mv (Volume_ID v), bool_decide (x = None))) ->
  runs (change_members change doing cg vs) t o -> honest t ->
  exists r, o = Done r /\ carried_out (map mv vs) t (is_ok r).
Proof.
  intros Hc. revert t. induction vs as [|v vs IH]; intros t.
  { intros [-> ->] _. exists (Ok tt). split; [done|]. by apply carried_out_start; [apply readonly_nil|]. }
  intros Ht Hh. destruct (runs_call_inv _ _ _ _ Ht) as ([vol|e] & t1 & -> & H1).
  2: { cbn in H1. destruct H1 as [-> ->]. eexists. split; [done|]. apply carried_out_start; [solve_readonly|done]. }
  destruct (runs_call_inv _ _ _ _ H1) as (err & t2 & -> & H2).
  unfold honest in Hh. rewrite !Forall_cons in Hh. destruct Hh as (Hv & _ & Hh). cbn in Hv.
  destruct (Hc vol err) as [Hch Hmv].
  assert (Hm : moves [Evt (Ibox (GetVolume v)) (Ok vol); Evt (Ibox (change vol)) err] =
               [Some (mv v, bool_decide (err = None))]).
  { unfold moves. rewrite !changed_cons. cbn [mutates changes]. rewrite Hch. cbn [map]. by rewrite Hmv, Hv. }
  destruct err as [err|].
  - cbn in H2. destruct H2 as [-> ->]. eexists. split; [done|]. by apply (carried_out_step _ _ [_; _] [] _ _ Hm).
  - destruct (IH _ H2 Hh) as (r & -> & Hr). exists r. split; [done|]. by apply (carried_out_step _ _ [_; _] _ _ _ Hm).
Qed.
Lemma remove_all_runs cg members t o :
  runs (remove_all cg members) t o ->
  exists r, o = Done r /\
    carried_out (map (fun m => Leaves (ConsistencyGroupInfo_ID cg) (MemberInfo_ID m)) members) t (is_ok r).
Proof.
  revert t. induction members as [|m members IH]; intros t.
  { intros [-> ->]. exists (Ok tt). split; [done|]. by apply carried_out_start; [apply readonly_nil|]. }
  intros Ht. destruct (runs_call_inv _ _ _ _ Ht) as (err & t1 & -> & H1). destruct err as [err|].
  - cbn in H1. destruct H1 as [-> ->]. eexists. split; [done|]. by apply (carried_out_step _ _ [_] [] false).
  - destruct (IH _ H1) as (r & -> & Hr). exists r. split; [done|]. by apply (carried_out_step _ _ [_] _ true).
Qed.

(** ** The members asked for *)

(** What has to be done to make a group of the members [ids] one of [wanted];
    properties take the moves up to their order. *)
Definition planned (cgID : Z) (ids wanted : list Z) : list move :=
  map (Joins cgID) (filter (.∉ ids) wanted) ++ map (Leaves cgID) (filter (.∉ wanted) ids).
Definition regroup (s : gset Z) (m : move) : gset Z :=
  match m with Joins _ v => s ∪ {[v]} | Leaves _ v => s ∖ {[v]} end.

Lemma regroup_joins cgID l s : foldl regroup s (map (Joins cgID) l) = s ∪ list_to_set l.
Proof. revert s. induction l as [|v l IH]; intros s; cbn; [set_solver|]. rewrite IH. set_solver. Qed.
Lemma regroup_leaves cgID l s : foldl regroup s (map (Leaves cgID) l) = s ∖ list_to_set l.
Proof. revert s. induction l as [|v l IH]; intros s; cbn; [set_solver|]. rewrite IH. set_solver. Qed.
Lemma planned_regroup cgID ids wanted :
  foldl regroup (list_to_set ids) (planned cgID ids wanted) = (list_to_set wanted : gset Z).
Proof.
  unfold planned. rewrite foldl_app, regroup_joins, regroup_leaves. apply set_eq. intros v.
  rewrite elem_of_difference, elem_of_union, !elem_of_list_to_set, !list_elem_of_filter.
  destruct (decide (v ∈ ids)), (decide (v ∈ wanted)); naive_solver.
Qed.

Lemma is_member_spec members v : is_member members (Itoa v) = bool_decide (v ∈ map MemberInfo_ID members).
Proof.
  unfold is_member. apply eq_true_iff_eq. rewrite bool_decide_eq_true, existsb_exists, list_elem_of_fmap.
  split.
  - intros (m & Hm & He%String.eqb_eq%Itoa_inj). exists m. by rewrite list_elem_of_In.
  - intros (m & -> & Hm). exists m. rewrite <- list_elem_of_In. split; [done|]. apply String.eqb_refl.
Qed.
Lemma volumes_to_add_spec members wanted l :
  volumes_to_add members (map Itoa wanted) = Ok l -> l = filter (.∉ map MemberInfo_ID members) wanted.
Proof.
  revert l. induction wanted as [|v wanted IH]; intros l; [cbn; congruence|].
  cbn [volumes_to_add map]. rewrite is_member_spec, filter_cons. case_bool_decide as Hv; case_decide; try done; [apply IH|].
  destruct (Atoi (Itoa v)) eqn:Ha; [|done]. apply Atoi_Itoa_inv in Ha as ->.
  destruct (volumes_to_add members (map Itoa wanted)) as [l'|]; [|done]. intros [= <-]. f_equal. by apply IH.
Qed.
Lemma volumes_to_remove_spec members wanted :
  volumes_to_remove members (map Itoa wanted) = filter (.∉ wanted) (map MemberInfo_ID members).
Proof.
  unfold volumes_to_remove. induction members as [|m members IH]; [done|]. cbn [List.filter map]. rewrite filter_cons.
  assert (existsb (String.eqb (Itoa (MemberInfo_ID m))) (map Itoa wanted) = bool_decide (MemberInfo_ID m ∈ wanted)) as ->.
  { apply eq_true_iff_eq. rewrite bool_decide_eq_true, existsb_exists. split.
    - intros (w & Hw & He%String.eqb_eq). apply list_elem_of_In, list_elem_of_fmap in Hw as (z & -> & Hz).
      by apply Itoa_inj in He as ->.
    - intros Hin. exists (Itoa (MemberInfo_ID m)). rewrite <- list_elem_of_In, String.eqb_refl.
      split; [|done]. by apply list_elem_of_fmap_2. }
  case_bool_decide; case_decide; try done; cbn [negb map]; by rewrite IH.
Qed.

(** ** Changing the membership *)

Section handlers.
Context (url_Parse : string -> res (string * string)) (url_ParseRequestURI : string -> bool).

Lemma volume_group_service_quiet name secrets :
  quiet (volume_group_service url_Parse url_ParseRequestURI name secrets).
Proof. unfold volume_group_service, common_service. every_tac. Qed.
Lemma volume_group_service_fuelled name secrets :
  fuelled (volume_group_service url_Parse url_ParseRequestURI name secrets).
Proof. unfold volume_group_service, common_service. ends_tac. Qed.
#[local] Hint Resolve volume_group_service_quiet volume_group_service_fuelled : csi.

Lemma volume_group_id_ok pre id cgID : volume_group_id pre id = Ok cgID -> Atoi id = Ok cgID.
Proof. unfold volume_group_id. destruct (Atoi id); cbn; congruence. Qed.
Lemma remove_all_answer cg members (v : VolumeGroup) t o :
  runs (try _ <- remove_all cg members catch err => Ret (Err err) ;; Ret (Ok v)) t o ->
  exists r, o = Done r /\ carried_out (planned (ConsistencyGroupInfo_ID cg) (map MemberInfo_ID members) []) t (is_ok r).
Proof.
  intros Ht.
  assert (planned (ConsistencyGroupInfo_ID cg) (map MemberInfo_ID members) [] =
          map (fun m => Leaves (ConsistencyGroupInfo_ID cg) (MemberInfo_ID m)) members) as ->.
  { unfold planned. rewrite filter_nil. cbn [map app]. transitivity (map (Leaves (ConsistencyGroupInfo_ID cg)) (map MemberInfo_ID members)).
    - f_equal. induction (map MemberInfo_ID members) as [|m l IH]; [done|]. by rewrite filter_cons_True, IH by set_solver.
    - apply map_map. }
  destruct (runs_bind_inv _ _ _ _ Ht) as [(r & t1 & t2 & -> & H1 & H2)|[[-> H]|[-> H]]];
    [|by apply remove_all_runs in H as (r & ? & _)..].
  apply remove_all_runs in H1 as (r' & [= <-] & Hr). exists (match r with Ok _ => Ok v | Err e => Err e end).
  destruct r as [[]|e]; destruct H2 as [-> ->]; by rewrite app_nil_r.
Qed.

(** Nothing changed and the request failed, or the members of the group were
    read, and the moves planned from them were made in some order, up to the
    first the array did not take; in that order they lead to the group wanted. *)
Definition membership_changed (req : VolumeGroupRequest) (ws : list Z) (t : trace) (o : outcome (res VolumeGroup)) : Prop :=
  (readonly t /\ match o with Done r => is_ok r = false | Panicked => True | Exhausted => False end) \/
  exists pre id cg members t' r order, let cgID := ConsistencyGroupInfo_ID cg in
    let ids := map MemberInfo_ID members in
    t = pre ++ [Evt (Ibox (GetConsistencyGroup id)) (Ok cg); Evt (Ibox (GetMembersByCGID cgID)) (members, None)] ++ t' /\
    Atoi (VGR_VolumeGroupId req) = Ok id /\ readonly pre /\
    o = Done r /\ Permutation order (planned cgID ids ws) /\ carried_out order t' (is_ok r) /\
    foldl regroup (list_to_set ids) order = list_to_set ws.

Lemma changes_made cg members ws t o id :
  honest t ->
  let cgID := ConsistencyGroupInfo_ID cg in
  let failed := status_of Unknown ("error getting CG members volumeGroupID: " +:+ id +:+ " error: ") in
  runs (try _ <- change_members (fun v => AddMemberToCG (Volume_ID v) cgID (Volume_Name v))
                   "error adding member to CG - volumeID: " cg (filter (.∉ map MemberInfo_ID members) ws)
          catch err => Ret (Err err) ;;
        try _ <- change_members (fun v => RemoveMemberFromCG cgID (Volume_ID v))
                   "error removing member from CG - volumeID: " cg (filter (.∉ ws) (map MemberInfo_ID members))
          catch err => Ret (Err err) ;;
        r <- iboxAPI (GetMembersByCGID cgID) ;;
        match snd r with
        | Some err => Ret (Err (failed err))
        | None => Ret (Ok {| VG_VolumeGroupId := id;
                             VG_Volumes := map (fun v => (Itoa (MemberInfo_ID v), MemberInfo_Size v)) (fst r) |})
        end) t o ->
  exists r, o = Done r /\ carried_out (planned cgID (map MemberInfo_ID members) ws) t (is_ok r).
Proof.
  intros Hh cgID failed Ht. subst failed. unfold planned.
  destruct (runs_bind_inv _ _ _ _ Ht) as [(r1 & t1 & t2 & -> & H1 & H2)|H].
  2: { destruct H as [[-> H]|[-> H]]; apply (change_members_runs _ (Joins cgID)) in H; try done; by destruct H as (r & ? & _). }
  apply honest_app in Hh as [Hh1 Hh2].
  apply (change_members_runs _ (Joins cgID)) in H1 as (r & [= <-] & Hc1); [|done|done].
  destruct r1 as [[]|e]; cbn [is_ok] in *.
  2: { destruct H2 as [-> ->]. eexists. split; [done|]. by eapply carried_out_app. }
  destruct (runs_bind_inv _ _ _ _ H2) as [(r2 & t3 & t4 & -> & H3 & H4)|H].
  2: { destruct H as [[-> H]|[-> H]]; apply (change_members_runs _ (Leaves cgID)) in H; try done; by destruct H as (r & ? & _). }
  apply honest_app in Hh2 as [Hh3 _].
  apply (change_members_runs _ (Leaves cgID)) in H3 as (r & [= <-] & Hc2); [|done|done].
  assert (exists r, o = Done r /\ readonly t4 /\ (is_ok r2 = false -> is_ok r = false)) as (r & -> & Hr & Hok).
  { destruct r2 as [[]|e].
    - destruct (runs_call_inv _ _ _ _ H4) as ([ms [err|]] & t5 & -> & [-> ->]); eexists; (split; [done|split; [solve_readonly|done]]).
    - destruct H4 as [-> ->]. eexists. by split_and!; [|apply readonly_nil|]. }
  exists r. split; [done|]. eapply carried_out_app; [exact Hc1|]. cbn [is_ok].
  rewrite <- (app_nil_r (map (Leaves cgID) _)). eapply carried_out_app; [exact Hc2|].
  destruct (is_ok r2) eqn:E; [by apply carried_out_start|]. by rewrite moves_readonly, Hok.
Qed.
(** C27: Changing the membership of a volume group makes the group what was asked
    for. A run either changes nothing and fails, or reads the members of the
    group and then asks for the planned moves, each at most once, in some order:
    the requested volumes that are no members join, the members that are not
    requested leave, and no other volume moves. It stops at the first move that
    is refused; it succeeds only when all were made and accepted, and these moves
    turn the members read into exactly the volumes requested. *)
Theorem ModifyVolumeGroupMembership_spec req ws t o :
  VGR_VolumeIds req = map Itoa ws -> honest t ->
  runs (ModifyVolumeGroupMembership url_Parse url_ParseRequestURI req) t o ->
  membership_changed req ws t o.
Proof.
  intros Hws Hh Ht. revert t o Ht Hh. apply (leads_start (fun t o => honest t -> membership_changed req ws t o)).
  unfold ModifyVolumeGroupMembership. rewrite Hws. pose proof calm_nil. repeat lead_step.
  all: try (apply leads_ret; intros _; left; split; [by match goal with H : calm ?t |- readonly ?t => apply H end|done]).
  all: try (intros _; left; split; [by match goal with H : calm ?t |- readonly ?t => apply H end|done]).
  all: intros t' o Ht; rewrite !honest_app; intros [_ Hh]; right.
  all: match goal with H : during _ _ ([] ++ ?pre) |- context [GetConsistencyGroup ?id] =>
         match goal with _ : ?x = Ok ?cg, _ : ?y.2 = None |- _ =>
           exists pre, id, cg, y.1, t'; destruct y as [members e]; cbn [fst snd] in * end end; subst.
  - assert (Hr : exists r, o = Done r /\ carried_out (planned (ConsistencyGroupInfo_ID a1) (map MemberInfo_ID members) ws) t' (is_ok r)).
    { destruct ws; [|done]. by eapply remove_all_answer. }
    destruct Hr as (r & -> & Hr). exists r, (planned (ConsistencyGroupInfo_ID a1) (map MemberInfo_ID members) ws). cbv zeta. rewrite <- !app_assoc.
    split_and!; [done|by apply volume_group_id_ok in Hcase0|by apply H1|done..|apply planned_regroup].
  - apply volumes_to_add_spec in Hcase4 as ->. rewrite volumes_to_remove_spec in Ht.
    destruct (changes_made _ _ _ _ _ _ Hh Ht) as (r & -> & Hr). exists r, (planned (ConsistencyGroupInfo_ID a1) (map MemberInfo_ID members) ws). cbv zeta. rewrite <- !app_assoc.
    split_and!; [done|by apply volume_group_id_ok in Hcase0|by apply H1|done..|apply planned_regroup].
Qed.
End handlers.

(** ** Group snapshots *)

(** The volumes of a request: numbers in front of their protocol. *)
Definition names_volume (id : string) (volumeID : Z) : Prop :=
  exists volume proto, Split id "$$" = [volume; proto] /\ Atoi volume = Ok volumeID.

Lemma group_volumes_ok sources pool ids t pool' ids' :
  runs (group_volumes sources pool ids) t (Done (Ok (pool', ids'))) ->
  readonly t /\ exists more, ids' = ids ++ more /\ Forall2 names_volume sources more.
Proof.
  revert pool ids t. induction sources as [|id sources IH]; intros pool ids t Ht.
  { destruct Ht as [-> [= <- <-]]. split; [apply readonly_nil|]. exists []. by rewrite app_nil_r. }
  cbn [group_volumes] in Ht. destruct (Split id "$$") as [|volume [|proto [|]]] eqn:Hs; try by destruct Ht.
  destruct (Atoi volume) as [volumeID|] eqn:Ha; [|by destruct Ht].
  apply runs_try_call_ok in Ht as (v & t' & -> & Ht). destruct (IH _ _ _ Ht) as (Hr & more & -> & Hm).
  split; [by apply readonly_cons|]. exists (volumeID :: more). rewrite <- app_assoc. split; [done|].
  constructor; [by exists volume, proto|done].
Qed.
Lemma add_members_ok ids cgID t :
  runs (add_members ids cgID) t (Done (Ok tt)) ->
  changed t = map (fun v => Evt (Ibox (AddMemberToSnapshotGroup v cgID)) None) ids.
Proof.
  revert t. induction ids as [|v ids IH]; intros t Ht; [by destruct Ht as [-> _]|].
  destruct Ht as ([err|] & t' & -> & Ht); [by destruct Ht|]. cbn [map]. by rewrite <- (IH _ Ht).
Qed.

(** The group that is snapshotted: the one of the class's name, or a new one of
    exactly the volumes of the request. *)
Definition grouped (req : CreateVolumeGroupSnapshotRequest) (cg : ConsistencyGroupInfo) (t : trace) : Prop :=
  let cgName := (CVGS_Parameters req).["infinidat.com/cgname"] in
  (Evt (Ibox (GetConsistencyGroupByName cgName)) (Ok cg) ∈ t /\ changed t = []) \/
  exists err pool ids, Evt (Ibox (GetConsistencyGroupByName cgName)) (Err err) ∈ t /\ is_ErrNotFound err = true /\
    Forall2 names_volume (CVGS_SourceVolumeIds req) ids /\
    changed t = Evt (Ibox (CreateConsistencyGroup (MkCreateConsistencyGroupRequest cgName pool))) (Ok cg) ::
                map (fun v => Evt (Ibox (AddMemberToSnapshotGroup v (ConsistencyGroupInfo_ID cg))) None) ids.

Lemma createCG_ok cgName req t cg :
  runs (createCG cgName req) t (Done (Ok cg)) ->
  exists pool ids, Forall2 names_volume (CVGS_SourceVolumeIds req) ids /\
    changed t = Evt (Ibox (CreateConsistencyGroup (MkCreateConsistencyGroupRequest cgName pool))) (Ok cg) ::
                map (fun v => Evt (Ibox (AddMemberToSnapshotGroup v (ConsistencyGroupInfo_ID cg))) None) ids.
Proof.
  intros Ht. apply runs_try_ok in Ht as ([pool ids] & t1 & t2 & -> & H1 & Ht).
  apply group_volumes_ok in H1 as (Hr & more & -> & Hm). cbn [fst snd app] in Ht.
  apply runs_try_call_ok in Ht as (cg' & t' & -> & Ht).
  apply runs_try_ok in Ht as ([] & t3 & t4 & -> & H3 & [-> [= ->]]). apply add_members_ok in H3.
  exists pool, more. split; [done|]. by rewrite changed_app, (changed_readonly _ Hr), changed_cons, app_nil_r, H3.
Qed.

(** What is answered for a member of the snapshot group: its number over the
    protocol of a volume of the request whose identifier contains the family's. *)
Definition snapshot_of (req : CreateVolumeGroupSnapshotRequest) (sg : ConsistencyGroupInfo) (creationTime : Z) (t : trace)
    (member : MemberInfo) (s : MemberSnapshot) : Prop :=
  exists source volume id proto, source ∈ CVGS_SourceVolumeIds req /\
    Contains source (Itoa (MemberInfo_FamilyID member)) = true /\ Split source "$$" = [id; proto] /\
    Evt (Ibox (GetVolume (MemberInfo_ID member))) (Ok volume) ∈ t /\
    s = {| Member_Snapshot := {| CSISnapshot_SizeBytes := MemberInfo_Size member;
                                 CSISnapshot_SnapshotId := Itoa (Volume_ID volume) +:+ "$$" +:+ proto;
                                 CSISnapshot_SourceVolumeId := source;
                                 CSISnapshot_CreationTime := creationTime;
                                 CSISnapshot_ReadyToUse := true |};
           Member_GroupSnapshotId := ConsistencyGroupInfo_Name sg |}.

Lemma containing_in ids n : containing ids n = "" \/ (containing ids n ∈ ids /\ Contains (containing ids n) (Itoa n) = true).
Proof.
  unfold containing. destruct (last _) as [id|] eqn:Hl; [right|by left].
  apply last_Some_elem_of, list_elem_of_In, List.filter_In in Hl. by rewrite list_elem_of_In.
Qed.
Lemma member_snapshots_ok code req sg time members t snapshots :
  runs (member_snapshots code (CVGS_SourceVolumeIds req) MemberInfo_FamilyID (ConsistencyGroupInfo_Name sg) time members)
    t (Done (Ok snapshots)) ->
  readonly t /\ Forall2 (snapshot_of req sg time t) members snapshots.
Proof.
  revert t snapshots. induction members as [|m members IH]; intros t snapshots Ht.
  { destruct Ht as [-> [= ->]]. by split; [apply readonly_nil|]. }
  apply runs_try_call_ok in Ht as (volume & t' & -> & Ht).
  destruct (Split (containing _ _) "$$") as [|id [|proto [|]]] eqn:Hs; try by destruct Ht.
  apply runs_try_ok in Ht as (rest & t1 & t2 & -> & H1 & [-> [= ->]]). apply IH in H1 as [Hr Hrest].
  rewrite app_nil_r. split; [by apply readonly_cons|]. constructor.
  - destruct (containing_in (CVGS_SourceVolumeIds req) (MemberInfo_FamilyID m)) as [He|[Hin Hc]]; [by rewrite He in Hs|].
    eexists _, volume, id, proto. split_and!; [exact Hin|done|done|by left|done].
  - eapply Forall2_impl; [exact Hrest|]. intros ? ? (s & v & i & p & ? & ? & ? & ? & ?).
    exists s, v, i, p. split_and!; [done..|by right|done].
Qed.

Section snapshots.
Context (url_Parse : string -> res (string * string)) (url_ParseRequestURI : string -> bool).

Lemma group_client_quiet secrets : quiet (group_client url_Parse url_ParseRequestURI secrets).
Proof. unfold group_client, common_service, NewClient, getAPIConfig. every_tac. Qed.
#[local] Hint Resolve group_client_quiet : csi.

(** C28: A group snapshot that was answered was taken once, under the name of the
    request, which no group had, of the group of the class's name, or of a new one
    made of exactly the volumes of the request. Nothing else is changed, and the
    answer has one snapshot for each member the array lists, over the protocol of
    a volume of the request whose identifier contains the member's family. *)
Theorem CreateVolumeGroupSnapshot_spec req t vgs :
  runs (CreateVolumeGroupSnapshot url_Parse url_ParseRequestURI req) t (Done (Ok vgs)) ->
  let name := (CVGS_Parameters req).["csi.storage.k8s.io/volumegroupsnapshot/name"] in
  exists t1 t2 cg sg err members,
    t = t1 ++ [Evt (Ibox (GetConsistencyGroupByName name)) (Err err);
               Evt (Ibox (CreateSnapshotGroup (MkCreateSnapshotGroupRequest (ConsistencyGroupInfo_ID cg) name name ""))) (Ok sg)]
        ++ t2 /\
    is_ErrNotFound err = true /\ grouped req cg t1 /\ readonly t2 /\
    Evt (Ibox (GetMembersByCGID (ConsistencyGroupInfo_ID sg))) (members, None) ∈ t2 /\
    VGS_GroupSnapshotId vgs = Itoa (ConsistencyGroupInfo_ID sg) /\
    Forall2 (snapshot_of req sg (VGS_CreationTime vgs) t2) members (VGS_Snapshots vgs).
Proof.
  intros Ht name. unfold CreateVolumeGroupSnapshot in Ht. fold name in Ht.
  apply runs_try_ok in Ht as (u & ta & t' & -> & Ha & Ht). apply (quiet_runs _ _ _ (group_client_quiet _)) in Ha as [Ha _].
  apply runs_call_inv in Ht as (r & t'' & -> & Ht).
  apply runs_try_ok in Ht as (cg & tb & tc & -> & Hb & Ht).
  assert (Hg : grouped req cg (ta ++ Evt (Ibox (GetConsistencyGroupByName (CVGS_Parameters req).["infinidat.com/cgname"])) r :: tb)).
  { unfold grouped. rewrite !changed_app, (changed_readonly _ Ha), changed_cons. cbn [mutates changes app].
    destruct r as [cg'|err].
    - destruct Hb as [-> [= ->]]. left. split; [|done]. apply elem_of_app. right. by left.
    - destruct (is_ErrNotFound err) eqn:He; [|by destruct Hb].
      apply runs_bind_inv in Hb as [([cg'|e] & t1 & t2 & -> & H1 & [-> [= ->]])|[[? _]|[? _]]]; try done.
      apply createCG_ok in H1 as (pool & ids & Hids & Hc). right. exists err, pool, ids.
      rewrite app_nil_r. split_and!; [apply elem_of_app; right; by left|done..]. }
  apply runs_call_inv in Ht as (r' & t3 & -> & Ht). destruct r' as [|err]; [by destruct Ht|].
  destruct (is_ErrNotFound err) eqn:He; [|by destruct Ht]. cbn [negb] in Ht.
  apply runs_try_call_ok in Ht as (sg & t4 & -> & Ht).
  destruct Ht as (now & t5 & -> & [members [e|]] & t6 & -> & Ht); [by destruct Ht|]. cbn [snd fst] in Ht.
  apply runs_try_ok in Ht as (snapshots & t7 & t8 & -> & H7 & [-> [= ->]]). apply member_snapshots_ok in H7 as [Hr7 H7].
  exists (ta ++ Evt (Ibox (GetConsistencyGroupByName (CVGS_Parameters req).["infinidat.com/cgname"])) r :: tb),
    (Evt (Os Now) now :: Evt (Ibox (GetMembersByCGID (ConsistencyGroupInfo_ID sg))) (members, None) :: t7),
    cg, sg, err, members.
  split; [by rewrite <- !app_assoc, app_nil_r|]. split_and!; [done|done|by repeat (apply readonly_cons; split)|by right; left|done|].
  eapply Forall2_impl; [exact H7|]. intros ? ? (s & v & i & p & ? & ? & ? & ? & ?).
  exists s, v, i, p. split_and!; [done..|by do 2 right|done].
Qed.
End snapshots.

(** ** Examples *)

#[local] Transparent gmap_empty.

Lemma ModifyVolumeGroupMembership_spec_witness :
  let secrets : gmap string string :=
    {[ CredentialHostname := "ibox1"; CredentialUsername := "u"; CredentialPassword := "p" ]} in
  let req := MkVolumeGroupRequest "9" ["2"] secrets in
  let vol id := Volume_of id "pvc" 1073741824 0 1 "pool" "UNLOCKED" false in
  let t := [Evt (Ibox (GetConsistencyGroup 9)) (Ok (ConsistencyGroupInfo_of 9 "cg"));
            Evt (Ibox (GetMembersByCGID 9)) ([MemberInfo_of 1 1 "a" 1073741824], None);
            Evt (Ibox (GetVolume 2)) (Ok (vol 2%Z)); Evt (Ibox (AddMemberToCG 2 9 "pvc")) None;
            Evt (Ibox (GetVolume 1)) (Ok (vol 1%Z)); Evt (Ibox (RemoveMemberFromCG 9 1)) None;
            Evt (Ibox (GetMembersByCGID 9)) ([MemberInfo_of 2 2 "pvc" 1073741824], None)] in
  let o := Done (Ok (MkVolumeGroup "9" [("2", 1073741824%Z)])) in
  let parse s := Ok ("", s) in
  runs (ModifyVolumeGroupMembership parse (fun _ => true) req) t o /\
  membership_changed req [2%Z] t o.
Proof.
  intros secrets req vol t o parse.
  assert (Hr : runs (ModifyVolumeGroupMembership parse (fun _ => true) req) t o)
    by (subst secrets req vol t o parse; unfold volume_group_service, common_service; rerun).
  split; [exact Hr|].
  apply (ModifyVolumeGroupMembership_spec parse (fun _ => true) req [2%Z] t o); [reflexivity| |exact Hr].
  repeat constructor.
Defined.

Lemma CreateVolumeGroupSnapshot_spec_witness :
  let secrets : gmap string string :=
    {[ CredentialHostname := "ibox1"; CredentialUsername := "u"; CredentialPassword := "p" ]} in
  let params : gmap string string :=
    {[ "infinidat.com/cgname" := "cg"; "csi.storage.k8s.io/volumegroupsnapshot/name" := "snap" ]} in
  let req := MkCreateVolumeGroupSnapshotRequest ["1$$fc"] secrets params in
  let vol id := Volume_of id "pvc" 1073741824 0 3 "pool" "UNLOCKED" false in
  let t := [Evt (Ibox (GetConsistencyGroupByName "cg")) (Err ErrNotFound); Evt (Ibox (GetVolume 1)) (Ok (vol 1%Z));
            Evt (Ibox (CreateConsistencyGroup (MkCreateConsistencyGroupRequest "cg" 3))) (Ok (ConsistencyGroupInfo_of 9 "cg"));
            Evt (Ibox (AddMemberToSnapshotGroup 1 9)) None;
            Evt (Ibox (GetConsistencyGroupByName "snap")) (Err ErrNotFound);
            Evt (Ibox (CreateSnapshotGroup (MkCreateSnapshotGroupRequest 9 "snap" "snap" ""))) (Ok (ConsistencyGroupInfo_of 12 "snap"));
            Evt (Os Now) 1700000000%Z; Evt (Ibox (GetMembersByCGID 12)) ([MemberInfo_of 5 1 "a" 1073741824], None);
            Evt (Ibox (GetVolume 5)) (Ok (vol 5%Z))] in
  let parse s := Ok ("", s) in
  exists vgs, runs (CreateVolumeGroupSnapshot parse (fun _ => true) req) t (Done (Ok vgs)) /\
    VGS_GroupSnapshotId vgs = "12" /\ exists sg members t2, Forall2 (snapshot_of req sg (VGS_CreationTime vgs) t2) members (VGS_Snapshots vgs).
Proof.
  intros secrets params req vol t parse.
  assert (H : exists vgs, runs (CreateVolumeGroupSnapshot parse (fun _ => true) req) t (Done (Ok vgs)) /\ VGS_GroupSnapshotId vgs = "12").
  { eexists. split; [subst secrets params req vol t parse; unfold group_client, common_service, NewClient, getAPIConfig; rerun|].
    reflexivity. }
  destruct H as (vgs & Hr & Hid). exists vgs. split; [exact Hr|]. split; [exact Hid|].
  destruct (CreateVolumeGroupSnapshot_spec parse (fun _ => true) req t vgs Hr)
    as (t1 & t2 & cg & sg & err & members & _ & _ & _ & _ & _ & _ & H). by exists sg, members, t2.
Defined.
