(* ===== verification/Listing.v ===== *)
(** Listing: [service/listvolumes.go], [service/listsnapshots.go] and the two
    handlers of [service/controller.go] that call them. Every secret of the
    driver stands for an array of its own, so a call carries the secret of the
    array it is made of. *)
From stdpp Require Import base strings list gmap.
From S2P Require Import Prelude GoLib IboxTypes Traces Csi KubeClient StorageCommon VolumeGroup.
From Stdlib Require Import ZArith.

Local Open Scope string_scope.
Local Open Scope list_scope.

(** [UNKNOWN] of service/node.go, the parent of a snapshot that could not be
    read. *)
Definition UNKNOWN : string := "unknown".

Inductive lcall : Type -> Type :=
| Here {X} (c : call X) : lcall X
| At {X} (secret : gmap string string) (c : call X) : lcall X.

Definition here {A} (p : prog call A) : prog lcall A := interp (fun _ c => trigger (Here c)) p.
Definition at_array {A} (secret : gmap string string) (p : prog call A) : prog lcall A :=
  interp (fun _ c => trigger (At secret c)) p.

(** ** Volumes *)

Record CSIListVolumesRequest := MkCSIListVolumesRequest { List_MaxEntries : Z; List_StartingToken : string }.
(** A [csi.ListVolumesResponse_Entry]. *)
Record CSIVolumeEntry := MkCSIVolumeEntry {
  Entry_Volume : CSIVolume;
  Entry_PublishedNodeIds : list string
}.

Definition volume_context (csi : CSIPersistentVolumeSource) : gmap string string :=
  let attributes := PV_VolumeAttributes csi in
  <[StorageClassNetworkSpace := attributes.[StorageClassNetworkSpace]]>
  (<[StorageClassPoolName := attributes.[StorageClassPoolName]]>
  {[StorageClassStorageProtocol := attributes.[StorageClassStorageProtocol]]}).

Definition volume_entry (pv : PersistentVolume) (csi : CSIPersistentVolumeSource) : CSIVolumeEntry :=
  {| Entry_Volume := {| CSIVolume_VolumeId := PV_Name pv;
                        CSIVolume_CapacityBytes := i64 (PV_UnscaledCapacity pv);
                        CSIVolume_VolumeContext := volume_context csi;
                        CSIVolume_ContentSource := None |};
     Entry_PublishedNodeIds := [PV_Name pv] |}.

Fixpoint volume_entries (items : list PersistentVolume) : prog lcall (list CSIVolumeEntry) :=
  match items with
  | [] => Ret []
  | pv :: rest =>
      if String.eqb (provisioned_by pv) ServiceName then
        match PV_CSI pv with
        | None => Panic
        | Some csi => entries <- volume_entries rest ;; Ret (volume_entry pv csi :: entries)
        end
      else volume_entries rest
  end.

Definition ListVolumesImplementation : prog lcall (res (list CSIVolumeEntry)) :=
  try pvList <- here GetAllPersistentVolumes catch err =>
    Ret (Err (status_of Unavailable "GetAllPersistentVolumes - error: " err)) ;;
  entries <- volume_entries pvList ;;
  Ret (Ok entries).

(** Handler of controller.go; the number of entries asked for is not looked at. *)
Definition ListVolumes (req : CSIListVolumesRequest) : prog lcall (res (list CSIVolumeEntry)) :=
  let token := List_StartingToken req in
  if String.eqb token "" || String.eqb token "next-token" then
    client <- trigger (Here (Kube BuildClient)) ;;
    match client with
    | Some err => Ret (Err (status_of Unavailable "BuildClient - error: " err))
    | None =>
        try entries <- ListVolumesImplementation catch err =>
          Ret (Err (status_of Unavailable "ListVolumesImpl - error: " err)) ;;
        Ret (Ok entries)
    end
  else Ret (Err (EStatus Aborted ("error startingToken parameter was incorrect [" +:+ token +:+ "]"))).

(** ** Snapshots *)

Record CSIListSnapshotsRequest := MkCSIListSnapshotsRequest {
  LS_MaxEntries : Z;
  LS_StartingToken : string;
  LS_SourceVolumeId : string;
  LS_SnapshotId : string
}.

Definition set_SnapshotId (id : string) (s : CSISnapshot) : CSISnapshot :=
  MkCSISnapshot (CSISnapshot_SizeBytes s) id (CSISnapshot_SourceVolumeId s) (CSISnapshot_CreationTime s)
    (CSISnapshot_ReadyToUse s).
Definition set_SourceVolumeId (id : string) (s : CSISnapshot) : CSISnapshot :=
  MkCSISnapshot (CSISnapshot_SizeBytes s) (CSISnapshot_SnapshotId s) id (CSISnapshot_CreationTime s)
    (CSISnapshot_ReadyToUse s).

(** The entry of a snapshot before the filters; the creation time in seconds. *)
Definition snapshot_entry (snapshot : Volume) (parentName : string) : CSISnapshot :=
  {| CSISnapshot_SizeBytes := Volume_Size snapshot;
     CSISnapshot_SnapshotId := Volume_Name snapshot;
     CSISnapshot_SourceVolumeId := parentName;
     CSISnapshot_CreationTime := Z.quot (Volume_CreatedAt snapshot) 1000;
     CSISnapshot_ReadyToUse := true |}.

(** The number of the parent, where the array still has it. *)
Definition parent_name (secret : gmap string string) (snapshot : Volume) : prog lcall string :=
  let ParentID := Volume_ParentID snapshot in
  if String.eqb (Volume_DatasetType snapshot) "VOLUME" then
    parent <- trigger (At secret (Ibox (GetVolume ParentID))) ;;
    Ret (if is_ok parent then Itoa ParentID else UNKNOWN)
  else if String.eqb (Volume_DatasetType snapshot) "FILESYSTEM" then
    parent <- trigger (At secret (Ibox (GetFileSystemByID ParentID))) ;;
    Ret (if is_ok parent then Itoa ParentID else UNKNOWN)
  else Ret UNKNOWN.

(** The filters of the request: the entry as it is listed, if it is.
    [volumeID] is the number of the snapshot asked for. *)
Definition filtered (req : CSIListSnapshotsRequest) (volumeID : Z) (snapshot : Volume) (entry : CSISnapshot)
    : res (option CSISnapshot) :=
  let sourceVolumeId := LS_SourceVolumeId req in
  if negb (String.eqb sourceVolumeId "") then
    match ValidateVolumeID sourceVolumeId with
    | Err err => Err (EStatus InvalidArgument ("ValidateVolumeID - error validating sourceVolumeId "
                                               +:+ sourceVolumeId +:+ " " +:+ Error err))
    | Ok volumeInfo =>
        Ok (if String.eqb (Itoa (VolumeProtocolConfig_VolumeID volumeInfo)) (CSISnapshot_SourceVolumeId entry)
            then Some (set_SourceVolumeId sourceVolumeId entry) else None)
    end
  else if negb (String.eqb (LS_SnapshotId req) "") then
    Ok (if (volumeID =? Volume_ID snapshot)%Z then Some (set_SnapshotId (LS_SnapshotId req) entry) else None)
  else Ok (Some entry).

Fixpoint snapshot_entries (req : CSIListSnapshotsRequest) (volumeID : Z) (secret : gmap string string)
    (snapshots : list Volume) : prog lcall (res (list CSISnapshot)) :=
  match snapshots with
  | [] => Ret (Ok [])
  | snapshot :: rest =>
      parentName <- parent_name secret snapshot ;;
      match filtered req volumeID snapshot (snapshot_entry snapshot parentName) with
      | Err err => Ret (Err err)
      | Ok entry =>
          try entries <- snapshot_entries req volumeID secret rest catch err => Ret (Err err) ;;
          Ret (Ok (option_list entry ++ entries))
      end
  end.

(** The number in the snapshot id asked for. *)
Definition requested_snapshot (req : CSIListSnapshotsRequest) : res Z :=
  if String.eqb (LS_SnapshotId req) "" then Ok 0%Z
  else match ValidateVolumeID (LS_SnapshotId req) with
       | Err err => Err (status_of InvalidArgument "ValidateVolumeID - error: " err)
       | Ok volumeInfo => Ok (VolumeProtocolConfig_VolumeID volumeInfo)
       end.

Section handlers.
Context (url_Parse : string -> res (string * string)) (url_ParseRequestURI : string -> bool).

Fixpoint array_entries (req : CSIListSnapshotsRequest) (secrets : list (gmap string string))
    : prog lcall (res (list CSISnapshot)) :=
  match secrets with
  | [] => Ret (Ok [])
  | secret :: rest =>
      try _client <- at_array secret (NewClient url_Parse url_ParseRequestURI secret) catch err =>
        Ret (Err (status_of Unavailable "NewClient - error: " err)) ;;
      answer <- trigger (At secret (Ibox GetAllSnapshots)) ;;
      match answer with
      | (_, Some err) => Ret (Err (status_of Unavailable "GetAllSnapshots - error: " err))
      | (snapshots, None) =>
          match requested_snapshot req with
          | Err err => Ret (Err err)
          | Ok volumeID =>
              try entries <- snapshot_entries req volumeID secret snapshots catch err => Ret (Err err) ;;
              try others <- array_entries req rest catch err => Ret (Err err) ;;
              Ret (Ok (entries ++ others))
          end
      end
  end.

Definition ListSnapshotsImplementation (req : CSIListSnapshotsRequest) (namespace : string)
    : prog lcall (res (list CSISnapshot)) :=
  try secrets <- here (GetSecrets namespace) catch err =>
    Ret (Err (status_of Unavailable "GetSecrets - error: " err)) ;;
  array_entries req secrets.

(** Handler of controller.go. *)
Definition ListSnapshots (req : CSIListSnapshotsRequest) : prog lcall (res (list CSISnapshot)) :=
  client <- trigger (Here (Kube BuildClient)) ;;
  match client with
  | Some err => Ret (Err (status_of Unavailable "BuildClient - error: " err))
  | None =>
      namespace <- trigger (Here (Os (Getenv EnvVarPodNamespace))) ;;
      if String.eqb namespace "" then
        Ret (Err (EStatus Unavailable "env var POD_NAMESPACE was not set, this is a required env var"))
      else
        try entries <- ListSnapshotsImplementation req namespace catch err =>
          Ret (Err (status_of Unavailable "ListSnapshotsImpl - error: " err)) ;;
        Ret (Ok entries)
  end.
End handlers.
