(* ===== verification/ListingProofs.v ===== *)
(** What a listing answers: against arrays and a cluster that do not change
    while it runs, the outcome of [ListSnapshots] and [ListVolumes] is computed
    by a comprehension over their objects. *)
From stdpp Require Import base strings list gmap.
From S2P Require Import Prelude GoLib IboxTypes Traces Csi KubeClient StorageCommon VolumeGroup Listing.
From Stdlib Require Import ZArith Lia.

Local Open Scope string_scope.
Local Open Scope list_scope.

(** The arrays, by secret, and the cluster. *)
Record world := {
  w_secrets : list Secret;
  w_volumes : list PersistentVolume;
  w_snapshots : gmap string string -> list Volume;
  w_has_volume : gmap string string -> Z -> bool;
  w_has_filesystem : gmap string string -> Z -> bool
}.

(** An answer is the one the world gives; every call is served. *)
Definition array_agrees (w : world) (secret : gmap string string) {X} (c : ibox X) : X -> Prop :=
  match c in ibox X return X -> Prop with
  | GetAllSnapshots => fun a => a = (w_snapshots w secret, None)
  | GetVolume id => fun a => is_ok a = w_has_volume w secret id
  | GetFileSystemByID id => fun a => is_ok a = w_has_filesystem w secret id
  | _ => fun _ => True
  end.
Definition cluster_agrees (w : world) {X} (c : kube X) : X -> Prop :=
  match c in kube X return X -> Prop with
  | BuildClient => fun a => a = None
  | SecretsList _ _ => fun a => a = Ok (w_secrets w)
  | PersistentVolumesList => fun a => a = Ok (w_volumes w)
  | _ => fun _ => True
  end.
Definition os_agrees {X} (c : os X) : X -> Prop :=
  match c in os X return X -> Prop with Getenv key => fun a => a <> "" | _ => fun _ => True end.
Definition call_agrees (w : world) (secret : option (gmap string string)) {X} (c : call X) : X -> Prop :=
  match c in call X return X -> Prop with
  | Ibox i => fun a => match secret with Some secret => array_agrees w secret i a | None => True end
  | Kube k => fun a => cluster_agrees w k a
  | Os o => fun a => os_agrees o a
  end.
Definition agrees (w : world) (e : evt lcall) : Prop :=
  match e with
  | Evt c x =>
      match c in lcall X return X -> Prop with
      | Here c => call_agrees w None c
      | At secret c => call_agrees w (Some secret) c
      end x
  end.

(** ** The reference *)

(** The parent of a snapshot, where it is still on the array. *)
Definition parent (w : world) (secret : gmap string string) (snapshot : Volume) : option Z :=
  let id := Volume_ParentID snapshot in
  if String.eqb (Volume_DatasetType snapshot) "VOLUME" && w_has_volume w secret id
     || String.eqb (Volume_DatasetType snapshot) "FILESYSTEM" && w_has_filesystem w secret id
  then Some id else None.

(** What of the snapshots is asked for. *)
Inductive filter :=
| Everything
| OfSource (id : string) (source : Z)
| Single (id : string) (number : Z).
(** The filter of a request: that of the source goes before that of the snapshot,
    but both identifiers are read. *)
Definition request_filter (req : CSIListSnapshotsRequest) : res filter :=
  match requested_snapshot req with
  | Err err => Err err
  | Ok number =>
      if String.eqb (LS_SourceVolumeId req) "" then
        Ok (if String.eqb (LS_SnapshotId req) "" then Everything else Single (LS_SnapshotId req) number)
      else match ValidateVolumeID (LS_SourceVolumeId req) with
           | Err err => Err (EStatus InvalidArgument ("ValidateVolumeID - error validating sourceVolumeId "
                                                      +:+ LS_SourceVolumeId req +:+ " " +:+ Error err))
           | Ok info => Ok (OfSource (LS_SourceVolumeId req) (VolumeProtocolConfig_VolumeID info))
           end
  end.

Definition keeps (w : world) (f : filter) (secret : gmap string string) (snapshot : Volume) : bool :=
  match f with
  | Everything => true
  | OfSource _ source => bool_decide (parent w secret snapshot = Some source)
  | Single _ number => bool_decide (Volume_ID snapshot = number)
  end.
(** A snapshot looked for is named as it was asked for. *)
Definition entry_of (w : world) (f : filter) (secret : gmap string string) (snapshot : Volume) : CSISnapshot :=
  {| CSISnapshot_SizeBytes := Volume_Size snapshot;
     CSISnapshot_SnapshotId := match f with Single id _ => id | _ => Volume_Name snapshot end;
     CSISnapshot_SourceVolumeId := match f with
                                   | OfSource id _ => id
                                   | _ => from_option Itoa UNKNOWN (parent w secret snapshot)
                                   end;
     CSISnapshot_CreationTime := Z.quot (Volume_CreatedAt snapshot) 1000;
     CSISnapshot_ReadyToUse := true |}.

Definition array_listing (w : world) (f : filter) (secret : gmap string string) : list CSISnapshot :=
  map (entry_of w f secret) (List.filter (keeps w f secret) (w_snapshots w secret)).
Definition listing (w : world) (f : filter) : list CSISnapshot :=
  mjoin (map (fun s => array_listing w f (secret_map s)) (w_secrets w)).

(** ** Runs against the world *)

Section world.
Context (w : world).

Lemma Itoa_known z : Itoa z <> UNKNOWN.
Proof. intros H. pose proof (Itoa_chars z) as Hc. rewrite H in Hc. discriminate Hc. Qed.

Lemma parent_name_runs secret snapshot t o :
  Forall (agrees w) t -> runs (parent_name secret snapshot) t o ->
  o = Done (from_option Itoa UNKNOWN (parent w secret snapshot)).
Proof.
  unfold parent_name, parent. intros Hw H.
  destruct (String.eqb (Volume_DatasetType snapshot) "VOLUME") eqn:Hv; cbn [andb].
  { apply String.eqb_eq in Hv. rewrite Hv. cbn.
    destruct H as (x & t' & -> & [-> ->]). inversion_clear Hw as [|?? Hx _]. cbn in Hx. rewrite Hx.
    rewrite orb_false_r. by destruct (w_has_volume w secret _). }
  destruct (String.eqb (Volume_DatasetType snapshot) "FILESYSTEM"); cbn [andb orb].
  { destruct H as (x & t' & -> & [-> ->]). inversion_clear Hw as [|?? Hx _]. cbn in Hx. rewrite Hx.
    by destruct (w_has_filesystem w secret _). }
  by destruct H as [_ ->].
Qed.

(** The filters are those of the reference. *)
Lemma filtered_spec req number secret snapshot :
  requested_snapshot req = Ok number ->
  filtered req number snapshot (snapshot_entry snapshot (from_option Itoa UNKNOWN (parent w secret snapshot))) =
  match request_filter req with
  | Err err => Err err
  | Ok f => Ok (if keeps w f secret snapshot then Some (entry_of w f secret snapshot) else None)
  end.
Proof.
  intros Hn. unfold filtered, request_filter. rewrite Hn.
  destruct (String.eqb (LS_SourceVolumeId req) "") eqn:Hs; cbn [negb].
  - destruct (String.eqb (LS_SnapshotId req) ""); cbn [negb keeps]; [done|].
    rewrite bool_decide_decide. destruct (decide (Volume_ID snapshot = number)) as [->|Hne].
    + by rewrite Z.eqb_refl.
    + by rewrite (proj2 (Z.eqb_neq _ _)).
  - destruct (ValidateVolumeID _) as [info|]; [|done]. cbn [keeps snapshot_entry CSISnapshot_SourceVolumeId].
    do 2 f_equal. rewrite bool_decide_decide.
    destruct (parent w secret snapshot) as [id|]; cbn.
    + destruct (decide (Some id = _)) as [[= ->]|Hne]; [by rewrite String.eqb_refl|].
      rewrite (proj2 (String.eqb_neq _ _)); [done|]. intros He%Itoa_inj. congruence.
    + rewrite (proj2 (String.eqb_neq _ _)); [done|apply Itoa_known].
Qed.

Lemma snapshot_entries_runs req number secret snapshots t o :
  requested_snapshot req = Ok number -> Forall (agrees w) t ->
  runs (snapshot_entries req number secret snapshots) t o ->
  o = Done (match request_filter req, snapshots with
            | Err err, _ :: _ => Err err
            | Err _, [] => Ok []
            | Ok f, _ => Ok (map (entry_of w f secret) (List.filter (keeps w f secret) snapshots))
            end).
Proof.
  intros Hn. revert t o. induction snapshots as [|snapshot rest IH]; intros t o Hw H.
  { destruct H as [_ ->]. by destruct (request_filter req). }
  cbn [snapshot_entries] in H.
  apply runs_bind_inv in H as [(name & t1 & t2 & -> & H1 & H2)|[[-> H1]|[-> H1]]];
    try apply Forall_app in Hw as [Hw1 Hw2].
  2,3: by apply parent_name_runs in H1.
  apply parent_name_runs in H1 as [= ->]; [|done].
  rewrite filtered_spec in H2 by done.
  destruct (request_filter req) as [f|err]; [|by destruct H2 as [_ ->]].
  apply runs_bind_inv in H2 as [(es & t3 & t4 & -> & H2 & H3)|[[-> H2]|[-> H2]]];
    try apply Forall_app in Hw2 as [Hw3 Hw4]; apply IH in H2; try done.
  simplify_eq. destruct H3 as [_ ->]. cbn [List.filter]. by destruct (keeps w f secret snapshot).
Qed.

Lemma at_array_ret {A} secret (p : prog call A) a : p = Ret a -> at_array secret p = Ret a.
Proof. by intros ->. Qed.
Lemma here_call_inv {X B} (c : call X) (f : X -> prog lcall B) t o :
  Forall (agrees w) t -> runs (bind (here (trigger c)) f) t o ->
  exists x t', agrees w (Evt (Here c) x) /\ Forall (agrees w) t' /\ runs (f x) t' o.
Proof. intros Hw (x & t' & -> & H). inversion_clear Hw. by exists x, t'. Qed.

Context (url_Parse : string -> res (string * string)) (url_ParseRequestURI : string -> bool).

(** Every secret leads to an array. *)
Definition usable_secrets : Prop :=
  Forall (fun s => NewClient url_Parse url_ParseRequestURI (secret_map s) = Ret (Ok tt)) (w_secrets w).

(** The error of a request without a filter, where it is noticed: the identifier
    of a snapshot at the first array, that of a source at the first snapshot. *)
Definition noticed (req : CSIListSnapshotsRequest) (secrets : list Secret) : bool :=
  match requested_snapshot req with
  | Err _ => true
  | Ok _ => existsb (fun s => negb (bool_decide (w_snapshots w (secret_map s) = []))) secrets
  end.

Lemma array_entries_runs req secrets t o :
  Forall (fun s => NewClient url_Parse url_ParseRequestURI (secret_map s) = Ret (Ok tt)) secrets ->
  Forall (agrees w) t -> runs (array_entries url_Parse url_ParseRequestURI req (map secret_map secrets)) t o ->
  o = Done (match request_filter req with
            | Ok f => Ok (mjoin (map (fun s => array_listing w f (secret_map s)) secrets))
            | Err err => if bool_decide (secrets <> []) && noticed req secrets then Err err else Ok []
            end).
Proof.
  intros Hs. revert t o. induction Hs as [|s secrets Hok Hs IH]; intros t o Hw H.
  { destruct H as [_ ->]. by destruct (request_filter req). }
  cbn [map array_entries] in H. rewrite (at_array_ret _ _ _ Hok) in H. cbn [bind] in H.
  destruct H as (answer & t1 & -> & H). inversion_clear Hw as [|?? Ha Hw1]. cbn in Ha. subst answer.
  cbn [bind] in H.
  destruct (requested_snapshot req) as [number|err] eqn:Hn.
  2: { destruct H as [_ ->]. unfold request_filter, noticed. by rewrite Hn. }
  apply runs_bind_inv in H as [(es & t2 & t3 & -> & H1 & H2)|[[-> H1]|[-> H1]]];
    try apply Forall_app in Hw1 as [Hw2 Hw3]; eapply snapshot_entries_runs in H1; try done.
  destruct (request_filter req) as [f|err] eqn:Hf.
  - simplify_eq.
    apply runs_bind_inv in H2 as [(os & t4 & t5 & -> & H2 & H3)|[[-> H2]|[-> H2]]];
      try apply Forall_app in Hw3 as [Hw4 Hw5]; apply IH in H2; try done.
    simplify_eq. by destruct H3 as [_ ->].
  - unfold noticed in *. rewrite Hn in *. cbn [existsb].
    destruct (w_snapshots w (secret_map s)) as [|v vs].
    + simplify_eq.
      apply runs_bind_inv in H2 as [(os & t4 & t5 & -> & H2 & H3)|[[-> H2]|[-> H2]]];
        try apply Forall_app in Hw3 as [Hw4 Hw5]; apply IH in H2; try done.
      simplify_eq. destruct secrets; cbn in *.
      * by destruct H3 as [_ ->].
      * destruct (negb _ || _); by destruct H3 as [_ ->].
    + simplify_eq. by destruct H2 as [_ ->].
Qed.

Lemma ListSnapshotsImplementation_runs req namespace t o :
  usable_secrets -> w_secrets w <> [] -> Forall (agrees w) t ->
  runs (ListSnapshotsImplementation url_Parse url_ParseRequestURI req namespace) t o ->
  o = Done (match request_filter req with
            | Ok f => Ok (listing w f)
            | Err err => if noticed req (w_secrets w) then Err err else Ok []
            end).
Proof.
  intros Hs Hne Hw (ss & t1 & -> & H). inversion_clear Hw as [|?? Hx Hw1]. cbn in Hx. subst ss.
  unfold usable_secrets, listing in *. destruct (w_secrets w) as [|s0 ss]; [done|].
  assert (H' : runs (array_entries url_Parse url_ParseRequestURI req (map secret_map (s0 :: ss))) t1 o) by exact H.
  apply array_entries_runs in H'; [|done..].
  by rewrite (bool_decide_eq_true_2 (s0 :: ss <> [])) in H' by done.
Qed.

(** C23: The outcome of [ListSnapshots]: the snapshots of all arrays the filter
    keeps, in the order of the arrays. An identifier that cannot be read is an
    error once an array (a snapshot, for that of the source) is looked at, and
    its status is Unavailable. *)
Theorem ListSnapshots_spec req t o :
  usable_secrets -> w_secrets w <> [] -> Forall (agrees w) t ->
  runs (ListSnapshots url_Parse url_ParseRequestURI req) t o ->
  o = Done (match request_filter req with
            | Ok f => Ok (listing w f)
            | Err err => if noticed req (w_secrets w)
                         then Err (status_of Unavailable "ListSnapshotsImpl - error: " err) else Ok []
            end).
Proof.
  intros Hs Hne Hw H.
  destruct H as (x & t1 & -> & H). inversion_clear Hw as [|?? Hx Hw1]. cbn in Hx. subst x.
  destruct H as (ns & t2 & -> & H). inversion_clear Hw1 as [|?? Hx Hw2]. cbn in Hx.
  cbn [bind] in H. rewrite (proj2 (String.eqb_neq _ _) Hx) in H.
  apply runs_bind_inv in H as [(es & t3 & t4 & -> & H1 & H2)|[[-> H1]|[-> H1]]];
    try apply Forall_app in Hw2 as [Hw3 Hw4];
    apply ListSnapshotsImplementation_runs in H1; try done.
  simplify_eq. destruct (request_filter req); [by destruct H2 as [_ ->]|].
  destruct (noticed req _); by destruct H2 as [_ ->].
Qed.

(** The volumes of the driver, as their persistent volumes; one without
    [Spec.CSI] makes the handler panic. *)
Definition listed_volume (pv : PersistentVolume) : option CSIVolumeEntry :=
  csi ← PV_CSI pv; Some (volume_entry pv csi).
Definition provisioned (pv : PersistentVolume) : bool := String.eqb (provisioned_by pv) ServiceName.

Lemma volume_entries_eq items :
  volume_entries items =
  if forallb (fun pv => negb (provisioned pv) || bool_decide (is_Some (PV_CSI pv))) items
  then Ret (omap listed_volume (List.filter provisioned items)) else Panic.
Proof.
  induction items as [|pv rest IH]; [done|]. cbn [volume_entries forallb List.filter].
  fold (provisioned pv). destruct (provisioned pv); cbn [negb orb]; [|exact IH].
  unfold omap, list_omap, listed_volume. cbn. destruct (PV_CSI pv) as [csi|]; cbn; [|done].
  rewrite IH. by destruct (forallb _ rest).
Qed.

Lemma filter_idempotent {A} (f : A -> bool) l : List.filter f (List.filter f l) = List.filter f l.
Proof. induction l as [|x l IH]; [done|]. cbn. destruct (f x) eqn:Hx; [|done]. cbn. by rewrite Hx, IH. Qed.
Lemma driver_volumes_readable items :
  forallb (fun pv => negb (provisioned pv) || bool_decide (is_Some (PV_CSI pv))) (List.filter provisioned items) =
  forallb (fun pv => bool_decide (is_Some (PV_CSI pv))) (List.filter provisioned items).
Proof.
  induction items as [|pv l IH]; [done|]. cbn. destruct (provisioned pv) eqn:Hp; [|done]. cbn. by rewrite Hp, IH.
Qed.

Theorem ListVolumes_spec req t o :
  Forall (agrees w) t -> runs (ListVolumes req) t o ->
  let token := List_StartingToken req in
  let volumes := List.filter provisioned (w_volumes w) in
  o = if String.eqb token "" || String.eqb token "next-token" then
        if forallb (fun pv => bool_decide (is_Some (PV_CSI pv))) volumes then Done (Ok (omap listed_volume volumes))
        else Panicked
      else Done (Err (EStatus Aborted ("error startingToken parameter was incorrect [" +:+ token +:+ "]"))).
Proof.
  intros Hw H token volumes. unfold ListVolumes in H. fold token in H.
  destruct (String.eqb token "" || _); [|by destruct H as [_ ->]].
  destruct H as (x & t1 & -> & H). inversion_clear Hw as [|?? Hx Hw1]. cbn in Hx. subst x.
  destruct H as (items & t2 & -> & H). inversion_clear Hw1 as [|?? Hx Hw2]. cbn in Hx. subst items.
  cbn -[volume_entries runs driver_volumes] in H. rewrite volume_entries_eq in H.
  change (driver_volumes (w_volumes w)) with volumes in H.
  subst volumes. rewrite (driver_volumes_readable (w_volumes w)), (filter_idempotent provisioned (w_volumes w)) in H.
  destruct (forallb _ _); by destruct H as [_ ->].
Qed.
End world.

(** The answers of a world to the calls a listing of snapshots makes. *)
Definition kube_answer (w : world) {X} (c : kube X) : option X :=
  match c with BuildClient => Some None | SecretsList _ _ => Some (Ok (w_secrets w)) | _ => None end.
Definition os_answer {X} (c : os X) : option X := match c with Getenv _ => Some "ns" | _ => None end.
Definition ibox_answer (w : world) (secret : gmap string string) {X} (c : ibox X) : option X :=
  match c with GetAllSnapshots => Some (w_snapshots w secret, None) | _ => None end.
Definition call_answer (w : world) (secret : gmap string string) {X} (c : call X) : option X :=
  match c with Kube k => kube_answer w k | Os o => os_answer o | Ibox i => ibox_answer w secret i end.
Definition answer (w : world) X (c : lcall X) : option X :=
  match c with Here c => call_answer w ∅ c | At secret c => call_answer w secret c end.

Lemma ListSnapshots_spec_witness :
  let secret name : Secret := MkSecret name "ns" "1"
    {[ CredentialHostname := name; CredentialUsername := "u"; CredentialPassword := "p" ]} ∅ in
  let snap id parent : Volume := Volume_of id "snap" 1073741824 parent 3 "pool" "UNLOCKED" false in
  let w := {| w_secrets := [secret "ibox1"; secret "ibox2"]; w_volumes := [];
              w_snapshots := fun s => if String.eqb s.[CredentialHostname] "ibox1"
                                      then [snap 4%Z 7%Z; snap 5%Z 8%Z] else [snap 6%Z 7%Z];
              w_has_volume := fun _ _ => false; w_has_filesystem := fun _ _ => false |} in
  let parse s := Ok ("", s) in
  let all s : evt lcall := Evt (At (secret_map (secret s)) (Ibox GetAllSnapshots)) (w_snapshots w (secret_map (secret s)), None) in
  let t := [Evt (Here (Kube BuildClient)) None; Evt (Here (Os (Getenv EnvVarPodNamespace))) "ns";
            Evt (Here (Kube (SecretsList "ns" secret_label))) (Ok (w_secrets w)); all "ibox1"; all "ibox2"] in
  let req := MkCSIListSnapshotsRequest 0 "" "" "5$$nfs" in
  exists o, runs (ListSnapshots parse (fun _ => true) req) t o /\ o = Done (Ok (listing w (Single "5$$nfs" 5))).
Proof.
  intros secret snap w parse all t req.
  assert (Hf : follow (answer w) (ListSnapshots parse (fun _ => true) req) = Some (t, Done (Ok (listing w (Single "5$$nfs" 5)))))
    by (vm_compute; reflexivity).
  apply follow_runs in Hf. exists (Done (Ok (listing w (Single "5$$nfs" 5)))). split; [exact Hf|].
  apply (ListSnapshots_spec w parse (fun _ => true) req t _) in Hf.
  - exact Hf.
  - repeat constructor.
  - done.
  - repeat constructor; done.
Defined.
