(* ===== verification/Host.v ===== *)
(** The node's host, as the node half of the driver sees it: processes, files,
    the mounter of k8s.io/mount-utils, the network and sleeping; and
    [helper/exec.go], the way most commands are run. [ncall] adds the host to
    the calls of the controller half. *)
From stdpp Require Import base strings list gmap.
From S2P Require Import Prelude GoLib IboxTypes Traces.
From Stdlib Require Import ZArith Lia Ascii.

Local Open Scope string_scope.
Local Open Scope list_scope.

(** What [Run] of a command answers beside its output: the process ended with an
    exit code (-1 when a signal ended it) and the text of that, or it could not
    be run. *)
Inductive run_error :=
| Exited (exitCode : Z) (text : string)
| NotRun (err : error).
Definition run_text (e : run_error) : string :=
  match e with Exited _ text => text | NotRun err => Error err end.
(** The error itself, where its kind does not matter. *)
Definition run_err (e : run_error) : error :=
  match e with Exited _ text => EText text | NotRun err => err end.

(** What [os.Stat] answers. An error is corrupted when [IsCorruptedMnt] says so
    (ENOTCONN, ESTALE or EIO). *)
Inductive stat :=
| Found (IsDir : bool)
| NotExist (err : error)
| StatFailed (corrupted : bool) (err : error).
(** [os.IsNotExist]. *)
Definition missing (s : stat) : bool := match s with NotExist _ => true | _ => false end.

(** What [Readdirnames(1)] answers: a name, the end, or an error. *)
Inductive dir_read := Entry | EndOfDir | ReadFailed (err : error).

(** The answers of [NewMetricsStatFS(path).GetMetrics]: a quantity that is no
    int64 is [None]. *)
Record Metrics := MkMetrics {
  Available : option Z;
  CapacityOf : option Z;
  Used : option Z;
  InodesFree : option Z;
  Inodes : option Z;
  InodesUsed : option Z
}.

Inductive host : Type -> Type :=
(** Processes: standard output, standard error, the error of [Run]; or both
    outputs together. *)
| Spawn (name : string) (args : list string) : host (string * string * option run_error)
| SpawnCombined (name : string) (args : list string) : host (string * option run_error)
(** Package os and filepath. *)
| Stat (path : string) : host stat
| Lstat (path : string) : host stat
| MkdirAll (path : string) (perm : Z) : host (option error)
| Remove (path : string) : host (option error)
| RemoveAll (path : string) : host (option error)
| CreateFile (path : string) : host (option error)
| WriteFile (path content : string) : host (option error)
| OpenFile (path : string) : host (option error)
| ReadFile (path : string) : host (res string)
| Readdirnames1 (path : string) : host dir_read
| ReadDir (path : string) : host (list string * option error)
| Glob (pattern : string) : host (res (list string))
| EvalSymlinks (path : string) : host (res string)
| Chown (path : string) (uid gid : Z) : host (option error)
| Chmod (path : string) (mode : Z) : host (option error)
| StatFS (path : string) : host (res Metrics)
(** The mounter; a listing gives the paths mounted at. *)
| MountList : host (res (list string))
| Mount (source target fstype : string) (options : list string) : host (option error)
| Unmount (target : string) : host (option error)
| FormatAndMount (source target fstype : string) (options : list string) : host (option error)
(** A TCP connection, closed at once. *)
| Dial (address : string) : host (option error)
| SleepFor (nanoseconds : Z) : host unit.

Inductive ncall : Type -> Type :=
| Call {X} (c : call X) : ncall X
| Host {X} (h : host X) : ncall X.

Definition lift {A} (p : prog call A) : prog ncall A := interp (fun _ c => trigger (Call c)) p.
Definition hostAPI {X} (h : host X) : prog ncall X := trigger (Host h).
Definition getenv (key : string) : prog ncall string := trigger (Call (Os (Getenv key))).

Abbreviation node_trace := (list (evt ncall)).

(** [time.Sleep(time.Duration(n) * unit)]. *)
Definition Second : Z := 1000000000.
Definition Millisecond : Z := 1000000.
Definition sleep (n unit : Z) : prog ncall Datatypes.unit := hostAPI (SleepFor (i64 (n * unit))).

(** ** helper/exec.go *)

Definition pipefail (command : string) : string := "set -o pipefail; " +:+ command.

(** The status of a failed iscsiadm. *)
Definition iscsiadm_code (exitCode : Z) : Code :=
  if (exitCode =? 2)%Z then NotFound
  else if (exitCode =? 13)%Z then PermissionDenied
  else if (exitCode =? 15)%Z then AlreadyExists
  else if (exitCode =? 24)%Z then Unauthenticated
  else Internal.

Definition command_error (cmd stdOut : string) (e : run_error) : error :=
  match e with
  | Exited exitCode text =>
      if String.eqb cmd "iscsiadm"
      then EStatus (iscsiadm_code exitCode) ("iscsiadm error: " +:+ Itoa exitCode +:+ ", " +:+ text)
      else EStatus Unknown ("error: " +:+ text +:+ " result: " +:+ stdOut)
  | NotRun err => EStatus Unknown (cmd +:+ " failed with error: " +:+ Error err +:+ ", result: " +:+ stdOut)
  end.

(** [Exec.Command]: the standard output, trimmed, and the standard error. The
    mutex of [Exec] makes a command one step. The standard error of a command
    that ended with a code is lost: [ExitError.Stderr] is set by [Output] only. *)
Definition Exec_Command (cmd args : string) : prog ncall (string * string * option error) :=
  let cmd := TrimSpace cmd in
  let args := TrimSpace args in
  let pipefailCmd := pipefail cmd +:+ (if String.eqb args "" then "" else " " +:+ args) in
  answer <- hostAPI (Spawn "bash" ["-c"; pipefailCmd]) ;;
  let '(stdOut, stdErr, cmdErr) := answer in
  Ret (match cmdErr with
       | Some e => ("", match e with Exited _ _ => "" | NotRun _ => stdErr end, Some (command_error cmd stdOut e))
       | None => (TrimSpace stdOut, stdErr, None)
       end).
(** The same, for the callers that do not look at the standard error. *)
Definition ExecCommand (cmd args : string) : prog ncall (res string) :=
  r <- Exec_Command cmd args ;;
  Ret (match r with (_, _, Some err) => Err err | (out, _, None) => Ok out end).

(** [exec.Command("bash", "-c", "set -o pipefail; ...").Output()]. *)
Definition bash_output (command : string) : prog ncall (res string) :=
  answer <- hostAPI (Spawn "bash" ["-c"; pipefail command]) ;;
  let '(stdOut, _, cmdErr) := answer in
  Ret (match cmdErr with Some e => Err (run_err e) | None => Ok stdOut end).

(** ** Package strings and bufio, as far as only the node half uses them *)

(** [strings.Replace(s, old, new, 1)] for a non-empty [old]. *)
Fixpoint replace_first (s old new : string) : string :=
  if String.prefix old s then new +:+ String.substring (String.length old) (String.length s) s
  else match s with EmptyString => "" | String c s' => String c (replace_first s' old new) end.
Definition TrimPrefix (s prefix : string) : string :=
  if String.prefix prefix s then String.substring (String.length prefix) (String.length s) s else s.
Definition TrimSuffix (s suffix : string) : string :=
  let n := String.length s - String.length suffix in
  if String.eqb (String.substring n (String.length s) s) suffix && (String.length suffix <=? String.length s)%nat
  then String.substring 0 n s else s.
(** [strings.ReplaceAll(s, c, "")] of one byte. *)
Fixpoint remove_byte (c : ascii) (s : string) : string :=
  match s with
  | EmptyString => ""
  | String c' s' => if Ascii.eqb c c' then remove_byte c s' else String c' (remove_byte c s')
  end.
Definition TrimLeft (s : string) (c : ascii) : string := drop_while (Ascii.eqb c) s.
(** [strings.Fields]: the runs of characters that are no spaces. *)
Fixpoint fields_at (s acc : string) : list string :=
  match s with
  | EmptyString => if String.eqb acc "" then [] else [acc]
  | String c s' => if is_space c then (if String.eqb acc "" then fields_at s' "" else acc :: fields_at s' "")
                   else fields_at s' (acc +:+ String c "")
  end.
Definition Fields (s : string) : list string := fields_at s "".
(** [strings.SplitAfter] for a non-empty separator. *)
Definition SplitAfter (s sep : string) : list string :=
  let parts := Split s sep in
  map (fun p => p +:+ sep) (removelast parts) ++ [List.last parts ""].

(** [bufio.ScanLines] over a text: the lines without their end, and whether a
    line was too long for the scanner ([bufio.MaxScanTokenSize], 64 KiB,
    with its end), which ends the scan. *)
Definition MaxScanTokenSize : Z := 65536.
Definition too_long (line : string) : bool := (MaxScanTokenSize <=? Z.of_nat (String.length line))%Z.
Definition drop_cr (line : string) : string := TrimSuffix line (String (ascii_of_nat 13) "").
Fixpoint scan_lines (lines : list string) : list string * bool :=
  match lines with
  | [] => ([], false)
  | [last] => if String.eqb last "" then ([], false)
              else if too_long last then ([], true) else ([drop_cr last], false)
  | line :: rest => if too_long line then ([], true)
                    else let '(l, long) := scan_lines rest in (drop_cr line :: l, long)
  end.
Definition ScanLines (s : string) : list string * bool := scan_lines (Split s (String newline "")).
Definition ErrTooLong : error := EText "bufio.Scanner: token too long".

(** [StringToLines] of storage/common/common.go. *)
Definition StringToLines (s : string) : res (list string) :=
  let '(lines, long) := ScanLines s in if long then Err ErrTooLong else Ok lines.

(** ** Package path *)

(** [path.Dir] and [path.Base]. *)
Definition dir_prefix (p : string) : string := String.concat "/" (removelast (Split p "/")) +:+ "/".
Definition Dir (p : string) : string := if Contains p "/" then Clean (dir_prefix p) else ".".
Definition Base (p : string) : string :=
  if String.eqb p "" then "."
  else let trimmed := rev_string (drop_while (Ascii.eqb "/") (rev_string p "")) "" in
       if String.eqb trimmed "" then "/" else List.last (Split trimmed "/") "".

Example string_functions :
  (replace_first "/host/dev/dm-1/host" "/host" "", TrimPrefix "naa.67" "naa.", TrimSuffix "a/mount" "/mount",
   remove_byte ":" "50:01:07", Fields "  a  b c ", SplitAfter "x/dev/mapper/mpatha" "/dev/mapper/",
   Dir "/host/a/b", Base "/dev/mapper/mpatha/")
  = ("/dev/dm-1/host", "67", "a", "500107", ["a"; "b"; "c"], ["x/dev/mapper/"; "mpatha"], "/host/a", "mpatha").
Proof. vm_compute. reflexivity. Qed.
Example scan_lines_example :
  (ScanLines ("a" +:+ String newline ("" +:+ String newline "b")), ScanLines "",
   ScanLines ("a" +:+ String newline "")) = ((["a"; ""; "b"], false), ([], false), (["a"], false)).
Proof. vm_compute. reflexivity. Qed.
