(* ===== verification/Mount.v ===== *)
(** What the node half of every protocol uses: mounts and their clean-up
    ([storage/common/mount.go]), ownership and mount options
    ([permissions.go]), growing file systems ([nodeexpandvolume.go]), and the
    checks of paths and addresses of [common.go]. *)
From stdpp Require Import base strings list gmap.
From S2P Require Import Prelude GoLib IboxTypes Traces Fmt Csi Helper StorageCommon Json Host.
From Stdlib Require Import ZArith Ascii.

Local Open Scope string_scope.
Local Open Scope list_scope.

(** ** Messages of the node service *)

Record NodePublishVolumeRequest := MkNodePublishVolumeRequest {
  NP_VolumeId : string;
  NP_PublishContext : gmap string string;
  NP_StagingTargetPath : string;
  NP_TargetPath : string;
  NP_VolumeCapability : option VolumeCapability;
  NP_Readonly : bool;
  NP_Secrets : gmap string string;
  NP_VolumeContext : option (gmap string string)
}.
(** [req.GetVolumeContext()]. *)
Definition NP_context (req : NodePublishVolumeRequest) : gmap string string := default ∅ (NP_VolumeContext req).
Definition set_NP_VolumeContext (ctx : gmap string string) (req : NodePublishVolumeRequest) : NodePublishVolumeRequest :=
  {| NP_VolumeId := NP_VolumeId req; NP_PublishContext := NP_PublishContext req;
     NP_StagingTargetPath := NP_StagingTargetPath req; NP_TargetPath := NP_TargetPath req;
     NP_VolumeCapability := NP_VolumeCapability req; NP_Readonly := NP_Readonly req;
     NP_Secrets := NP_Secrets req; NP_VolumeContext := Some ctx |}.
Record NodeUnpublishVolumeRequest := MkNodeUnpublishVolumeRequest {
  NU_VolumeId : string;
  NU_TargetPath : string
}.
Record NodeStageVolumeRequest := MkNodeStageVolumeRequest {
  NS_VolumeId : string;
  NS_PublishContext : gmap string string;
  NS_StagingTargetPath : string;
  NS_VolumeCapability : option VolumeCapability;
  NS_Secrets : gmap string string;
  NS_VolumeContext : gmap string string
}.
Record NodeUnstageVolumeRequest := MkNodeUnstageVolumeRequest {
  NUS_VolumeId : string;
  NUS_StagingTargetPath : string
}.
Record NodeExpandVolumeRequest := MkNodeExpandVolumeRequest {
  NE_VolumeId : string;
  NE_VolumePath : string;
  NE_VolumeCapability : option VolumeCapability;
  NE_Secrets : gmap string string
}.

(** The publication is read-only. *)
Definition read_only (req : NodePublishVolumeRequest) : bool :=
  NP_Readonly req || bool_decide (GetMode (NP_VolumeCapability req) = MULTI_NODE_READER_ONLY).

(** ** permissions.go and common.go *)

(** The permissions of a path, for the log. *)
Definition LogPermissions (hostTargetPath : string) : prog ncall unit :=
  _out <- hostAPI (SpawnCombined "ls" ["-l"; hostTargetPath]) ;; Ret tt.

(** An id of the storage class: [-1] when it is left out. *)
Definition owner_id (what value : string) : res Z :=
  if String.eqb value "" then Ok (-1)%Z
  else let pre := "storage class specifies an invalid volume " +:+ what +:+ " with value [" in
       match Atoi value with
       | Err err => Err (EWrap (pre +:+ Itoa (Atoi_value value) +:+ "]: ") err "")
       | Ok id => if (id <? -1)%Z then Err (EText (pre +:+ Itoa id +:+ "]: %!w(<nil>)")) else Ok id
       end.

Definition SetVolumePermissions (req : NodePublishVolumeRequest) : prog ncall (option error) :=
  let ctx := NP_context req in
  match owner_id "UID" ctx.[StorageClassUID] with
  | Err err => Ret (Some err)
  | Ok UID =>
  match owner_id "GID" ctx.[StorageClassGID] with
  | Err err => Ret (Some err)
  | Ok GID =>
      let hostTargetPath := "/host" +:+ NP_TargetPath req in
      owned <- (if negb (UID =? -1)%Z || negb (GID =? -1)%Z then hostAPI (Chown hostTargetPath UID GID) else Ret None) ;;
      match owned with
      | Some err => Ret (Some (EWrap ("failed to chown path '" +:+ hostTargetPath +:+ "': ") err ""))
      | None =>
          let unixPermissions := ctx.[StorageClassUNIXPermissions] in
          moded <- (if String.eqb unixPermissions "" then Ret None
                    else match ParseUint8_32 unixPermissions with
                         | Err err => Ret (Some (EWrap ("failed to convert unix_permissions '" +:+ unixPermissions
                                                        +:+ "' error: ") err ""))
                         | Ok mode =>
                             err <- hostAPI (Chmod hostTargetPath mode) ;;
                             Ret (match err with
                                  | Some err => Some (EWrap ("failed to chmod path '" +:+ hostTargetPath +:+ "' with perms "
                                                             +:+ unixPermissions +:+ ": error: ") err "")
                                  | None => None
                                  end)
                         end) ;;
          match moded with
          | Some err => Ret (Some err)
          | None => LogPermissions (Dir hostTargetPath) ;;; Ret None
          end
      end
  end end.

(** The time the dialling took is left out of the message. *)
Definition ValidateIPAddress (ip : string) (port : Z) : prog ncall (option error) :=
  let ipAndPort := ip +:+ ":" +:+ Itoa port in
  err <- hostAPI (Dial ipAndPort) ;;
  Ret (match err with
       | Some err => Some (EWrap ("error dialing IP address " +:+ ipAndPort +:+ " error ") err "")
       | None => None
       end).

Definition PathExists (path : string) : prog ncall (bool * option error) :=
  s <- hostAPI (Stat path) ;;
  Ret (match s with
       | Found _ => (true, None)
       | NotExist _ => (false, None)
       | StatFailed corrupted err => (corrupted, Some err)
       end).

(** ** mount.go: the record of a disk *)

Record DiskInfo := MkDiskInfo {
  RootDir : string;
  MpathDevice : string;
  DiskIsBlock : bool;
  DiskVolumeID : Z
}.
Definition disk_of (VolumeID : Z) : DiskInfo := MkDiskInfo NodeRootDir "" false VolumeID.

Definition encode_DiskInfo (conf : DiskInfo) : string :=
  "{" +:+ quoted "rootdir" +:+ ":" +:+ quoted (RootDir conf) +:+ "," +:+
  quoted "mpathdevice" +:+ ":" +:+ quoted (MpathDevice conf) +:+ "," +:+
  quoted "isblock" +:+ ":" +:+ FormatBool (DiskIsBlock conf) +:+ "," +:+
  quoted "volumeid" +:+ ":" +:+ Itoa (DiskVolumeID conf) +:+ "}" +:+ String newline "".

(** [Decode] into the record: a key is a field's name in any case, null leaves a
    field, a value of another type is an error. *)
Definition set_field (conf : DiskInfo) (key : string) (v : json) : option DiskInfo :=
  let key := ToLower key in
  if String.eqb key "rootdir" then
    match v with
    | JStr s => Some (MkDiskInfo s (MpathDevice conf) (DiskIsBlock conf) (DiskVolumeID conf))
    | JNull => Some conf | _ => None end
  else if String.eqb key "mpathdevice" then
    match v with
    | JStr s => Some (MkDiskInfo (RootDir conf) s (DiskIsBlock conf) (DiskVolumeID conf))
    | JNull => Some conf | _ => None end
  else if String.eqb key "isblock" then
    match v with
    | JBool b => Some (MkDiskInfo (RootDir conf) (MpathDevice conf) b (DiskVolumeID conf))
    | JNull => Some conf | _ => None end
  else if String.eqb key "volumeid" then
    match v with
    | JNum literal =>
        match ParseInt10 literal with
        | Ok z => Some (MkDiskInfo (RootDir conf) (MpathDevice conf) (DiskIsBlock conf) z)
        | Err _ => None
        end
    | JNull => Some conf | _ => None end
  else Some conf.
Fixpoint set_fields (conf : DiskInfo) (m : list (string * json)) : option DiskInfo :=
  match m with
  | [] => Some conf
  | (key, v) :: m' => conf' ← set_field conf key v; set_fields conf' m'
  end.
(** The first value of the text; what follows it is not read. *)
Definition decode_DiskInfo (conf : DiskInfo) (text : string) : res DiskInfo :=
  match parse_value (S (String.length text)) text with
  | Some (JObj m, _) => match set_fields conf m with Some conf' => Ok conf' | None => Err json_error end
  | Some (JNull, _) => Ok conf
  | _ => Err json_error
  end.

(** Where the record of a volume is kept below [mnt]. *)
Definition config_path (conf : DiskInfo) (mnt : string) : string :=
  PathJoin [RootDir conf; mnt; Itoa (DiskVolumeID conf) +:+ ".json"].

Definition CreateConfigFile (conf : DiskInfo) (mnt : string) : prog ncall (option error) :=
  let filePath := config_path conf mnt in
  created <- hostAPI (CreateFile filePath) ;;
  match created with
  | Some err => Ret (Some (EWrap "createConfigFile: failed creating persist file with error " err (" file " +:+ filePath)))
  | None =>
      written <- hostAPI (WriteFile filePath (encode_DiskInfo conf)) ;;
      Ret (match written with
           | Some err => Some (EWrap "createConfigFile: failed creating persist file with error " err "")
           | None => None
           end)
  end.

(** The file is read once for the log and once to be decoded. *)
Definition LoadDiskInfoFromFile (conf : DiskInfo) (mnt : string) : prog ncall (res DiskInfo) :=
  let filePath := config_path conf mnt in
  hostAPI (ReadFile filePath) ;;;
  opened <- hostAPI (OpenFile filePath) ;;
  match opened with
  | Some err => Ret (Err (EWrap ("loadDiskInfoFromFile - Open - file: " +:+ filePath +:+ " error ") err ""))
  | None =>
      try text <- hostAPI (ReadFile filePath) catch err =>
        Ret (Err (EWrap "loadDiskInfoFromFile - Decode - error " err "")) ;;
      Ret (match decode_DiskInfo conf text with
           | Ok conf' => Ok conf'
           | Err err => Err (EWrap "loadDiskInfoFromFile - Decode - error " err "")
           end)
  end.

(** ** mount.go: mounting *)

Definition mount_mode (readOnly : bool) : string := if readOnly then "0550" else "0750".
Definition mount_access (readOnly : bool) : string := if readOnly then "ro" else "rw".

(** Option A: a raw block device is bound to a file. *)
Definition mount_block (config : DiskInfo) (targetPath devicePath stagePath : string) (readOnly : bool)
    : prog ncall (option error) :=
  let chrootPath := RootDir config +:+ targetPath in
  made <- hostAPI (Spawn "mkdir" ["--parents"; "--mode"; mount_mode readOnly; Dir targetPath]) ;;
  match snd made with
  | Some e => Ret (Some (EStatus Internal ("mountLogic: failed to mkdir '" +:+ targetPath +:+ "': error: " +:+ run_text e)))
  | None =>
      persisted <- CreateConfigFile config stagePath ;;
      match persisted with
      | Some err => Ret (Some err)
      | None =>
          created <- hostAPI (CreateFile chrootPath) ;;
          match created with
          | Some err =>
              Ret (Some (EStatus Internal ("mountLogic - failed to create target path for raw bind mount: "
                                           +:+ Quote targetPath +:+ ", err: " +:+ Error err)))
          | None =>
              let devicePath := replace_first devicePath (RootDir config) "" in
              let options := [mount_access readOnly; "bind"] in
              sleep 3 Second ;;;
              LogPermissions ("/host" +:+ targetPath) ;;;
              LogPermissions ("/host" +:+ devicePath) ;;;
              mounted <- ExecCommand "mount" ("-o " +:+ join_with "," options +:+ " " +:+ devicePath +:+ " " +:+ targetPath) ;;
              Ret (match mounted with
                   | Err err => Some (EText ("mountLogic: failed to mount fc volume " +:+ devicePath +:+ " to " +:+ targetPath
                                             +:+ ", error " +:+ Error err +:+ ", options " +:+ brackets options))
                   | Ok _ => None
                   end)
          end
      end
  end.

(** Option B: a file system. *)
Definition mount_filesystem (config : DiskInfo) (targetPath devicePath stagePath fsType : string)
    (mountOptions : list string) (readOnly : bool) : prog ncall (option error) :=
  target <- hostAPI (Stat targetPath) ;;
  made <- (if missing target
           then ExecCommand "mkdir" ("--parents --mode " +:+ mount_mode readOnly +:+ " '" +:+ targetPath +:+ "'")
           else Ret (Ok "")) ;;
  match made with
  | Err err => Ret (Some err)
  | Ok _ =>
      persisted <- CreateConfigFile config stagePath ;;
      match persisted with
      | Some err => Ret (Some err)
      | None =>
          let options := mount_access readOnly :: mountOptions ++ (if String.eqb fsType FSTypeXFS then ["nouuid"] else []) in
          mounted <- hostAPI (FormatAndMount devicePath targetPath fsType options) ;;
          Ret (match mounted with
               | Some err =>
                   if Contains (Error err) ("already mounted on " +:+ targetPath) then None
                   else Some (EStatus Internal ("mountLogic - failed to mount volume " +:+ devicePath +:+ " [" +:+ fsType
                                                +:+ "] to " +:+ targetPath +:+ ", err: " +:+ Error err))
               | None => None
               end)
      end
  end.

Definition MountLogic (config : DiskInfo) (targetPath devicePath stagePath fsType : string)
    (mountOptions : list string) (isBlock readOnly : bool) : prog ncall (option error) :=
  mntPoints <- hostAPI MountList ;;
  match mntPoints with
  | Err err => Ret (Some (EStatus Internal ("mountLogic - mounter.List error " +:+ Error err)))
  | Ok mntPoints =>
      if existsb (String.eqb (RootDir config +:+ targetPath)) mntPoints then Ret None
      else if isBlock then mount_block config targetPath devicePath stagePath readOnly
      else mount_filesystem config targetPath devicePath stagePath fsType mountOptions readOnly
  end.

(** [Mounter], without the clients of the host. *)
Record Mounter := MkMounter {
  ReadOnly : bool;
  FsType : string;
  MountOptions : list string;
  TargetPath : string;
  StagePath : string;
  IsBlock : bool
}.
Definition GetDiskMounter (req : NodePublishVolumeRequest) : res Mounter :=
  let mounter fstype mountOptions isBlock :=
    MkMounter (read_only req) fstype mountOptions (NP_TargetPath req) (NP_StagingTargetPath req) isBlock in
  match GetAccessType <$> NP_VolumeCapability req with
  | Some (AccessMount fstype mountFlags) => Ok (mounter fstype mountFlags false)
  | Some AccessBlock => Ok (mounter "" [] true)
  | _ => Err (EText ("bad VolumeCapability parameters: both block and mount modes, for volume: " +:+ NP_VolumeId req))
  end.

(** ** mount.go: unmounting *)

Definition isMountedByListMethod (targetHostPath : string) : prog ncall (res bool) :=
  try mountList <- hostAPI MountList catch err => Ret (Err err) ;;
  Ret (Ok (existsb (String.eqb targetHostPath) mountList)).

Definition IsDirEmpty (name : string) : prog ncall (res bool) :=
  opened <- hostAPI (OpenFile name) ;;
  match opened with
  | Some err => Ret (Err err)
  | None =>
      read <- hostAPI (Readdirnames1 name) ;;
      Ret (match read with EndOfDir => Ok true | Entry => Ok false | ReadFailed err => Err err end)
  end.

Definition IsDirectory (path : string) : prog ncall (res bool) :=
  s <- hostAPI (Stat path) ;;
  Ret (match s with Found isDir => Ok isDir | NotExist err | StatFailed _ err => Err err end).

(** Remove a path that is there; an error is only logged. *)
Definition remove_leftover (path : string) : prog ncall unit :=
  s <- hostAPI (Stat path) ;;
  if missing s then Ret tt else hostAPI (Remove path) ;;; Ret tt.

Definition cleanupOldMountDirectory (targetHostPath : string) : prog ncall (option error) :=
  isMountEmpty <- IsDirEmpty targetHostPath ;;
  match isMountEmpty with
  | Err err => Ret (Some (EWrap ("failed IsDirEmpty() using targetHostPath '" +:+ targetHostPath +:+ "': ") err ""))
  | Ok false => Ret (Some (EText ("error: mount directory at targetHostPath '" +:+ targetHostPath
                                  +:+ "' is not empty and may contain volume data")))
  | Ok true =>
      s <- hostAPI (Stat targetHostPath) ;;
      removed <- (if missing s then Ret None else hostAPI (Remove targetHostPath)) ;;
      match removed with
      | Some err => Ret (Some (EWrap ("after unmounting, failed to Remove() path '" +:+ targetHostPath +:+ "': ") err ""))
      | None =>
          let csiHostPath := TrimSuffix targetHostPath "/mount" in
          remove_leftover (PathJoin [csiHostPath; "vol_data.json"]) ;;;
          remove_leftover csiHostPath ;;;
          Ret None
      end
  end.

Definition UnmountAndCleanUp (targetPath : string) : prog ncall (option error) :=
  let targetHostPath := PathJoin ["/host"; targetPath] in
  hostAPI (Unmount targetPath) ;;;
  isMounted <- isMountedByListMethod targetHostPath ;;
  match isMounted with
  | Err err => Ret (Some (EWrap ("error: failed to check if targetHostPath '" +:+ targetHostPath
                                 +:+ "' is unmounted after unmounting ") err ""))
  | Ok true => Ret (Some (EText ("error: volume remains mounted at targetHostPath '" +:+ targetHostPath +:+ "'")))
  | Ok false =>
      s <- hostAPI (Stat targetHostPath) ;;
      if missing s then Ret None
      else
        isADir <- IsDirectory targetHostPath ;;
        match isADir with
        | Err err => Ret (Some (EWrap ("failed to check if targetHostPath '" +:+ targetHostPath +:+ "' is a directory: ") err ""))
        | Ok true => cleanupOldMountDirectory targetHostPath
        | Ok false =>
            removed <- hostAPI (Remove targetHostPath) ;;
            Ret (match removed with
                 | Some err => Some (EWrap ("failed to Remove() path '" +:+ targetHostPath +:+ "': ") err "")
                 | None => None
                 end)
        end
  end.

(** ** nodeexpandvolume.go *)

Definition Resize2FSDelay : string := "RESIZE2FS_DELAY".

(** A number of an environment variable; the default where it is empty or none. *)
Definition env_number (key : string) (defaultValue : Z) : prog ncall Z :=
  tmp <- getenv key ;;
  Ret (if String.eqb tmp "" then defaultValue else match Atoi tmp with Ok z => z | Err _ => defaultValue end).

(** The device after the first comma of every line of multipathd. *)
Fixpoint path_devices (lines : list string) : res (list string) :=
  match lines with
  | [] => Ok []
  | line :: rest =>
      match Split line "," with
      | _ :: device :: _ => res_bind (path_devices rest) (fun devices => Ok (TrimSpace device :: devices))
      | parts => Err (EText ("error in multipathd command output " +:+ brackets parts))
      end
  end.

Definition rescan_command (device : string) : string := "echo 1 > /sys/block/" +:+ device +:+ "/device/rescan".
Fixpoint rescan_devices (wrap : error -> error) (devices : list string) : prog ncall (option error) :=
  match devices with
  | [] => Ret None
  | device :: rest =>
      out <- ExecCommand (rescan_command device) "" ;;
      match out with
      | Err err => Ret (Some (wrap err))
      | Ok _ => rescan_devices wrap rest
      end
  end.

Definition BlockExpandVolume (volumePath : string) : prog ncall (option error) :=
  let findmntCommand := "findmnt --noheadings -l -o SOURCE --target " +:+ volumePath in
  out <- ExecCommand findmntCommand "" ;;
  match out with
  | Err err => Ret (Some (EWrap ("error running findmnt command name " +:+ findmntCommand +:+ " - ") err ""))
  | Ok out =>
  if String.eqb out "" then
    Ret (Some (EText ("error getting findmnt command output " +:+ findmntCommand +:+ " on path " +:+ volumePath)))
  else match Split (TrimSpace out) "[" with
  | _ :: source :: _ =>
      let device := hd "" (Split source "]") in
      let multipathCommand := "multipathd show maps raw format " +:+ String dquote ("%n_/%d_" +:+ String dquote "")
                              +:+ " 2> /dev/null | grep " +:+ device +:+ "_" in
      out <- ExecCommand multipathCommand "" ;;
      match out with
      | Err err => Ret (Some (EWrap ("error running multipath command name " +:+ multipathCommand +:+ " - ") err ""))
      | Ok out =>
      if String.eqb out "" then Ret (Some (EText "error getting multipath command output"))
      else
        let userFriendlyName := hd "" (Split out "_") in
        let multipathdCommand := "multipathd show paths format " +:+ String dquote ("%m,%d" +:+ String dquote "")
                                 +:+ " 2> /dev/null | grep " +:+ String dquote (userFriendlyName +:+ String dquote "") in
        out <- ExecCommand multipathdCommand "" ;;
        match out with
        | Err err => Ret (Some (EWrap ("error running multipathd command name " +:+ multipathdCommand +:+ " - ") err ""))
        | Ok out =>
        if String.eqb out "" then Ret (Some (EText "error getting multipathd command output"))
        else match path_devices (Split (TrimSuffix out (String newline "")) (String newline "")) with
        | Err err => Ret (Some err)
        | Ok devices =>
            rescanned <- rescan_devices (fun err => EWrap "error writing rescan on multipath devices " err "") devices ;;
            match rescanned with
            | Some err => Ret (Some err)
            | None =>
                let resizeCommand := "multipathd resize map " +:+ userFriendlyName +:+ " 2> /dev/null" in
                out <- ExecCommand resizeCommand "" ;;
                Ret (match out with
                     | Err err => Some (EWrap ("error running multipathd resize map command " +:+ resizeCommand +:+ " - ") err "")
                     | Ok _ => None
                     end)
            end
        end end
      end
  | parts => Ret (Some (EText ("format error in findmnt command output " +:+ findmntCommand +:+ " on path " +:+ volumePath
                               +:+ " output " +:+ brackets parts)))
  end end.

Definition ExpandFileSystem (multipathDevice fsType : string) : prog ncall (option error) :=
  delay <- env_number Resize2FSDelay 5 ;;
  sleep delay Second ;;;
  let command := (if String.eqb fsType FSTypeXFS then "xfs_growfs " else "resize2fs ") +:+ multipathDevice in
  out <- ExecCommand command "" ;;
  Ret (match out with
       | Err err => Some (EWrap ("command " +:+ command +:+ " - error: ") err "")
       | Ok _ => None
       end).
