(* ===== verification/Multipath.v ===== *)
(** SCSI and multipath devices of a node: [storage/common/multipath.go]. *)
From stdpp Require Import base strings list gmap.
From S2P Require Import Prelude GoLib IboxTypes Traces Fmt Csi StorageCommon Json Host Mount.
From Stdlib Require Import ZArith Ascii.

Local Open Scope string_scope.
Local Open Scope list_scope.

Definition MultipathWait : string := "MULTIPATH_WAIT".
Definition mpathDeviceCount : Z := 6.
Definition MultipathCleanupDelay : string := "MULTIPATH_CLEANUP_DELAY".
Definition FCSearchDiskDelay : string := "FC_SEARCH_DISK_DELAY".
Definition defaultFlushRetries : Z := 6.
Definition defaultFlushRetriesDelaySeconds : Z := 5.
Definition MULTIPATH_FLUSH_RETRIES : string := "MULTIPATH_FLUSH_RETRIES".
Definition MULTIPATH_FLUSH_RETRY_DELAY_SECONDS : string := "MULTIPATH_FLUSH_RETRY_DELAY_SECONDS".

Record PortInfo := MkPortInfo {
  HostID : string;
  PortName : string;
  PortState : string
}.

(** ** Finding a device *)

(** The line of /proc/mounts whose mount point contains the name ends the search;
    [device] is that of the last line looked at. A line without a space has no
    mount point: the access to it panics. *)
Fixpoint find_mount (volumeName device : string) (lines : list string) : option string :=
  match lines with
  | [] => Some device
  | line :: rest =>
      match Split line " " with
      | device :: mountPath :: _ =>
          if Contains mountPath volumeName then Some device else find_mount volumeName device rest
      | _ => None
      end
  end.

Definition FindMultipathDeviceFromVolumePath (volumePath : string) : prog ncall (res string) :=
  let pathParts := Split volumePath "/" in
  let lenPathParts := Z.of_nat (length pathParts) in
  if (lenPathParts <? 5)%Z
  then Ret (Err (EText ("error parsing volumepath " +:+ volumePath +:+ ", len " +:+ Itoa lenPathParts)))
  else
    let volumeName := nth (length pathParts - 2) pathParts "" in
    opened <- hostAPI (OpenFile "/proc/mounts") ;;
    match opened with
    | Some err => Ret (Err (EWrap "error reading /proc/mounts error " err ""))
    | None =>
        text <- hostAPI (ReadFile "/proc/mounts") ;;
        (* a failed read ends the scan; its error is not looked at *)
        let lines := match text with Ok text => fst (ScanLines text) | Err _ => [] end in
        match find_mount volumeName "" lines with
        | None => Panic
        | Some device =>
            Ret (if String.eqb device ""
                 then Err (EText ("error finding device from volume in list of mounts - volume " +:+ volumeName))
                 else Ok device)
        end
    end.

(** [OSioHandler.ReadDir]: an entry that cannot be looked at is an error of the
    listing here. *)
Definition OSio_ReadDir (dirname : string) : prog ncall (res (list string)) :=
  entries <- hostAPI (ReadDir dirname) ;;
  Ret (match snd entries with
       | Some err => Err (EText ("ReadDir error " +:+ Error err))
       | None => Ok (fst entries)
       end).

Definition DevID : string := "/host/dev/disk/by-id/".
Definition GetDMDevicePath (wwid : string) : prog ncall string :=
  let FcPath := "scsi-3" +:+ TrimPrefix wwid "naa." in
  dirs <- OSio_ReadDir DevID ;;
  match dirs with
  | Ok dirs =>
      if existsb (String.eqb FcPath) dirs then
        dmResult <- hostAPI (EvalSymlinks (DevID +:+ FcPath)) ;;
        Ret (match dmResult with Ok dm => dm | Err _ => "" end)
      else Ret ""
  | Err _ => Ret ""
  end.

(** ** Waiting for devices *)

Definition scsi_disk (host channel target lun : string) : string :=
  "/sys/class/scsi_disk/" +:+ host +:+ ":" +:+ channel +:+ ":" +:+ target +:+ ":" +:+ lun.

(** The loop of [WaitForOneDeviceState] with [tries] rounds to go; [wwid] is the
    last one read. Only the error of the second command is tested. *)
Fixpoint poll_state (tries : nat) (disk state wwid : string) : prog ncall string :=
  match tries with
  | O => Ret wwid
  | S tries =>
      hostOutput <- ExecCommand "cat" (disk +:+ "/device/state") ;;
      let deviceState := match hostOutput with Ok out => TrimSpace out | Err _ => "" end in
      wwidOutput <- ExecCommand "cat" (disk +:+ "/device/wwid") ;;
      match wwidOutput with
      | Ok out =>
          let wwid := TrimSpace out in
          if String.eqb deviceState state then Ret wwid
          else sleep 1 Second ;;; poll_state tries disk state wwid
      | Err _ => sleep 1 Second ;;; poll_state tries disk state wwid
      end
  end.
Definition WaitForOneDeviceState (hostID channel target lun state : string) : prog ncall string :=
  poll_state 5 (scsi_disk hostID channel target lun) state "".

(** The wwids of the targets; a path without enough colons panics. *)
Fixpoint target_wwids (hostID lun state : string) (targets : list string) : prog ncall (list string) :=
  match targets with
  | [] => Ret []
  | targetString :: rest =>
      match Split targetString ":" with
      | _ :: channel :: target :: _ =>
          wwid <- WaitForOneDeviceState hostID channel target lun state ;;
          wwids <- target_wwids hostID lun state rest ;;
          Ret (wwid :: wwids)
      | _ => Panic
      end
  end.

(** Three characters of the disk's id, taken from its fifth last on; an id of
    less than five characters panics. *)
Definition wwid_key (diskID : string) : option string :=
  let n := String.length diskID in
  if (n <? 5)%nat then None else Some (String.substring (n - 5) 3 diskID).

Definition WaitForDeviceState (hostID lun state diskID : string) : prog ncall (res string) :=
  targets <- hostAPI (Glob (scsi_disk hostID "*" "*" lun)) ;;
  match targets with
  | Err _ | Ok [] => Ret (Ok "")
  | Ok targets =>
      allWWIDs <- target_wwids hostID lun state targets ;;
      match allWWIDs with
      | [wwid] => Ret (Ok wwid)
      | _ =>
          match wwid_key diskID with
          | None => Panic
          | Some key =>
              Ret (match List.find (fun wwid => Contains wwid key) allWWIDs with
                   | Some wwid => Ok wwid
                   | None => Err (EText "could not determine the wwid")
                   end)
          end
      end
  end.

(** The loop of [WaitForMultipath] with [tries] rounds to go. *)
Fixpoint poll_multipath (tries : nat) (masterPath : string) (milliseconds : Z) : prog ncall unit :=
  match tries with
  | O => Ret tt
  | S tries =>
      devices <- hostAPI (Glob masterPath) ;;
      if match devices with Ok devices => (Z.of_nat (length devices) <? mpathDeviceCount)%Z | Err _ => true end
      then sleep milliseconds Millisecond ;;; poll_multipath tries masterPath milliseconds
      else Ret tt
  end.
(** It never fails: devices missing after the last round are only logged. *)
Definition WaitForMultipath (hostID lun : string) : prog ncall (option error) :=
  sleepCount <- env_number MultipathWait 250 ;;
  poll_multipath 40 (scsi_disk hostID "*" "*" lun +:+ "/device/block/*/holders/*/slaves/*") sleepCount ;;;
  Ret None.

(** ** Rescanning *)

Definition scan_args (host lun : string) : string :=
  "'- - " +:+ lun +:+ "' > /sys/class/scsi_host/host" +:+ host +:+ "/scan".
Fixpoint rescan_hosts (hosts : list string) (diskID lun : string) : prog ncall (option error) :=
  match hosts with
  | [] => Ret None
  | host :: rest =>
      out <- ExecCommand "echo" (scan_args host lun) ;;
      match out with
      | Err err => Ret (Some (EWrap ("rescan of host failed scsiHostPath /sys/class/scsi_host/host" +:+ host
                                     +:+ "/scan volume ID " +:+ diskID +:+ " lun " +:+ lun +:+ " error ") err ""))
      | Ok _ => rescan_hosts rest diskID lun
      end
  end.
(** The first wwid found. *)
Fixpoint find_wwid (hosts : list string) (diskID lun : string) : prog ncall (res string) :=
  match hosts with
  | [] => Ret (Ok "")
  | host :: rest =>
      try wwid <- WaitForDeviceState host lun "running" diskID catch err =>
        Ret (Err (EWrap ("waitForDeviceState failed host " +:+ host +:+ " diskID " +:+ diskID +:+ " lun " +:+ lun
                         +:+ " error ") err "")) ;;
      if String.eqb wwid "" then find_wwid rest diskID lun else Ret (Ok wwid)
  end.
Fixpoint wait_hosts (hosts : list string) (diskID lun : string) : prog ncall (option error) :=
  match hosts with
  | [] => Ret None
  | host :: rest =>
      err <- WaitForMultipath host lun ;;
      match err with
      | Some err => Ret (Some (EWrap ("rescan failed host " +:+ host +:+ " diskID " +:+ diskID +:+ " lun " +:+ lun
                                      +:+ " error ") err ""))
      | None => wait_hosts rest diskID lun
      end
  end.

Definition RescanDeviceMap (hosts : list string) (diskID lun : string) : prog ncall (res string) :=
  rescanned <- rescan_hosts hosts diskID lun ;;
  match rescanned with
  | Some err => Ret (Err err)
  | None =>
      try wwid <- find_wwid hosts diskID lun catch err => Ret (Err err) ;;
      waited <- wait_hosts hosts diskID lun ;;
      match waited with
      | Some err => Ret (Err err)
      | None =>
          Ret (if String.eqb wwid ""
               then Err (EText ("searchDisk rescan error wwid not found hosts " +:+ brackets hosts +:+ " lun " +:+ lun
                                +:+ " diskID " +:+ diskID))
               else Ok wwid)
      end
  end.

(** ** The ports of the node *)

Definition host_number (file : string) : string := replace_first file "/sys/class/fc_host/host" "".
Fixpoint port_infos (files : list string) : prog ncall (list PortInfo) :=
  match files with
  | [] => Ret []
  | file :: rest =>
      name <- hostAPI (ReadFile (file +:+ "/port_name")) ;;
      match name with
      | Err _ => port_infos rest
      | Ok name =>
          state <- hostAPI (ReadFile (file +:+ "/port_state")) ;;
          match state with
          | Err _ => port_infos rest
          | Ok state =>
              ports <- port_infos rest ;;
              Ret (MkPortInfo (host_number file) (replace_first (TrimSpace name) "0x" "") (TrimSpace state) :: ports)
          end
      end
  end.
Definition GetPortInfo : prog ncall (list PortInfo) :=
  goFiles <- hostAPI (Glob "/sys/class/fc_host/host*") ;;
  match goFiles with
  | Err _ => Ret []
  | Ok files => port_infos files
  end.

(** ** Detaching *)

(** The slaves of a device mapper device; files that were listed before an error
    are dropped. *)
Definition FindSlaveDevicesOnMultipath (dmDevice : string) : prog ncall (res (list string)) :=
  match Split dmDevice "/" with
  | [_; dev; disk] =>
      if String.prefix "dev" dev then
        files <- hostAPI (ReadDir (PathJoin ["/sys/block/"; disk; "/slaves/"])) ;;
        Ret (match files with
             | (_, Some err) => Err err
             | ([], None) => Err (EText ("for dm " +:+ dmDevice +:+ " found no devices"))
             | (names, None) => Ok (map (fun name => PathJoin ["/dev/"; name]) names)
             end)
      else Ret (Err (EText ("for dm '" +:+ dmDevice +:+ "' failed")))
  | _ => Ret (Err (EText ("for dm '" +:+ dmDevice +:+ "' failed")))
  end.

Definition removeMultipathDevices (device : string) : prog ncall (option error) :=
  let command := "multipathd del path " +:+ device in
  out <- bash_output command ;;
  Ret (match out with Err err => Some (EWrap ("command failed " +:+ command +:+ " error ") err "") | Ok _ => None end).
Definition removeWWIDEntry (mpath : string) : prog ncall (option error) :=
  let command := "multipath -w  " +:+ mpath in
  out <- bash_output command ;;
  Ret (match out with Err err => Some (EWrap ("command failed command " +:+ command +:+ " error ") err "") | Ok _ => None end).

(** What [json.Unmarshal] asks of a value for a Go type: null fits every type,
    the keys of an object are compared without case, unknown keys are skipped. *)
Inductive json_type :=
| TString
| TInt
| TSlice (t : json_type)
| TStruct (fields : list (string * json_type)).
Fixpoint fits (t : json_type) (v : json) : bool :=
  match t, v with
  | _, JNull => true
  | TString, JStr _ => true
  | TInt, JNum literal => is_ok (ParseInt10 literal)
  | TSlice t, JArr l => forallb (fits t) l
  | TStruct fields, JObj m =>
      (fix all (fields : list (string * json_type)) : bool :=
         match fields with
         | [] => true
         | (key, t) :: fields =>
             forallb (fun kv => negb (String.eqb (ToLower (fst kv)) key) || fits t (snd kv)) m && all fields
         end) fields
  | _, _ => false
  end.

Definition strings (keys : list string) : list (string * json_type) := map (fun key => (key, TString)) keys.
Definition ints (keys : list string) : list (string * json_type) := map (fun key => (key, TInt)) keys.
Definition ShowMultipathOutput : json_type :=
  let path := TStruct (("pri", TInt) :: strings ["dev"; "dev_t"; "dm_st"; "dev_st"; "chk_st"; "checker"; "host_wwnn";
                         "target_wwnn"; "host_wwpn"; "target_wwpn"; "host_adapter"; "marginal_st"]) in
  let path_group := TStruct (("paths", TSlice path) :: ints ["pri"; "group"] ++ strings ["selector"; "dm_st"; "marginal_st"]) in
  let map := TStruct (("path_groups", TSlice path_group)
               :: ints ["paths"; "path_faults"; "switch_grp"; "map_loads"; "total_q_time"; "q_timeouts"]
               ++ strings ["name"; "uuid"; "sysfs"; "failback"; "queueing"; "write_prot"; "dm_st"; "features";
                           "hwhandler"; "action"; "vend"; "prod"; "rev"]) in
  TStruct (("map", map) :: ints ["major_version"; "minor_version"]).

(** The fields the driver reads of a value that fits: [dev] of every path of
    every group. *)
Definition json_field (key : string) (v : json) : json :=
  match v with
  | JObj m => default JNull (snd <$> last (List.filter (fun kv => String.eqb (ToLower (fst kv)) key) m))
  | _ => JNull
  end.
Definition json_elements (v : json) : list json := match v with JArr l => l | _ => [] end.
Definition json_text (v : json) : string := match v with JStr s => s | _ => "" end.
Definition multipath_devs (v : json) : list string :=
  let groups := json_elements (json_field "path_groups" (json_field "map" v)) in
  let paths := mjoin (List.map (fun group => json_elements (json_field "paths" group)) groups) in
  List.map (fun path => "/dev/" +:+ json_text (json_field "dev" path)) paths.

Definition findDevicesForMpath (mpath : string) : prog ncall (res (list string)) :=
  let command := "multipathd show multipath " +:+ mpath +:+ " json" in
  try out <- bash_output command catch err =>
    Ret (Err (EWrap ("command failed " +:+ pipefail command +:+ " mpath: " +:+ mpath +:+ ", error: ") err "")) ;;
  Ret (match parse_json out with
       | Some v => if fits ShowMultipathOutput v then Ok (multipath_devs v)
                   else Err (EWrap ("error unmarshalling output: " +:+ out +:+ ", error: ") json_error "")
       | None => Err (EWrap ("error unmarshalling output: " +:+ out +:+ ", error: ") json_error "")
       end).

(** The friendly name of a device. *)
Definition FindMpathFromDevice (device : string) : prog ncall (res string) :=
  let deviceName := replace_first device "/dev/" "" in
  let command := "multipathd show maps raw format " +:+ String dquote ("%n_%d_" +:+ String dquote "")
                 +:+ " | grep _" +:+ deviceName +:+ "_" in
  try out <- ExecCommand command "" catch err =>
    Ret (Err (EWrap ("command failed command: " +:+ command +:+ " error: ") err "")) ;;
  Ret (Ok (hd "" (Split out "_"))).

(** The loop of [multipathFlush] with [rounds] to go. *)
Fixpoint flush_rounds (rounds : nat) (mpath : string) (delay : Z) : prog ncall (option error) :=
  match rounds with
  | O => Ret None
  | S rounds =>
      out <- ExecCommand "multipath" ("-f " +:+ mpath) ;;
      match out with
      | Ok _ => Ret None
      | Err err => match rounds with
                   | O => Ret (Some err)
                   | S _ => sleep delay Second ;;; flush_rounds rounds mpath delay
                   end
      end
  end.
Definition multipathFlush (mpath : string) : prog ncall (option error) :=
  flushRetries <- env_number MULTIPATH_FLUSH_RETRIES defaultFlushRetries ;;
  flushRetriesDelay <- env_number MULTIPATH_FLUSH_RETRY_DELAY_SECONDS defaultFlushRetriesDelaySeconds ;;
  flush_rounds (Z.to_nat flushRetries) mpath flushRetriesDelay.

(** The loop waiting for a device that is blocked; there is no time between the
    rounds ([sleepCount] is zero). *)
Fixpoint await_unblocked (tries : nat) (statePath : string) : prog ncall (option error) :=
  match tries with
  | O => Ret None
  | S tries =>
      output <- ExecCommand "cat" statePath ;;
      match output with
      | Err err => Ret (Some err)
      | Ok output =>
          if String.eqb (TrimSpace output) "blocked" then
            match tries with
            | O => Ret (Some (EText ("device " +:+ statePath +:+ " is blocked")))
            | S _ => sleep 0 Second ;;; await_unblocked tries statePath
            end
          else Ret None
      end
  end.

(** The last error is that of the deletion: that the device is still there is
    only logged. *)
Definition removeOneFromScsiSubsystemByHostLun (host channel target lun : string) : prog ncall (option error) :=
  let disk := scsi_disk host channel target lun in
  blocked <- await_unblocked 5 (disk +:+ "/device/state") ;;
  match blocked with
  | Some err => Ret (Some err)
  | None =>
      let deletePath := disk +:+ "/device/delete" in
      output <- ExecCommand "echo" ("1 > " +:+ deletePath) ;;
      match output with
      | Err err => Ret (Some (EWrap ("error failed to delete device " +:+ deletePath +:+ " output  error ") err ""))
      | Ok _ => hostAPI (Stat deletePath) ;;; Ret None
      end
  end.

Definition detachDiskByDeviceName (deviceName : string) : prog ncall (option error) :=
  match Split deviceName "/" with
  | [_; _; name] =>
      hctlPath <- hostAPI (EvalSymlinks ("/sys/block/" +:+ name +:+ "/device")) ;;
      match hctlPath with
      | Err err => Ret (Some err)
      | Ok hctlPath =>
          match Split (List.last (Split hctlPath "/") "") ":" with
          | host :: channel :: target :: lun :: _ => removeOneFromScsiSubsystemByHostLun host channel target lun
          | _ => Panic
          end
      end
  | _ => Ret (Some (EText ("device name " +:+ deviceName +:+ " did not parse to 3 parts as normal")))
  end.

(** Do [f] for every device; its errors are only logged. *)
Fixpoint for_devices (f : string -> prog ncall (option error)) (devices : list string) : prog ncall unit :=
  match devices with
  | [] => Ret tt
  | device :: rest => f device ;;; for_devices f rest
  end.

(** The name of the map and its devices. *)
Definition mpath_devices (mpathDevice dstPath : string) : prog ncall (res (string * list string)) :=
  if String.prefix "/dev/dm-" dstPath then
    try devices <- FindSlaveDevicesOnMultipath dstPath catch err =>
      Ret (Err (EWrap ("error looking for slave devices for multipath " +:+ dstPath +:+ " error ") err "")) ;;
    try mpath <- FindMpathFromDevice mpathDevice catch err => Ret (Err err) ;;
    Ret (Ok (mpath, devices))
  else
    try devices <- findDevicesForMpath mpathDevice catch err =>
      Ret (Err (EWrap ("mpath " +:+ mpathDevice +:+ " error ") err "")) ;;
    Ret (Ok (mpathDevice, devices)).

Definition DetachMpathDevice (mpathDevice : string) : prog ncall (option error) :=
  if String.eqb mpathDevice "" then Ret None
  else
    let dstPath := if String.prefix "/host" mpathDevice then replace_first mpathDevice "/host" "" else mpathDevice in
    found <- mpath_devices mpathDevice dstPath ;;
    match found with
    | Err err => Ret (Some err)
    | Ok (mpath, devices) =>
        flushed <- multipathFlush mpath ;;
        match flushed with
        | Some err => Ret (Some err)
        | None =>
            delay <- env_number MultipathCleanupDelay 1 ;;
            sleep delay Second ;;;
            for_devices detachDiskByDeviceName devices ;;;
            for_devices removeMultipathDevices devices ;;;
            removeWWIDEntry mpath ;;;
            Ret None
        end
    end.

Example multipath_devs_example :
  (fun v => (fits ShowMultipathOutput v, multipath_devs v)) <$> parse_json (ReplaceByte
     "{'major_version':0, 'map':{'name':'mpatha','paths':2,'path_groups':[{'pri':50,'paths':[{'dev':'sda'},{'dev':'sdb'}]}]}}"
     squote dquote) = Some (true, ["/dev/sda"; "/dev/sdb"]).
Proof. vm_compute. reflexivity. Qed.
