(* ===== verification/NfsNode.v ===== *)
(** The node half of NFS and of treeqs: [storage/nfs/nfsnode.go],
    [nfsmount.go], [cleanupnfsperm.go] and [storage/treeq/treeqnode.go]. The
    service objects are made for one request, so what a node operation leaves in
    them is not answered. *)
From stdpp Require Import base strings list gmap.
From S2P Require Import Prelude GoLib IboxTypes Traces Csi KubeClient Helper StorageCommon NfsApi Nfs Treeq VolumeGroup Host Mount.
From Stdlib Require Import ZArith Ascii.

Local Open Scope string_scope.
Local Open Scope list_scope.

Definition DefaultHostMountPoint : string := "/host/".
Definition internal (err : error) : error := impl Internal (Error err).

(** ** nfsmount.go *)

Definition NFSv3Port : string := "2049".
Definition NFSv4Port : string := "12049".

(** The value of an option [key=value] with one equals sign. *)
Definition option_value (opt : string) : option string :=
  match Split opt "=" with [_; value] => Some value | _ => None end.
Definition read_option (key opt before : string) : string :=
  if Contains opt key then default before (option_value opt) else before.
Definition GetNFSVersionPort (mountOptions : list string) : string * string :=
  let '(version, port) :=
    fold_left (fun '(version, port) opt => (read_option "vers" opt version, read_option "port" opt port))
      mountOptions ("3", NFSv3Port) in
  (version, if String.eqb version "4" || String.eqb version "4.1" then NFSv4Port else port).

(** ** nfspermissions.go *)

(** A permission without a field, or with one of another type, fails a type
    assertion. *)
Definition convertToExportRulePermissions (permissionsMapArray : list (gmap string json)) : option (list Permissions) :=
  mapM (fun pass : gmap string json =>
          match pass !! NFSExportPermNoRootSquash, pass !! NFSExportPermAccess, pass !! NFSExportPermClient with
          | Some (JBool noRootSquash), Some (JStr access), Some (JStr client) =>
              Some (MkPermissions access noRootSquash client)
          | _, _, _ => None
          end) permissionsMapArray.

(** ** nfsnode.go *)

(** An export of the path exists: its rules are extended unless one of its
    clients is among the new ones. *)
Definition shares_client (old new : list Permissions) : bool :=
  existsb (fun p => existsb (fun newP => String.eqb (Permissions_Client newP) (Permissions_Client p)) new) old.

Definition UpdateExport (nfs : NFSstorage) (fileSystemID : Z) (exportPerms : string)
    : prog call (option error * NFSstorage) :=
  r <- iboxAPI (GetFileSystemByID fileSystemID) ;;
  match r with
  | Err err => Ret (Some err, nfs)
  | Ok fileSystem =>
  match getPermissionMaps exportPerms with
  | Err err => Ret (Some err, nfs)
  | Ok permissionsMapArray =>
  match convertToExportRulePermissions permissionsMapArray with
  | None => Panic
  | Some updatePerms =>
      let path := "/" +:+ FileSystem_Name fileSystem in
      existing <- iboxAPI (GetExportsByFileSystemID fileSystemID) ;;
      match existing with
      | (_, Some err) => Ret (Some err, nfs)
      | (existingExports, None) =>
          match List.find (fun existingExport => String.eqb (Export_ExportPath existingExport) path) existingExports with
          | Some existingExport =>
              if shares_client (Export_Permissions existingExport) updatePerms then Ret (None, nfs)
              else
                updated <- iboxAPI (UpdateExportPermissions existingExport
                                      (ExportPathRef_of (Export_Permissions existingExport ++ updatePerms))) ;;
                Ret (match updated with
                     | Err err => (Some err, nfs)
                     | Ok _ => (None, set_SnapdirVisible (Export_SnapdirVisible existingExport)
                                        (set_export (Export_ID existingExport) (Export_ExportPath existingExport) nfs))
                     end)
          | None =>
              created <- iboxAPI (CreateExport
                {| CreateExportRequest_FilesystemID := fileSystemID;
                   CreateExportRequest_Name := "";
                   CreateExportRequest_TransportProtocols := "TCP";
                   CreateExportRequest_PrivilegedPort := UsePrivilegedPorts nfs;
                   CreateExportRequest_ExportPath := path;
                   CreateExportRequest_Permissionsput := permissionsMapArray;
                   CreateExportRequest_SnapdirVisible := SnapdirVisible nfs |}) ;;
              Ret (match created with
                   | Err err => (Some err, nfs)
                   | Ok exportResp => (None, set_export (Export_ID exportResp) (Export_ExportPath exportResp) nfs)
                   end)
          end
      end
  end end end.

(** The two switches of the storage class, read into the service object. *)
Definition export_switches (nfs : NFSstorage) (ctx : gmap string string) : res NFSstorage :=
  match bool_param ctx.[StorageClassSnapDirVisible] with
  | Err err => Err err
  | Ok snapdir =>
      match bool_param ctx.[StorageClassPrivPorts] with
      | Err err => Err err
      | Ok ports => Ok (set_UsePrivilegedPorts ports (set_SnapdirVisible snapdir nfs))
      end
  end.

(** The rule for the node. [Sprintf] would read a percent sign of the node's
    address as a verb; an address has none. *)
Definition node_export_perms (req : NodePublishVolumeRequest) : string :=
  "[{'access':'" +:+ (if read_only req then "RO" else "RW") +:+ "','client':'" +:+ (NP_context req).["nodeID"]
  +:+ "','no_root_squash':true}]".

Definition host_target_path (req : NodePublishVolumeRequest) : string :=
  let containerHostMountPoint := (NP_PublishContext req).["csiContainerHostMountPoint"] in
  (if String.eqb containerHostMountPoint "" then DefaultHostMountPoint else containerHostMountPoint) +:+ NP_TargetPath req.

(** Make the mount point if it is not there; 0750. *)
Definition make_target (hostTargetPath : string) : prog ncall (option error) :=
  s <- hostAPI (Stat hostTargetPath) ;;
  if missing s then hostAPI (MkdirAll hostTargetPath 488) else Ret None.

(** Both publications end in the same steps: find the mount options and the
    address, dial it, mount [sourceIP:ep], and set owner and mode. *)
Definition mount_export (req : NodePublishVolumeRequest) (ep : string) : prog ncall (option error) :=
  match GetNFSMountOptions (NP_VolumeCapability req) (NP_Readonly req) with
  | Err err => Ret (Some (internal err))
  | Ok mountOptions =>
      let ctx := NP_context req in
      let sourceIP := if String.eqb ctx.["dnsname"] "" then ctx.["ipAddress"] else ctx.["dnsname"] in
      match Atoi (snd (GetNFSVersionPort mountOptions)) with
      | Err err => Ret (Some (internal err))
      | Ok port =>
          reachable <- ValidateIPAddress sourceIP port ;;
          match reachable with
          | Some err => Ret (Some (internal err))
          | None =>
              mounted <- hostAPI (Host.Mount (sourceIP +:+ ":" +:+ ep) (NP_TargetPath req) "nfs" mountOptions) ;;
              match mounted with
              | Some err => Ret (Some (internal err))
              | None =>
                  if read_only req then Ret None
                  else
                    owned <- SetVolumePermissions req ;;
                    Ret (match owned with Some err => Some (internal err) | None => None end)
              end
          end
      end
  end.

Definition NodePublishVolume (nfs : NFSstorage) (req : NodePublishVolumeRequest) : prog ncall (option error) :=
  let ctx := NP_context req in
  lift (GetHostInfo (NP_Secrets req)) ;;;
  match export_switches nfs ctx with
  | Err err => Ret (Some (internal err))
  | Ok nfs =>
      exported <- (if String.eqb ctx.[StorageClassNFSExportPermissions] ""
                   then r <- lift (UpdateExport nfs (VolumeProtocolConfig_VolumeID (VolProto (CS nfs))) (node_export_perms req)) ;;
                        Ret (fst r)
                   else Ret None) ;;
      match exported with
      | Some err => Ret (Some (internal err))
      | None =>
          made <- make_target (host_target_path req) ;;
          match made with
          | Some err => Ret (Some (internal err))
          | None => mount_export req ctx.["volPathd"]
          end
      end
  end.

(** ** treeqnode.go *)

(** Treeqs of a file system share its export: it is made for the first one. *)
Definition Treeq_NodePublishVolume (nfs : NFSstorage) (req : NodePublishVolumeRequest) : prog ncall (option error) :=
  let ctx := NP_context req in
  lift (GetHostInfo (NP_Secrets req)) ;;;
  match ValidateVolumeID (NP_VolumeId req) with
  | Err err => Ret (Some (internal err))
  | Ok volumeInfo =>
      let fileSystemID := VolumeProtocolConfig_VolumeID volumeInfo in
      match export_switches nfs ctx with
      | Err err => Ret (Some (internal err))
      | Ok nfs =>
          exports <- lift (iboxAPI (GetExportsByFileSystemID fileSystemID)) ;;
          match exports with
          | (_, Some err) => Ret (Some (internal err))
          | (exports, None) =>
              let perms := ctx.[StorageClassNFSExportPermissions] in
              exported <- (match exports with
                           | [] => r <- lift (UpdateExport nfs fileSystemID
                                                (if String.eqb perms "" then node_export_perms req else perms)) ;;
                                   Ret (fst r)
                           | _ => Ret None
                           end) ;;
              match exported with
              | Some err => Ret (Some (internal err))
              | None =>
                  made <- make_target (host_target_path req) ;;
                  match made with
                  | Some err => Ret (Some (internal err))
                  | None => mount_export req ctx.["volumePath"]
                  end
              end
          end
      end
  end.

Definition Treeq_NodeUnpublishVolume (req : NodeUnpublishVolumeRequest) : prog ncall (option error) :=
  err <- UnmountAndCleanUp (NU_TargetPath req) ;;
  Ret (match err with Some err => Some (internal err) | None => None end).

(** ** cleanupnfsperm.go *)

Definition isCleanupNFSPermsSet : prog ncall bool :=
  envVarText <- getenv EnvVarCleanupNFSPerms ;;
  Ret (if String.eqb envVarText "" then false else match ParseBool envVarText with Ok b => b | Err _ => false end).

(** A volume without a secret for expansion makes the access to it panic. *)
Definition getPVSecret (volumeID : Z) : prog call (res (gmap string string)) :=
  client <- kubeAPI BuildClient ;;
  match client with
  | Some err => Ret (Err err)
  | None =>
      try pv <- GetPVByVolumeID volumeID ProtocolNFS catch err => Ret (Err err) ;;
      match PV_ControllerExpandSecretRef (snd pv) with
      | None => Panic
      | Some (name, namespace) => GetSecret name namespace
      end
  end.

Definition isVolumeMounted (fsName : string) : prog ncall (res bool) :=
  try out <- ExecCommand "nfsstat -m" "" catch err => Ret (Err err) ;;
  Ret (match StringToLines out with
       | Err err => Err err
       | Ok lines => Ok (existsb (fun line => Contains line fsName) lines)
       end).

(** [slices.Delete(s, i, i+1)]: the shorter slice, and what its array holds
    afterwards in the extent of [s], the end of which is cleared. *)
Definition slices_Delete (s : list Permissions) (i : nat) : list Permissions * list Permissions :=
  let shorter := take i s ++ drop (S i) s in
  (shorter, shorter ++ [MkPermissions "" false ""]).

(** One export: the last rule of the node goes, and with the only rule the
    export. [true] when the loop stops. *)
Definition clean_export (nodeIP : string) (export : Export) : prog call bool :=
  let permissions := Export_Permissions export in
  match last_index (fun permission => String.eqb (Permissions_Client permission) nodeIP) permissions 0 None, permissions with
  | None, _ => Ret false
  | Some _, [_] =>
      deleted <- iboxAPI (DeleteExport (Export_ID export)) ;;
      Ret (match deleted with Err _ => true | Ok _ => false end)
  | Some index, _ =>
      let '(updatedPerms, backing) := slices_Delete permissions index in
      iboxAPI (UpdateExportPermissions (Export_set_Permissions backing export) (ExportPathRef_of updatedPerms)) ;;;
      Ret false
  end.
Fixpoint clean_exports (nodeIP : string) (exports : list Export) : prog call unit :=
  match exports with
  | [] => Ret tt
  | export :: rest =>
      stop <- clean_export nodeIP export ;;
      if (stop : bool) then Ret tt else clean_exports nodeIP rest
  end.

Section cleanup.
Context (url_Parse : string -> res (string * string)) (url_ParseRequestURI : string -> bool).

(** Errors are only logged. *)
Definition cleanupNFSPerms (volumeID : Z) : prog ncall unit :=
  getenv EnvVarKubeNodeName ;;;
  nodeIP <- getenv EnvVarNodeIP ;;
  secretMap <- lift (getPVSecret volumeID) ;;
  match secretMap with
  | Err _ => Ret tt
  | Ok secretMap =>
      client <- lift (NewClient url_Parse url_ParseRequestURI secretMap) ;;
      match client with
      | Err _ => Ret tt
      | Ok _ =>
          r <- lift (iboxAPI (GetFileSystemByID volumeID)) ;;
          match r with
          | Err _ => Ret tt
          | Ok fileSystem =>
              exports <- lift (iboxAPI (GetExportsByFileSystemID volumeID)) ;;
              match exports with
              | (_, Some _) | ([], None) => Ret tt
              | (exports, None) =>
                  volumeMounted <- isVolumeMounted (FileSystem_Name fileSystem) ;;
                  match volumeMounted with
                  | Ok false => lift (clean_exports nodeIP exports)
                  | _ => Ret tt
                  end
              end
          end
      end
  end.

Definition NodeUnpublishVolume (nfs : NFSstorage) (req : NodeUnpublishVolumeRequest) : prog ncall (option error) :=
  unmounted <- UnmountAndCleanUp (NU_TargetPath req) ;;
  match unmounted with
  | Some err => Ret (Some (internal err))
  | None =>
      clean <- isCleanupNFSPermsSet ;;
      (if (clean : bool) then cleanupNFSPerms (VolumeProtocolConfig_VolumeID (VolProto (CS nfs))) else Ret tt) ;;;
      Ret None
  end.
End cleanup.

Example GetNFSVersionPort_example :
  map GetNFSVersionPort [[]; ["vers=4.1"; "hard"]; ["nfsvers=3"; "port=20490"]; ["vers=4"; "port=2050"]; ["mountport=7"]]
  = [("3", "2049"); ("4.1", "12049"); ("3", "20490"); ("4", "12049"); ("3", "7")].
Proof. vm_compute. reflexivity. Qed.
