(* ===== verification/BlockNode.v ===== *)
(** What the node halves of Fibre Channel, iSCSI and NVMe have in common:
    registering the node's ports with its host, undoing a staging, and growing a
    volume. The sources repeat these passages; where they differ (texts, kinds of
    port) the difference is an argument. *)
From stdpp Require Import base strings list gmap.
From S2P Require Import Prelude GoLib IboxTypes Traces Fmt Csi Helper StorageCommon Host Mount Multipath.
From Stdlib Require Import ZArith Ascii.

Local Open Scope string_scope.
Local Open Scope list_scope.

Definition internal (err : error) : error := impl Internal (Error err).
Definition internal_opt (err : option error) : option error := internal <$> err.

(** [GetHostPort], and [AddPortForHost] when the host lacks the port. *)
Definition register_port (hostID : Z) (portType port : string) : prog call (option error) :=
  found <- iboxAPI (GetHostPort hostID port) ;;
  match found with
  | Ok _ => Ret None
  | Err err =>
      if is_ErrNotFound err then
        added <- iboxAPI (AddHostPort portType port hostID) ;;
        Ret (match added with Err err => Some (internal err) | Ok _ => None end)
      else Ret (Some (internal err))
  end.

(** The end of every unpublication. *)
Definition NodeUnpublishVolume (req : NodeUnpublishVolumeRequest) : prog ncall (option error) :=
  err <- UnmountAndCleanUp (NU_TargetPath req) ;; Ret (internal_opt err).

(** The record kept for the volume below the staging path. *)
Inductive staged := Recorded (mpathDevice : string) | Unstaged | Unreadable.
Definition staged_disk (VolumeID : Z) (stagePath : string) : prog ncall staged :=
  loaded <- LoadDiskInfoFromFile (disk_of VolumeID) stagePath ;;
  match loaded with
  | Ok dskInfo => Ret (Recorded (MpathDevice dskInfo))
  | Err _ =>
      exists_ <- PathExists (PathJoin ["/host"; stagePath; Itoa VolumeID +:+ ".json"]) ;;
      Ret (match exists_ with (false, None) => Unstaged | _ => Unreadable end)
  end.
Definition mpath_of (s : staged) : string := match s with Recorded mpath => mpath | _ => "" end.

(** ** Growing a file system *)

(** The second field of every line; a line without it is skipped. *)
Definition raw_devices (output : string) : list string :=
  omap (fun line => match Split line "_" with _ :: device :: _ => Some device | _ => None end)
    (List.filter (fun line => negb (String.eqb line "")) (Split (TrimSpace output) (String newline ""))).

Definition show_paths_command (multipathDevice : string) : string :=
  "multipathd show paths raw format " +:+ String dquote ("%m_%d_" +:+ String dquote "")
  +:+ " | grep " +:+ Base multipathDevice +:+ "_".

(** [empty] is the error of a multipathd that says nothing, [no_part] that of a
    device that is not below /dev/mapper. The type of the file system is read
    last, through a mount that may be nil. *)
Definition expand_device (multipathDevice : string) (fsType : option string) (empty : error) (no_part : list string -> error)
    : prog ncall (option error) :=
  out <- ExecCommand (show_paths_command multipathDevice) "" ;;
  match out with
  | Err err => Ret (Some (internal err))
  | Ok out =>
      if String.eqb out "" then Ret (Some empty)
      else
        rescanned <- rescan_devices internal (raw_devices out) ;;
        match rescanned with
        | Some err => Ret (Some err)
        | None =>
            match SplitAfter multipathDevice "/dev/mapper/" with
            | _ :: name :: _ =>
                resized <- ExecCommand ("multipathd resize map " +:+ name) "" ;;
                match resized with
                | Err err => Ret (Some (internal err))
                | Ok _ =>
                    match fsType with
                    | None => Panic
                    | Some fsType => err <- ExpandFileSystem multipathDevice fsType ;; Ret (internal_opt err)
                    end
                end
            | mpathPart => Ret (Some (no_part mpathPart))
            end
        end
  end.

(** [req.GetVolumeCapability().GetBlock() != nil] and
    [req.GetVolumeCapability().GetMount().FsType]. *)
Definition NE_block (req : NodeExpandVolumeRequest) : bool :=
  match NE_VolumeCapability req with Some c => GetBlock c | None => false end.
Definition NE_fsType (req : NodeExpandVolumeRequest) : option string :=
  c ← NE_VolumeCapability req; fst <$> GetMount c.

Definition expand_multipath (req : NodeExpandVolumeRequest) (empty : string -> error) (no_part : list string -> error)
    : prog ncall (option error) :=
  if NE_block req then err <- BlockExpandVolume (NE_VolumePath req) ;; Ret (internal_opt err)
  else
    device <- FindMultipathDeviceFromVolumePath (NE_VolumePath req) ;;
    match device with
    | Err err => Ret (Some (internal err))
    | Ok multipathDevice => expand_device multipathDevice (NE_fsType req) (empty multipathDevice) no_part
    end.
