(* ===== verification/FcNode.v ===== *)
(** The node half of Fibre Channel: [storage/fc/fcnode.go]. *)
From stdpp Require Import base strings list gmap.
From S2P Require Import Prelude GoLib IboxTypes Traces Fmt Csi Helper StorageCommon Fc Host Mount Multipath BlockNode.
From Stdlib Require Import ZArith Ascii.

Local Open Scope string_scope.
Local Open Scope list_scope.

Record fcDevice := MkfcDevice {
  fc_VolumeID : Z;
  TargetWWNs : list string;
  fc_Lun : string;
  WWIDs : list string
}.
Definition FCPortOnline : string := "Online".
Definition online (p : PortInfo) : bool := String.eqb (PortState p) FCPortOnline.

(** ** Staging *)

Fixpoint register_ports (hostID : Z) (fcPorts : list string) : prog call (option error) :=
  match fcPorts with
  | [] => Ret None
  | fcp :: rest =>
      err <- register_port hostID "FC" fcp ;;
      match err with
      | Some err => Ret (Some err)
      | None => register_ports hostID rest
      end
  end.

Definition NodeStageVolume (req : NodeStageVolumeRequest) : prog ncall (option error) :=
  lift (GetHostInfo (NS_Secrets req)) ;;;
  match ValidatePublishContext (NS_PublishContext req) with
  | Err err => Ret (Some (internal err))
  | Ok (hostID, _) =>
      portInfo <- GetPortInfo ;;
      match portInfo with
      | [] => Ret (Some (impl Internal "port name not found on worker"))
      | _ =>
          if existsb online portInfo then lift (register_ports hostID (map PortName portInfo))
          else Ret (Some (impl Internal "all FC ports on worker are offline"))
      end
  end.

(** ** Publishing *)

Definition getFCDiskDetails (fc : FCstorage) (req : NodePublishVolumeRequest) : prog ncall (res fcDevice) :=
  let lun := (NP_PublishContext req).["lun"] in
  let wwidList := Split (NP_context req).["WWIDs"] "," in
  fcNodes <- lift (iboxAPI GetFCPorts) ;;
  Ret (match fcNodes with
       | (_, Some err) => Err err
       | ([], None) => Err (EText "error getting FC details, zero FC ports found")
       | (fcNodes, None) =>
           let wwpns := List.map FCPort_WWPn (mjoin (List.map FCNode_Ports fcNodes)) in
           let targetList := List.map (remove_byte ":") (List.filter (fun wwpn => negb (String.eqb wwpn "")) wwpns) in
           if String.eqb lun "" || (bool_decide (targetList = []) && bool_decide (wwidList = []))
           then Err (EText "FC target information is missing")
           else Ok (MkfcDevice (VolumeProtocolConfig_VolumeID (VolProto (FC_CS fc))) targetList lun wwidList)
       end).

(** One round over the disk ids: the path is looked up, with the same wwid, until
    there is one; without target names it is not looked up. *)
Fixpoint search_round (targets : bool) (wwid : string) (diskIDs : list string) (dmDevice : string) : prog ncall string :=
  match diskIDs with
  | [] => Ret dmDevice
  | _ :: rest =>
      dmDevice <- (if targets then GetDMDevicePath wwid else Ret dmDevice) ;;
      if String.eqb dmDevice "" then search_round targets wwid rest dmDevice else Ret dmDevice
  end.
Fixpoint search_rounds (tries : nat) (targets : bool) (wwid : string) (diskIDs : list string) (dmDevice : string)
    : prog ncall string :=
  match tries with
  | O => Ret dmDevice
  | S tries =>
      dmDevice <- search_round targets wwid diskIDs dmDevice ;;
      if negb (String.eqb dmDevice "") && Contains dmDevice "dm-" then Ret dmDevice
      else sleep 1 Second ;;; search_rounds tries targets wwid diskIDs dmDevice
  end.

(** [disk], the raw device, is never set. *)
Definition searchDisk (connector : fcDevice) : prog ncall (res string) :=
  let targets := bool_decide (TargetWWNs connector <> []) in
  let diskIDs := if targets then TargetWWNs connector else WWIDs connector in
  portInfo <- GetPortInfo ;;
  let fcHosts := List.map HostID (List.filter online portInfo) in
  match diskIDs with
  | [] => Panic
  | diskID :: _ =>
      try wwid <- RescanDeviceMap fcHosts diskID (fc_Lun connector) catch err => Ret (Err err) ;;
      tries <- env_number FCSearchDiskDelay 10 ;;
      dmDevice <- search_rounds (Z.to_nat tries) targets wwid diskIDs "" ;;
      Ret (if String.eqb dmDevice "" then Err (EText "no FC disk found") else Ok dmDevice)
  end.

Definition mountFCDisk (mounter : Mounter) (devicePath : string) (volumeID : Z) : prog ncall (option error) :=
  let diskInfo := MkDiskInfo NodeRootDir devicePath (IsBlock mounter) volumeID in
  mounted <- MountLogic diskInfo (TargetPath mounter) devicePath (StagePath mounter) (FsType mounter)
               (MountOptions mounter) (IsBlock mounter) (ReadOnly mounter) ;;
  match mounted with
  | Some err => Ret (Some err)
  | None => if String.prefix "/dev/dm-" devicePath && negb (ReadOnly mounter)
            then CreateConfigFile diskInfo (StagePath mounter) else Ret None
  end.

Definition NodePublishVolume (fc : FCstorage) (req : NodePublishVolumeRequest) : prog ncall (option error) :=
  lift (GetHostInfo (NP_Secrets req)) ;;;
  fcDetails <- getFCDiskDetails fc req ;;
  match fcDetails with
  | Err err => Ret (Some (internal err))
  | Ok fcDetails =>
      found <- searchDisk fcDetails ;;
      match found with
      | Err err => Ret (Some (internal err))
      | Ok found =>
          let devicePath := replace_first found "/host" "" in
          match GetDiskMounter req with
          | Err err => Ret (Some (internal err))
          | Ok diskMounter =>
              mounted <- mountFCDisk diskMounter devicePath (fc_VolumeID fcDetails) ;;
              match mounted with
              | Some err => Ret (Some (internal err))
              | None =>
                  LogPermissions (Dir ("/host" +:+ TargetPath diskMounter)) ;;;
                  LogPermissions ("/host" +:+ devicePath) ;;;
                  if ReadOnly diskMounter then Ret None
                  else err <- SetVolumePermissions req ;; Ret (internal_opt err)
              end
          end
      end
  end.

(** ** Unstaging *)

(** Without a record the staging path itself is removed; below /host otherwise. *)
Definition NodeUnstageVolume (fc : FCstorage) (req : NodeUnstageVolumeRequest) : prog ncall (option error) :=
  let stagePath := NUS_StagingTargetPath req in
  hostAPI (Spawn "ls" ["/host/" +:+ stagePath]) ;;;
  disk <- staged_disk (VolumeProtocolConfig_VolumeID (VolProto (FC_CS fc))) stagePath ;;
  match disk with
  | Unstaged => err <- hostAPI (RemoveAll stagePath) ;; Ret (internal_opt err)
  | _ =>
      DetachMpathDevice (mpath_of disk) ;;;
      err <- hostAPI (RemoveAll ("/host" +:+ stagePath)) ;; Ret (internal_opt err)
  end.

(** ** Growing *)

(** The error of an empty answer is no [ImplementationError]. *)
Definition NodeExpandVolume (req : NodeExpandVolumeRequest) : prog ncall (option error) :=
  expand_multipath req
    (fun multipathDevice => EText ("error getting multipathDevice: " +:+ multipathDevice +:+ ", command output was empty"))
    (fun mpathPart => impl Internal ("error getting mpathPart: " +:+ brackets mpathPart)).
