(* ===== verification/IscsiNode.v ===== *)
(** The node half of iSCSI: [storage/iscsi/iscsinode.go]. *)
From stdpp Require Import base strings list gmap.
From S2P Require Import Prelude GoLib IboxTypes Traces Fmt Csi Helper StorageCommon Iscsi Json Host Mount Multipath BlockNode.
From Stdlib Require Import ZArith Ascii.

Local Open Scope string_scope.
Local Open Scope list_scope.

Definition devMapperDir : string := "/dev/mapper/".
Definition CHAPInboundUsername : string := "security_chap_inbound_username".
Definition CHAPInboundSecret : string := "security_chap_inbound_secret".
Definition CHAPOutboundUsername : string := "security_chap_outbound_username".
Definition CHAPOutboundSecret : string := "security_chap_outbound_secret".
Definition SecurityMethod : string := "security_method".
Definition SecurityMethodCHAP : string := "CHAP".
Definition SecurityMethodMutualCHAP : string := "MUTUAL_CHAP".
Definition UseCHAP : string := "chap".
Definition UseMutualCHAP : string := "mutual_chap".
Definition CHAPUsername : string := "node.session.auth.username".
Definition CHAPPassword : string := "node.session.auth.password".
Definition CHAPUsernameIn : string := "node.session.auth.username_in".
Definition CHAPPasswordIn : string := "node.session.auth.password_in".
Definition CHAPSessionCredentials : list string := [CHAPUsername; CHAPPassword; CHAPUsernameIn; CHAPPasswordIn].

Record iscsiTarget := MkiscsiTarget { Portals : list string; Iqn : string }.
Record iscsiDevice := MkiscsiDevice {
  Lun : string;
  Iface : string;
  CHAPDiscovery : bool;
  CHAPSession : bool;
  Secret : gmap string string;
  InitiatorName : string;
  VolName : string;
  VolumeID : Z;
  Targets : list iscsiTarget
}.
Record SessionDetails := MkSessionDetails {
  protocol : string;
  ipAddress : string;
  hostID : string;
  iqn : string
}.

(** [strconv.Quote] ([%q]) of a text of ASCII characters. *)
Definition quote_char (c : ascii) : string :=
  if Ascii.eqb c dquote || Ascii.eqb c "\" then String "\" (String c "")
  else if (code c =? 7)%Z then "\a" else if (code c =? 8)%Z then "\b" else if (code c =? 12)%Z then "\f"
  else if (code c =? 10)%Z then "\n" else if (code c =? 13)%Z then "\r" else if (code c =? 9)%Z then "\t"
  else if (code c =? 11)%Z then "\v"
  else if (code c <? 32)%Z || (code c =? 127)%Z
  then "\x" +:+ String (hex_char (code c / 16)) (String (hex_char (code c mod 16)) "")
  else String c "".
Fixpoint quote_chars (s : string) : string :=
  match s with EmptyString => "" | String c s' => quote_char c +:+ quote_chars s' end.
Definition quote_q (s : string) : string := String dquote (quote_chars s +:+ String dquote "").

Definition iscsiadm (args : string) : prog ncall (res string) := ExecCommand "iscsiadm" args.

(** ** Staging *)

(** The second of the parts the equals signs make of the lines found; without
    any the access panics. *)
Definition getInitiatorName : prog ncall (res string) :=
  answer <- hostAPI (Spawn "bash" ["-c"; "cat /etc/iscsi/initiatorname.iscsi | grep InitiatorName="]) ;;
  match answer with
  | (_, _, Some e) => Ret (Err (impl Internal (run_text e)))
  | (out, _, None) =>
      match Split (TrimSuffix out (String newline "")) "=" with
      | _ :: name :: _ => Ret (if String.eqb name "" then Err (impl Internal "initiator name is empty") else Ok name)
      | _ => Panic
      end
  end.

(** The credentials sent to the array. *)
Definition chap_credentials (useChap : string) (secrets : gmap string string) : res (gmap string string) :=
  let missing := EText "iscsi mutual chap credentials not provided" in
  let given key := negb (String.eqb secrets.[key] "") in
  let inbound :=
    if String.eqb useChap UseCHAP || String.eqb useChap UseMutualCHAP then
      if given CHAPUsername && given CHAPPassword
      then Ok (<[CHAPInboundUsername := secrets.[CHAPUsername]]>
              (<[CHAPInboundSecret := secrets.[CHAPPassword]]> {[SecurityMethod := SecurityMethodCHAP]}))
      else Err missing
    else Ok ∅ in
  res_bind inbound (fun creds : gmap string string =>
    if String.eqb useChap UseMutualCHAP then
      if given CHAPUsernameIn && given CHAPPasswordIn && String.eqb creds.[SecurityMethod] SecurityMethodCHAP
      then Ok (<[CHAPOutboundUsername := secrets.[CHAPUsernameIn]]>
              (<[CHAPOutboundSecret := secrets.[CHAPPasswordIn]]>
              (<[SecurityMethod := SecurityMethodMutualCHAP]> creds)))
      else Err missing
    else Ok creds).
Definition addCHAPSecurity (useChap : string) (hostID : Z) (secrets : gmap string string) : prog call (option error) :=
  match chap_credentials useChap secrets with
  | Err err => Ret (Some err)
  | Ok chapCreds =>
      if (1 <? size chapCreds)%nat then
        added <- iboxAPI (AddHostSecurity chapCreds hostID) ;;
        Ret (match added with Err err => Some err | Ok _ => None end)
      else Ret None
  end.

Definition NodeStageVolume (req : NodeStageVolumeRequest) : prog ncall (option error) :=
  lift (GetHostInfo (NS_Secrets req)) ;;;
  match ValidatePublishContext (NS_PublishContext req) with
  | Err err => Ret (Some (internal err))
  | Ok (hostID, ports) =>
      initiator <- getInitiatorName ;;
      match initiator with
      | Err err => Ret (Some (internal err))
      | Ok initiatorName =>
          registered <- lift (register_port hostID "ISCSI" initiatorName) ;;
          match registered with
          | Some err => Ret (Some err)
          | None =>
              let useChap := (NS_VolumeContext req).[StorageClassUseCHAP] in
              let hostSecurity := (NS_PublishContext req).["securityMethod"] in
              if negb (String.eqb (ToLower hostSecurity) useChap) || negb (Contains ports initiatorName) then
                err <- lift (addCHAPSecurity useChap hostID (NS_Secrets req)) ;; Ret (internal_opt err)
              else Ret None
          end
      end
  end.

(** ** What is to be attached *)

(** The portals of a network space that are enabled and can be reached. *)
Fixpoint open_portals (port : Z) (portals : list Portal) : prog ncall (list string) :=
  match portals with
  | [] => Ret []
  | portal :: rest =>
      if Portal_Enabled portal then
        err <- ValidateIPAddress (Portal_IPAddress portal) port ;;
        others <- open_portals port rest ;;
        Ret (match err with Some _ => others | None => PortalMounter (Portal_IPAddress portal) :: others end)
      else open_portals port rest
  end.
Fixpoint network_targets (networkSpaces : list string) : prog ncall (res (list iscsiTarget)) :=
  match networkSpaces with
  | [] => Ret (Ok [])
  | networkSpace :: rest =>
      try nspace <- lift (iboxAPI (GetNetworkSpaceByName networkSpace)) catch err => Ret (Err err) ;;
      let properties := NetworkSpace_Properties nspace in
      portals <- open_portals (NetworkSpaceProperty_ISCSITCPPort properties) (NetworkSpace_Portals nspace) ;;
      try targets <- network_targets rest catch err => Ret (Err err) ;;
      Ret (Ok (MkiscsiTarget portals (NetworkSpaceProperty_ISCSIIqn properties) :: targets))
  end.
(** The client of the array is always set in a publication. *)
Definition getISCSITargets (req : NodePublishVolumeRequest) : prog ncall (res (list iscsiTarget)) :=
  try targets <- network_targets (Split (NP_context req).[StorageClassNetworkSpace] ",") catch err => Ret (Err err) ;;
  Ret (if existsb (fun t => bool_decide (Portals t <> [])) targets then Ok targets
       else Err (EText "no network space IP addresses available")).

Fixpoint copy_credentials (keys : list string) (secretParams secret : gmap string string) : res (gmap string string) :=
  match keys with
  | [] => Ok secret
  | key :: rest =>
      match secretParams !! key with
      | Some v => copy_credentials rest secretParams (<[key := v]> secret)
      | None => Err (impl Internal (key +:+ " not found in secret"))
      end
  end.
Definition parseSessionSecret (useChap : string) (secretParams : gmap string string) : res (gmap string string) :=
  if String.eqb useChap UseCHAP || String.eqb useChap UseMutualCHAP then
    if (size secretParams =? 0)%nat
    then Err (impl Internal "parseSessionSecret (iscsi): required chap secrets not provided")
    else
      res_bind (copy_credentials (if String.eqb useChap UseMutualCHAP then CHAPSessionCredentials
                                  else [CHAPUsername; CHAPPassword]) secretParams ∅)
        (fun secret => Ok (<["SecretsType" := UseCHAP]> secret))
  else Ok ∅.

Definition getISCSIDisk (iscsi : ISCSIstorage) (req : NodePublishVolumeRequest) (targets : list iscsiTarget)
    : prog ncall (res iscsiDevice) :=
  try initiatorName <- getInitiatorName catch err => Ret (Err (internal err)) ;;
  let id := VolumeProtocolConfig_VolumeID (VolProto (ISCSI_CS iscsi)) in
  let lun := (NP_PublishContext req).["lun"] in
  if String.eqb lun "" then Ret (Err (impl Internal "LUN is missing"))
  else
    let useChap := (NP_context req).[StorageClassUseCHAP] in
    let chapSession := negb (String.eqb useChap "none") in
    match (if chapSession then parseSessionSecret useChap (NP_Secrets req) else Ok (NP_Secrets req)) with
    | Err err => Ret (Err (internal err))
    | Ok secret =>
        Ret (Ok {| Lun := lun; Iface := "default";
                   CHAPDiscovery := String.eqb (NP_context req).["discoveryCHAPAuth"] "true";
                   CHAPSession := chapSession; Secret := secret; InitiatorName := initiatorName;
                   VolName := Itoa id; VolumeID := id; Targets := targets |})
    end.

(** ** iscsiadm *)

(** [FindStringSubmatch] of [ifaceTransportNameRe]: the leftmost match, its group
    what is left of the line, which must have an end. *)
Fixpoint up_to_newline (s : string) : option string :=
  match s with
  | EmptyString => None
  | String c s' => if Ascii.eqb c newline then Some "" else String c <$> up_to_newline s'
  end.
Definition transport_at (s : string) : option string :=
  match Json.strip_prefix "iface" s with
  | Some (String c rest) =>
      if Ascii.eqb c newline then None
      else rest' ← Json.strip_prefix "transport_name = " rest; up_to_newline rest'
  | _ => None
  end.
Fixpoint find_transport (s : string) : option string :=
  match transport_at s with
  | Some name => Some name
  | None => match s with EmptyString => None | String _ s' => find_transport s' end
  end.
Definition extractTransportName (diskMounterIface : string) : prog ncall (res string) :=
  try commandOutput <- iscsiadm ("--mode iface --interface " +:+ diskMounterIface +:+ " --op show") catch err => Ret (Err err) ;;
  Ret (match find_transport commandOutput with
       | None => Ok ""
       | Some name =>
           if String.eqb name "<empty>" then Ok "tcp"
           else if String.eqb name "" then Err (EText ("could not find transport name in iface: " +:+ diskMounterIface))
           else Ok name
       end).

Fixpoint iface_params (lines : list string) (params : gmap string string) : res (gmap string string) :=
  match lines with
  | [] => Ok params
  | line :: rest =>
      if negb (String.prefix "iface." line) || Contains line "<empty>" then iface_params rest params
      else match Fields line with
           | [key; eq; value] =>
               if String.eqb eq "=" then
                 iface_params rest (if String.eqb key "iface.iscsi_ifacename" then params else <[key := value]> params)
               else Err (EText ("invalid iface setting " +:+ brackets [key; eq; value]))
           | iface => Err (EText ("invalid iface setting " +:+ brackets iface))
           end
  end.
Definition parseIscsiadmShow (output : string) : res (gmap string string) :=
  iface_params (Split output (String newline "")) ∅.

(** The records are written in the order the map is ranged over. The deletion
    after a failed write hides the error of the write from the message. *)
Fixpoint update_iface (newIface defaultIface out : string) (params : gmap string string) (keys : list string)
    : prog ncall (option error) :=
  match keys with
  | [] => Ret None
  | key :: rest =>
      updated <- iscsiadm ("--mode iface --interface " +:+ newIface +:+ " --op update --name " +:+ quote_q key
                           +:+ " --value " +:+ quote_q params.[key]) ;;
      match updated with
      | Ok _ => update_iface newIface defaultIface out params rest
      | Err _ =>
          deleted <- iscsiadm ("--mode iface --interface " +:+ newIface +:+ " --op delete") ;;
          Ret (Some (match deleted with
                     | Err err => err
                     | Ok _ => EText ("failed to update iface records: " +:+ out +:+ " error: %!s(<nil>) iface: "
                                      +:+ defaultIface +:+ " will be used")
                     end))
      end
  end.
Definition cloneIface (disk : iscsiDevice) (newIface : string) : prog ncall (option error) :=
  out <- iscsiadm ("--mode iface --interface " +:+ Iface disk +:+ " --op show") ;;
  match out with
  | Err err => Ret (Some err)
  | Ok out =>
      match parseIscsiadmShow out with
      | Err err => Ret (Some err)
      | Ok params =>
          let params := <["iface.initiatorname" := InitiatorName disk]> params in
          made <- iscsiadm ("--mode iface --interface " +:+ newIface +:+ " --op new") ;;
          match made with
          | Err err => Ret (Some err)
          | Ok out =>
              order <- lift (osAPI (MapOrder (List.map fst (map_to_list params)))) ;;
              update_iface newIface (Iface disk) out params order
          end
      end
  end.

(** One interface per target, for a disk without an initiator. *)
Fixpoint clone_ifaces (disk : iscsiDevice) (targets : list iscsiTarget) : prog ncall (option error) :=
  match targets with
  | [] => Ret None
  | target :: rest =>
      match Portals target with
      | [] => Panic
      | newIface :: _ =>
          shown <- iscsiadm ("--mode iface --interface " +:+ newIface +:+ " --op show") ;;
          match shown with
          | Ok _ => clone_ifaces disk rest
          | Err _ =>
              cloned <- cloneIface disk newIface ;;
              match cloned with
              | Some err => Ret (Some (internal err))
              | None => clone_ifaces disk rest
              end
          end
      end
  end.

(** Every portal of every target. *)
Definition all_portals (targets : list iscsiTarget) : list (string * string) :=
  mjoin (List.map (fun t => List.map (fun portal => (Iqn t, portal)) (Portals t)) targets).

Fixpoint discover_portals (portals : list (string * string)) : prog ncall (option error) :=
  match portals with
  | [] => Ret None
  | (_, portal) :: rest =>
      out <- iscsiadm ("--mode discoverydb --type sendtargets --portal " +:+ portal +:+ " --discover --op new --op delete") ;;
      match out with
      | Err err => Ret (Some (EWrap "command output  " err ""))
      | Ok _ => discover_portals rest
      end
  end.
Definition discoverISCITargets (targets : list iscsiTarget) : prog ncall (option error) :=
  discover_portals (all_portals targets).

Definition update_node (portal iqn name value : string) : prog ncall (option error) :=
  out <- iscsiadm ("--mode node --portal " +:+ portal +:+ " --targetname " +:+ iqn +:+ " --op update --name " +:+ name
                   +:+ " --value " +:+ value) ;;
  Ret (match out with Err err => Some (internal err) | Ok _ => None end).
Fixpoint update_credentials (disk : iscsiDevice) (portal iqn : string) (keys : list string) : prog ncall (option error) :=
  match keys with
  | [] => Ret None
  | credential :: rest =>
      let v := (Secret disk).[credential] in
      if String.eqb v "" then update_credentials disk portal iqn rest
      else
        err <- update_node portal iqn (quote_q credential) (quote_q v) ;;
        match err with Some err => Ret (Some err) | None => update_credentials disk portal iqn rest end
  end.
Definition updateISCSINode (disk : iscsiDevice) (iqn portal : string) : prog ncall (option error) :=
  if CHAPSession disk then
    err <- update_node portal iqn "node.session.auth.authmethod" "CHAP" ;;
    match err with
    | Some err => Ret (Some err)
    | None => update_credentials disk portal iqn CHAPSessionCredentials
    end
  else Ret None.
(** Errors are only logged. *)
Fixpoint update_portals (disk : iscsiDevice) (portals : list (string * string)) : prog ncall unit :=
  match portals with
  | [] => Ret tt
  | (iqn, portal) :: rest => updateISCSINode disk iqn portal ;;; update_portals disk rest
  end.
Definition updateForCHAP (disk : iscsiDevice) (targets : list iscsiTarget) : prog ncall unit :=
  if CHAPSession disk then update_portals disk (all_portals targets)
  else match targets with [] => Panic | _ => Ret tt end.

(** The sessions in the lines of iscsiadm, as in
    "tcp: [5] 172.31.32.145:3260,1 iqn.2009-11.com.infinidat:... (non-flash)";
    a shorter line panics. *)
Definition session_of (line : string) : option SessionDetails :=
  match Split line " " with
  | p0 :: _ :: p2 :: p3 :: _ =>
      match Split p2 "," with
      | address :: host :: _ => Some (MkSessionDetails (hd "" (Split p0 ":")) address host p3)
      | _ => None
      end
  | _ => None
  end.
Definition getSessionDetails : prog ncall (list SessionDetails) :=
  out <- iscsiadm "--mode session" ;;
  match out with
  | Err _ => Ret []
  | Ok out =>
      match StringToLines out with
      | Err _ => Ret []
      | Ok lines =>
          match mapM session_of (List.filter (fun line => negb (String.eqb line "")) lines) with
          | Some sessions => Ret sessions
          | None => Panic
          end
      end
  end.

(** [status.Code(err) == codes.AlreadyExists]. *)
Definition already_exists (err : error) : bool := match err with EStatus AlreadyExists _ => true | _ => false end.
Fixpoint login_portals (portals : list (string * string)) : prog ncall (option error) :=
  match portals with
  | [] => Ret None
  | (iqn, portal) :: rest =>
      out <- iscsiadm ("--mode node --targetname " +:+ iqn +:+ " --portal " +:+ portal +:+ " --login") ;;
      match out with
      | Ok _ => login_portals rest
      | Err err =>
          if already_exists err then login_portals rest
          else Ret (Some (EText ("iscsi login failed to target iqn: " +:+ iqn +:+ ", portal " +:+ portal +:+ " err: "
                                 +:+ Error err)))
      end
  end.
(** The targets without a session, asked before the first login. *)
Definition loginToTargets (targets : list iscsiTarget) : prog ncall (option error) :=
  sessionDetails <- getSessionDetails ;;
  let known t := existsb (fun s => String.eqb (iqn s) (Iqn t)) sessionDetails in
  err <- login_portals (all_portals (List.filter (fun t => negb (known t)) targets)) ;;
  match err with
  | Some err => Ret (Some err)
  | None => getSessionDetails ;;; Ret None
  end.

(** The numbers in brackets of the lines that mention tcp. *)
Fixpoint host_ids (lines : list string) : res (list string) :=
  match lines with
  | [] => Ok []
  | line :: rest =>
      if Contains line "tcp" then
        match Split (TrimLeft line " ") " " with
        | _ :: rawNumber :: _ =>
            res_bind (host_ids rest) (fun hosts => Ok (remove_byte "]" (remove_byte "[" rawNumber) :: hosts))
        | _ => Err (EText ("error could not parse host number " +:+ TrimLeft line " "))
        end
      else host_ids rest
  end.
Definition getHostIDs : prog ncall (res (list string)) :=
  try out <- iscsiadm "-m host -P0" catch err => Ret (Err err) ;;
  Ret (host_ids (Split out (String newline ""))).

(** ** Attaching *)

Fixpoint find_dm (tries : nat) (wwid : string) : prog ncall string :=
  match tries with
  | O => Ret ""
  | S tries =>
      dmDevice <- GetDMDevicePath wwid ;;
      if String.eqb dmDevice "" then sleep 1 Second ;;; find_dm tries wwid else Ret dmDevice
  end.

(** Find the disk and mount it. The mount options of the request are not used. *)
Definition mount_disk (diskMounter : Mounter) (disk : iscsiDevice) (dmDevice : string) : prog ncall (res string) :=
  try thisMpath <- FindMpathFromDevice (replace_first dmDevice "/host" "") catch err => Ret (Err (internal err)) ;;
  let devicePath := devMapperDir +:+ thisMpath in
  mounted <- MountLogic (MkDiskInfo NodeRootDir thisMpath false (VolumeID disk)) (TargetPath diskMounter) devicePath
               (StagePath diskMounter) (FsType diskMounter) [] (IsBlock diskMounter) (ReadOnly diskMounter) ;;
  Ret (match mounted with Some err => Err (internal err) | None => Ok devicePath end).

Definition AttachDisk (diskMounter : Mounter) (disk : iscsiDevice) : prog ncall (res string) :=
  try _transport <- extractTransportName (Iface disk) catch err => Ret (Err (internal err)) ;;
  let targets := Targets disk in
  cloned <- (if String.eqb (InitiatorName disk) "" then clone_ifaces disk targets else Ret None) ;;
  match cloned with
  | Some err => Ret (Err err)
  | None =>
  discovered <- discoverISCITargets targets ;;
  match discovered with
  | Some err => Ret (Err (internal err))
  | None =>
  updateForCHAP disk targets ;;;
  loggedin <- loginToTargets targets ;;
  match loggedin with
  | Some err => Ret (Err (internal err))
  | None =>
      try hosts <- getHostIDs catch err => Ret (Err (internal err)) ;;
      try wwid <- RescanDeviceMap hosts (VolName disk) (Lun disk) catch err => Ret (Err (internal err)) ;;
      dmDevice <- find_dm 10 wwid ;;
      if String.eqb dmDevice "" then
        Ret (Err (impl Internal ("error, could not find a dm device for wwid: " +:+ wwid)))
      else mount_disk diskMounter disk dmDevice
  end end end.

Definition NodePublishVolume (iscsi : ISCSIstorage) (req : NodePublishVolumeRequest) : prog ncall (option error) :=
  (* the access mode is read for the log *)
  match c ← NP_VolumeCapability req; GetAccessMode c with
  | None => Panic
  | Some _ =>
      lift (GetHostInfo (NP_Secrets req)) ;;;
      targets <- getISCSITargets req ;;
      match targets with
      | Err err => Ret (Some (internal err))
      | Ok targets =>
          disk <- getISCSIDisk iscsi req targets ;;
          match disk with
          | Err err => Ret (Some (internal err))
          | Ok disk =>
              match GetDiskMounter req with
              | Err err => Ret (Some (internal err))
              | Ok diskMounter =>
                  attached <- AttachDisk diskMounter disk ;;
                  match attached with
                  | Err err => Ret (Some (internal err))
                  | Ok _ =>
                      if ReadOnly diskMounter then Ret None
                      else err <- SetVolumePermissions req ;; Ret (internal_opt err)
                  end
              end
          end
      end
  end.

(** ** Unstaging *)

Definition getMultipathDeviceCount : prog ncall (res nat) :=
  answer <- hostAPI (SpawnCombined "bash" ["-c"; pipefail "multipath -ll -v 1"]) ;;
  Ret (match answer with (_, Some e) => Err (run_err e) | (out, None) => Ok (length (Fields out)) end).
Definition logoutAllSessions : prog ncall (option error) :=
  answer <- hostAPI (SpawnCombined "bash" ["-c"; pipefail "iscsiadm --mode node --logoutall=all"]) ;;
  Ret (run_err <$> snd answer).

(** Sessions are left when no device remains; errors are only logged. *)
Definition logout_unused : prog ncall unit :=
  sleep 3 Second ;;;
  deviceCount <- getMultipathDeviceCount ;;
  match deviceCount with
  | Ok O => logoutAllSessions ;;; Ret tt
  | _ => Ret tt
  end.

Definition NodeUnstageVolume (iscsi : ISCSIstorage) (req : NodeUnstageVolumeRequest) : prog ncall (option error) :=
  let id := VolumeProtocolConfig_VolumeID (VolProto (ISCSI_CS iscsi)) in
  let stagePath := NUS_StagingTargetPath req in
  disk <- staged_disk id stagePath ;;
  match disk with
  | Unstaged => hostAPI (RemoveAll stagePath) ;;; Ret None
  | _ =>
      DetachMpathDevice (mpath_of disk) ;;;
      let removePath := PathJoin ["/host"; stagePath] in
      isADir <- IsDirectory removePath ;;
      match isADir with
      | Err err => Ret (Some (internal err))
      | Ok isADir =>
          emptied <- (if isADir then hostAPI (Remove (removePath +:+ "/" +:+ Itoa id +:+ ".json")) else Ret None) ;;
          match emptied with
          | Some err => Ret (Some (internal err))
          | None =>
              removed <- hostAPI (Remove removePath) ;;
              match removed with
              | Some err => Ret (Some (internal err))
              | None => logout_unused ;;; Ret None
              end
          end
      end
  end.

(** ** Growing *)

Definition NodeExpandVolume (req : NodeExpandVolumeRequest) : prog ncall (option error) :=
  lift (GetHostInfo (NE_Secrets req)) ;;;
  expand_multipath req
    (fun multipathDevice => impl Internal ("error getting multipath devices from output " +:+ multipathDevice
                                           +:+ " command output was empty"))
    (fun mpathPart => impl Internal (brackets mpathPart +:+ " mpath did not have 2 parts")).

Example iscsiadm_texts :
  (find_transport ("iface.hwaddress = x" +:+ String newline ("iface.transport_name = tcp" +:+ String newline "")),
   session_of "tcp: [5] 172.31.32.145:3260,1 iqn.2009-11.com.infinidat:1 (non-flash)",
   host_ids ["tcp: [34] 172.20.65.31,[<empty>],<empty> <empty>"; "x"])
  = (Some "tcp", Some (MkSessionDetails "tcp" "172.31.32.145:3260" "1" "iqn.2009-11.com.infinidat:1"), Ok ["34"]).
Proof. vm_compute. reflexivity. Qed.
