(* ===== verification/NvmeNode.v ===== *)
(** The node half of NVMe over TCP: [storage/nvme/nvmenode.go] and [nvme.go]. *)
From stdpp Require Import base strings list gmap.
From S2P Require Import Prelude GoLib IboxTypes Traces Fmt Csi Helper StorageCommon Nvme Host Mount Multipath BlockNode.
From Stdlib Require Import ZArith Ascii.

Local Open Scope string_scope.
Local Open Scope list_scope.

Definition NVMEDiscoveryPort : Z := 8009.

Record NVMEDeviceInfo := MkNVMEDeviceInfo { Node : string; Namespace : Z }.
Record nvmeDevice := MknvmeDevice {
  nvme_lun : string;
  HostNQN : string;
  nvme_VolumeID : Z
}.

(** ** nvme.go *)

Definition getHostNQN : prog ncall (res string) :=
  try content <- hostAPI (ReadFile "/host/etc/nvme/hostnqn") catch err =>
    Ret (Err (EWrap "getHostNQN (nvme) - failed to read hostnqn file error: " err "")) ;;
  Ret (Ok (TrimSuffix content (String newline ""))).

(** [strconv.ParseInt(s, 16, 0)]: a sign, then hexadecimal digits. *)
Definition parse_hex (s : string) : option Z :=
  match hex_prefix s 0 0 with
  | (S _, v, EmptyString) => Some v
  | _ => None
  end.
Definition ParseInt16 (s : string) : res Z :=
  let value := match s with
               | String "+" s' => parse_hex s'
               | String "-" s' => Z.opp <$> parse_hex s'
               | _ => parse_hex s
               end in
  match value with
  | None => Err (num_error "ParseInt" s "invalid syntax")
  | Some z => if ((int64_min <=? z) && (z <=? int64_max))%Z then Ok z
              else Err (num_error "ParseInt" s "value out of range")
  end.
Definition namespace_number (field : string) : res Z :=
  ParseInt16 (if String.prefix "0x" field && (2 <? String.length field)%nat
              then String.substring 2 (String.length field) field else field).

(** The fields of a line under the columns of the header; a line that is too short
    for a column looked at panics ([None]). *)
Fixpoint read_columns (columns fields : list string) (i : nat) (element : NVMEDeviceInfo) : option (res NVMEDeviceInfo) :=
  match columns with
  | [] => Some (Ok element)
  | column :: rest =>
      if String.eqb column "Node" then
        field ← fields !! i; read_columns rest fields (S i) (MkNVMEDeviceInfo field (Namespace element))
      else if String.eqb column "Namespace" then
        field ← fields !! i;
        match namespace_number field with
        | Err err => Some (Err err)
        | Ok number => read_columns rest fields (S i) (MkNVMEDeviceInfo (Node element) number)
        end
      else read_columns rest fields (S i) element
  end.
Fixpoint read_lines (columns lines : list string) : option (res (list NVMEDeviceInfo)) :=
  match lines with
  | [] => Some (Ok [])
  | line :: rest =>
      if String.eqb line "" then read_lines columns rest
      else
        element ← read_columns columns (Fields line) 0 (MkNVMEDeviceInfo "" 0);
        match element with
        | Err err => Some (Err err)
        | Ok element =>
            devices ← read_lines columns rest;
            Some (match devices with Err err => Err err | Ok devices => Ok (element :: devices) end)
        end
  end.
(** The header takes two lines; an output of one line panics. *)
Definition getNVMENamespacesByNormalOutput : prog ncall (res (list NVMEDeviceInfo)) :=
  try rawOutput <- ExecCommand "nvme list" "" catch err =>
    Ret (Err (EWrap "(nvme) error command: nvme list error: " err " output: ")) ;;
  match Split rawOutput (String newline "") with
  | header :: _ :: lines =>
      match read_lines (Fields header) lines with
      | None => Panic
      | Some devices => Ret devices
      end
  | _ => Panic
  end.

Definition nvmeConnectAll (ipAddress : string) : prog ncall (option error) :=
  let cmd := "nvme connect-all -t tcp -a " +:+ ipAddress in
  out <- ExecCommand cmd "" ;;
  Ret (match out with
       | Err err => Some (EWrap ("nvmeConnectAll (nvme) - failed command: " +:+ cmd +:+ " ipaddress: " +:+ ipAddress
                                 +:+ " output:  error: ") err "")
       | Ok _ => None
       end).
Definition nvmeDiscover (ipAddress : string) : prog ncall (option error) :=
  let cmd := "nvme discover -t tcp -a " +:+ ipAddress +:+ " -s " +:+ Itoa NVMEDiscoveryPort in
  out <- ExecCommand cmd "" ;;
  Ret (match out with
       | Err err => Some (EWrap ("nvmeDiscover (nvme) failed command: " +:+ cmd +:+ " error: ") err " output: ")
       | Ok _ => None
       end).

(** ** Staging *)

Definition NodeStageVolume (req : NodeStageVolumeRequest) : prog ncall (option error) :=
  lift (GetHostInfo (NS_Secrets req)) ;;;
  match ValidatePublishContext (NS_PublishContext req) with
  | Err err => Ret (Some (internal err))
  | Ok (hostID, _) =>
      nqn <- getHostNQN ;;
      match nqn with
      | Err err => Ret (Some (internal err))
      | Ok hostNQN => lift (register_port hostID "NVME" hostNQN)
      end
  end.

(** ** Publishing *)

(** A target is the portals of a network space. *)
Fixpoint open_portals (portals : list Portal) : prog ncall (list string) :=
  match portals with
  | [] => Ret []
  | portal :: rest =>
      if Portal_Enabled portal then
        err <- ValidateIPAddress (Portal_IPAddress portal) NVMEDiscoveryPort ;;
        others <- open_portals rest ;;
        Ret (match err with Some _ => others | None => PortalMounter (Portal_IPAddress portal) :: others end)
      else open_portals rest
  end.
Fixpoint network_targets (networkSpaces : list string) : prog ncall (res (list (list string))) :=
  match networkSpaces with
  | [] => Ret (Ok [])
  | networkSpace :: rest =>
      try nspace <- lift (iboxAPI (GetNetworkSpaceByName networkSpace)) catch err => Ret (Err err) ;;
      portals <- open_portals (NetworkSpace_Portals nspace) ;;
      try targets <- network_targets rest catch err => Ret (Err err) ;;
      Ret (Ok (portals :: targets))
  end.
(** The client of the array is always set in a publication. *)
Definition getNVMETargets (req : NodePublishVolumeRequest) : prog ncall (res (list (list string))) :=
  try targets <- network_targets (Split (NP_context req).[StorageClassNetworkSpace] ",") catch err => Ret (Err err) ;;
  Ret (if existsb (fun portals => bool_decide (portals <> [])) targets then Ok targets
       else Err (EText "there are zero network space ip addresses available")).

Definition getNVMEDisk (nvme : NVMEstorage) (req : NodePublishVolumeRequest) : prog ncall (res nvmeDevice) :=
  try hostNQN <- getHostNQN catch err => Ret (Err err) ;;
  let lun := (NP_PublishContext req).[LunPublishContext] in
  Ret (if String.eqb lun "" then Err (EText "lun is missing")
       else Ok (MknvmeDevice lun hostNQN (VolumeProtocolConfig_VolumeID (VolProto (NVME_CS nvme))))).

(** Discover and connect the first portal of every target. A network space none
    of whose portals is open is an error here, also when another has some. *)
Fixpoint connect_targets (targets : list (list string)) : prog ncall (option error) :=
  match targets with
  | [] => Ret None
  | [] :: _ => Ret (Some (EText "error target has no portals target: {[] }"))
  | (portal :: _) :: rest =>
      let ipAddressOnly := hd "" (Split portal ":") in
      discovered <- nvmeDiscover ipAddressOnly ;;
      match discovered with
      | Some err => Ret (Some err)
      | None =>
          connected <- nvmeConnectAll ipAddressOnly ;;
          match connected with
          | Some err => Ret (Some err)
          | None => connect_targets rest
          end
      end
  end.

(** The device of the namespace that is the LUN; the LUN is converted for every
    device looked at. *)
Fixpoint device_of_lun (lun : string) (devices : list NVMEDeviceInfo) : res string :=
  match devices with
  | [] => Ok ""
  | device :: rest =>
      res_bind (Atoi lun) (fun lunInt =>
        if (Namespace device =? lunInt)%Z then Ok (Node device) else device_of_lun lun rest)
  end.

Definition AttachDisk (diskMounter : Mounter) (targets : list (list string)) (disk : nvmeDevice) : prog ncall (res string) :=
  match targets with
  | [] => Ret (Err (EText "no nvme targets"))
  | _ =>
      connected <- connect_targets targets ;;
      match connected with
      | Some err => Ret (Err err)
      | None =>
          try devices <- getNVMENamespacesByNormalOutput catch err => Ret (Err err) ;;
          match device_of_lun (nvme_lun disk) devices with
          | Err err => Ret (Err err)
          | Ok nvmeDevicePath =>
              if String.eqb nvmeDevicePath "" then
                Ret (Err (EText ("could not find nvme device path using lun: " +:+ nvme_lun disk)))
              else
                mounted <- MountLogic (MkDiskInfo NodeRootDir nvmeDevicePath (IsBlock diskMounter) (nvme_VolumeID disk))
                             (TargetPath diskMounter) nvmeDevicePath (StagePath diskMounter) (FsType diskMounter)
                             (MountOptions diskMounter) (IsBlock diskMounter) (ReadOnly diskMounter) ;;
                Ret (match mounted with Some err => Err err | None => Ok nvmeDevicePath end)
          end
      end
  end.

Definition NodePublishVolume (nvme : NVMEstorage) (req : NodePublishVolumeRequest) : prog ncall (option error) :=
  (* the access mode is read for the log *)
  match c ← NP_VolumeCapability req; GetAccessMode c with
  | None => Panic
  | Some _ =>
      lift (GetHostInfo (NP_Secrets req)) ;;;
      targets <- getNVMETargets req ;;
      match targets with
      | Err err => Ret (Some (internal err))
      | Ok targets =>
          disk <- getNVMEDisk nvme req ;;
          match disk with
          | Err err => Ret (Some (internal err))
          | Ok disk =>
              match GetDiskMounter req with
              | Err err => Ret (Some (internal err))
              | Ok diskMounter =>
                  attached <- AttachDisk diskMounter targets disk ;;
                  match attached with
                  | Err err => Ret (Some (internal err))
                  | Ok _ =>
                      if ReadOnly diskMounter then Ret None
                      else err <- SetVolumePermissions req ;; Ret (internal_opt err)
                  end
              end
          end
      end
  end.

(** ** Unstaging *)

Definition remove_existing (path : string) : prog ncall (option error) :=
  there <- PathExists path ;;
  match there with
  | (true, None) => err <- hostAPI (Remove path) ;; Ret (internal_opt err)
  | _ => Ret None
  end.
Definition NodeUnstageVolume (nvme : NVMEstorage) (req : NodeUnstageVolumeRequest) : prog ncall (option error) :=
  let removePath := PathJoin ["/host"; NUS_StagingTargetPath req] in
  let id := VolumeProtocolConfig_VolumeID (VolProto (NVME_CS nvme)) in
  removed <- remove_existing (removePath +:+ "/" +:+ Itoa id +:+ ".json") ;;
  match removed with
  | Some err => Ret (Some err)
  | None => remove_existing removePath
  end.

(** ** Growing *)

Definition NodeExpandVolume (req : NodeExpandVolumeRequest) : prog ncall (option error) :=
  if NE_block req then Ret None
  else
    device <- FindMultipathDeviceFromVolumePath (NE_VolumePath req) ;;
    match device with
    | Err err => Ret (Some (internal err))
    | Ok multipathDevice =>
        match NE_fsType req with
        | None => Panic
        | Some fsType => err <- ExpandFileSystem multipathDevice fsType ;; Ret (internal_opt err)
        end
    end.
