(* ===== verification/Node.v ===== *)
(** The CSI node service: [service/node.go], and the dispatch of its calls to the
    protocols ([storage/storageservice.go]). *)
From stdpp Require Import base strings list gmap.
From S2P Require Import Prelude GoLib IboxTypes Traces Csi KubeClient Helper StorageCommon Nfs Treeq Storage Controller Host Mount Multipath.
From S2P Require NfsNode BlockNode FcNode IscsiNode NvmeNode.
From Stdlib Require Import ZArith Ascii.

Local Open Scope string_scope.
Local Open Scope list_scope.

Section NodeServer.
Variable url_Parse : string -> res (string * string).
Variable url_ParseRequestURI : string -> bool.
(** [Driver.nodeID]. *)
Variable nodeID : string.

(** ** The methods, dispatched *)

Definition op_NodePublishVolume (ops : StorageOperations) (req : NodePublishVolumeRequest) : prog ncall (option error) :=
  match ops with
  | OpFC s => FcNode.NodePublishVolume s req
  | OpISCSI s => IscsiNode.NodePublishVolume s req
  | OpNVME s => NvmeNode.NodePublishVolume s req
  | OpNFS s => NfsNode.NodePublishVolume s req
  | OpTreeq s => NfsNode.Treeq_NodePublishVolume (Treeqstorage_NFS s) req
  end.
Definition op_NodeUnpublishVolume (ops : StorageOperations) (req : NodeUnpublishVolumeRequest) : prog ncall (option error) :=
  match ops with
  | OpFC _ | OpISCSI _ | OpNVME _ => BlockNode.NodeUnpublishVolume req
  | OpNFS s => NfsNode.NodeUnpublishVolume url_Parse url_ParseRequestURI s req
  | OpTreeq _ => NfsNode.Treeq_NodeUnpublishVolume req
  end.
Definition op_NodeStageVolume (ops : StorageOperations) (req : NodeStageVolumeRequest) : prog ncall (option error) :=
  match ops with
  | OpFC _ => FcNode.NodeStageVolume req
  | OpISCSI _ => IscsiNode.NodeStageVolume req
  | OpNVME _ => NvmeNode.NodeStageVolume req
  | OpNFS _ | OpTreeq _ => Ret None
  end.
Definition op_NodeUnstageVolume (ops : StorageOperations) (req : NodeUnstageVolumeRequest) : prog ncall (option error) :=
  match ops with
  | OpFC s => FcNode.NodeUnstageVolume s req
  | OpISCSI s => IscsiNode.NodeUnstageVolume s req
  | OpNVME s => NvmeNode.NodeUnstageVolume s req
  | OpNFS _ | OpTreeq _ => Ret None
  end.
(** The treeq implementation has no such method of its own: the call goes to an
    embedded interface that is nil. *)
Definition op_NodeExpandVolume (ops : StorageOperations) (req : NodeExpandVolumeRequest) : prog ncall (option error) :=
  match ops with
  | OpFC _ => FcNode.NodeExpandVolume req
  | OpISCSI _ => IscsiNode.NodeExpandVolume req
  | OpNVME _ => NvmeNode.NodeExpandVolume req
  | OpNFS _ => Ret None
  | OpTreeq _ => Panic
  end.

(** [NewStorageNodeAndCommonService]. *)
Definition NewStorageNodeAndCommonService (secrets : gmap string string) (volumeInfo : VolumeProtocolConfig)
    : prog ncall (res StorageOperations) :=
  try made <- lift (NewStorageController url_Parse url_ParseRequestURI ∅ secrets volumeInfo 0) catch err => Ret (Err err) ;;
  Ret (Ok (fst made)).
(** [NewStorageNode] of a service without clients. *)
Definition bare_operations (volumeInfo : VolumeProtocolConfig) : res StorageOperations :=
  NewStorageNode (MkCommonservice None "" volumeInfo) 0.

(** ** What the handlers share *)

(** The handlers hold the node-volume mutex while [body] runs. *)
Definition locked {A} (body : prog ncall A) : prog ncall A :=
  lift (ManageNodeVolumeMutex true) ;;;
  defer body (fun _ => lift (ManageNodeVolumeMutex false)).

Definition kube_node_protocol : prog ncall (res string) :=
  nodeName <- getenv EnvVarKubeNodeName ;;
  lift (getNodeProtocol nodeName).

(** A failed step as the status of the handler. *)
Definition finish (code : Code) (pre : string) (p : prog ncall (option error)) : prog ncall (res unit) :=
  err <- p ;;
  Ret (match err with Some err => Err (status_of code pre err) | None => Ok tt end).

(** [pre] begins the messages of the two lookups. *)
Definition with_volume {A} (id : string) (code : Code) (pre_id pre_protocol : string)
    (k : VolumeProtocolConfig -> string -> prog ncall (res A)) : prog ncall (res A) :=
  match ValidateVolumeID id with
  | Err err => Ret (Err (status_of code pre_id err))
  | Ok volumeInfo =>
      try nodeProtocol <- kube_node_protocol catch err => Ret (Err (status_of Internal pre_protocol err)) ;;
      k volumeInfo nodeProtocol
  end.
Definition protocol_error (id : string) : string := "getNodeProtocol volume ID " +:+ id +:+ " - error: ".

(** ** Publishing *)

(** The network space the protocol secret gives to the protocol of the node. *)
Definition publish_network_space (nodeProtocol : string) (protocolSecret : gmap string string) : option (res string) :=
  let given key empty := Some (if String.eqb protocolSecret.[key] "" then Err (EStatus InvalidArgument empty)
                               else Ok protocolSecret.[key]) in
  if String.eqb nodeProtocol ProtocolISCSI then
    given ProtocolSecretISCSINetworkSpace "error: protocol secret in use, but ISCSI network space is empty"
  else if String.eqb nodeProtocol ProtocolNVME then
    given ProtocolSecretNVMENetworkSpace "error: protocol secret in use, but NVMEe network space is empty"
  else None.
(** The volume context with it; a nil context cannot be written. *)
Definition publish_context (nodeProtocol : string) (req : NodePublishVolumeRequest)
    : prog ncall (res NodePublishVolumeRequest) :=
  if String.eqb nodeProtocol "" then Ret (Ok req)
  else
    try secret <- lift GetProtocolSecret catch err =>
      Ret (Err (status_of InvalidArgument "error: could not get protocol secret " err)) ;;
    match secret with
    | None => Ret (Err (EStatus InvalidArgument
                "error: protocol secret not in use, but is required when nodeProtocol label is set on node"))
    | Some protocolSecret =>
        match publish_network_space nodeProtocol protocolSecret, NP_VolumeContext req with
        | None, _ => Ret (Ok req)
        | Some (Err err), _ => Ret (Err err)
        | Some (Ok _), None => Panic
        | Some (Ok networkSpace), Some ctx =>
            Ret (Ok (set_NP_VolumeContext (<[StorageClassNetworkSpace := networkSpace]> ctx) req))
        end
    end.

Definition mount_flags (c : VolumeCapability) : list string :=
  match GetMount c with Some (_, flags) => flags | None => [] end.

(** The handler behind its checks. *)
Definition publish (req : NodePublishVolumeRequest) (capability : VolumeCapability) : prog ncall (res unit) :=
  let id := NP_VolumeId req in
  let storageProtocol := (NP_context req).[StorageClassStorageProtocol] in
  with_volume id Internal ("ValidateVolumeID volume ID: " +:+ id +:+ " error: ") (protocol_error id)
    (fun volumeInfo nodeProtocol =>
      try req <- publish_context nodeProtocol req catch err => Ret (Err err) ;;
      match validateSecret id CSINodePublishSecretName CSINodePublishSecretNamespace (NP_Secrets req) with
      | Some err => Ret (Err (status_of InvalidArgument "validateSecret " err))
      | None =>
          let volumeInfo := with_StorageType nodeProtocol volumeInfo in
          try storageNode <- NewStorageNodeAndCommonService (NP_Secrets req) volumeInfo catch err =>
            Ret (Err (status_of Internal ("NewStorageNode - volume ID: " +:+ id +:+ " error: ") err)) ;;
          match NP_VolumeContext req with
          | None => Panic
          | Some ctx =>
              try _done <- finish Internal ("sn.NodePublishVolume - volume ID: " +:+ id +:+ " error: ")
                  (op_NodePublishVolume storageNode (set_NP_VolumeContext (<["nodeID" := nodeID]> ctx) req)) catch err =>
                Ret (Err err) ;;
              (if String.eqb storageProtocol ProtocolNFS
               then lift (osAPI (Increment ("EventNFSVersions[" +:+ fst (NfsNode.GetNFSVersionPort (mount_flags capability)) +:+ "]")))
               else Ret tt) ;;;
              lift (osAPI (Increment ("EventPublishedVolumes[" +:+ VolumeProtocolConfig_StorageType volumeInfo +:+ "]"))) ;;;
              Ret (Ok tt)
          end
      end).

(** The capability is left out of the message. *)
Definition NodePublishVolume (req : NodePublishVolumeRequest) : prog ncall (res unit) :=
  if String.eqb (NP_VolumeId req) "" then Ret (Err (EStatus InvalidArgument "error volumeId parameter was empty"))
  else if String.eqb (NP_StagingTargetPath req) "" then
    Ret (Err (EStatus InvalidArgument "error stagingTargetPath parameter was empty"))
  else match NP_VolumeCapability req with
  | None => Ret (Err (EStatus InvalidArgument "error volumeCapability parameter was nil"))
  | Some capability =>
      match validateCapabilities (Some [capability]) with
      | Err err => Ret (Err (EStatus FailedPrecondition ("validateCapabilities - error " +:+ Error err +:+ ", volume cap ")))
      | Ok _ => locked (publish req capability)
      end
  end.

(** ** Unpublishing *)

(** The error of the protocol is no status. *)
Definition NodeUnpublishVolume (req : NodeUnpublishVolumeRequest) : prog ncall (res unit) :=
  let id := NU_VolumeId req in
  if String.eqb (NU_TargetPath req) "" then Ret (Err (EStatus InvalidArgument "error targetPath parameter was empty"))
  else if String.eqb id "" then Ret (Err (EStatus InvalidArgument "error volumeId parameter was empty"))
  else
    locked (with_volume id Internal ("ValidateVolumeID volume ID " +:+ id +:+ " - error: ") (protocol_error id)
      (fun volumeInfo nodeProtocol =>
        match bare_operations (with_StorageType nodeProtocol volumeInfo) with
        | Err err => Ret (Err (status_of Internal ("NewStorageNode volume ID " +:+ id +:+ " - error: ") err))
        | Ok protocolOperation =>
            err <- op_NodeUnpublishVolume protocolOperation req ;;
            Ret (match err with Some err => Err (EWrap "NodeUnpublishVolume error " err "") | None => Ok tt end)
        end)).

(** ** Staging *)

(** The secrets are looked at before the node is. *)
Definition stage (req : NodeStageVolumeRequest) : prog ncall (res unit) :=
  let id := NS_VolumeId req in
  match ValidateVolumeID id with
  | Err err => Ret (Err (status_of Internal ("ValidateVolumeID -  volume ID " +:+ id +:+ " - error: ") err))
  | Ok volumeInfo =>
      match validateSecret id CSINodeStageSecretName CSINodeStageSecretNamespace (NS_Secrets req) with
      | Some err => Ret (Err (status_of InvalidArgument "validateSecret error " err))
      | None =>
          try nodeProtocol <- kube_node_protocol catch err => Ret (Err (status_of Internal (protocol_error id) err)) ;;
          try storageNode <- NewStorageNodeAndCommonService (NS_Secrets req) (with_StorageType nodeProtocol volumeInfo)
          catch err => Ret (Err (status_of Internal ("NewStorageNode volume ID " +:+ id +:+ " - error: ") err)) ;;
          finish Internal ("sn.NodeStageVolume volume ID " +:+ id +:+ " - error: ") (op_NodeStageVolume storageNode req)
      end
  end.
Definition NodeStageVolume (req : NodeStageVolumeRequest) : prog ncall (res unit) :=
  if String.eqb (NS_VolumeId req) "" then Ret (Err (EStatus InvalidArgument "error volumeId parameter was empty"))
  else match NS_VolumeCapability req with
  | None => Ret (Err (EStatus InvalidArgument "error volumeCapability parameter was nil"))
  | Some capability =>
      match validateCapabilities (Some [capability]) with
      | Err err => Ret (Err (status_of FailedPrecondition "validateCapabilities - error " err))
      | Ok _ =>
          if String.eqb (NS_StagingTargetPath req) "" then
            Ret (Err (EStatus InvalidArgument "error stagingTargetPath parameter was empty"))
          else locked (stage req)
      end
  end.

Definition NodeUnstageVolume (req : NodeUnstageVolumeRequest) : prog ncall (res unit) :=
  let id := NUS_VolumeId req in
  if String.eqb id "" then Ret (Err (EStatus InvalidArgument "error volumeId parameter was empty"))
  else if String.eqb (NUS_StagingTargetPath req) "" then
    Ret (Err (EStatus InvalidArgument "error stagingTargetPath parameter was empty"))
  else
    locked (with_volume id Internal ("ValidateVolumeID volume ID: " +:+ id +:+ " - error: ") (protocol_error id)
      (fun volumeInfo nodeProtocol =>
        match bare_operations (with_StorageType nodeProtocol volumeInfo) with
        | Err err => Ret (Err (status_of Internal ("NewStorageNode volume ID: " +:+ id +:+ " - error: ") err))
        | Ok protocolOperation =>
            finish Internal ("po.NodeUnstageVolume volume ID: " +:+ id +:+ " - error: ")
              (op_NodeUnstageVolume protocolOperation req)
        end)).

(** ** Growing *)

Definition NodeExpandVolume (req : NodeExpandVolumeRequest) : prog ncall (res unit) :=
  let id := NE_VolumeId req in
  if String.eqb id "" then Ret (Err (EStatus InvalidArgument "error volumeId parameter was empty"))
  else
    locked (with_volume id InvalidArgument ("ValidateVolumeID volume ID " +:+ id +:+ " error ") (protocol_error id)
      (fun volumeInfo nodeProtocol =>
        match validateSecret id CSINodeExpandSecretName CSINodeExpandSecretNamespace (NE_Secrets req) with
        | Some err => Ret (Err (status_of InvalidArgument "validateSecret error " err))
        | None =>
            try storageNode <- NewStorageNodeAndCommonService (NE_Secrets req) (with_StorageType nodeProtocol volumeInfo)
            catch err => Ret (Err (status_of Internal ("NewStorageNode volume ID: " +:+ id +:+ " - error: ") err)) ;;
            finish Internal ("sn.NodeExpandVolume volume ID: " +:+ id +:+ " - error: ") (op_NodeExpandVolume storageNode req)
        end)).

(** ** Information *)

Definition UNKNOWN : string := "unknown".
Definition getNodeFQDN : prog ncall string :=
  iboxHostNamingConvention <- getenv "IBOX_HOST_NAMING_CONVENTION" ;;
  if String.eqb iboxHostNamingConvention "nodename" then getenv EnvVarKubeNodeName
  else
    let named out := if String.eqb out "" then UNKNOWN else TrimSuffix out (String newline "") in
    answer <- hostAPI (Spawn "bash" ["-c"; "hostname -f"]) ;;
    match answer with
    | (out, _, None) => Ret (named out)
    | (_, _, Some _) =>
        answer <- hostAPI (Spawn "bash" ["-c"; "echo $HOSTNAME"]) ;;
        Ret (match answer with (out, _, None) => named out | (_, _, Some _) => UNKNOWN end)
    end.
(** The node's id; the topology is fixed. *)
Definition NodeGetInfo : prog ncall string :=
  nodeFQDN <- getNodeFQDN ;; Ret (nodeFQDN +:+ "$$" +:+ nodeID).

(** A usage: available, total and used. *)
Record VolumeUsage := MkVolumeUsage { Usage_Available : Z; Usage_Total : Z; Usage_Used : Z }.
(** A quantity; its text is left out of the message. *)
Definition quantity (what : string) (q : option Z) : res Z :=
  match q with
  | Some z => Ok z
  | None => Err (EStatus Internal ("failed to transform " +:+ what))
  end.
Definition usages (m : Metrics) : res (VolumeUsage * VolumeUsage) :=
  res_bind (quantity "volume available size " (Available m)) (fun available =>
  res_bind (quantity "volume capacity size " (CapacityOf m)) (fun capacity =>
  res_bind (quantity "volume used size " (Used m)) (fun used =>
  res_bind (quantity "disk inodes free" (InodesFree m)) (fun inodesFree =>
  res_bind (quantity "disk inodes" (Inodes m)) (fun inodes =>
  res_bind (quantity "disk inodes used" (InodesUsed m)) (fun inodesUsed =>
  Ok (MkVolumeUsage available capacity used, MkVolumeUsage inodesFree inodes inodesUsed))))))).
Definition NodeGetVolumeStats (volumeID path : string) : prog ncall (res (VolumeUsage * VolumeUsage)) :=
  let volumePath := "/host" +:+ path in
  if String.eqb volumeID "" then Ret (Err (EStatus InvalidArgument "NodeGetVolumeStatus - volumeID empty"))
  else
    s <- hostAPI (Lstat volumePath) ;;
    match s with
    | NotExist err => Ret (Err (status_of NotFound ("path does not exist " +:+ volumePath +:+ " ") err))
    | StatFailed _ err => Ret (Err (status_of Internal ("failed to stat file " +:+ volumePath +:+ " ") err))
    | Found _ =>
        try m <- hostAPI (StatFS volumePath) catch err => Ret (Err (status_of Internal "failed to get metrics " err)) ;;
        Ret (usages m)
    end.
End NodeServer.
