(* ===== verification/NodeKinds.v ===== *)
(** Kinds of node calls. [keeping]: the program takes no mutex, unmounts and
    removes nothing, and does not run out of fuel; [unlocking]: the same but for
    the removals. The handlers of [service/node.go] keep the node-volume mutex
    around everything they do; only unpublishing and unstaging remove. *)
From stdpp Require Import base strings list gmap.
From S2P Require Import Prelude GoLib IboxTypes Traces Csi KubeClient Helper StorageCommon Nfs Treeq VolumeGroup Storage Controller StorageCommonProofs ControllerProofs Host Mount Multipath Node.
From S2P Require NfsNode BlockNode FcNode IscsiNode NvmeNode.
From Stdlib Require Import ZArith Lia.

Local Open Scope string_scope.
Local Open Scope list_scope.

(** ** Programs all of whose calls are of a kind, and that do not run out of fuel *)

Fixpoint well {E A} (P : forall X, E X -> Prop) (p : prog E A) : Prop :=
  match p with
  | Vis e k => P _ e /\ forall x, well P (k x)
  | NoFuel => False
  | _ => True
  end.

Section well_facts.
Context {E : Type -> Type} (P : forall X, E X -> Prop).

Lemma well_bind {A B} (p : prog E A) (f : A -> prog E B) : well P p -> (forall a, well P (f a)) -> well P (bind p f).
Proof. induction p as [a| | |X e k IH]; cbn; intros Hp Hf; [apply Hf|done..|]. destruct Hp as [He Hk]. auto. Qed.
Lemma well_every {A} (p : prog E A) : well P p -> every P p.
Proof. induction p as [a| | |X e k IH]; cbn; [done..|]. intros [He Hk]. auto. Qed.
Lemma well_runs {A} (p : prog E A) t o :
  well P p -> runs p t o -> Forall (fun e => match e with Evt c _ => P _ c end) t /\ o <> Exhausted.
Proof.
  revert t. induction p as [a| | |X e k IH]; cbn; intros t Hp.
  1-3: intros [-> ->]; by split.
  destruct Hp as [He Hk]. intros (x & t' & -> & Ht). destruct (IH _ _ (Hk x) Ht). split; [by constructor|done].
Qed.
End well_facts.

Lemma well_mono {E A} (P Q : forall X, E X -> Prop) (p : prog E A) :
  (forall X (c : E X), P X c -> Q X c) -> well P p -> well Q p.
Proof. intros HPQ. induction p as [a| | |X e k IH]; cbn; [done..|]. intros [He Hk]. auto. Qed.

(** ** The two kinds *)

Definition mutex_call {X} (c : ncall X) : bool :=
  match c with Call (Os (Lock _)) | Call (Os (Unlock _)) => true | _ => false end.
Definition removal {X} (c : ncall X) : bool :=
  match c with Host (Remove _) | Host (RemoveAll _) | Host (Unmount _) => true | _ => false end.
Definition unlocking {A} : prog ncall A -> Prop := well (fun X c => mutex_call c = false).
Definition keeping {A} : prog ncall A -> Prop := well (fun X c => mutex_call c || removal c = false).

Lemma keeping_unlocking {A} (p : prog ncall A) : keeping p -> unlocking p.
Proof. apply well_mono. by intros X c [H _]%orb_false_iff. Qed.

Lemma keeping_lift {A} (p : prog call A) : lock_free p -> fuelled p -> keeping (lift p).
Proof.
  unfold lock_free, keeping, lift. induction p as [a| | |X c k IH]; cbn; [done..|].
  intros [Hc Hk] Hf. split; [|intros x; apply IH; auto]. by destruct c as [| |? []].
Qed.
Lemma keeping_lift_quiet {A} (p : prog call A) : quiet p -> fuelled p -> keeping (lift p).
Proof.
  intros Hq. apply keeping_lift. revert Hq. unfold quiet, lock_free.
  induction p as [a| | |X c k IH]; cbn; [done..|]. intros [Hc Hk]. split; [|auto]. by destruct c as [| |? []].
Qed.

Ltac lift_tac :=
  first [apply keeping_lift_quiet; [solve [auto with csi | every_tac]|solve [auto with csi | ends_tac]]
        |apply keeping_lift; [solve [auto with csi | every_tac]|solve [auto with csi | ends_tac]]].
Ltac well_step :=
  match goal with
  | |- forall _, _ => intros ?
  | |- keeping (lift _) => lift_tac
  | |- unlocking (lift _) => apply keeping_unlocking; lift_tac
  | |- keeping (match ?x with _ => _ end) => destruct x
  | |- unlocking (match ?x with _ => _ end) => destruct x
  | |- keeping (bind _ _) => apply well_bind
  | |- unlocking (bind _ _) => apply well_bind
  | |- keeping _ => unfold keeping
  | |- unlocking _ => unfold unlocking
  | |- well _ (let _ := _ in _) => cbv zeta
  | |- well _ (Ret _) => exact I
  | |- well _ Panic => exact I
  | |- well _ (trigger _) => split; [reflexivity|intros ?; exact I]
  | |- well _ (hostAPI _) => split; [reflexivity|intros ?; exact I]
  | |- well _ (getenv _) => split; [reflexivity|intros ?; exact I]
  | |- well _ (sleep _ _) => split; [reflexivity|intros ?; exact I]
  | |- well _ (bind _ _) => apply well_bind
  | |- well _ (match ?x with _ => _ end) => destruct x
  | |- well _ (lift ?p) => first [change (keeping (lift p)); lift_tac | change (unlocking (lift p)); apply keeping_unlocking; lift_tac]
  | |- well _ ?p => solve [change (keeping p); auto with node
                          |change (unlocking p); first [solve [auto with node] | apply keeping_unlocking; auto with node]]
  end.
Ltac well_tac := repeat well_step.
Create HintDb node.

(** ** Host.v and Mount.v *)

Lemma Exec_Command_keeping cmd args : keeping (Exec_Command cmd args).
Proof. unfold Exec_Command. well_tac. Qed.
#[export] Hint Resolve Exec_Command_keeping : node.
Lemma ExecCommand_keeping cmd args : keeping (ExecCommand cmd args).
Proof. unfold ExecCommand. well_tac. Qed.
Lemma bash_output_keeping command : keeping (bash_output command).
Proof. unfold bash_output. well_tac. Qed.
Lemma LogPermissions_keeping path : keeping (LogPermissions path).
Proof. unfold LogPermissions. well_tac. Qed.
#[export] Hint Resolve ExecCommand_keeping bash_output_keeping LogPermissions_keeping : node.
Lemma SetVolumePermissions_keeping req : keeping (SetVolumePermissions req).
Proof. unfold SetVolumePermissions. well_tac. Qed.
Lemma ValidateIPAddress_keeping ip port : keeping (ValidateIPAddress ip port).
Proof. unfold ValidateIPAddress. well_tac. Qed.
Lemma PathExists_keeping path : keeping (PathExists path).
Proof. unfold PathExists. well_tac. Qed.
Lemma CreateConfigFile_keeping conf mnt : keeping (CreateConfigFile conf mnt).
Proof. unfold CreateConfigFile. well_tac. Qed.
Lemma LoadDiskInfoFromFile_keeping conf mnt : keeping (LoadDiskInfoFromFile conf mnt).
Proof. unfold LoadDiskInfoFromFile. well_tac. Qed.
#[export] Hint Resolve SetVolumePermissions_keeping ValidateIPAddress_keeping PathExists_keeping CreateConfigFile_keeping
  LoadDiskInfoFromFile_keeping : node.
Lemma MountLogic_keeping config target device stage fs options block ro :
  keeping (MountLogic config target device stage fs options block ro).
Proof. unfold MountLogic, mount_block, mount_filesystem. well_tac. Qed.
Lemma env_number_keeping key d : keeping (env_number key d).
Proof. unfold env_number. well_tac. Qed.
#[export] Hint Resolve MountLogic_keeping env_number_keeping : node.
Lemma IsDirectory_keeping path : keeping (IsDirectory path).
Proof. unfold IsDirectory. well_tac. Qed.
#[export] Hint Resolve IsDirectory_keeping : node.
Lemma UnmountAndCleanUp_unlocking path : unlocking (UnmountAndCleanUp path).
Proof.
  unfold UnmountAndCleanUp, isMountedByListMethod, cleanupOldMountDirectory, remove_leftover, IsDirEmpty. well_tac.
Qed.
#[export] Hint Resolve UnmountAndCleanUp_unlocking : node.
Lemma rescan_devices_keeping wrap devices : keeping (rescan_devices wrap devices).
Proof. induction devices; cbn [rescan_devices]; well_tac. Qed.
Lemma ExpandFileSystem_keeping device fs : keeping (ExpandFileSystem device fs).
Proof. unfold ExpandFileSystem. well_tac. Qed.
#[export] Hint Resolve rescan_devices_keeping ExpandFileSystem_keeping : node.
Lemma BlockExpandVolume_keeping path : keeping (BlockExpandVolume path).
Proof. unfold BlockExpandVolume. well_tac. Qed.
#[export] Hint Resolve BlockExpandVolume_keeping : node.

(** ** Multipath.v *)

Lemma FindMultipathDeviceFromVolumePath_keeping path : keeping (FindMultipathDeviceFromVolumePath path).
Proof. unfold FindMultipathDeviceFromVolumePath. well_tac. Qed.
Lemma GetDMDevicePath_keeping wwid : keeping (GetDMDevicePath wwid).
Proof. unfold GetDMDevicePath, OSio_ReadDir. well_tac. Qed.
Lemma poll_state_keeping n disk state wwid : keeping (poll_state n disk state wwid).
Proof. revert wwid. induction n; intros wwid; cbn [poll_state]; well_tac. Qed.
#[export] Hint Resolve FindMultipathDeviceFromVolumePath_keeping GetDMDevicePath_keeping poll_state_keeping : node.
Lemma target_wwids_keeping host lun state targets : keeping (target_wwids host lun state targets).
Proof. induction targets; cbn [target_wwids]; unfold WaitForOneDeviceState; well_tac. Qed.
#[export] Hint Resolve target_wwids_keeping : node.
Lemma WaitForDeviceState_keeping host lun state disk : keeping (WaitForDeviceState host lun state disk).
Proof. unfold WaitForDeviceState. well_tac. Qed.
Lemma poll_multipath_keeping n path ms : keeping (poll_multipath n path ms).
Proof. induction n; cbn [poll_multipath]; well_tac. Qed.
#[export] Hint Resolve WaitForDeviceState_keeping poll_multipath_keeping : node.
Lemma rescan_hosts_keeping hosts disk lun : keeping (rescan_hosts hosts disk lun).
Proof. induction hosts; cbn [rescan_hosts]; well_tac. Qed.
Lemma find_wwid_keeping hosts disk lun : keeping (find_wwid hosts disk lun).
Proof. induction hosts; cbn [find_wwid]; well_tac. Qed.
Lemma wait_hosts_keeping hosts disk lun : keeping (wait_hosts hosts disk lun).
Proof. induction hosts; cbn [wait_hosts]; unfold WaitForMultipath; well_tac. Qed.
#[export] Hint Resolve rescan_hosts_keeping find_wwid_keeping wait_hosts_keeping : node.
Lemma RescanDeviceMap_keeping hosts disk lun : keeping (RescanDeviceMap hosts disk lun).
Proof. unfold RescanDeviceMap. well_tac. Qed.
Lemma port_infos_keeping files : keeping (port_infos files).
Proof. induction files; cbn [port_infos]; well_tac. Qed.
#[export] Hint Resolve RescanDeviceMap_keeping port_infos_keeping : node.
Lemma GetPortInfo_keeping : keeping GetPortInfo.
Proof. unfold GetPortInfo. well_tac. Qed.
Lemma FindMpathFromDevice_keeping device : keeping (FindMpathFromDevice device).
Proof. unfold FindMpathFromDevice. well_tac. Qed.
Lemma flush_rounds_keeping n mpath delay : keeping (flush_rounds n mpath delay).
Proof. induction n; cbn [flush_rounds]; well_tac. Qed.
Lemma await_unblocked_keeping n path : keeping (await_unblocked n path).
Proof. induction n; cbn [await_unblocked]; well_tac. Qed.
Lemma for_devices_keeping f devices : (forall d, keeping (f d)) -> keeping (for_devices f devices).
Proof. intros Hf. induction devices; cbn [for_devices]; well_tac. Qed.
#[export] Hint Resolve GetPortInfo_keeping FindMpathFromDevice_keeping flush_rounds_keeping await_unblocked_keeping
  for_devices_keeping : node.
Lemma detachDiskByDeviceName_keeping device : keeping (detachDiskByDeviceName device).
Proof. unfold detachDiskByDeviceName, removeOneFromScsiSubsystemByHostLun. well_tac. Qed.
Lemma removeMultipathDevices_keeping device : keeping (removeMultipathDevices device).
Proof. unfold removeMultipathDevices. well_tac. Qed.
#[export] Hint Resolve detachDiskByDeviceName_keeping removeMultipathDevices_keeping : node.
Lemma DetachMpathDevice_keeping mpath : keeping (DetachMpathDevice mpath).
Proof.
  unfold DetachMpathDevice, mpath_devices, FindSlaveDevicesOnMultipath, findDevicesForMpath, multipathFlush, removeWWIDEntry.
  well_tac.
Qed.
#[export] Hint Resolve DetachMpathDevice_keeping : node.

(** ** NFS and treeqs *)

Lemma UpdateExport_lock_free nfs id perms : lock_free (NfsNode.UpdateExport nfs id perms).
Proof. unfold NfsNode.UpdateExport. every_tac. Qed.
Lemma UpdateExport_fuelled nfs id perms : fuelled (NfsNode.UpdateExport nfs id perms).
Proof. unfold NfsNode.UpdateExport. ends_tac. Qed.
#[export] Hint Resolve UpdateExport_lock_free UpdateExport_fuelled : csi.
Lemma clean_exports_lock_free ip exports : lock_free (NfsNode.clean_exports ip exports).
Proof. induction exports; cbn [NfsNode.clean_exports]; unfold NfsNode.clean_export; every_tac. Qed.
Lemma clean_exports_fuelled ip exports : fuelled (NfsNode.clean_exports ip exports).
Proof. induction exports; cbn [NfsNode.clean_exports]; unfold NfsNode.clean_export; ends_tac. Qed.
#[export] Hint Resolve clean_exports_lock_free clean_exports_fuelled : csi.

Lemma GetHostInfo_quiet secrets : quiet (GetHostInfo secrets).
Proof. unfold GetHostInfo. every_tac. Qed.
Lemma GetHostInfo_fuelled secrets : fuelled (GetHostInfo secrets).
Proof. unfold GetHostInfo. ends_tac. Qed.
#[export] Hint Resolve GetHostInfo_quiet GetHostInfo_fuelled : csi.

Lemma mount_export_keeping req ep : keeping (NfsNode.mount_export req ep).
Proof. unfold NfsNode.mount_export. well_tac. Qed.
Lemma make_target_keeping path : keeping (NfsNode.make_target path).
Proof. unfold NfsNode.make_target. well_tac. Qed.
#[export] Hint Resolve mount_export_keeping make_target_keeping : node.
Lemma Nfs_NodePublishVolume_keeping nfs req : keeping (NfsNode.NodePublishVolume nfs req).
Proof. unfold NfsNode.NodePublishVolume. well_tac. Qed.
Lemma Treeq_NodePublishVolume_keeping nfs req : keeping (NfsNode.Treeq_NodePublishVolume nfs req).
Proof. unfold NfsNode.Treeq_NodePublishVolume. well_tac. Qed.
Lemma isCleanupNFSPermsSet_keeping : keeping NfsNode.isCleanupNFSPermsSet.
Proof. unfold NfsNode.isCleanupNFSPermsSet. well_tac. Qed.
Lemma isVolumeMounted_keeping name : keeping (NfsNode.isVolumeMounted name).
Proof. unfold NfsNode.isVolumeMounted. well_tac. Qed.
Lemma getPVSecret_quiet id : quiet (NfsNode.getPVSecret id).
Proof. unfold NfsNode.getPVSecret. every_tac. Qed.
Lemma getPVSecret_fuelled id : fuelled (NfsNode.getPVSecret id).
Proof. unfold NfsNode.getPVSecret. ends_tac. Qed.
#[export] Hint Resolve getPVSecret_quiet getPVSecret_fuelled : csi.
#[export] Hint Resolve Nfs_NodePublishVolume_keeping Treeq_NodePublishVolume_keeping isCleanupNFSPermsSet_keeping
  isVolumeMounted_keeping : node.

Section cleanup.
Context (url_Parse : string -> res (string * string)) (url_ParseRequestURI : string -> bool).

Lemma NewClient_quiet secrets : quiet (NewClient url_Parse url_ParseRequestURI secrets).
Proof. unfold NewClient, getAPIConfig. every_tac. Qed.
Lemma NewClient_fuelled secrets : fuelled (NewClient url_Parse url_ParseRequestURI secrets).
Proof. unfold NewClient, getAPIConfig. ends_tac. Qed.
#[local] Hint Resolve NewClient_quiet NewClient_fuelled : csi.
Lemma cleanupNFSPerms_keeping id : keeping (NfsNode.cleanupNFSPerms url_Parse url_ParseRequestURI id).
Proof. unfold NfsNode.cleanupNFSPerms. well_tac. Qed.
#[local] Hint Resolve cleanupNFSPerms_keeping : node.
Lemma Nfs_NodeUnpublishVolume_unlocking nfs req :
  unlocking (NfsNode.NodeUnpublishVolume url_Parse url_ParseRequestURI nfs req).
Proof. unfold NfsNode.NodeUnpublishVolume. well_tac. Qed.
End cleanup.
#[export] Hint Resolve Nfs_NodeUnpublishVolume_unlocking : node.
Lemma Treeq_NodeUnpublishVolume_unlocking req : unlocking (NfsNode.Treeq_NodeUnpublishVolume req).
Proof. unfold NfsNode.Treeq_NodeUnpublishVolume. well_tac. Qed.
#[export] Hint Resolve Treeq_NodeUnpublishVolume_unlocking : node.

(** ** The block protocols *)

Lemma register_port_lock_free host type port : lock_free (BlockNode.register_port host type port).
Proof. unfold BlockNode.register_port. every_tac. Qed.
Lemma register_port_fuelled host type port : fuelled (BlockNode.register_port host type port).
Proof. unfold BlockNode.register_port. ends_tac. Qed.
#[export] Hint Resolve register_port_lock_free register_port_fuelled : csi.
Lemma Block_NodeUnpublishVolume_unlocking req : unlocking (BlockNode.NodeUnpublishVolume req).
Proof. unfold BlockNode.NodeUnpublishVolume. well_tac. Qed.
Lemma staged_disk_keeping id path : keeping (BlockNode.staged_disk id path).
Proof. unfold BlockNode.staged_disk. well_tac. Qed.
Lemma expand_device_keeping device fs empty no_part : keeping (BlockNode.expand_device device fs empty no_part).
Proof. unfold BlockNode.expand_device. well_tac. Qed.
#[export] Hint Resolve Block_NodeUnpublishVolume_unlocking staged_disk_keeping expand_device_keeping : node.
Lemma expand_multipath_keeping req empty no_part : keeping (BlockNode.expand_multipath req empty no_part).
Proof. unfold BlockNode.expand_multipath. well_tac. Qed.
#[export] Hint Resolve expand_multipath_keeping : node.

(** ** Fibre Channel *)

Lemma register_ports_lock_free host ports : lock_free (FcNode.register_ports host ports).
Proof. induction ports; cbn [FcNode.register_ports]; every_tac. Qed.
Lemma register_ports_fuelled host ports : fuelled (FcNode.register_ports host ports).
Proof. induction ports; cbn [FcNode.register_ports]; ends_tac. Qed.
#[export] Hint Resolve register_ports_lock_free register_ports_fuelled : csi.
Lemma Fc_NodeStageVolume_keeping req : keeping (FcNode.NodeStageVolume req).
Proof. unfold FcNode.NodeStageVolume. well_tac. Qed.
Lemma getFCDiskDetails_keeping fc req : keeping (FcNode.getFCDiskDetails fc req).
Proof. unfold FcNode.getFCDiskDetails. well_tac. Qed.
Lemma search_round_keeping targets wwid ids dm : keeping (FcNode.search_round targets wwid ids dm).
Proof. revert dm. induction ids; intros dm; cbn [FcNode.search_round]; well_tac. Qed.
#[export] Hint Resolve Fc_NodeStageVolume_keeping getFCDiskDetails_keeping search_round_keeping : node.
Lemma search_rounds_keeping n targets wwid ids dm : keeping (FcNode.search_rounds n targets wwid ids dm).
Proof. revert dm. induction n; intros dm; cbn [FcNode.search_rounds]; well_tac. Qed.
#[export] Hint Resolve search_rounds_keeping : node.
Lemma searchDisk_keeping connector : keeping (FcNode.searchDisk connector).
Proof. unfold FcNode.searchDisk. well_tac. Qed.
Lemma mountFCDisk_keeping mounter device id : keeping (FcNode.mountFCDisk mounter device id).
Proof. unfold FcNode.mountFCDisk. well_tac. Qed.
#[export] Hint Resolve searchDisk_keeping mountFCDisk_keeping : node.
Lemma Fc_NodePublishVolume_keeping fc req : keeping (FcNode.NodePublishVolume fc req).
Proof. unfold FcNode.NodePublishVolume. well_tac. Qed.
Lemma Fc_NodeUnstageVolume_unlocking fc req : unlocking (FcNode.NodeUnstageVolume fc req).
Proof. unfold FcNode.NodeUnstageVolume. well_tac. Qed.
Lemma Fc_NodeExpandVolume_keeping req : keeping (FcNode.NodeExpandVolume req).
Proof. unfold FcNode.NodeExpandVolume. well_tac. Qed.
#[export] Hint Resolve Fc_NodePublishVolume_keeping Fc_NodeUnstageVolume_unlocking Fc_NodeExpandVolume_keeping : node.

(** ** iSCSI *)

Lemma addCHAPSecurity_lock_free chap host secrets : lock_free (IscsiNode.addCHAPSecurity chap host secrets).
Proof. unfold IscsiNode.addCHAPSecurity. every_tac. Qed.
Lemma addCHAPSecurity_fuelled chap host secrets : fuelled (IscsiNode.addCHAPSecurity chap host secrets).
Proof. unfold IscsiNode.addCHAPSecurity. ends_tac. Qed.
#[export] Hint Resolve addCHAPSecurity_lock_free addCHAPSecurity_fuelled : csi.
Lemma iscsiadm_keeping args : keeping (IscsiNode.iscsiadm args).
Proof. unfold IscsiNode.iscsiadm. well_tac. Qed.
Lemma getInitiatorName_keeping : keeping IscsiNode.getInitiatorName.
Proof. unfold IscsiNode.getInitiatorName. well_tac. Qed.
Lemma Iscsi_open_portals_keeping port portals : keeping (IscsiNode.open_portals port portals).
Proof. induction portals; cbn [IscsiNode.open_portals]; well_tac. Qed.
#[export] Hint Resolve iscsiadm_keeping getInitiatorName_keeping Iscsi_open_portals_keeping : node.
Lemma Iscsi_network_targets_keeping spaces : keeping (IscsiNode.network_targets spaces).
Proof. induction spaces; cbn [IscsiNode.network_targets]; well_tac. Qed.
#[export] Hint Resolve Iscsi_network_targets_keeping : node.
Lemma getISCSITargets_keeping req : keeping (IscsiNode.getISCSITargets req).
Proof. unfold IscsiNode.getISCSITargets. well_tac. Qed.
Lemma getISCSIDisk_keeping iscsi req targets : keeping (IscsiNode.getISCSIDisk iscsi req targets).
Proof. unfold IscsiNode.getISCSIDisk. well_tac. Qed.
Lemma update_iface_keeping i d out params keys : keeping (IscsiNode.update_iface i d out params keys).
Proof. induction keys; cbn [IscsiNode.update_iface]; well_tac. Qed.
#[export] Hint Resolve getISCSITargets_keeping getISCSIDisk_keeping update_iface_keeping : node.
Lemma clone_ifaces_keeping disk targets : keeping (IscsiNode.clone_ifaces disk targets).
Proof. induction targets; cbn [IscsiNode.clone_ifaces]; unfold IscsiNode.cloneIface; well_tac. Qed.
Lemma discover_portals_keeping portals : keeping (IscsiNode.discover_portals portals).
Proof. induction portals as [|[]]; cbn [IscsiNode.discover_portals]; well_tac. Qed.
Lemma update_credentials_keeping disk portal iqn keys : keeping (IscsiNode.update_credentials disk portal iqn keys).
Proof. induction keys; cbn [IscsiNode.update_credentials]; unfold IscsiNode.update_node; well_tac. Qed.
#[export] Hint Resolve clone_ifaces_keeping discover_portals_keeping update_credentials_keeping : node.
Lemma update_portals_keeping disk portals : keeping (IscsiNode.update_portals disk portals).
Proof.
  induction portals as [|[]]; cbn [IscsiNode.update_portals];
    unfold IscsiNode.updateISCSINode, IscsiNode.update_node; well_tac.
Qed.
Lemma login_portals_keeping portals : keeping (IscsiNode.login_portals portals).
Proof. induction portals as [|[]]; cbn [IscsiNode.login_portals]; well_tac. Qed.
Lemma find_dm_keeping n wwid : keeping (IscsiNode.find_dm n wwid).
Proof. induction n; cbn [IscsiNode.find_dm]; well_tac. Qed.
#[export] Hint Resolve update_portals_keeping login_portals_keeping find_dm_keeping : node.
Lemma AttachDisk_keeping mounter disk : keeping (IscsiNode.AttachDisk mounter disk).
Proof.
  unfold IscsiNode.AttachDisk, IscsiNode.extractTransportName, IscsiNode.discoverISCITargets, IscsiNode.updateForCHAP,
    IscsiNode.loginToTargets, IscsiNode.getSessionDetails, IscsiNode.getHostIDs, IscsiNode.mount_disk. well_tac.
Qed.
#[export] Hint Resolve AttachDisk_keeping : node.
Lemma Iscsi_NodeStageVolume_keeping req : keeping (IscsiNode.NodeStageVolume req).
Proof. unfold IscsiNode.NodeStageVolume. well_tac. Qed.
Lemma Iscsi_NodePublishVolume_keeping iscsi req : keeping (IscsiNode.NodePublishVolume iscsi req).
Proof. unfold IscsiNode.NodePublishVolume. well_tac. Qed.
Lemma Iscsi_NodeUnstageVolume_unlocking iscsi req : unlocking (IscsiNode.NodeUnstageVolume iscsi req).
Proof.
  unfold IscsiNode.NodeUnstageVolume, IscsiNode.logout_unused, IscsiNode.getMultipathDeviceCount,
    IscsiNode.logoutAllSessions. well_tac.
Qed.
Lemma Iscsi_NodeExpandVolume_keeping req : keeping (IscsiNode.NodeExpandVolume req).
Proof. unfold IscsiNode.NodeExpandVolume. well_tac. Qed.
#[export] Hint Resolve Iscsi_NodeStageVolume_keeping Iscsi_NodePublishVolume_keeping Iscsi_NodeUnstageVolume_unlocking
  Iscsi_NodeExpandVolume_keeping : node.

(** ** NVMe *)

Lemma getHostNQN_keeping : keeping NvmeNode.getHostNQN.
Proof. unfold NvmeNode.getHostNQN. well_tac. Qed.
Lemma Nvme_open_portals_keeping portals : keeping (NvmeNode.open_portals portals).
Proof. induction portals; cbn [NvmeNode.open_portals]; well_tac. Qed.
#[export] Hint Resolve getHostNQN_keeping Nvme_open_portals_keeping : node.
Lemma Nvme_network_targets_keeping spaces : keeping (NvmeNode.network_targets spaces).
Proof. induction spaces; cbn [NvmeNode.network_targets]; well_tac. Qed.
Lemma connect_targets_keeping targets : keeping (NvmeNode.connect_targets targets).
Proof.
  induction targets as [|[]]; cbn [NvmeNode.connect_targets]; unfold NvmeNode.nvmeDiscover, NvmeNode.nvmeConnectAll; well_tac.
Qed.
#[export] Hint Resolve Nvme_network_targets_keeping connect_targets_keeping : node.
Lemma Nvme_AttachDisk_keeping mounter targets disk : keeping (NvmeNode.AttachDisk mounter targets disk).
Proof. unfold NvmeNode.AttachDisk, NvmeNode.getNVMENamespacesByNormalOutput. well_tac. Qed.
#[export] Hint Resolve Nvme_AttachDisk_keeping : node.
Lemma Nvme_NodeStageVolume_keeping req : keeping (NvmeNode.NodeStageVolume req).
Proof. unfold NvmeNode.NodeStageVolume. well_tac. Qed.
Lemma Nvme_NodePublishVolume_keeping nvme req : keeping (NvmeNode.NodePublishVolume nvme req).
Proof. unfold NvmeNode.NodePublishVolume, NvmeNode.getNVMETargets, NvmeNode.getNVMEDisk. well_tac. Qed.
Lemma Nvme_NodeUnstageVolume_unlocking nvme req : unlocking (NvmeNode.NodeUnstageVolume nvme req).
Proof. unfold NvmeNode.NodeUnstageVolume, NvmeNode.remove_existing. well_tac. Qed.
Lemma Nvme_NodeExpandVolume_keeping req : keeping (NvmeNode.NodeExpandVolume req).
Proof. unfold NvmeNode.NodeExpandVolume. well_tac. Qed.
#[export] Hint Resolve Nvme_NodeStageVolume_keeping Nvme_NodePublishVolume_keeping Nvme_NodeUnstageVolume_unlocking
  Nvme_NodeExpandVolume_keeping : node.

(** ** The handlers *)

Section handlers.
Context (url_Parse : string -> res (string * string)) (url_ParseRequestURI : string -> bool) (nodeID : string).

#[local] Hint Resolve getNodeProtocol_quiet getNodeProtocol_fuelled GetProtocolSecret_quiet GetProtocolSecret_fuelled : csi.
Lemma kube_node_protocol_keeping : keeping kube_node_protocol.
Proof. unfold kube_node_protocol. well_tac. Qed.
#[local] Hint Resolve kube_node_protocol_keeping : node.
Lemma finish_well (P : forall X, ncall X -> Prop) code pre p : well P p -> well P (finish code pre p).
Proof. intros H. unfold finish. apply well_bind; [done|]. intros []; exact I. Qed.
Lemma finish_keeping code pre p : keeping p -> keeping (finish code pre p).
Proof. apply finish_well. Qed.
Lemma finish_unlocking code pre p : unlocking p -> unlocking (finish code pre p).
Proof. apply finish_well. Qed.
Lemma with_volume_unlocking {A} id code pre_id pre_protocol (k : VolumeProtocolConfig -> string -> prog ncall (res A)) :
  (forall v p, unlocking (k v p)) -> unlocking (with_volume id code pre_id pre_protocol k).
Proof.
  intros Hk. unfold with_volume. destruct (ValidateVolumeID id); [|exact I].
  apply well_bind; [by apply keeping_unlocking, kube_node_protocol_keeping|]. intros []; [apply Hk|exact I].
Qed.
Lemma with_volume_keeping {A} id code pre_id pre_protocol (k : VolumeProtocolConfig -> string -> prog ncall (res A)) :
  (forall v p, keeping (k v p)) -> keeping (with_volume id code pre_id pre_protocol k).
Proof.
  intros Hk. unfold with_volume. destruct (ValidateVolumeID id); [|exact I].
  apply well_bind; [by apply kube_node_protocol_keeping|]. intros []; [apply Hk|exact I].
Qed.
Lemma new_node_keeping secrets volumeInfo :
  keeping (NewStorageNodeAndCommonService url_Parse url_ParseRequestURI secrets volumeInfo).
Proof.
  unfold NewStorageNodeAndCommonService, NewStorageController. well_tac.
Qed.
#[local] Hint Resolve new_node_keeping : node.
Lemma publish_context_keeping nodeProtocol req : keeping (publish_context nodeProtocol req).
Proof. unfold publish_context. well_tac. Qed.
#[local] Hint Resolve publish_context_keeping : node.

Lemma op_NodePublishVolume_keeping ops req : keeping (op_NodePublishVolume ops req).
Proof. unfold op_NodePublishVolume. destruct ops; auto with node. Qed.
Lemma op_NodeUnpublishVolume_unlocking ops req : unlocking (op_NodeUnpublishVolume url_Parse url_ParseRequestURI ops req).
Proof. unfold op_NodeUnpublishVolume. destruct ops; auto with node. Qed.
Lemma op_NodeStageVolume_keeping ops req : keeping (op_NodeStageVolume ops req).
Proof. unfold op_NodeStageVolume. destruct ops; auto with node; exact I. Qed.
Lemma op_NodeUnstageVolume_unlocking ops req : unlocking (op_NodeUnstageVolume ops req).
Proof. unfold op_NodeUnstageVolume. destruct ops; auto with node; exact I. Qed.
Lemma op_NodeExpandVolume_keeping ops req : keeping (op_NodeExpandVolume ops req).
Proof. unfold op_NodeExpandVolume. destruct ops; auto with node; exact I. Qed.
#[local] Hint Resolve op_NodePublishVolume_keeping op_NodeUnpublishVolume_unlocking op_NodeStageVolume_keeping
  op_NodeUnstageVolume_unlocking op_NodeExpandVolume_keeping finish_keeping finish_unlocking : node.

Lemma publish_keeping req c : keeping (publish url_Parse url_ParseRequestURI nodeID req c).
Proof.
  apply with_volume_keeping. intros v p. well_tac.
Qed.
Lemma stage_keeping req : keeping (stage url_Parse url_ParseRequestURI req).
Proof. unfold stage. well_tac. Qed.
End handlers.
