(* ===== verification/NodeProofs.v ===== *)
(** Properties of the node service: its handlers, run side by side, take turns. *)
From stdpp Require Import base strings list gmap.
From S2P Require Import Prelude GoLib IboxTypes Traces Csi Helper StorageCommon Controller ControllerProofs Host Mount Node NodeKinds.
From Stdlib Require Import ZArith Lia.

Local Open Scope string_scope.
Local Open Scope list_scope.

(** ** The handlers *)

Inductive node_request :=
| Publish (req : NodePublishVolumeRequest)
| Unpublish (req : NodeUnpublishVolumeRequest)
| Stage (req : NodeStageVolumeRequest)
| Unstage (req : NodeUnstageVolumeRequest)
| Expand (req : NodeExpandVolumeRequest).
(** The requests that undo something. *)
Definition withdraws (r : node_request) : bool := match r with Unpublish _ | Unstage _ => true | _ => false end.

Section handlers.
Context (url_Parse : string -> res (string * string)) (url_ParseRequestURI : string -> bool) (nodeID : string).

Definition handle (r : node_request) : prog ncall (res unit) :=
  match r with
  | Publish req => NodePublishVolume url_Parse url_ParseRequestURI nodeID req
  | Unpublish req => NodeUnpublishVolume url_Parse url_ParseRequestURI req
  | Stage req => NodeStageVolume url_Parse url_ParseRequestURI req
  | Unstage req => NodeUnstageVolume req
  | Expand req => NodeExpandVolume url_Parse url_ParseRequestURI req
  end.

Lemma handle_cases r :
  (exists c msg, handle r = Ret (Err (EStatus c msg)) /\ (c = InvalidArgument \/ c = FailedPrecondition)) \/
  (exists body, handle r = locked body /\ if withdraws r then unlocking body else keeping body).
Proof.
  destruct r as [req|req|req|req|req]; cbn [handle withdraws].
  - unfold NodePublishVolume. repeat case_match; eauto 6. right. eauto using publish_keeping.
  - unfold NodeUnpublishVolume.
    destruct (String.eqb (NU_TargetPath req) ""), (String.eqb (NU_VolumeId req) ""); eauto 6. right. eexists. split; [done|].
    apply with_volume_unlocking. intros v p. destruct (bare_operations _); [|exact I].
    apply well_bind; [apply op_NodeUnpublishVolume_unlocking|]. intros ?; exact I.
  - unfold NodeStageVolume, status_of. repeat case_match; eauto 6. right. eauto using stage_keeping.
  - unfold NodeUnstageVolume.
    destruct (String.eqb (NUS_VolumeId req) ""), (String.eqb (NUS_StagingTargetPath req) ""); eauto 6. right. eexists. split; [done|].
    apply with_volume_unlocking. intros v p. destruct (bare_operations _); [|exact I].
    apply finish_unlocking, op_NodeUnstageVolume_unlocking.
  - unfold NodeExpandVolume. destruct (String.eqb (NE_VolumeId req) ""); [eauto 6|]. right. eexists. split; [done|].
    apply with_volume_keeping. intros v p. destruct (validateSecret _ _ _ _); [exact I|].
    apply well_bind; [apply new_node_keeping|]. intros []; [|exact I].
    apply finish_keeping, op_NodeExpandVolume_keeping.
Qed.

(** ** One handler *)

(** A deferred call is the last one, after an answer and after a panic. *)
Lemma defer_last {A} (P : forall X, ncall X -> Prop) (p : prog ncall A) (c : ncall unit) t o :
  well P p -> runs (defer p (fun _ => trigger c)) t o -> exists t', t = t' ++ [Evt c tt] /\ runs p t' o.
Proof.
  revert t. induction p as [a| | |X e k IH]; cbn; intros t Hp Ht; [| |done|].
  1-2: destruct Ht as ([] & ? & -> & -> & ->); by exists [].
  destruct Hp as [_ Hk], Ht as (x & t' & -> & Ht). destruct (IH x t') as (t'' & -> & Hr); [done..|].
  exists (Evt e x :: t''). split; [done|]. eauto.
Qed.

(** A handler refuses a request before it does anything, with InvalidArgument
    or FailedPrecondition; or it takes the node-volume mutex, works, and releases
    it at its very end, also when the work panics; the work touches no mutex and
    never runs out of fuel, and unmounts or removes something only when the
    request unpublishes or unstages. *)
Theorem handler_runs r t o :
  runs (handle r) t o ->
  (t = [] /\ exists c msg, o = Done (Err (EStatus c msg)) /\ (c = InvalidArgument \/ c = FailedPrecondition)) \/
  (o <> Exhausted /\
   exists mid, t = Evt (Call (Os (Lock NodeVolumeMutex))) tt :: mid ++ [Evt (Call (Os (Unlock NodeVolumeMutex))) tt] /\
     Forall (fun e => match e with Evt c _ => mutex_call c = false /\ (withdraws r = false -> removal c = false) end) mid).
Proof.
  destruct (handle_cases r) as [(c & msg & -> & Hc)|(body & -> & Hbody)].
  - intros [-> ->]. left. eauto.
  - intros ([] & t' & -> & Ht). right.
    assert (Hwell : well (fun X (c : ncall X) => mutex_call c = false /\ (withdraws r = false -> removal c = false)) body).
    { destruct (withdraws r); (eapply well_mono; [|exact Hbody]); intros X c; cbn.
      - by split.
      - by intros [Hm Hr]%orb_false_iff. }
    apply (defer_last _ _ _ _ _ Hwell) in Ht as (mid & -> & Hmid).
    destruct (well_runs _ _ _ _ Hwell Hmid) as [Hall Ho]. split; [done|]. by exists mid.
Qed.

(** ** Handlers side by side *)

(** The handlers under way, and which of them holds the node-volume mutex. *)
Record node_state := MkNodeState { handlers : list (prog ncall (res unit)); holder : option nat }.

(** A call of handler [i] and the mutex: to lock waits until the mutex is free, to
    unlock needs it taken (the runtime ends the process otherwise). *)
Definition granted {X} (i : nat) (c : ncall X) (h h' : option nat) : Prop :=
  match c with
  | Call (Os (Lock NodeVolumeMutex)) => h = None /\ h' = Some i
  | Call (Os (Unlock NodeVolumeMutex)) => is_Some h /\ h' = None
  | _ => h' = h
  end.
Inductive calls : node_state -> nat -> evt ncall -> node_state -> Prop :=
| calls_intro i X (c : ncall X) k x ps h h' :
    ps !! i = Some (Vis c k) -> granted i c h h' ->
    calls (MkNodeState ps h) i (Evt c x) (MkNodeState (<[i := k x]> ps) h').
Inductive reachable : node_state -> Prop :=
| reachable_start : reachable (MkNodeState [] None)
| reachable_request ps h r : reachable (MkNodeState ps h) -> reachable (MkNodeState (ps ++ [handle r]) h)
| reachable_call s i e s' : reachable s -> calls s i e s' -> reachable s'.

Definition ended {A} (p : prog ncall A) : Prop := match p with Ret _ | Panic => True | _ => False end.
#[export] Instance ended_dec {A} (p : prog ncall A) : Decision (ended p).
Proof. destruct p; solve_decision. Defined.
Definition releases {X} (c : ncall X) : Prop := match c with Call (Os (Unlock NodeVolumeMutex)) => True | _ => False end.
Definition acquires {X} (c : ncall X) : Prop := match c with Call (Os (Lock NodeVolumeMutex)) => True | _ => False end.

(** A handler that holds the mutex is what is left of its body, with the release
    behind it; one that does not has yet to take it, or is through. *)
Definition inside (p : prog ncall (res unit)) : Prop :=
  exists body, unlocking body /\ p = defer body (fun _ => lift (ManageNodeVolumeMutex false)).
Definition outside (p : prog ncall (res unit)) : Prop :=
  match p with
  | Vis c k => acquires c /\ forall x, inside (k x)
  | NoFuel => False
  | _ => True
  end.
Definition consistent (s : node_state) : Prop :=
  (forall i p, handlers s !! i = Some p -> if decide (holder s = Some i) then inside p else outside p) /\
  (forall i, holder s = Some i -> is_Some (handlers s !! i)).

Lemma handle_outside r : outside (handle r).
Proof.
  destruct (handle_cases r) as [(c & msg & -> & _)|(body & -> & Hbody)]; [exact I|].
  split; [exact I|]. intros []. exists body. split; [|reflexivity].
  destruct (withdraws r); [done|by apply keeping_unlocking].
Qed.

(** The calls of a handler that holds the mutex: the release, after which it is
    through, or a call that is about no mutex. *)
Lemma inside_cases p : inside p ->
  match p with
  | Vis c k => (releases c /\ forall x, ended (k x)) \/ (mutex_call c = false /\ forall x, inside (k x))
  | _ => False
  end.
Proof.
  intros ([a| | |X c k] & Hbody & ->).
  - left. split; [exact I|]. intros x; exact I.
  - left. split; [exact I|]. intros x; exact I.
  - done.
  - right. destruct Hbody as [Hc Hk]. split; [done|]. intros x. exists (k x). split; [apply Hk|reflexivity].
Qed.
Lemma granted_quiet {X} i (c : ncall X) h h' : mutex_call c = false -> granted i c h h' <-> h' = h.
Proof. destruct c as [X c|X c]; [|done]. destruct c as [| |X c]; try done. destruct c; done. Qed.
Lemma granted_release {X} i (c : ncall X) h h' : releases c -> granted i c h h' <-> is_Some h /\ h' = None.
Proof. destruct c as [X c|X c]; [|done]. destruct c as [| |X c]; try done. destruct c as [| | | | | | | | | |[]|[]]; done. Qed.
Lemma granted_acquire {X} i (c : ncall X) h h' : acquires c -> granted i c h h' <-> h = None /\ h' = Some i.
Proof. destruct c as [X c|X c]; [|done]. destruct c as [| |X c]; try done. destruct c as [| | | | | | | | | |[]|[]]; done. Qed.

Lemma ended_outside p : ended p -> outside p.
Proof. by destruct p. Qed.

Lemma consistent_call s i e s' : consistent s -> calls s i e s' -> consistent s'.
Proof.
  intros [Hp Hh] Hcall. destruct Hcall as [i X c k x ps h h' Hi Hg]. unfold consistent in *. cbn in *.
  pose proof (Hp _ _ Hi) as Hpi.
  assert (Hlen : (i < length ps)%nat) by eauto using lookup_lt_Some.
  assert (Hothers : (forall j, j <> i -> (h' = Some j <-> h = Some j)) ->
      (if decide (h' = Some i) then inside (k x) else outside (k x)) ->
      forall j p, <[i:=k x]> ps !! j = Some p -> if decide (h' = Some j) then inside p else outside p).
  { intros Hj Hk j p [(<- & <- & _)|[Hne Hjp]]%list_lookup_insert_Some; [done|].
    pose proof (Hp _ _ Hjp) as Hpj. pose proof (Hj _ (not_eq_sym Hne)) as Hiff.
    destruct (decide (h = Some j)), (decide (h' = Some j)); tauto. }
  assert (Hin : (forall j, h' = Some j -> j = i \/ h = Some j) -> forall j, h' = Some j -> is_Some (<[i:=k x]> ps !! j)).
  { intros Hj j Hh'. apply lookup_lt_is_Some. rewrite length_insert.
    destruct (Hj _ Hh') as [->|H']; [done|]. by apply lookup_lt_is_Some, Hh. }
  destruct (decide (h = Some i)) as [->|Hne].
  - destruct (inside_cases _ Hpi) as [[Hrel Hk]|[Hq Hk]].
    + apply granted_release in Hg as [_ ->]; [|done]. split; [|done].
      apply Hothers; [intros j Hj; split; congruence|]. by apply ended_outside, Hk.
    + apply granted_quiet in Hg as ->; [|done]. split; [|apply Hin; auto].
      apply Hothers; [done|]. rewrite decide_True by done. apply Hk.
  - destruct Hpi as [Hacq Hk]. apply granted_acquire in Hg as [-> ->]; [|done]. split.
    + apply Hothers; [intros j Hj; split; congruence|]. rewrite decide_True by done. apply Hk.
    + apply Hin. intros j [= ->]. by left.
Qed.

Lemma reachable_consistent s : reachable s -> consistent s.
Proof.
  induction 1 as [|ps h r _ [Hp Hh]|s i e s' _ IH Hcall]; [split; [done|by intros]| |by eapply consistent_call].
  unfold consistent in *. cbn in *. split.
  - intros i p [Hi|[Hi [Hz <-]%list_lookup_singleton_Some]]%lookup_app_Some; [by apply Hp|].
    rewrite decide_False; [apply handle_outside|]. intros [q Hq]%Hh.
    apply lookup_lt_Some in Hq. lia.
  - intros i [q Hq]%Hh. exists q. by apply lookup_app_l_Some.
Qed.

(** The handler [i] can make its next call, whatever the answer. *)
Definition ready (s : node_state) (i : nat) : Prop :=
  match handlers s !! i with
  | Some (Vis c k) => forall x, exists s', calls s i (Evt c x) s'
  | _ => False
  end.
Definition acquires_event (e : evt ncall) : Prop := match e with Evt c _ => acquires c end.

(** C4: The handlers of the node service, any number of them side by
    side. A call other than taking the mutex is made by the handler that holds
    it, so commands, mounts and removals of two handlers never mix; a handler
    that is through, by an answer or by a panic, does not hold it; and unless all
    are through, some handler can go on (the mutex never blocks them all). *)
Theorem handlers_take_turns s :
  reachable s ->
  (forall i e s', calls s i e s' -> acquires_event e \/ holder s = Some i) /\
  (forall i p, handlers s !! i = Some p -> ended p -> holder s <> Some i) /\
  ((forall i p, handlers s !! i = Some p -> ended p) \/ exists i, ready s i).
Proof.
  intros [Hp Hh]%reachable_consistent. split_conj.
  - intros i e s' Hcall. destruct Hcall as [i X c k x ps h h' Hi Hg]. cbn in *.
    specialize (Hp _ _ Hi). case_decide; [by right|]. left. apply Hp.
  - intros i p Hi Hf Hhold. specialize (Hp _ _ Hi). rewrite decide_True in Hp by done.
    apply inside_cases in Hp. by destruct p.
  - destruct (holder s) as [i|] eqn:Hhold.
    + right. exists i. destruct (Hh i) as [p Hi]; [done|]. specialize (Hp _ _ Hi).
      rewrite decide_True in Hp by done. unfold ready. rewrite Hi. destruct s as [ps h]. cbn in *. subst h.
      apply inside_cases in Hp. destruct p as [| | |X c k]; try done.
      intros x. destruct Hp as [[Hc _]|[Hc _]]; eexists; econstructor; try done.
      * by apply granted_release.
      * by apply granted_quiet.
    + destruct (decide (Forall (fun p : prog ncall (res unit) => ended p) (handlers s))) as [Hall|Hsome].
      * left. intros i p Hi. by eapply Forall_lookup_1 in Hall.
      * right. apply not_Forall_Exists in Hsome as (p & [i Hi]%list_elem_of_lookup & Hf)%Exists_exists; [|apply _].
        exists i. specialize (Hp _ _ Hi). rewrite decide_False in Hp by done. unfold ready. rewrite Hi.
        destruct s as [ps h]. cbn in *. subst h. destruct p as [| | |X c k]; try done.
        destruct Hp as [Hc _]. intros x. eexists. econstructor; [done|]. by apply granted_acquire.
Qed.
End handlers.

(** ** Concrete runs *)

Definition some_Parse : string -> res (string * string) := fun s => Ok (s, "").
Definition some_ParseRequestURI : string -> bool := fun _ => true.
Definition unpublish_100 : node_request := Unpublish (MkNodeUnpublishVolumeRequest "100$$nfs" "/pods/1/mount").
Definition unpublish_trace : node_trace :=
  [Evt (Call (Os (Lock NodeVolumeMutex))) tt; Evt (Call (Os (Getenv EnvVarKubeNodeName))) "n1";
   Evt (Call (Kube BuildClient)) None; Evt (Call (Kube GetNodes)) (Ok [MkNode "n2" ∅]);
   Evt (Host (Host.Unmount "/pods/1/mount")) None; Evt (Host MountList) (Ok ["/host/pods/2/mount"]);
   Evt (Host (Stat "/host/pods/1/mount")) (NotExist (EText "no such file"));
   Evt (Call (Os (Getenv EnvVarCleanupNFSPerms))) ""; Evt (Call (Os (Unlock NodeVolumeMutex))) tt].
Definition unpublish_os {X} (c : os X) : option X :=
  match c with
  | Lock _ | Unlock _ => Some tt
  | Getenv key => Some (if String.eqb key EnvVarKubeNodeName then "n1" else "")
  | _ => None
  end.
Definition unpublish_kube {X} (c : kube X) : option X :=
  match c with BuildClient => Some None | GetNodes => Some (Ok [MkNode "n2" ∅]) | _ => None end.
Definition unpublish_host {X} (c : host X) : option X :=
  match c with
  | Host.Unmount _ => Some None
  | MountList => Some (Ok ["/host/pods/2/mount"])
  | Stat _ => Some (NotExist (EText "no such file"))
  | _ => None
  end.
Definition unpublish_call {X} (c : call X) : option X :=
  match c with Os o => unpublish_os o | Kube k => unpublish_kube k | Ibox _ => None end.
Definition unpublish_answer X (c : ncall X) : option X :=
  match c with Call c => unpublish_call c | Host h => unpublish_host h end.
Lemma unpublish_runs :
  runs (handle some_Parse some_ParseRequestURI "10.0.0.1" unpublish_100) unpublish_trace (Done (Ok tt)).
Proof. apply (follow_runs unpublish_answer). vm_compute. reflexivity. Qed.
Lemma handler_runs_witness :
  exists t o,
    runs (handle some_Parse some_ParseRequestURI "10.0.0.1" unpublish_100) t o /\
    ((t = [] /\ exists c msg, o = Done (Err (EStatus c msg)) /\ (c = InvalidArgument \/ c = FailedPrecondition)) \/
     (o <> Exhausted /\
      exists mid, t = Evt (Call (Os (Lock NodeVolumeMutex))) tt :: mid ++ [Evt (Call (Os (Unlock NodeVolumeMutex))) tt] /\
        Forall (fun e => match e with Evt c _ => mutex_call c = false /\ (withdraws unpublish_100 = false -> removal c = false) end) mid)).
Proof.
  exists unpublish_trace, (Done (Ok tt)). split; [exact unpublish_runs|].
  exact (handler_runs _ _ _ _ _ _ unpublish_runs).
Defined.

(** Two requests for the same volume, the first of which has taken the mutex. *)
Lemma two_under_way :
  exists s, reachable some_Parse some_ParseRequestURI "10.0.0.1" s /\ length (handlers s) = 2 /\ holder s = Some 0.
Proof.
  eexists. split; [|shelve]. eapply reachable_call.
  - apply (reachable_request _ _ _ ([] ++ [handle some_Parse some_ParseRequestURI "10.0.0.1" unpublish_100]) None unpublish_100),
      (reachable_request _ _ _ [] None unpublish_100), reachable_start.
  - eapply (calls_intro 0 unit (Call (Os (Lock NodeVolumeMutex)))) with (x := tt); [reflexivity|by split].
  Unshelve. by split.
Qed.
Lemma handlers_take_turns_witness :
  exists s,
    reachable some_Parse some_ParseRequestURI "10.0.0.1" s /\ length (handlers s) = 2 /\ holder s = Some 0 /\
    (forall i e s', calls s i e s' -> acquires_event e \/ holder s = Some i).
Proof.
  destruct two_under_way as (s & Hr & Hlength & Hholder). exists s. split; [exact Hr|]. split; [exact Hlength|].
  split; [exact Hholder|]. apply (handlers_take_turns _ _ _ _ Hr).
Defined.
