(* ===== verification/MountProofs.v ===== *)
(** Properties of mounts: what unmounting may remove, and that the record of a
    disk written when it is mounted is the one read when it is unstaged. *)
From stdpp Require Import base strings list gmap.
From S2P Require Import Prelude GoLib IboxTypes Traces Fmt Csi Helper StorageCommon Json JsonProofs Host Mount BlockNode.
From Stdlib Require Import ZArith Lia Ascii.

Local Open Scope string_scope.
Local Open Scope list_scope.

Ltac wp_reduce ::= cbn [wp bind defer trigger fst snd hostAPI getenv sleep app].

(** ** Unmounting *)

(** What unmounting [targetPath] may remove after [before]: the mount point, once
    it was unmounted, is in no listing of the mounts, and is a plain file or an
    empty directory; and, after an empty mount point was removed, the record of
    the volume and the directory of the volume beside it. *)
Definition target_host (targetPath : string) : string := PathJoin ["/host"; targetPath].
Definition volume_dir (targetPath : string) : string := TrimSuffix (target_host targetPath) "/mount".
Definition unmounted (targetPath : string) (before : node_trace) : Prop :=
  (exists r, Evt (Host (Host.Unmount targetPath)) r ∈ before) /\
  (exists mounts, Evt (Host MountList) (Ok mounts) ∈ before /\ target_host targetPath ∉ mounts).
Definition emptied (targetPath : string) (before : node_trace) : Prop :=
  Evt (Host (Readdirnames1 (target_host targetPath))) EndOfDir ∈ before.
Definition a_file (targetPath : string) (before : node_trace) : Prop :=
  Evt (Host (Stat (target_host targetPath))) (Found false) ∈ before.
Definition may_remove (targetPath : string) (before : node_trace) (path : string) : Prop :=
  unmounted targetPath before /\
  (path = target_host targetPath /\ (a_file targetPath before \/ emptied targetPath before) \/
   emptied targetPath before /\ (path = volume_dir targetPath \/ path = PathJoin [volume_dir targetPath; "vol_data.json"])).
Definition cleanup_guard (targetPath : string) (before : node_trace) (e : evt ncall) : Prop :=
  match e with
  | Evt (Host (Host.Remove path)) _ => may_remove targetPath before path
  | Evt (Host (Host.RemoveAll _)) _ => False
  | Evt (Host (Host.Unmount path)) _ => path = targetPath
  | _ => True
  end.

Lemma not_listed path mounts : existsb (String.eqb path) mounts = false -> path ∉ mounts.
Proof.
  intros H [i Hi]%list_elem_of_lookup. apply not_true_iff_false in H. apply H, existsb_exists.
  exists path. split; [|by apply String.eqb_refl]. by eapply list_elem_of_In, list_elem_of_lookup_2.
Qed.

Ltac solve_unlisted := eexists; split; [in_trace|by apply not_listed].
Ltac solve_removal :=
  split; [split; [eexists; in_trace|solve_unlisted]|];
  first [right; split; [in_trace|first [by left|by right]]
        |left; split; [reflexivity|first [left; in_trace|right; in_trace]]].

(** C7: What [UnmountAndCleanUp] removes: the mount point only after unmounting it,
    only when a listing of the mounts does not have it (any more), and only when
    it is a plain file or a directory found empty; beside it, only behind an empty
    mount point, [vol_data.json] and the directory of the volume; nothing is ever
    removed with its contents. It always answers, and no error means that the
    mount point is not mounted. *)
Theorem UnmountAndCleanUp_safe targetPath t o :
  runs (UnmountAndCleanUp targetPath) t o ->
  guarded (cleanup_guard targetPath) t /\
  (exists r, o = Done r) /\
  (o = Done None -> exists mounts, Evt (Host MountList) (Ok mounts) ∈ t /\ target_host targetPath ∉ mounts).
Proof.
  unfold UnmountAndCleanUp, isMountedByListMethod, cleanupOldMountDirectory, remove_leftover, IsDirEmpty, IsDirectory.
  fold (target_host targetPath). revert t o. wp_start. wp_run. all: wp_leaf.
  all: split_conj; [guard_event; solve_removal|by eexists|first [by intros [=]|intros _; solve_unlisted]].
Qed.

Definition cleanup_trace : node_trace :=
  [Evt (Host (Host.Unmount "/csi-1/mount")) None; Evt (Host MountList) (Ok ["/host/csi-2/mount"]);
   Evt (Host (Stat "/host/csi-1/mount")) (Found true); Evt (Host (Stat "/host/csi-1/mount")) (Found true);
   Evt (Host (OpenFile "/host/csi-1/mount")) None; Evt (Host (Readdirnames1 "/host/csi-1/mount")) EndOfDir;
   Evt (Host (Stat "/host/csi-1/mount")) (Found true); Evt (Host (Host.Remove "/host/csi-1/mount")) None;
   Evt (Host (Stat "/host/csi-1/vol_data.json")) (Found false); Evt (Host (Host.Remove "/host/csi-1/vol_data.json")) None;
   Evt (Host (Stat "/host/csi-1")) (Found true); Evt (Host (Host.Remove "/host/csi-1")) (Some (EText "directory not empty"))].
Lemma UnmountAndCleanUp_safe_witness :
  runs (UnmountAndCleanUp "/csi-1/mount") cleanup_trace (Done None) /\
  guarded (cleanup_guard "/csi-1/mount") cleanup_trace.
Proof.
  assert (H : runs (UnmountAndCleanUp "/csi-1/mount") cleanup_trace (Done None)).
  { vm_compute. repeat (eexists _, _; split; [reflexivity|]). by split. }
  split; [exact H|]. apply (UnmountAndCleanUp_safe _ _ _ H).
Defined.

(** ** The record of a disk *)

Definition disk_ascii (conf : DiskInfo) : Prop :=
  ascii_text (RootDir conf) = true /\ ascii_text (MpathDevice conf) = true /\ in_i64 (DiskVolumeID conf).

Lemma parse_DiskInfo fuel conf :
  disk_ascii conf ->
  parse_value (S (S (S (S (S fuel))))) (encode_DiskInfo conf)
  = Some (JObj [("rootdir", JStr (RootDir conf)); ("mpathdevice", JStr (MpathDevice conf));
                ("isblock", JBool (DiskIsBlock conf)); ("volumeid", JNum (Itoa (DiskVolumeID conf)))], String newline "").
Proof.
  intros (Hr & Hm & Hz). unfold encode_DiskInfo.
  set (rest := quoted "rootdir" +:+ _). change ("{" +:+ rest) with (String "{" rest).
  erewrite parse_object by reflexivity. subst rest.
  erewrite members_comma by (apply parse_member; [done|by apply parse_quoted]).
  erewrite members_comma by (apply parse_member; [done|by apply parse_quoted]).
  erewrite members_comma by (apply parse_member; [done|by apply parse_bool]).
  erewrite members_last by (apply parse_member; [done|by apply parse_integer]).
  reflexivity.
Qed.
Lemma decode_encode conf before : disk_ascii conf -> decode_DiskInfo before (encode_DiskInfo conf) = Ok conf.
Proof.
  intros Hconf. unfold decode_DiskInfo.
  assert (Hfuel : exists k, S (String.length (encode_DiskInfo conf)) = S (S (S (S (S k))))) by (eexists; reflexivity).
  destruct Hfuel as [k ->]. rewrite parse_DiskInfo by done.
  destruct Hconf as (_ & _ & Hz). cbn. unfold set_field. cbn. rewrite ParseInt10_Itoa by done. by destruct conf.
Qed.

(** ** The files of the node *)

(** What a call does to the contents of the plain files, and what they say of its
    answer. A command leaves them alone; a failed write leaves anything behind. *)
Definition file_effect {X} (h : host X) : gmap string string -> X -> gmap string string -> Prop :=
  match h in host X return gmap string string -> X -> gmap string string -> Prop with
  | CreateFile p => fun fs r fs' => fs' = match r with None => <[p := ""]> fs | Some _ => fs end
  | WriteFile p c => fun fs r fs' => match r with None => fs' = <[p := c]> fs | Some _ => exists c', fs' = <[p := c']> fs end
  | ReadFile p => fun fs r fs' => fs' = fs /\ match r with Ok c => fs !! p = Some c | Err _ => True end
  | Stat p => fun fs r fs' => fs' = fs /\ (missing r = true -> fs !! p = None)
  | Host.Remove p => fun fs r fs' => fs' = match r with None => delete p fs | Some _ => fs end
  | Host.RemoveAll p => fun fs r fs' => fs' ⊆ fs
  | _ => fun fs _ fs' => fs' = fs
  end.
Definition file_step (fs : gmap string string) (e : evt ncall) (fs' : gmap string string) : Prop :=
  match e with
  | @Evt _ X (Host h) x => file_effect h fs x fs'
  | _ => fs' = fs
  end.
Fixpoint files (fs : gmap string string) (t : node_trace) (fs' : gmap string string) : Prop :=
  match t with
  | [] => fs' = fs
  | e :: t => exists fs1, file_step fs e fs1 /\ files fs1 t fs'
  end.

(** A mount was tried. *)
Definition mounting (e : evt ncall) : Prop :=
  match e with
  | Evt (Host (FormatAndMount _ _ _ _)) _ => True
  | Evt (Host (Spawn "bash" [_; command])) _ => String.prefix "set -o pipefail; mount " command = true
  | _ => False
  end.
Definition read_failed (path : string) (t : node_trace) : Prop :=
  (exists err, Evt (Host (OpenFile path)) (Some err) ∈ t) \/ (exists err, Evt (Host (ReadFile path)) (Err err) ∈ t).

Ltac not_mounting H := exfalso; rewrite ?Exists_cons, ?Exists_nil in H; cbn in H; intuition discriminate.
Ltac open_files H :=
  cbn [files file_step file_effect] in H;
  repeat match goal with
  | H : exists _, _ |- _ => destruct H as [? H]
  | H : _ /\ _ |- _ => destruct H
  end; subst.
Ltac replay_files H :=
  open_files H; repeat first [rewrite lookup_insert_eq; reflexivity|rewrite lookup_insert_ne by done].
Lemma persisted_before_mount config target device stage fs options block ro t o :
  runs (MountLogic config target device stage fs options block ro) t o ->
  RootDir config +:+ target <> config_path config stage -> Exists mounting t ->
  forall files0 files1, files files0 t files1 -> files1 !! config_path config stage = Some (encode_DiskInfo config).
Proof.
  unfold MountLogic, mount_block, mount_filesystem, CreateConfigFile, LogPermissions, ExecCommand, Exec_Command.
  cbv zeta. generalize (encode_DiskInfo config) (config_path config stage). intros text path.
  revert t o. wp_start. wp_run. all: wp_leaf.
  all: intros Hne Hex files0 files1 Hfiles; first [by not_mounting Hex|replay_files Hfiles].
Qed.

Lemma record_found conf stage t o files0 files1 :
  RootDir conf = NodeRootDir -> disk_ascii conf -> files0 !! config_path conf stage = Some (encode_DiskInfo conf) ->
  runs (staged_disk (DiskVolumeID conf) stage) t o -> files files0 t files1 ->
  o = Done (Recorded (MpathDevice conf)) \/ (o = Done Unreadable /\ read_failed (config_path conf stage) t).
Proof.
  intros Hroot Hconf.
  assert (Hpath : config_path (disk_of (DiskVolumeID conf)) stage = config_path conf stage) by (unfold config_path; by rewrite Hroot).
  assert (Hpath' : PathJoin ["/host"; stage; Itoa (DiskVolumeID conf) +:+ ".json"] = config_path conf stage)
    by (unfold config_path; by rewrite Hroot).
  unfold staged_disk, LoadDiskInfoFromFile, PathExists. cbv zeta. rewrite Hpath, Hpath'.
  pose proof (decode_encode conf (disk_of (DiskVolumeID conf)) Hconf) as Hdecode. revert Hdecode.
  generalize (encode_DiskInfo conf) (config_path conf stage). intros text path Hdecode Hfile. revert t o. wp_start. wp_run.
  all: wp_leaf.
  all: intros Hfiles; open_files Hfiles; try (exfalso; congruence).
  2: left; congruence.
  all: right; split;
    [destruct x0 as [b|err|[] err]; cbn in *; [done| |done|done]; match goal with H : true = true -> _ |- _ => rewrite H in Hfile; done end
    |first [left; eexists; in_trace|right; eexists; in_trace]].
Qed.

(** C8: Whatever [MountLogic] tries to mount can be found again: the record of the
    disk is in its file before the first attempt to mount, and unless that file is
    changed in between, unstaging the volume reads back the very device that was
    mounted, through the JSON text of the record; at worst the file cannot be
    opened or read, which the caller sees as such. It never takes the volume for
    one that was not staged. *)
Theorem staged_record_found config target device stage fs options block ro t1 o1 t2 o2 files0 files1 files2 files3 :
  RootDir config = NodeRootDir -> disk_ascii config -> RootDir config +:+ target <> config_path config stage ->
  runs (MountLogic config target device stage fs options block ro) t1 o1 -> files files0 t1 files1 ->
  Exists mounting t1 ->
  files2 !! config_path config stage = files1 !! config_path config stage ->
  runs (staged_disk (DiskVolumeID config) stage) t2 o2 -> files files2 t2 files3 ->
  o2 = Done (Recorded (MpathDevice config)) \/ (o2 = Done Unreadable /\ read_failed (config_path config stage) t2).
Proof.
  intros Hroot Hconf Htarget Ht1 Hf1 Hmount Hkept Ht2 Hf2.
  eapply record_found; [done|done| |exact Ht2|exact Hf2].
  rewrite Hkept. by eapply persisted_before_mount.
Qed.

Definition disk_7 : DiskInfo := MkDiskInfo NodeRootDir "/dev/dm-3" false 7.
Definition mount_trace : node_trace :=
  [Evt (Host MountList) (Ok []); Evt (Host (Stat "/pods/1/mount")) (Found true);
   Evt (Host (CreateFile "/host/stage/7.json")) None;
   Evt (Host (WriteFile "/host/stage/7.json" (encode_DiskInfo disk_7))) None;
   Evt (Host (FormatAndMount "/dev/dm-3" "/pods/1/mount" "ext4" ["rw"])) None].
Definition unstage_trace : node_trace :=
  [Evt (Host (ReadFile "/host/stage/7.json")) (Ok (encode_DiskInfo disk_7)); Evt (Host (OpenFile "/host/stage/7.json")) None;
   Evt (Host (ReadFile "/host/stage/7.json")) (Ok (encode_DiskInfo disk_7))].
Definition staged_files : gmap string string :=
  <["/host/stage/7.json" := encode_DiskInfo disk_7]> (<["/host/stage/7.json" := ""]> ∅).
Lemma staged_run : runs (staged_disk 7 "/stage") unstage_trace (Done (Recorded "/dev/dm-3")).
Proof.
  unfold staged_disk, LoadDiskInfoFromFile. cbv zeta.
  assert (Hpath : config_path (disk_of 7) "/stage" = "/host/stage/7.json") by (vm_compute; reflexivity).
  rewrite Hpath. do 2 (eexists _, _; split; [reflexivity|]). cbn [bind trigger]. eexists _, _; split; [reflexivity|].
  cbn [bind]. rewrite decode_encode by (repeat split; reflexivity || (cbn; unfold int64_min, int64_max; lia)). by split.
Qed.
Lemma staged_record_found_witness :
  runs (MountLogic disk_7 "/pods/1/mount" "/dev/dm-3" "/stage" "ext4" [] false false) mount_trace (Done None) /\
  runs (staged_disk 7 "/stage") unstage_trace (Done (Recorded "/dev/dm-3")) /\
  (Done (Recorded "/dev/dm-3") = Done (Recorded (MpathDevice disk_7)) \/
   (Done (Recorded "/dev/dm-3") = Done Unreadable /\ read_failed (config_path disk_7 "/stage") unstage_trace)).
Proof.
  assert (H1 : runs (MountLogic disk_7 "/pods/1/mount" "/dev/dm-3" "/stage" "ext4" [] false false) mount_trace (Done None)).
  { vm_compute. repeat (eexists _, _; split; [reflexivity|]). by split. }
  assert (H2 : runs (staged_disk 7 "/stage") unstage_trace (Done (Recorded "/dev/dm-3"))).
  { apply staged_run. }
  split; [exact H1|]. split; [exact H2|].
  apply (staged_record_found disk_7 "/pods/1/mount" "/dev/dm-3" "/stage" "ext4" [] false false mount_trace (Done None)
           unstage_trace (Done (Recorded "/dev/dm-3")) ∅ staged_files staged_files staged_files); try reflexivity.
  - split; [reflexivity|]. split; [reflexivity|]. cbn [disk_7 DiskVolumeID]. unfold in_i64, int64_min, int64_max. lia.
  - vm_compute. discriminate.
  - exact H1.
  - exists ∅. split; [reflexivity|]. exists ∅. split; [by split|]. exists (<["/host/stage/7.json" := ""]> ∅).
    split; [reflexivity|]. exists staged_files. split; [reflexivity|]. exists staged_files. by split.
  - right. right. right. right. left. exact I.
  - exact H2.
  - assert (Hread : staged_files !! "/host/stage/7.json" = Some (encode_DiskInfo disk_7)) by apply lookup_insert_eq.
    exists staged_files. split; [by split|]. exists staged_files. split; [reflexivity|]. exists staged_files. by split; [split|].
Defined.
