(* ===== verification/MultipathProofs.v ===== *)
(** Properties of the multipath devices of a node: nothing of a device is removed
    before its map was flushed; and which device a volume path is taken for. *)
From stdpp Require Import base strings list gmap.
From S2P Require Import Prelude GoLib IboxTypes Traces Fmt Csi Host Mount Multipath NodeKinds.
From Stdlib Require Import ZArith Lia Ascii.

Local Open Scope string_scope.
Local Open Scope list_scope.

(** ** Commands *)

Lemma rev_string_acc s acc : rev_string s acc = rev_string s "" +:+ acc.
Proof.
  revert acc. induction s as [|c s IH]; intros acc; cbn; [done|]. by rewrite IH, (IH (String c "")), app_assoc_s.
Qed.
Lemma drop_while_stops f s d y : f d = false -> exists s', drop_while f (s +:+ String d y) = s' +:+ String d y.
Proof.
  intros Hd. induction s as [|x s IH]; cbn; [rewrite Hd; by exists ""|].
  destruct (f x); [done|]. by exists (String x s).
Qed.
Lemma rev_string_app a b acc : rev_string (a +:+ b) acc = rev_string b (rev_string a acc).
Proof. revert acc. induction a; intros acc; cbn; auto. Qed.
Lemma rev_string_inv s : rev_string (rev_string s "") "" = s.
Proof. induction s as [|c s IH]; cbn; [done|]. by rewrite (rev_string_acc s (String c "")), rev_string_app, IH. Qed.
(** A beginning without spaces at its ends stays when the text is trimmed. *)
Lemma TrimSpace_keeps c a d b s :
  String c a = b +:+ String d "" -> is_space c = false -> is_space d = false ->
  exists s', TrimSpace (String c a +:+ s) = String c a +:+ s'.
Proof.
  intros Hab Hc Hd. unfold TrimSpace, trim_func. cbn [drop_while String.append]. rewrite Hc.
  change (String c (a +:+ s)) with (String c a +:+ s). rewrite Hab, !rev_string_app. cbn [rev_string].
  rewrite (rev_string_acc s). 
  destruct (drop_while_stops is_space (rev_string s "") d (rev_string b "") Hd) as [x ->].
  rewrite rev_string_app. cbn [rev_string]. rewrite rev_string_acc, rev_string_inv. exists (rev_string x "").
  change (String c (a +:+ rev_string x "")) with (String c a +:+ rev_string x ""). by rewrite Hab, app_assoc_s.
Qed.

(** A command of bash, and those that take a device or its map apart. *)
Definition command_of {X} (c : ncall X) : option string :=
  match c with Host (Spawn "bash" [_; command]) => Some command | _ => None end.
Definition destroys {X} (c : ncall X) : bool :=
  match command_of c with
  | Some command =>
      existsb (fun p => String.prefix (pipefail p) command) ["echo 1 > /sys/class/scsi_disk/"; "multipathd del path "; "multipath -w "]
  | None => false
  end.
Definition harmless {A} : prog ncall A -> Prop := well (fun X c => destroys c = false).

Lemma env_number_harmless key d : harmless (env_number key d).
Proof. split; [done|]. intros x; exact I. Qed.
Lemma bash_output_harmless command :
  destroys (Host (Spawn "bash" ["-c"; pipefail command])) = false -> harmless (bash_output command).
Proof. intros H. split; [done|]. intros [[] []]; exact I. Qed.


(** ** Before the flush *)

Lemma ExecCommand_harmless cmd args :
  destroys (Host (Spawn "bash" ["-c"; pipefail (TrimSpace cmd) +:+
                                (if String.eqb (TrimSpace args) "" then "" else " " +:+ TrimSpace args)])) = false ->
  harmless (ExecCommand cmd args).
Proof. intros H. split; [exact H|]. intros [[] []]; exact I. Qed.
Lemma find_multipath_harmless device : harmless (FindMpathFromDevice device).
Proof.
  unfold FindMpathFromDevice. cbv zeta. apply well_bind; [|intros []; exact I].
  apply ExecCommand_harmless.
  destruct (TrimSpace_keeps "m" "ultipathd show" "w" "multipathd sho"
              (" maps raw format " +:+ String dquote ("%n_%d_" +:+ String dquote "")
                 +:+ " | grep _" +:+ replace_first device "/dev/" "" +:+ "_")) as [s' Hs']; [reflexivity..|].
  change ("multipathd show maps raw format " +:+ String dquote ("%n_%d_" +:+ String dquote "")
                 +:+ " | grep _" +:+ replace_first device "/dev/" "" +:+ "_")
    with ("multipathd show" +:+ (" maps raw format " +:+ String dquote ("%n_%d_" +:+ String dquote "")
                 +:+ " | grep _" +:+ replace_first device "/dev/" "" +:+ "_")).
  rewrite Hs'. reflexivity.
Qed.
Lemma slaves_harmless path : harmless (FindSlaveDevicesOnMultipath path).
Proof.
  unfold FindSlaveDevicesOnMultipath. destruct (Split path "/") as [|? [|dev [|? []]]]; try exact I.
  destruct (String.prefix "dev" dev); [|exact I]. split; [done|]. intros ?. exact I.
Qed.
Lemma show_multipath_harmless mpath : harmless (findDevicesForMpath mpath).
Proof.
  unfold findDevicesForMpath. apply well_bind; [by apply bash_output_harmless|]. intros []; exact I.
Qed.
Lemma mpath_devices_harmless device path : harmless (mpath_devices device path).
Proof.
  unfold mpath_devices. destruct (String.prefix "/dev/dm-" path).
  - apply well_bind; [apply slaves_harmless|]. intros []; [|exact I].
    apply well_bind; [apply find_multipath_harmless|]. intros []; exact I.
  - apply well_bind; [apply show_multipath_harmless|]. intros []; exact I.
Qed.
(** The flush of a map, and that it went well. *)
Definition flush_command (mpath : string) : string := pipefail "multipath" +:+ " " +:+ TrimSpace ("-f " +:+ mpath).
Definition flushed (mpath : string) (t : node_trace) : Prop :=
  exists out err, Evt (Host (Spawn "bash" ["-c"; flush_command mpath])) (out, err, None) ∈ t.
(** The number of rounds given in the environment is none. *)
Definition no_rounds (t : node_trace) : Prop :=
  exists v z, Evt (Call (Os (Getenv MULTIPATH_FLUSH_RETRIES))) v ∈ t /\ Atoi v = Ok z /\ (z <= 0)%Z.

Lemma flush_args mpath : exists s, TrimSpace ("-f " +:+ mpath) = "-f" +:+ s.
Proof. by apply (TrimSpace_keeps "-" "f" "f" "-" (" " +:+ mpath)). Qed.
Lemma flush_run mpath t r :
  runs (ExecCommand "multipath" ("-f " +:+ mpath)) t (Done r) ->
  exists out err e, t = [Evt (Host (Spawn "bash" ["-c"; flush_command mpath])) (out, err, e)] /\ (is_ok r = true -> e = None).
Proof.
  unfold ExecCommand, Exec_Command, flush_command. cbv zeta. destruct (flush_args mpath) as [s ->].
  intros ([[out err] e] & t' & -> & Ht). exists out, err, e. destruct e; destruct Ht as [-> [= ->]]; by split.
Qed.
Lemma flush_rounds_harmless n mpath delay : harmless (flush_rounds n mpath delay).
Proof.
  induction n as [|n IH]; [exact I|]. cbn [flush_rounds]. apply well_bind.
  - apply ExecCommand_harmless. destruct (flush_args mpath) as [s ->]. reflexivity.
  - intros []; [exact I|]. destruct n; [exact I|]. split; [done|]. intros ?. exact IH.
Qed.
Lemma flush_rounds_flushed n mpath delay t :
  runs (flush_rounds n mpath delay) t (Done None) -> n = 0 \/ flushed mpath t.
Proof.
  revert t. induction n as [|n IH]; intros t Ht; [by left|right]. cbn [flush_rounds] in Ht.
  apply runs_bind_inv in Ht as [(r & t1 & t2 & -> & H1 & H2)|[[? _]|[? _]]]; [|done..].
  apply flush_run in H1 as (out & err & e & -> & He). destruct r as [r|r].
  - rewrite (He eq_refl). exists out, err. in_trace.
  - destruct n; [by destruct H2 as [_ ?]|]. destruct H2 as ([] & t' & -> & H2).
    apply IH in H2 as [?|(out' & err' & Hin)]; [done|]. exists out', err'. do 2 right. exact Hin.
Qed.
Lemma multipathFlush_harmless mpath : harmless (multipathFlush mpath).
Proof.
  unfold multipathFlush. apply well_bind; [apply env_number_harmless|]. intros n.
  apply well_bind; [apply env_number_harmless|]. intros delay. apply flush_rounds_harmless.
Qed.
Lemma multipathFlush_flushed mpath t :
  runs (multipathFlush mpath) t (Done None) -> no_rounds t \/ flushed mpath t.
Proof.
  intros (v & t1 & -> & H). cbn [bind] in H. destruct H as (w & t2 & -> & H). cbn [bind] in H.
  apply flush_rounds_flushed in H as [H|(out & err & Hin)]; [left|right; exists out, err; by do 2 right].
  exists v. destruct (String.eqb v ""); [done|]. destruct (Atoi v) as [z|]; [|done].
  exists z. split; [in_trace|]. split; [done|lia].
Qed.

(** ** Detaching *)

Definition destroying (e : evt ncall) : Prop := match e with Evt c _ => destroys c = true end.
(** The map a device is detached by: its own name, unless it is a path of the
    device mapper, whose map is looked up. *)
Definition map_of (mpathDevice mpath : string) : Prop :=
  String.prefix "/dev/dm-" (if String.prefix "/host" mpathDevice then replace_first mpathDevice "/host" "" else mpathDevice) = false ->
  mpath = mpathDevice.
Definition flush_done (mpathDevice : string) (t : node_trace) : Prop :=
  no_rounds t \/ exists mpath, map_of mpathDevice mpath /\ flushed mpath t.

Lemma flush_done_app mpathDevice t t' : flush_done mpathDevice t -> flush_done mpathDevice (t ++ t').
Proof.
  intros [(v & z & H & Hz)|(mpath & Hm & out & err & H)].
  - left. exists v, z. split; [|done]. apply elem_of_app. by left.
  - right. exists mpath. split; [done|]. exists out, err. apply elem_of_app. by left.
Qed.
Lemma flush_done_before mpathDevice t t' : flush_done mpathDevice t' -> flush_done mpathDevice (t ++ t').
Proof.
  intros [(v & z & H & Hz)|(mpath & Hm & out & err & H)].
  - left. exists v, z. split; [|done]. apply elem_of_app. by right.
  - right. exists mpath. split; [done|]. exists out, err. apply elem_of_app. by right.
Qed.
Lemma harmless_runs {A} (p : prog ncall A) t o :
  harmless p -> runs p t o -> Forall (fun e => ~ destroying e) t /\ o <> Exhausted.
Proof.
  intros Hp Ht. destruct (well_runs _ _ _ _ Hp Ht) as [Hall Ho]. split; [|done].
  eapply Forall_impl; [exact Hall|]. intros [X c x]; cbn. by intros ->.
Qed.
Lemma bind_answer {A B} (p : prog ncall A) (f : A -> prog ncall B) b (Q : Prop) :
  (forall a t, runs (f a) t (Done b) -> Q) -> forall t, runs (bind p f) t (Done b) -> Q.
Proof. intros H t Ht. apply runs_bind_inv in Ht as [(a & t1 & t2 & -> & _ & H2)|[[? _]|[? _]]]; [eauto|done..]. Qed.
Lemma guarded_until {E} (D : evt E -> Prop) (P : list (evt E) -> Prop) t :
  Forall (fun e => ~ D e) t -> guarded (fun before e => D e -> P before) t.
Proof. intros Ht t1 e t2 -> He. apply Forall_app in Ht as [_ Ht]. by inversion Ht. Qed.
Lemma mpath_devices_named device path mpath devices t :
  runs (mpath_devices device path) t (Done (Ok (mpath, devices))) -> String.prefix "/dev/dm-" path = false -> mpath = device.
Proof.
  unfold mpath_devices. intros Ht Hp. rewrite Hp in Ht.
  apply runs_bind_inv in Ht as [([ds|e] & t1 & t2 & -> & _ & H2)|[[? _]|[? _]]]; [|by destruct H2|done..].
  by destruct H2 as [_ [= -> _]].
Qed.

(** C9: Detaching a multipath device: no path of it is deleted, no path removed
    from multipathd and no WWID forgotten before its map was flushed successfully,
    unless the environment asks for no attempt at all; when it fails, nothing of
    the device was taken apart, and when it succeeds for a device, its map was
    flushed. *)
Theorem DetachMpathDevice_flushes mpathDevice t o :
  runs (DetachMpathDevice mpathDevice) t o ->
  guarded (fun before e => destroying e -> flush_done mpathDevice before) t /\
  (forall err, o = Done (Some err) -> Forall (fun e => ~ destroying e) t) /\
  (o = Done None -> mpathDevice = "" \/ flush_done mpathDevice t).
Proof.
  unfold DetachMpathDevice. destruct (String.eqb_spec mpathDevice "") as [He|He].
  { intros [-> ->]. split; [apply guarded_nil|]. split; [done|by left]. }
  cbv zeta. intros Ht.
  set (path := if String.prefix "/host" mpathDevice then _ else _) in Ht.
  apply runs_bind_inv in Ht as [(found & t1 & u1 & -> & H1 & Ht)|[[-> H1]|[-> H1]]];
    pose proof (harmless_runs _ _ _ (mpath_devices_harmless _ _) H1) as [Hq1 Ho]; [|by split; [apply guarded_until|]..].
  destruct found as [[mpath devices]|err].
  2: { destruct Ht as [-> ->]. rewrite app_nil_r. split; [by apply guarded_until|]. by split. }
  apply runs_bind_inv in Ht as [(result & t2 & u2 & -> & H2 & Ht)|[[-> H2]|[-> H2]]];
    pose proof (harmless_runs _ _ _ (multipathFlush_harmless _) H2) as [Hq2 Ho2]; [|by split; [apply guarded_until, Forall_app|]..].
  destruct result as [err|].
  { destruct Ht as [-> ->]. rewrite app_nil_r. split; [by apply guarded_until, Forall_app|]. split; [|done].
    intros _ _. by apply Forall_app. }
  assert (Hdone : flush_done mpathDevice (t1 ++ t2)).
  { apply flush_done_before. destruct (multipathFlush_flushed _ _ H2) as [Hn|Hf]; [by left|right].
    exists mpath. split; [|done]. intros Hp. by eapply mpath_devices_named. }
  rewrite app_assoc. split; [|split].
  - apply guarded_app. split; [by apply guarded_until, Forall_app|].
    intros before e after _ _. by apply flush_done_app.
  - intros err ->. exfalso.
    assert (H : Some err = None); [|discriminate H]. revert u2 Ht.
    repeat (apply bind_answer; intros ?). intros t [_ [= ->]].
  - intros _. right. by apply flush_done_app.
Qed.

Definition bash (command : string) (out : string) : evt ncall :=
  Evt (Host (Spawn "bash" ["-c"; pipefail command])) (out, "", None).
Definition mpatha_json : string :=
  ReplaceByte "{'map':{'name':'mpatha','path_groups':[{'paths':[{'dev':'sda'}]}]}}" squote dquote.
Definition detach_trace : node_trace :=
  [bash "multipathd show multipath mpatha json" mpatha_json;
   Evt (Call (Os (Getenv MULTIPATH_FLUSH_RETRIES))) "2"; Evt (Call (Os (Getenv MULTIPATH_FLUSH_RETRY_DELAY_SECONDS))) "";
   bash "multipath -f mpatha" ""; Evt (Call (Os (Getenv MultipathCleanupDelay))) ""; Evt (Host (SleepFor 1000000000)) tt;
   Evt (Host (EvalSymlinks "/sys/block/sda/device")) (Ok "/sys/devices/host3/target3:0:1/3:0:1:12");
   bash "cat /sys/class/scsi_disk/3:0:1:12/device/state" "running"; bash "echo 1 > /sys/class/scsi_disk/3:0:1:12/device/delete" "";
   Evt (Host (Stat "/sys/class/scsi_disk/3:0:1:12/device/delete")) (NotExist (EText "gone"));
   bash "multipathd del path /dev/sda" ""; bash "multipath -w  mpatha" ""].
Lemma devices_run :
  runs (mpath_devices "mpatha" "mpatha") [bash "multipathd show multipath mpatha json" mpatha_json]
    (Done (Ok ("mpatha", ["/dev/sda"]))).
Proof. eexists _, _. split; [reflexivity|]. vm_compute. by split. Qed.
Lemma detach_runs : runs (DetachMpathDevice "mpatha") detach_trace (Done None).
Proof.
  apply (runs_bind (mpath_devices "mpatha" "mpatha") _ (Ok ("mpatha", ["/dev/sda"])) [_]); [exact devices_run|].
  eexists _, _. split; [reflexivity|]. eexists _, _. split; [reflexivity|].
  repeat (hnf; eexists _, _; split; [vm_compute; reflexivity|]).
  vm_compute. by split.
Qed.

Lemma DetachMpathDevice_flushes_witness :
  runs (DetachMpathDevice "mpatha") detach_trace (Done None) /\
  guarded (fun before e => destroying e -> flush_done "mpatha" before) detach_trace.
Proof. split; [exact detach_runs|]. apply (DetachMpathDevice_flushes _ _ _ detach_runs). Defined.

(** ** The device of a volume *)

Definition device_at (line : string) : string := hd "" (Split line " ").
Definition mounted_at (name line : string) : bool :=
  match Split line " " with _ :: mountPath :: _ => Contains mountPath name | _ => false end.
Lemma last_behind {A} (l : list A) d d' : List.last l d = List.last (d :: l) d'.
Proof.
  revert d d'. induction l as [|x l IH]; intros d d'; [done|].
  change (List.last (d :: x :: l) d') with (List.last (x :: l) d'). rewrite <- (IH x d'). symmetry. apply IH.
Qed.
(** The device of the first mount of the volume; without one, that of the last
    mount of all. *)
Lemma find_mount_spec name lines before device :
  find_mount name before lines = Some device ->
  match List.find (mounted_at name) lines with
  | Some line => device = device_at line
  | None => device = List.last (map device_at lines) before
  end.
Proof.
  revert before. induction lines as [|line lines IH]; intros before H; [by injection H|].
  cbn [find_mount List.find map] in *.
  assert (Hline : forall dev mountPath rest, Split line " " = dev :: mountPath :: rest ->
            device_at line = dev /\ mounted_at name line = Contains mountPath name)
    by (intros ? ? ? Hs; unfold device_at, mounted_at; by rewrite Hs).
  destruct (Split line " ") as [|dev [|mountPath rest]]; try done. destruct (Hline _ _ _ eq_refl) as [<- ->].
  destruct (Contains mountPath name); [by injection H|]. specialize (IH _ H).
  destruct (List.find _ _); [done|]. rewrite IH. apply last_behind.
Qed.
(** So a volume that is not mounted is taken for the file system mounted last. *)
Lemma FindMultipathDevice_unmounted :
  runs (FindMultipathDeviceFromVolumePath "/pods/1/volumes/csi-100/mount")
    [Evt (Host (OpenFile "/proc/mounts")) None;
     Evt (Host (ReadFile "/proc/mounts")) (Ok ("/dev/mapper/mpathz /pods/2/csi-200 ext4 rw" +:+ String newline ""))]
    (Done (Ok "/dev/mapper/mpathz")).
Proof. eexists _, _. split; [reflexivity|]. eexists _, _. split; [reflexivity|]. vm_compute. by split. Qed.
