(* ===== verification/NfsNodeProofs.v ===== *)
(** Properties of NFS on a node: the rule a node gets in the export of a file
    system, what is mounted and when, and the clean-up of the rules. *)
From stdpp Require Import base strings list gmap.
From S2P Require Import Prelude GoLib IboxTypes Traces Csi KubeClient Helper StorageCommon Json JsonProofs NfsApi Nfs NfsProofs Host Mount NodeKinds NfsNode MountProofs.
From Stdlib Require Import ZArith Lia Ascii.

Local Open Scope string_scope.
Local Open Scope list_scope.

(** ** The rule of a node *)





(** ** Publishing *)

Ltac wp_reduce ::= cbn [wp bind defer trigger fst snd hostAPI getenv sleep interp lift iboxAPI kubeAPI osAPI].

(** The exports of the file system, as they were listed. *)
Definition listed (id : Z) (exports : list Export) (before : node_trace) : Prop :=
  Evt (Call (Ibox (GetExportsByFileSystemID id))) (exports, None) ∈ before.






(** ** Publishing an export *)




Definition volume_7 : NFSstorage :=
  NewNFSstorage 0 (MkCommonservice None "1" (MkVolumeProtocolConfig 7 ProtocolNFS "" None "" 0)).
Definition export_vol : Export :=
  Export_set_Permissions [MkPermissions "RW" true "10.0.0.9"] (MkExport "" 0 false 0 0 [] 0 0 0 true 0 false false "" 0 0 7 0 false 5 "/vol").

(** ** Cleaning up *)

Lemma last_index_split {A} (f : A -> bool) l i :
  last_index f l 0 None = Some i ->
  exists l1 p l2, l = l1 ++ p :: l2 /\ i = length l1 /\ f p = true /\ Forall (fun q => f q = false) l2.
Proof.
  revert i. induction l as [|x l IH] using rev_ind; [done|]. intros i. rewrite last_index_app. cbn.
  destruct (f x) eqn:Hx; [intros [= <-]; by exists l, x, []|].
  intros (l1 & p & l2 & -> & -> & Hp & Hl)%IH. exists l1, p, (l2 ++ [x]). rewrite <- app_assoc.
  split_conj; try done. apply Forall_app. split; [done|by constructor].
Qed.

(** The node has no mount of the file system [id]: no line [nfsstat] printed has
    its name. *)
Definition not_in_use (id : Z) (before : node_trace) : Prop :=
  exists fileSystem out err lines,
    Evt (Call (Ibox (GetFileSystemByID id))) (Ok fileSystem) ∈ before /\
    Evt (Host (Spawn "bash" ["-c"; pipefail "nfsstat -m"])) (out, err, None) ∈ before /\
    StringToLines (TrimSpace out) = Ok lines /\
    Forall (fun line => Contains line (FileSystem_Name fileSystem) = false) lines.
Definition node_ip (ip : string) (before : node_trace) : Prop := Evt (Call (Os (Getenv EnvVarNodeIP))) ip ∈ before.
(** What cleaning up may change on the array, after [before]. *)
Definition withdraw_guard (id : Z) (before : node_trace) (e : evt ncall) : Prop :=
  match e with
  | Evt (Call (Ibox (DeleteExport export_id))) _ =>
      not_in_use id before /\
      exists ip exports export p, node_ip ip before /\ listed id exports before /\ export ∈ exports /\
        export_id = Export_ID export /\ Export_Permissions export = [p] /\ Permissions_Client p = ip
  | Evt (Call (Ibox (UpdateExportPermissions export' ref))) _ =>
      not_in_use id before /\
      exists ip exports export l1 p l2, node_ip ip before /\ listed id exports before /\ export ∈ exports /\
        Export_ID export' = Export_ID export /\ Export_Permissions export = l1 ++ p :: l2 /\ Permissions_Client p = ip /\
        ref = ExportPathRef_of (l1 ++ l2) /\ l1 ++ l2 <> []
  | Evt (Call (Ibox i)) _ => changes i = false
  | _ => True
  end.
Definition withdraws_only {A} id (pre : node_trace) (p : prog ncall A) : Prop :=
  forall t o, runs p t o -> guarded (fun t1 => withdraw_guard id (pre ++ t1)) t.

Lemma withdraws_ret {A} id pre (a : A) : withdraws_only id pre (Ret a).
Proof. intros t o [-> _]. apply guarded_nil. Qed.
Lemma withdraws_bind {A B} id pre (p : prog ncall A) (f : A -> prog ncall B) :
  withdraws_only id pre p -> (forall a t, runs p t (Done a) -> withdraws_only id (pre ++ t) (f a)) ->
  withdraws_only id pre (bind p f).
Proof.
  intros Hp Hf t o H. apply runs_bind_inv in H as [(a & t1 & t2 & -> & H1 & H2)|[[-> H1]|[-> H1]]]; [|by eapply Hp..].
  apply guarded_app. split; [by eapply Hp|]. eapply guarded_mono, (Hf _ _ H1 _ _ H2).
  intros t' e. cbn beta. by rewrite <- app_assoc.
Qed.
Lemma withdraws_every {A} id pre (p : prog ncall A) :
  every (fun X c => match c with Call (Ibox i) => changes i = false | _ => True end) p -> withdraws_only id pre p.
Proof.
  revert pre. induction p as [a| | |X c k IH]; intros pre; [intros; apply withdraws_ret|by intros _ t o [-> _]; apply guarded_nil..|].
  intros [Hc Hk] t o (x & t' & -> & Ht). apply guarded_cons. split.
  - destruct c as [X c|X h]; [|done]. destruct c as [X i|X k'|X y]; [|done..]. cbn. by destruct i.
  - eapply guarded_mono, (IH x (pre ++ [Evt c x]) (Hk x) _ _ Ht). intros t1 e. cbn beta. by rewrite <- app_assoc.
Qed.
Lemma withdraws_quiet {A} id pre (p : prog call A) : quiet p -> withdraws_only id pre (lift p).
Proof.
  intros Hq. apply withdraws_every. unfold lift. induction p as [a| | |X c k IH]; [done..|].
  destruct Hq as [Hc Hk]. split; [by destruct c|]. intros x. apply IH, Hk.
Qed.

Lemma clean_export_withdraws id ip exports export pre :
  not_in_use id pre -> node_ip ip pre -> listed id exports pre -> export ∈ exports ->
  withdraws_only id pre (lift (clean_export ip export)).
Proof.
  intros Hu Hip Hl He. unfold clean_export.
  destruct (last_index _ _ 0 None) as [i|] eqn:Hi; [|apply withdraws_ret].
  apply last_index_split in Hi as (l1 & p & l2 & Hperms & -> & Hp%String.eqb_eq & _).
  destruct (Export_Permissions export) as [|q [|q' rest]] eqn:Heq; [by destruct l1| |].
  - destruct l1 as [|? [|]]; [|done..]. injection Hperms as <- <-.
    intros t o (x & t' & -> & Ht). apply guarded_cons. rewrite app_nil_r.
    split; [|destruct Ht as [-> _]; apply guarded_nil].
    split; [done|]. exists ip, exports, export, q. done.
  - intros t o (x & t' & -> & Ht). apply guarded_cons. rewrite app_nil_r.
    split; [|destruct Ht as [-> _]; apply guarded_nil].
    split; [done|]. exists ip, exports, export, l1, p, l2. split_conj; try done; [by rewrite Heq| |].
    + rewrite Hperms. by rewrite take_app_length, <- Nat.add_1_r, drop_app_add.
    + destruct l1, l2; naive_solver.
Qed.
Lemma lift_bind {A B} (p : prog call A) (f : A -> prog call B) t o :
  runs (lift (bind p f)) t o -> runs (bind (lift p) (fun a => lift (f a))) t o.
Proof.
  unfold lift. revert t. induction p as [a| | |X c k IH]; cbn; intros t; [done..|]. intros (x & t' & -> & Ht). eauto.
Qed.
Lemma clean_exports_withdraws id ip all exports pre :
  not_in_use id pre -> node_ip ip pre -> listed id all pre -> exports ⊆ all ->
  withdraws_only id pre (lift (clean_exports ip exports)).
Proof.
  revert pre. induction exports as [|export rest IH]; intros pre Hu Hip Hl Hin; [apply withdraws_ret|].
  cbn [clean_exports]. intros t o Ht%lift_bind. revert t o Ht. apply withdraws_bind.
  - eapply clean_export_withdraws; try done. apply Hin. by left.
  - intros stop t _. destruct stop; [apply withdraws_ret|].
    assert (Hpre : pre ⊆ pre ++ t) by (intros x Hx; apply elem_of_app; by left).
    apply IH.
    + destruct Hu as (fs & out & err & lines & H1 & H2 & H3 & H4). exists fs, out, err, lines. auto.
    + by apply Hpre.
    + by apply Hpre.
    + intros x Hx. apply Hin. by right.
Qed.
Lemma isVolumeMounted_false name t :
  runs (isVolumeMounted name) t (Done (Ok false)) ->
  exists out err lines, t = [Evt (Host (Spawn "bash" ["-c"; pipefail "nfsstat -m"])) (out, err, None)] /\
    StringToLines (TrimSpace out) = Ok lines /\ Forall (fun line => Contains line name = false) lines.
Proof.
  intros ([[out err] e] & t' & -> & Ht). destruct e as [e|]; cbn in Ht; [by destruct Ht|]. destruct Ht as [-> [= Hr]].
  destruct (StringToLines (TrimSpace out)) as [lines|] eqn:Hl; [|done]. injection Hr as Hr%eq_sym.
  exists out, err, lines. split_conj; [done..|]. clear Hl. induction lines as [|l lines IH]; [constructor|].
  cbn in Hr. apply orb_false_iff in Hr as [Hl Hr]. constructor; auto.
Qed.

Section cleanup.
Context (url_Parse : string -> res (string * string)) (url_ParseRequestURI : string -> bool).

Lemma cleanup_withdraws id pre : withdraws_only id pre (cleanupNFSPerms url_Parse url_ParseRequestURI id).
Proof.
  unfold cleanupNFSPerms. apply withdraws_bind; [by apply withdraws_every|]. intros _ t0 _.
  apply withdraws_bind; [by apply withdraws_every|]. intros ip t1 Hip.
  apply withdraws_bind; [apply withdraws_quiet; auto with csi|]. intros [secret|] t2 _; [|apply withdraws_ret].
  apply withdraws_bind; [apply withdraws_quiet, NewClient_quiet|]. intros [client|] t3 _; [|apply withdraws_ret].
  apply withdraws_bind; [by apply withdraws_every|]. intros [fs|] t4 Hfs; [|apply withdraws_ret].
  apply withdraws_bind; [by apply withdraws_every|]. intros [exports err] t5 Hex.
  destruct err as [err|]; [destruct exports; apply withdraws_ret|]. destruct exports as [|export rest]; [apply withdraws_ret|].
  apply withdraws_bind; [apply withdraws_every; split; [exact I|intros [[? ?] []]; exact I]|].
  intros [mounted|] t6 Hm; [|apply withdraws_ret]. destruct mounted; [apply withdraws_ret|].
  apply isVolumeMounted_false in Hm as (out & err & lines & -> & Hl & Hf).
  destruct Hip as (? & ? & -> & -> & [= <-]). destruct Hfs as (? & ? & -> & -> & [= <-]).
  destruct Hex as (? & ? & -> & -> & [= <-]).
  apply clean_exports_withdraws with (export :: rest).
  - exists fs, out, err, lines. rewrite !elem_of_app, !list_elem_of_singleton. tauto.
  - unfold node_ip. rewrite !elem_of_app, !list_elem_of_singleton. tauto.
  - unfold listed. rewrite !elem_of_app, !list_elem_of_singleton. tauto.
  - done.
Qed.

(** A call that changes the array. *)
Definition changing (e : evt ncall) : bool := match e with Evt (Call (Ibox i)) _ => changes i | _ => false end.
Definition gone (targetPath : string) (before : node_trace) : Prop :=
  exists mounts, Evt (Host MountList) (Ok mounts) ∈ before /\ target_host targetPath ∉ mounts.
Definition cleanup_enabled (before : node_trace) : Prop :=
  exists text, Evt (Call (Os (Getenv EnvVarCleanupNFSPerms))) text ∈ before /\ ParseBool text = Ok true.

Lemma unmount_unchanging targetPath t o :
  runs (UnmountAndCleanUp targetPath) t o ->
  Forall (fun e => changing e = false) t /\ (o = Done None -> gone targetPath t).
Proof.
  unfold UnmountAndCleanUp, isMountedByListMethod, cleanupOldMountDirectory, remove_leftover, IsDirEmpty, IsDirectory.
  fold (target_host targetPath). revert t o. wp_start. wp_run. all: wp_leaf.
  all: split; [repeat constructor|first [by intros [=]|intros _; solve_unlisted]].
Qed.
Lemma unchanging_withdraws id pre t : Forall (fun e => changing e = false) t -> guarded (fun t1 => withdraw_guard id (pre ++ t1)) t.
Proof.
  intros H t1 e t2 ->. apply Forall_app in H as [_ H]. apply Forall_cons in H as [He _].
  destruct e as [X c x]. destruct c as [X c|X h]; [|done]. destruct c as [X i|X k|X y]; [|done..]. cbn in He. by destruct i.
Qed.
Lemma unpublish_shape nfs req t o :
  runs (NodeUnpublishVolume url_Parse url_ParseRequestURI nfs req) t o ->
  exists t1 t2, t = t1 ++ t2 /\ Forall (fun e => changing e = false) t1 /\
    (t2 = [] \/ gone (NU_TargetPath req) t1 /\ cleanup_enabled t1 /\
       exists o', runs (cleanupNFSPerms url_Parse url_ParseRequestURI (VolumeProtocolConfig_VolumeID (VolProto (CS nfs)))) t2 o').
Proof.
  intros H. unfold NodeUnpublishVolume in H. apply runs_bind_inv in H as [(r & t1 & t2 & -> & H1 & H2)|[[-> H1]|[-> H1]]].
  2-3: exists t, []; rewrite app_nil_r; split_conj; [done|by eapply unmount_unchanging|by left].
  apply unmount_unchanging in H1 as [Hu Hgone]. destruct r as [err|].
  { destruct H2 as [-> _]. exists t1, []. split_conj; [done..|by left]. }
  unfold isCleanupNFSPermsSet in H2. destruct H2 as (text & t' & -> & H2). cbn [bind] in H2.
  exists (t1 ++ [Evt (Call (Os (Getenv EnvVarCleanupNFSPerms))) text]), t'. rewrite <- app_assoc. split; [done|].
  split; [apply Forall_app; split; [done|by repeat constructor]|].
  destruct (String.eqb text "") eqn:Htext; [by destruct H2 as [-> _]; left|].
  destruct (ParseBool text) as [[]|] eqn:Hb; [|by destruct H2 as [-> _]; left..].
  right. split.
  { destruct (Hgone eq_refl) as (mounts & Hm & Hn). exists mounts. split; [|done]. apply elem_of_app. by left. }
  split; [exists text; split; [apply elem_of_app; right; by left|done]|].
  apply runs_bind_inv in H2 as [(u & t3 & t4 & -> & H3 & H4)|[[-> H3]|[-> H3]]]; [|by eexists..].
  destruct H4 as [-> _]. rewrite app_nil_r. by eexists.
Qed.

(** C6: What unpublishing an NFS volume on a node changes on the array, over all
    runs and answers: nothing at all unless [CLEANUP_NFS_PERMISSIONS] is true and
    a listing of the mounts no longer has the target; and then, after [nfsstat]
    printed no line with the name of the file system, for an export listed for the
    file system it drops one rule, of a client that is this node, keeping all
    other rules in their order; the export itself goes only when that rule is its
    only one. *)
Theorem NodeUnpublishVolume_guarded nfs req t o :
  runs (NodeUnpublishVolume url_Parse url_ParseRequestURI nfs req) t o ->
  guarded (fun before e =>
    withdraw_guard (VolumeProtocolConfig_VolumeID (VolProto (CS nfs))) before e /\
    (changing e = true -> gone (NU_TargetPath req) before /\ cleanup_enabled before)) t.
Proof.
  intros H. apply unpublish_shape in H as (t1 & t2 & -> & Hu & Ht2). apply guarded_app. split.
  - intros b e a Hb. pose proof (unchanging_withdraws (VolumeProtocolConfig_VolumeID (VolProto (CS nfs))) [] t1 Hu b e a Hb) as Hw.
    split; [exact Hw|]. subst t1. apply Forall_app in Hu as [_ [He _]%Forall_cons]. congruence.
  - destruct Ht2 as [->|((mounts & Hm & Hn) & (text & Htext & Hb) & o' & H)]; [apply guarded_nil|].
    eapply guarded_mono, (cleanup_withdraws _ t1 _ _ H). intros t' e He. split; [exact He|]. intros _.
    split; [exists mounts|exists text]; (split; [apply elem_of_app; by left|done]).
Qed.
End cleanup.

Definition unpublish_req : NodeUnpublishVolumeRequest := MkNodeUnpublishVolumeRequest "7$$nfs" "/pods/1/mount".
Definition pv_7 : PersistentVolume :=
  MkPersistentVolume "pv7" ∅ [] ∅ 0 [] "" "" None
    (Some (MkCSIPersistentVolumeSource ServiceName "7$$nfs" ∅ None (Some ("creds", "csi")) None None None)).
Definition creds : Secret :=
  MkSecret "creds" "csi" "1" {[ CredentialHostname := "ibox1"; CredentialUsername := "u"; CredentialPassword := "p" ]} ∅.
Definition shared_export : Export :=
  Export_set_Permissions [MkPermissions "RW" true "10.0.0.9"; MkPermissions "RW" true "10.0.0.2"] export_vol.
Definition sole_export : Export := Export_set_Permissions [MkPermissions "RO" true "10.0.0.2"] export_vol.
Definition unpublish_trace : node_trace :=
  [Evt (Host (Host.Unmount "/pods/1/mount")) None;
   Evt (Host MountList) (Ok []); Evt (Host (Stat "/host/pods/1/mount")) (NotExist (EText "no such file"));
   Evt (Call (Os (Getenv EnvVarCleanupNFSPerms))) "true"; Evt (Call (Os (Getenv EnvVarKubeNodeName))) "node";
   Evt (Call (Os (Getenv EnvVarNodeIP))) "10.0.0.2"; Evt (Call (Kube BuildClient)) None;
   Evt (Call (Kube PersistentVolumesList)) (Ok [pv_7]); Evt (Call (Kube (SecretsGet "csi" "creds"))) (Ok creds);
   Evt (Call (Ibox (GetFileSystemByID 7))) (Ok (FileSystem_of 7 "vol" 0 0 0 "UNLOCKED"));
   Evt (Call (Ibox (GetExportsByFileSystemID 7))) ([shared_export; sole_export], None);
   Evt (Host (Spawn "bash" ["-c"; pipefail "nfsstat -m"])) ("/data from ibox:/other", "", None);
   Evt (Call (Ibox (UpdateExportPermissions
                      (Export_set_Permissions [MkPermissions "RW" true "10.0.0.9"; MkPermissions "" false ""] shared_export)
                      (ExportPathRef_of [MkPermissions "RW" true "10.0.0.9"])))) (Ok shared_export);
   Evt (Call (Ibox (DeleteExport 5))) (Ok sole_export)].
Lemma unpublish_run :
  runs (NodeUnpublishVolume (fun s => Ok ("https", s)) (fun _ => true) volume_7 unpublish_req) unpublish_trace (Done None).
Proof. unfold unpublish_trace. repeat (eexists _, _; split; [reflexivity|]). by split. Qed.
Lemma NodeUnpublishVolume_guarded_witness :
  runs (NodeUnpublishVolume (fun s => Ok ("https", s)) (fun _ => true) volume_7 unpublish_req) unpublish_trace (Done None) /\
  guarded (fun before e => withdraw_guard 7 before e /\
             (changing e = true -> gone (NU_TargetPath unpublish_req) before /\ cleanup_enabled before)) unpublish_trace.
Proof.
  split; [exact unpublish_run|].
  exact (NodeUnpublishVolume_guarded (fun s => Ok ("https", s)) (fun _ => true) volume_7 unpublish_req
           unpublish_trace (Done None) unpublish_run).
Defined.
