(* ===== verification/Replication.v ===== *)
(** The replication service of the CSI add-ons ([service/csiaddons/replication.go]).
    A replica has a source and a target array; switching its direction needs both:
    the one of the request's secrets ([Local]) and the one of the secret found for
    the replication link ([Remote]). *)
From S2P Require Import Prelude GoLib IboxTypes Traces Fmt Csi KubeClient StorageCommon.
From stdpp Require Import base strings list gmap.
From Stdlib Require Import ZArith.

Local Open Scope string_scope.
Local Open Scope list_scope.

(** ** Two arrays *)

Inductive rcall : Type -> Type :=
| Array {X} (s : site) (i : ibox X) : rcall X
| Cluster {X} (k : kube X) : rcall X
| Process {X} (o : os X) : rcall X.

Definition at_site (s : site) (X : Type) (c : call X) : prog rcall X :=
  match c with
  | Ibox i => trigger (Array s i)
  | Kube k => trigger (Cluster k)
  | Os o => trigger (Process o)
  end.
(** A program of one array, run with the array of a site. *)
Definition on {A} (s : site) (p : prog call A) : prog rcall A := interp (at_site s) p.
Definition array {X} (s : site) (i : ibox X) : prog rcall X := trigger (Array s i).
(** A method that answers a slice and an error. *)
Definition array_list {X} (s : site) (i : ibox (slice X)) : prog rcall (res (list X)) :=
  r <- array s i ;; Ret (match snd r with Some err => Err err | None => Ok (fst r) end).

(** ** Messages *)

(** The requests of the service: [GetReplicationSource().GetVolume().VolumeId],
    [None] when the source is no volume. *)
Record ReplicationRequest := MkReplicationRequest {
  RR_VolumeId : option string;
  RR_Parameters : gmap string string;
  RR_Secrets : gmap string string
}.
Inductive ReplicationStatus := HEALTHY | ERROR.
(** [LastSyncTime] in seconds, [LastSyncDuration] in nanoseconds. *)
Record GetVolumeReplicationInfoResponse := MkGetVolumeReplicationInfoResponse {
  LastSyncTime : Z;
  LastSyncDuration : Z;
  Status : ReplicationStatus;
  StatusMessage : string
}.

(** [status.Error(code, common.Errorf(text, key, value, ...).Error())] where [text]
    has no verbs. *)
Definition status_extra (code : Code) (text : string) (args : list (string * arg)) : error :=
  EStatus code (text +:+ extra (flat_map (fun kv => [AString (fst kv); snd kv]) args)).

(** The request for a replica of a volume, over a link, in a pool of the other
    array. *)
Definition replica_request (localEntityID linkID remotePoolID : Z) (remoteEntityName : string) : CreateReplicaRequest :=
  {| CreateReplicaRequest_IsPreferred := None;
     CreateReplicaRequest_SyncInterval := 240000;
     CreateReplicaRequest_Description := "description goes here";
     CreateReplicaRequest_EntityType := "VOLUME";
     CreateReplicaRequest_RemoteEntityName := remoteEntityName;
     CreateReplicaRequest_LocalEntityID := localEntityID;
     CreateReplicaRequest_ReplicationType := "ASYNC";
     CreateReplicaRequest_BaseAction := "NEW";
     CreateReplicaRequest_LinkID := linkID;
     CreateReplicaRequest_RpoValue := 300000;
     CreateReplicaRequest_RemotePoolID := remotePoolID |}.

(** ** Steps of the handlers *)

(** The link of a name, the last if there are more; it must be up. *)
Definition validateLink (linkName : string) : prog rcall (res Link) :=
  try links <- array_list Local GetLinks catch err => Ret (Err err) ;;
  match last (List.filter (fun link => String.eqb (Link_RemoteSystemName link) linkName) links) with
  | None => Ret (Err (EText ("could not find replication link " +:+ linkName)))
  | Some link =>
      if (Link_ID link =? 0)%Z
      then Ret (Err (EText ("link ID was 0 for replication link " +:+ linkName)))
      else if negb (String.eqb (Link_LinkState link) "UP")
      then Ret (Err (EText ("replication link state " +:+ Link_LinkState link +:+ " was invalid for replication link " +:+ linkName)))
      else Ret (Ok link)
  end.

Definition getSecretForLink (linkName : string) : prog call (res Secret) :=
  client <- kubeAPI BuildClient ;;
  match client with
  | Some err => Ret (Err err)
  | None =>
      namespace <- osAPI (Getenv "POD_NAMESPACE") ;;
      GetSecretContainsName (if String.eqb namespace "" then "infinidat-csi" else namespace) linkName
  end.

(** [req.Parameters[p]], when it is required. *)
Definition required_parameter (req : ReplicationRequest) (id p : string) : res string :=
  if String.eqb (RR_Parameters req).[p] ""
  then Err (EStatus InvalidArgument ("required parameter " +:+ p +:+ " missing, volume ID " +:+ id))
  else Ok (RR_Parameters req).[p].

Section handlers.
Context (url_Parse : string -> res (string * string)) (url_ParseRequestURI : string -> bool).

(** The service of the request's array, for the volume of an identifier. *)
Definition volume_service (id : string) (secrets : gmap string string) : prog rcall (res VolumeProtocolConfig) :=
  match ValidateVolumeID id with
  | Err err => Ret (Err (status_of InvalidArgument ("invalid - volume ID: " +:+ id +:+ " error: ") err))
  | Ok volumeInfo =>
      try _cs <- on Local (BuildCommonService url_Parse url_ParseRequestURI ∅ secrets volumeInfo) catch err =>
        Ret (Err (status_of Unauthenticated ("error building commonService - volume ID: " +:+ id +:+ " error: ") err)) ;;
      Ret (Ok volumeInfo)
  end.
Definition find_volume (volumeID : Z) : prog rcall (res Volume) :=
  r <- array Local (GetVolume volumeID) ;;
  Ret (map_err (status_of NotFound ("GetVolume - failed to find volume ID: " +:+ Itoa volumeID +:+ " Error: ")) r).
(** The link of a replica and the secret of the array at its other end. *)
Definition find_link (linkID : Z) : prog rcall (res Link) :=
  r <- array Local (GetLink linkID) ;;
  Ret (map_err (status_of NotFound ("GetLink - failed to find link ID: " +:+ Itoa linkID +:+ " Error: ")) r).
Definition find_secret (link : Link) : prog rcall (res Secret) :=
  r <- on Local (getSecretForLink (Link_RemoteSystemName link)) ;;
  Ret (map_err (status_of NotFound ("GetSecret - failed to find secret for remote system name: "
                                    +:+ Link_RemoteSystemName link +:+ " Error: ")) r).
Definition remote_service (secret : Secret) (volumeInfo : VolumeProtocolConfig) (pre : string) : prog rcall (res unit) :=
  try _cs <- on Remote (BuildCommonService url_Parse url_ParseRequestURI ∅ (secret_map secret) volumeInfo) catch err =>
    Ret (Err (status_of Unauthenticated pre err)) ;;
  Ret (Ok tt).

(** ** Handlers *)

(** The pool of the other array is looked up by name on this one. *)
Definition EnableVolumeReplication (req : ReplicationRequest) : prog rcall (res unit) :=
  match RR_VolumeId req with
  | None => Panic
  | Some id =>
  match required_parameter req id IboxReplicaRemoteIboxLinkNameParameter with
  | Err err => Ret (Err err)
  | Ok linkRemoteSystemName =>
  match required_parameter req id IboxReplicaCreatePVCPoolName with
  | Err err => Ret (Err err)
  | Ok remotePoolName =>
  match required_parameter req id IboxReplicaRemoteIboxCredNameParameter with
  | Err err => Ret (Err err)
  | Ok _remoteCredName =>
  match required_parameter req id IboxReplicaRemoteIboxCredNamespaceParameter with
  | Err err => Ret (Err err)
  | Ok _remoteCredNamespace =>
  try volumeInfo <- volume_service id (RR_Secrets req) catch err => Ret (Err err) ;;
  try volume <- find_volume (VolumeProtocolConfig_VolumeID volumeInfo) catch err => Ret (Err err) ;;
  try pool <- array Local (GetPoolByName remotePoolName) catch err =>
    Ret (Err (status_of InvalidArgument ("GetPoolByName - failed to find pool name: " +:+ remotePoolName +:+ " Error: ") err)) ;;
  try link <- validateLink linkRemoteSystemName catch err =>
    Ret (Err (status_of InvalidArgument "validateLink - failed Error: " err)) ;;
  try replicas <- array_list Local GetReplicas catch err =>
    Ret (Err (status_of InvalidArgument "GetReplicas - failed to get replicas Error: " err)) ;;
  let about := [("volumeID", AInt (Volume_ID volume)); ("volumeName", AString (Volume_Name volume))] in
  if existsb (fun replica => (Replica_LocalEntityID replica =? Volume_ID volume)%Z) replicas
  then Ret (Err (status_extra InvalidArgument
              "AddOns ReplicationServer EnableVolumeReplication volume already replicated" about))
  else
    try _response <- array Local (CreateReplica
        (replica_request (Volume_ID volume) (Link_ID link) (PoolResult_ID pool) (Volume_Name volume))) catch err =>
      Ret (Err (status_extra Unknown "AddOns ReplicationServer EnableVolumeReplication replica creation failed"
                  (about ++ [("error", AError err)]))) ;;
    Ret (Ok tt)
  end end end end end.

Definition DisableVolumeReplication (req : ReplicationRequest) : prog rcall (res unit) :=
  match RR_VolumeId req with
  | None => Panic
  | Some id =>
  try volumeInfo <- volume_service id (RR_Secrets req) catch err => Ret (Err err) ;;
  try volume <- find_volume (VolumeProtocolConfig_VolumeID volumeInfo) catch err => Ret (Err err) ;;
  let about := [("volumeID", AInt (Volume_ID volume)); ("volumeName", AString (Volume_Name volume))] in
  try replica <- array Local (GetReplicaForLocalEntityName (Volume_Name volume)) catch err =>
    Ret (Err (status_extra Unknown "AddOns ReplicationServer DisableVolumeReplication replica get failed"
                (about ++ [("error", AError err)]))) ;;
  deleted <- array Local (DeleteReplica (Replica_ID replica)) ;;
  match deleted with
  | Some err =>
      Ret (Err (status_extra Unknown "AddOns ReplicationServer DisableVolumeReplication replica delete failed"
                  (about ++ [("replicaID", AInt (Replica_ID replica)); ("error", AError err)])))
  | None => Ret (Ok tt)
  end
  end.

(** The number of the first link of a name, 0 without one. *)
Definition link_number (allLinks : list Link) (name : string) : Z :=
  match List.find (fun v => String.eqb (Link_Name v) name) allLinks with
  | Some v => Link_ID v
  | None => 0
  end.

Definition PromoteVolume (req : ReplicationRequest) : prog rcall (res unit) :=
  match RR_VolumeId req with
  | None => Panic
  | Some id =>
  try volumeInfo <- volume_service id (RR_Secrets req) catch err => Ret (Err err) ;;
  try allLinks <- array_list Local GetLinks catch err =>
    Ret (Err (status_extra Unknown "AddOns ReplicationServer PromoteVolume get all links failed" [("error", AError err)])) ;;
  try volume <- find_volume (VolumeProtocolConfig_VolumeID volumeInfo) catch err => Ret (Err err) ;;
  let about := [("volumeID", AInt (Volume_ID volume)); ("volumeName", AString (Volume_Name volume))] in
  found <- array Local (GetReplicaForLocalEntityName (Volume_Name volume)) ;;
  match found with
  | Err err =>
      if is_ErrNotFound err then Ret (Ok tt)
      else Ret (Err (status_extra Unknown "AddOns ReplicationServer PromoteVolume get replica failed"
                       (about ++ [("error", AError err)])))
  | Ok replica =>
  if String.eqb (Replica_Role replica) "SOURCE" then Ret (Ok tt)
  else
    try remoteLink <- find_link (Replica_LinkID replica) catch err => Ret (Err err) ;;
    let remoteSystemName := Link_RemoteSystemName remoteLink in
    try secret <- find_secret remoteLink catch err => Ret (Err err) ;;
    try _cs <- remote_service secret volumeInfo ("error building commonServiceSourceIbox - volume Name: "
                 +:+ Volume_Name volume +:+ " remoteLink: " +:+ remoteSystemName +:+ " error: ") catch err => Ret (Err err) ;;
    try sourceReplica <- array Remote (GetReplicaForLocalEntityName (Volume_Name volume)) catch err =>
      Ret (Err (status_extra Unknown "AddOns ReplicationServer PromoteVolume get source replica failed"
                  (about ++ [("error", AError err)]))) ;;
    deleted <- array Remote (DeleteReplica (Replica_ID sourceReplica)) ;;
    match deleted with
    | Some err =>
        Ret (Err (status_extra Unknown "AddOns ReplicationServer PromoteVolume source replica delete failed"
                    (about ++ [("source replicaID", AInt (Replica_ID sourceReplica)); ("error", AError err)])))
    | None =>
        let linkID := link_number allLinks remoteSystemName in
        if (linkID =? 0)%Z
        then Ret (Err (status_extra Unknown "AddOns ReplicationServer PromoteVolume link not found"
                         [("remoteSystemName", AString remoteSystemName); ("error", ANil)]))
        else
          try _response <- array Local (CreateReplica
              (replica_request (Volume_ID volume) linkID (Replica_RemotePoolID replica) (Volume_Name volume))) catch err =>
            Ret (Err (status_extra Unknown "AddOns ReplicationServer PromoteVolume local replica creation failed"
                        (about ++ [("error", AError err)]))) ;;
          Ret (Ok tt)
    end
  end
  end.

Definition DemoteVolume (req : ReplicationRequest) : prog rcall (res unit) :=
  match RR_VolumeId req with
  | None => Panic
  | Some id =>
  try volumeInfo <- volume_service id (RR_Secrets req) catch err => Ret (Err err) ;;
  try v <- find_volume (VolumeProtocolConfig_VolumeID volumeInfo) catch err => Ret (Err err) ;;
  let about := [("volumeID", AInt (Volume_ID v)); ("volumeName", AString (Volume_Name v))] in
  found <- array Local (GetReplicaForLocalEntityName (Volume_Name v)) ;;
  match found with
  | Err err =>
      if is_ErrNotFound err then Ret (Ok tt)
      else Ret (Err (status_extra Unknown "AddOns ReplicationServer DemoteVolume get replica failed"
                       (about ++ [("error", AError err)])))
  | Ok replica =>
  if String.eqb (Replica_Role replica) "TARGET" then Ret (Ok tt)
  else
    try link <- find_link (Replica_LinkID replica) catch err => Ret (Err err) ;;
    try secret <- find_secret link catch err => Ret (Err err) ;;
    try _cs <- remote_service secret volumeInfo ("error building commonService for replica target - link Name: "
                 +:+ Link_Name link +:+ " secret Name: " +:+ Secret_Name secret +:+ " error: ") catch err => Ret (Err err) ;;
    deleted <- array Local (DeleteReplica (Replica_ID replica)) ;;
    match deleted with
    | Some err =>
        Ret (Err (status_extra Unknown "AddOns ReplicationServer DemoteVolume replica delete failed"
                    (about ++ [("replicaID", AInt (Replica_ID replica)); ("error", AError err)])))
    | None =>
        trigger (Process (Sleep 5)) ;;;
        try volumeRemote <- array Remote (GetVolume (Replica_RemoteEntityID replica)) catch err =>
          Ret (Err (status_of NotFound ("GetVolume - failed to find volume ID (remote_entity_id): "
                      +:+ Itoa (Replica_RemoteEntityID replica) +:+ " Link: " +:+ Link_RemoteSystemName link +:+ " Error: ") err)) ;;
        try _response <- array Remote (CreateReplica
            (replica_request (Volume_ID volumeRemote) (Link_RemoteLinkID link) (Replica_LocalPoolID replica)
               (Volume_Name volumeRemote))) catch err =>
          Ret (Err (status_extra Unknown "AddOns ReplicationServer EnableVolumeReplication remote replica creation failed"
                      [("volumeID", AInt (Volume_ID volumeRemote)); ("volumeName", AString (Volume_Name volumeRemote));
                       ("error", AError err)])) ;;
        Ret (Ok tt)
    end
  end
  end.

(** Nothing is done; [Ready] is answered. *)
Definition ResyncVolume (req : ReplicationRequest) : prog rcall (res bool) := Ret (Ok true).

Definition GetVolumeReplicationInfo (req : ReplicationRequest) : prog rcall (res GetVolumeReplicationInfoResponse) :=
  match RR_VolumeId req with
  | None => Panic
  | Some id =>
  try volumeInfo <- volume_service id (RR_Secrets req) catch err => Ret (Err err) ;;
  try volume <- find_volume (VolumeProtocolConfig_VolumeID volumeInfo) catch err => Ret (Err err) ;;
  try replica <- array Local (GetReplicaForLocalEntityName (Volume_Name volume)) catch err =>
    Ret (Err (status_extra Unknown "AddOns ReplicationServer GetVolumeReplicationInfo replica get failed"
                [("volumeID", AInt (Volume_ID volume)); ("volumeName", AString (Volume_Name volume)); ("error", AError err)])) ;;
  Ret (Ok {| LastSyncTime := Replica_LastSynchronized replica;
             LastSyncDuration := Replica_SyncDuration replica;
             Status := if String.eqb (Replica_State replica) "ACTIVE" then HEALTHY else ERROR;
             StatusMessage := Replica_State replica |})
  end.
End handlers.
