(* ===== verification/ReplicationProofs.v ===== *)
(** Properties of the replication service: when a replica is made, and how the
    direction of a replica is switched. *)
From S2P Require Import Prelude GoLib IboxTypes Traces Fmt Csi KubeClient StorageCommon Replication.
From stdpp Require Import base strings list gmap.
From Stdlib Require Import ZArith Lia.

Local Open Scope string_scope.
Local Open Scope list_scope.

Ltac wp_reduce ::= cbn [wp bind defer trigger fst snd iboxAPI kubeAPI osAPI array interp at_site].

(** ** Changes of two arrays *)

(** The calls of a trace that change one of the arrays. *)
Definition switches (t : list (evt rcall)) : list (evt rcall) :=
  List.filter (fun e => match e with
                        | Evt c _ => match c with Array _ i => changes i | _ => false end
                        end) t.

(** The array a volume is replicated from, if it is replicated. *)
Definition turn (d : option site) (e : evt rcall) : option site :=
  match e with
  | Evt c x =>
      match c in rcall X return X -> option site with
      | Array s i =>
          match i in ibox X return X -> option site with
          | DeleteReplica _ => fun err => if err is Some _ then d else None
          | CreateReplica _ => fun r => if r is Ok _ then Some s else d
          | _ => fun _ => d
          end
      | _ => fun _ => d
      end x
  end.
Definition direction (d : option site) (t : list (evt rcall)) : option site := foldl turn d t.

(** A replica is deleted on one array and one for the other direction made on the
    other; the second only after the first, and success only after both. *)
Inductive switched (from to : site) (deleted : Z) (request : CreateReplicaRequest) : list (evt rcall) -> res unit -> Prop :=
| not_deleted err e : switched from to deleted request [Evt (Array from (DeleteReplica deleted)) (Some err)] (Err e)
| not_created e : switched from to deleted request [Evt (Array from (DeleteReplica deleted)) None] (Err e)
| not_taken err e : switched from to deleted request
    [Evt (Array from (DeleteReplica deleted)) None; Evt (Array to (CreateReplica request)) (Err err)] (Err e)
| taken replica : switched from to deleted request
    [Evt (Array from (DeleteReplica deleted)) None; Evt (Array to (CreateReplica request)) (Ok replica)] (Ok tt).

Lemma switched_direction from to deleted request t r d :
  switched from to deleted request t r ->
  match r with
  | Ok _ => direction d t = Some to
  | Err _ => direction d t = d \/ direction d t = None
  end.
Proof. intros []; cbn; auto. Qed.

(** What the request's array answered of the volume and its replica. *)
Record replicated (req : ReplicationRequest) (volume : Volume) (found : res Replica) (t : list (evt rcall)) : Prop := {
  replicated_volume : exists id vi, RR_VolumeId req = Some id /\ ValidateVolumeID id = Ok vi /\
    Evt (Array Local (GetVolume (VolumeProtocolConfig_VolumeID vi))) (Ok volume) ∈ t;
  replicated_replica : Evt (Array Local (GetReplicaForLocalEntityName (Volume_Name volume))) found ∈ t
}.

Section handlers.
Context (url_Parse : string -> res (string * string)) (url_ParseRequestURI : string -> bool).

(** The services are made without a call. *)
Lemma BuildCommonService_silent s secrets vi t o :
  runs (on s (BuildCommonService url_Parse url_ParseRequestURI ∅ secrets vi)) t o ->
  t = [] /\ match o with Exhausted => False | _ => True end.
Proof.
  revert t o. wp_start. unfold on, BuildCommonService, verifyAPIClient, getAPIConfig. wp_run. all: by wp_leaf.
Qed.
Lemma volume_service_spec id secrets t o :
  runs (volume_service url_Parse url_ParseRequestURI id secrets) t o ->
  t = [] /\ match o with Done (Ok vi) => ValidateVolumeID id = Ok vi | Exhausted => False | _ => True end.
Proof.
  unfold volume_service. destruct (ValidateVolumeID id) as [vi|e]; [|by intros [-> ->]].
  intros Ht. apply runs_bind_inv in Ht as [([cs|e] & t1 & t2 & -> & [-> _]%BuildCommonService_silent & [-> ->])
    |[[-> [-> _]%BuildCommonService_silent]|[-> [_ H]%BuildCommonService_silent]]]; done.
Qed.
Lemma remote_service_spec secret vi pre t o :
  runs (remote_service url_Parse url_ParseRequestURI secret vi pre) t o ->
  t = [] /\ match o with Exhausted => False | _ => True end.
Proof.
  intros Ht. apply runs_bind_inv in Ht as [([cs|e] & t1 & t2 & -> & [-> _]%BuildCommonService_silent & [-> ->])
    |[[-> [-> _]%BuildCommonService_silent]|[-> [_ H]%BuildCommonService_silent]]]; done.
Qed.
End handlers.

Lemma find_volume_spec id t o :
  runs (find_volume id) t o ->
  exists r, t = [Evt (Array Local (GetVolume id)) r] /\
    match o with Done (Ok v) => r = Ok v | Done (Err _) => True | _ => False end.
Proof. intros (r & t' & -> & [-> ->]). exists r. split; [done|]. by destruct r. Qed.
Lemma find_link_spec id t o :
  runs (find_link id) t o ->
  exists r, t = [Evt (Array Local (GetLink id)) r] /\
    match o with Done (Ok v) => r = Ok v | Done (Err _) => True | _ => False end.
Proof. intros (r & t' & -> & [-> ->]). exists r. split; [done|]. by destruct r. Qed.
Lemma array_list_spec {X} s (i : ibox (slice X)) t o :
  runs (array_list s i) t o ->
  exists r, t = [Evt (Array s i) r] /\
    match o with Done (Ok l) => r = (l, None) | Done (Err _) => True | _ => False end.
Proof. intros ([l [e|]] & t' & -> & [-> ->]); by eexists. Qed.

(** The secret is looked for without a change. *)
Lemma find_secret_spec link t o :
  runs (find_secret link) t o -> switches t = [] /\ match o with Done _ => True | _ => False end.
Proof.
  revert t o. wp_start. unfold find_secret, on, getSecretForLink, GetSecretContainsName. wp_run.
  all: by wp_leaf.
Qed.

Lemma switches_app t t' : switches (t ++ t') = switches t ++ switches t'.
Proof. apply List.filter_app. Qed.
Lemma switches_cons {X} (c : rcall X) x t :
  switches (Evt c x :: t) = (if match c with Array _ i => changes i | _ => false end then [Evt c x] else []) ++ switches t.
Proof. unfold switches. cbn [List.filter]. by destruct (match c with Array _ i => changes i | _ => false end). Qed.

(** Step over a part of a handler by its lemma; close the ways it ends early,
    where nothing has been switched yet. *)
Ltac show_switches :=
  repeat first [rewrite switches_app | rewrite switches_cons]; cbn [changes app];
  repeat match goal with H : switches _ = [] |- _ => rewrite H end; cbn [app].
Ltac in_calls := solve [repeat first [by left | right | apply elem_of_app; right]].
Ltac unswitched :=
  show_switches; reflexivity.
Ltac early := wp_run; wp_leaf; first [by left; split; [unswitched|done] | unswitched | done].
Ltac through lem :=
  eapply wp_call; [let t := fresh in let o := fresh in let Ht := fresh in intros t o Ht; apply lem in Ht; pattern t, o in Ht; exact Ht|]; cbn beta;
  let u := fresh "u" in let r := fresh "r" in let H := fresh "H" in
  intros u [[r|r]| |] H; repeat match type of H with exists _, _ => destruct H as [? H] end; destruct H as [? H];
  simplify_eq; try done; cbn [app]; try (by early).


Lemma direction_switches d t : direction d t = direction d (switches t).
Proof.
  revert d. induction t as [|[X c x] t IH]; intros d; [done|]. unfold direction, switches in *. cbn [foldl List.filter].
  destruct c as [X s i| |]; [|apply IH..]. rewrite IH. destruct (changes i) eqn:Hc; [done|]. by destruct i.
Qed.

(** Nothing is switched; success means there is no replica or that it has the role
    already. *)
Definition stays (role : string) (req : ReplicationRequest) (t : list (evt rcall)) (r : res unit) : Prop :=
  switches t = [] /\
  (is_ok r = true -> exists volume found, replicated req volume found t /\
     match found with Ok replica => Replica_Role replica = role | Err err => is_ErrNotFound err = true end).
(** The replica is switched to run from the array [to]. *)
Definition moves_to (from to : site) (deleted : Z) (request : CreateReplicaRequest) (t : list (evt rcall)) (r : res unit) : Prop :=
  switched from to deleted request (switches t) r /\
  forall d, match r with
            | Ok _ => direction d t = Some to
            | Err _ => direction d t = d \/ direction d t = None
            end.
Lemma moves_to_intro from to deleted request t r :
  switched from to deleted request (switches t) r -> moves_to from to deleted request t r.
Proof. intros H. split; [done|]. intros d. rewrite direction_switches. by eapply switched_direction. Qed.

Definition promoted (req : ReplicationRequest) (t : list (evt rcall)) (r : res unit) : Prop :=
  exists volume replica link links source, replicated req volume (Ok replica) t /\ Replica_Role replica <> "SOURCE" /\
    Evt (Array Local (GetLink (Replica_LinkID replica))) (Ok link) ∈ t /\
    Evt (Array Local GetLinks) (links, None) ∈ t /\
    Evt (Array Remote (GetReplicaForLocalEntityName (Volume_Name volume))) (Ok source) ∈ t /\
    moves_to Remote Local (Replica_ID source)
      (replica_request (Volume_ID volume) (link_number links (Link_RemoteSystemName link))
         (Replica_RemotePoolID replica) (Volume_Name volume)) t r.
(** The volume of the other array is known once a replica of it is asked for. *)
Definition demoted (req : ReplicationRequest) (t : list (evt rcall)) (r : res unit) : Prop :=
  exists volume replica link volumeRemote, replicated req volume (Ok replica) t /\ Replica_Role replica <> "TARGET" /\
    Evt (Array Local (GetLink (Replica_LinkID replica))) (Ok link) ∈ t /\
    (length (switches t) = 2 -> Evt (Array Remote (GetVolume (Replica_RemoteEntityID replica))) (Ok volumeRemote) ∈ t) /\
    moves_to Local Remote (Replica_ID replica)
      (replica_request (Volume_ID volumeRemote) (Link_RemoteLinkID link)
         (Replica_LocalPoolID replica) (Volume_Name volumeRemote)) t r.

Section switching.
Context (url_Parse : string -> res (string * string)) (url_ParseRequestURI : string -> bool).

Lemma PromoteVolume_switched req t o :
  runs (PromoteVolume url_Parse url_ParseRequestURI req) t o ->
  match o with
  | Done r => stays "SOURCE" req t r \/ promoted req t r
  | Panicked => switches t = []
  | Exhausted => False
  end.
Proof.
  revert t o. wp_start. unfold PromoteVolume. wp_run.
  2: by wp_leaf.
  through (volume_service_spec url_Parse url_ParseRequestURI). through (@array_list_spec Link).
  through (find_volume_spec). wp_run; try early.
  1,3: wp_leaf; left; split; [reflexivity|]; intros _; do 2 eexists; split; [by split; [exists s, r; split_and!; [..|in_trace]|in_trace]|].
  1: by apply String.eqb_eq. 1: done.
  through (find_link_spec). through (find_secret_spec). through (remote_service_spec url_Parse url_ParseRequestURI).
  wp_run. all: try early.
  all: wp_leaf; right; exists r1, a, r2, r0, a0; (split; [split; [exists s, r; split_and!; [done|done|in_calls]|in_calls]|]).
  all: (split; [by apply String.eqb_neq|]); do 3 (split; [in_calls|]).
  all: apply moves_to_intro; show_switches; constructor.
Qed.

Lemma DemoteVolume_switched req t o :
  runs (DemoteVolume url_Parse url_ParseRequestURI req) t o ->
  match o with
  | Done r => stays "TARGET" req t r \/ demoted req t r
  | Panicked => switches t = []
  | Exhausted => False
  end.
Proof.
  revert t o. wp_start. unfold DemoteVolume. wp_run.
  2: by wp_leaf.
  through (volume_service_spec url_Parse url_ParseRequestURI). through (find_volume_spec). wp_run; try early.
  1,3: wp_leaf; left; split; [reflexivity|]; intros _; do 2 eexists; split; [by split; [exists s, r; split_and!; [..|in_trace]|in_trace]|].
  1: by apply String.eqb_eq. 1: done.
  through (find_link_spec). through (find_secret_spec). through (remote_service_spec url_Parse url_ParseRequestURI).
  wp_run. all: try early.
  all: wp_leaf; right; lazymatch goal with
    | |- context [Evt (Array Remote (GetVolume _)) (Ok ?v)] => exists r0, a, r1, v
    | _ => exists r0, a, r1, r0
    end.
  all: (split; [split; [exists s, r; split_and!; [done|done|in_calls]|in_calls]|]).
  all: (split; [by apply String.eqb_neq|]); (split; [in_calls|]); (split; [show_switches; first [done|intros _; in_calls]|]).
  all: apply moves_to_intro; show_switches; constructor.
Qed.

(** C29: Promoting and demoting a volume switch the direction of its replica by
    deleting it on the array it runs from, and only then making one on the other
    array, of the same volume, back over the same link. A success means the
    replica runs from the array it was asked to, or that there was nothing to do:
    no replica, or one of the role wanted. A failure leaves the replica as it was,
    or, when it strikes after the deletion, leaves the volume without one. *)
Theorem switching_spec req t o :
  (runs (PromoteVolume url_Parse url_ParseRequestURI req) t o ->
   match o with
   | Done r => stays "SOURCE" req t r \/ promoted req t r
   | Panicked => switches t = []
   | Exhausted => False
   end) /\
  (runs (DemoteVolume url_Parse url_ParseRequestURI req) t o ->
   match o with
   | Done r => stays "TARGET" req t r \/ demoted req t r
   | Panicked => switches t = []
   | Exhausted => False
   end).
Proof. split; [apply PromoteVolume_switched|apply DemoteVolume_switched]. Qed.

(** ** Making a replica *)

Lemma validateLink_spec name t o :
  runs (validateLink name) t o ->
  exists r, t = [Evt (Array Local GetLinks) r] /\
    match o with
    | Done (Ok link) => exists links, r = (links, None) /\ link ∈ links /\ Link_RemoteSystemName link = name /\
                          Link_ID link <> 0%Z /\ Link_LinkState link = "UP"
    | Done (Err _) => True
    | _ => False
    end.
Proof.
  revert t o. wp_start. unfold validateLink, array_list. wp_run. all: wp_leaf; eexists; (split; [reflexivity|]); try exact I.
  exists l. split; [done|].
  match goal with H : last _ = Some _ |- _ => apply last_Some_elem_of, list_elem_of_In, List.filter_In in H as [Hin Hn] end.
  apply list_elem_of_In in Hin. apply String.eqb_eq in Hn. split; [done|]. split; [done|].
  split; [by apply Z.eqb_neq|]. by apply String.eqb_eq, negb_false_iff.
Qed.

(** What a replica is only made for: a volume the array knows, that no replica it
    lists is of, over a link of the name asked for that is up. *)
Record replicable (req : ReplicationRequest) (volume : Volume) (link : Link) (pool : PoolResult) (t : list (evt rcall)) : Prop := {
  replicable_parameters : Forall (fun p => (RR_Parameters req).[p] <> "")
    [IboxReplicaRemoteIboxLinkNameParameter; IboxReplicaCreatePVCPoolName;
     IboxReplicaRemoteIboxCredNameParameter; IboxReplicaRemoteIboxCredNamespaceParameter];
  replicable_volume : exists id vi, RR_VolumeId req = Some id /\ ValidateVolumeID id = Ok vi /\
    Evt (Array Local (GetVolume (VolumeProtocolConfig_VolumeID vi))) (Ok volume) ∈ t;
  replicable_pool : Evt (Array Local (GetPoolByName (RR_Parameters req).[IboxReplicaCreatePVCPoolName])) (Ok pool) ∈ t;
  replicable_link : exists links, Evt (Array Local GetLinks) (links, None) ∈ t /\ link ∈ links /\
    Link_RemoteSystemName link = (RR_Parameters req).[IboxReplicaRemoteIboxLinkNameParameter] /\
    Link_ID link <> 0%Z /\ Link_LinkState link = "UP";
  replicable_new : exists replicas, Evt (Array Local GetReplicas) (replicas, None) ∈ t /\
    Forall (fun replica => Replica_LocalEntityID replica <> Volume_ID volume) replicas
}.

Lemma required_parameter_ok req id p v :
  required_parameter req id p = Ok v -> v = (RR_Parameters req).[p] /\ (RR_Parameters req).[p] <> "".
Proof.
  unfold required_parameter. destruct (String.eqb_spec (RR_Parameters req).[p] ""); [done|]. by intros [= <-].
Qed.

(** Enabling replication changes nothing and fails, or asks for one replica,
    exactly of the volume, link and pool the request names, and only after all of
    them were found, the link up and the volume not yet replicated. It succeeds
    exactly when the array makes the replica. *)
Theorem EnableVolumeReplication_guarded req t o :
  runs (EnableVolumeReplication url_Parse url_ParseRequestURI req) t o ->
  match o with
  | Done r =>
      (switches t = [] /\ is_ok r = false) \/
      exists volume link pool c, replicable req volume link pool t /\
        switches t = [Evt (Array Local (CreateReplica
                        (replica_request (Volume_ID volume) (Link_ID link) (PoolResult_ID pool) (Volume_Name volume)))) c] /\
        is_ok r = is_ok c
  | Panicked => switches t = []
  | Exhausted => False
  end.
Proof.
  revert t o. wp_start. unfold EnableVolumeReplication. wp_run. all: try early.
  repeat match goal with H : required_parameter _ _ _ = Ok _ |- _ => apply required_parameter_ok in H as [-> ?] end.
  through (volume_service_spec url_Parse url_ParseRequestURI). through (find_volume_spec). wp_run; try early.
  through validateLink_spec. match goal with H : exists _, _ |- _ => destruct H as (links & -> & Hlink) end.
  through (@array_list_spec Replica). wp_run. all: try early.
  all: wp_leaf; right; exists r0, r1, a; eexists; (split; [|by split]); split.
  1,6: by repeat constructor.
  1,5: exists s, r; split_and!; [done|done|in_calls].
  1,4: in_calls.
  1,3: exists links; destruct Hlink as (? & ? & ? & ?); split_and!; [in_calls|done..].
  all: eexists; (split; [in_calls|]); apply Forall_forall; intros x Hx Hid.
  all: match goal with H : existsb _ _ = false |- _ => rewrite <- not_true_iff_false, existsb_exists in H; apply H end.
  all: exists x; (split; [by apply list_elem_of_In|by apply Z.eqb_eq]).
Qed.
End switching.

(** ** Examples *)

#[local] Transparent gmap_empty.

Definition secrets0 : gmap string string :=
  {[ CredentialHostname := "ibox1"; CredentialUsername := "u"; CredentialPassword := "p" ]}.
Definition parse0 (s : string) : res (string * string) := Ok ("", s).
Definition vol0 (id : Z) : Volume := Volume_of id "pvc" 1073741824 0 1 "pool" "UNLOCKED" false.
Definition demote_request : ReplicationRequest := MkReplicationRequest (Some "7$$fc") ∅ secrets0.
Definition demote_trace : list (evt rcall) :=
  [Evt (Array Local (GetVolume 7)) (Ok (vol0 7));
   Evt (Array Local (GetReplicaForLocalEntityName "pvc")) (Ok (Replica_of 3 4 "SOURCE" "ACTIVE" 70 20 10));
   Evt (Array Local (GetLink 4)) (Ok (Link_of 4 "ibox2" "ibox2" 5 "UP"));
   Evt (Cluster BuildClient) None; Evt (Process (Getenv "POD_NAMESPACE")) "ns";
   Evt (Cluster (SecretsList "ns" secret_label)) (Ok [MkSecret "ibox2-creds" "ns" "1" secrets0 ∅]);
   Evt (Array Local (DeleteReplica 3)) None; Evt (Process (Sleep 5)) tt;
   Evt (Array Remote (GetVolume 70)) (Ok (vol0 70));
   Evt (Array Remote (CreateReplica (replica_request 70 5 10 "pvc"))) (Ok (Replica_of 6 5 "SOURCE" "ACTIVE" 7 10 20))].

Lemma switching_spec_witness :
  runs (DemoteVolume parse0 (fun _ => true) demote_request) demote_trace (Done (Ok tt)) /\
  (stays "TARGET" demote_request demote_trace (Ok tt) \/ demoted demote_request demote_trace (Ok tt)) /\
  direction (Some Local) demote_trace = Some Remote.
Proof.
  assert (H : runs (DemoteVolume parse0 (fun _ => true) demote_request) demote_trace (Done (Ok tt)))
    by (unfold demote_trace, demote_request; rerun).
  split; [exact H|]. split; [|reflexivity].
  exact (proj2 (switching_spec parse0 (fun _ => true) demote_request demote_trace (Done (Ok tt))) H).
Defined.

(** Finding: a link that is not named after the remote system is only noticed after
    the source replica was deleted. *)
Example PromoteVolume_leaves_unreplicated :
  let t := [Evt (Array Local GetLinks) ([Link_of 4 "link" "ibox2" 5 "UP"], None);
            Evt (Array Local (GetVolume 7)) (Ok (vol0 7));
            Evt (Array Local (GetReplicaForLocalEntityName "pvc")) (Ok (Replica_of 3 4 "TARGET" "ACTIVE" 70 20 10));
            Evt (Array Local (GetLink 4)) (Ok (Link_of 4 "link" "ibox2" 5 "UP"));
            Evt (Cluster BuildClient) None; Evt (Process (Getenv "POD_NAMESPACE")) "ns";
            Evt (Cluster (SecretsList "ns" secret_label)) (Ok [MkSecret "ibox2-creds" "ns" "1" secrets0 ∅]);
            Evt (Array Remote (GetReplicaForLocalEntityName "pvc")) (Ok (Replica_of 8 5 "SOURCE" "ACTIVE" 7 10 20));
            Evt (Array Remote (DeleteReplica 8)) None] in
  exists e, runs (PromoteVolume parse0 (fun _ => true) demote_request) t (Done (Err e)) /\ direction (Some Remote) t = None.
Proof. eexists. split; [cbv zeta; unfold demote_request; rerun|reflexivity]. Qed.

Lemma EnableVolumeReplication_guarded_witness :
  let params : gmap string string :=
    <[ IboxReplicaRemoteIboxCredNamespaceParameter := "ns" ]> {[ IboxReplicaRemoteIboxLinkNameParameter := "ibox2";
       IboxReplicaCreatePVCPoolName := "pool"; IboxReplicaRemoteIboxCredNameParameter := "creds" ]} in
  let req := MkReplicationRequest (Some "7$$fc") params secrets0 in
  let t := [Evt (Array Local (GetVolume 7)) (Ok (vol0 7));
            Evt (Array Local (GetPoolByName "pool")) (Ok (PoolResult_of 10 "pool" true));
            Evt (Array Local GetLinks) ([Link_of 4 "ibox2" "ibox2" 5 "UP"], None);
            Evt (Array Local GetReplicas) ([], None);
            Evt (Array Local (CreateReplica (replica_request 7 4 10 "pvc"))) (Ok (Replica_of 3 4 "SOURCE" "ACTIVE" 70 10 1))] in
  runs (EnableVolumeReplication parse0 (fun _ => true) req) t (Done (Ok tt)) /\
  exists volume link pool, replicable req volume link pool t.
Proof.
  intros params req t.
  assert (H : runs (EnableVolumeReplication parse0 (fun _ => true) req) t (Done (Ok tt)))
    by (subst t req params; rerun).
  split; [exact H|].
  destruct (EnableVolumeReplication_guarded parse0 (fun _ => true) req t _ H) as [[_ Hok]|(v & l & p & c & Hr & _)];
    [discriminate Hok|by exists v, l, p].
Defined.
