(* ===== verification/CustomResource.v ===== *)
(** What the controllers of the custom resources share: the resource, the calls a
    reconciliation makes, its finalizer, its array ([iboxreplica], [iboxcg] and
    [iboxpromote], [internal/controller]). *)
From S2P Require Import Prelude GoLib IboxTypes Traces Csi KubeClient StorageCommon VolumeGroup.
From stdpp Require Import base strings list gmap.
From Stdlib Require Import ZArith.

Local Open Scope string_scope.
Local Open Scope list_scope.

(** ** Resources *)

(** The status of all three kinds. *)
Record CRStatus := MkCRStatus {
  Status_State : string;
  Status_ID : Z
}.
(** [Iboxreplica], [Iboxcg] and [Iboxpromote] differ in their [Spec]. Of the
    object's metadata: whether [DeletionTimestamp] is set. *)
Record CR (Spec : Type) := MkCR {
  CR_Name : string;
  CR_Namespace : string;
  CR_Annotations : gmap string string;
  CR_Deleted : bool;
  CR_Finalizers : list string;
  CR_ResourceVersion : string;
  CR_Spec : Spec;
  CR_Status : CRStatus
}.
Arguments MkCR {Spec}.
Arguments CR_Name {Spec}.
Arguments CR_Namespace {Spec}.
Arguments CR_Annotations {Spec}.
Arguments CR_Deleted {Spec}.
Arguments CR_Finalizers {Spec}.
Arguments CR_ResourceVersion {Spec}.
Arguments CR_Spec {Spec}.
Arguments CR_Status {Spec}.

Definition NamespacedName : Type := string * string.

(** What [r.Get] fills its argument with; an error is told apart by
    [client.IgnoreNotFound]. *)
Inductive get_answer (Spec : Type) :=
| Found (cr : CR Spec)
| Missing (err : error)
| Failed (err : error).
Arguments Found {Spec}.
Arguments Missing {Spec}.
Arguments Failed {Spec}.
Definition got {Spec} (a : get_answer Spec) : res (CR Spec) :=
  match a with Found cr => Ok cr | Missing err | Failed err => Err err end.

(** The calls of a reconciliation: the array of the resource and the one of its
    remote credential; the cluster it runs in and the one of an alternate
    kubeconfig; the resource itself. [UpdateStatus] answers the object as the
    server has it. *)
Inductive ccall (Spec : Type) : Type -> Type :=
| Array {X} (s : site) (i : ibox X) : ccall Spec X
| Cluster {X} (s : site) (k : kube X) : ccall Spec X
| Process {X} (o : os X) : ccall Spec X
| GetCR (key : NamespacedName) : ccall Spec (get_answer Spec)
| UpdateCR (cr : CR Spec) : ccall Spec (option error)
| UpdateStatus (cr : CR Spec) : ccall Spec (res (CR Spec)).
Arguments Array {Spec X}.
Arguments Cluster {Spec X}.
Arguments Process {Spec X}.
Arguments GetCR {Spec}.
Arguments UpdateCR {Spec}.
Arguments UpdateStatus {Spec}.

(** [controllerutil]: the finalizers of an object. *)
Class Controllerutil := {
  ContainsFinalizer : list string -> string -> bool;
  AddFinalizer : list string -> string -> list string;
  RemoveFinalizer : list string -> string -> list string
}.
Class ControllerutilLaws `(Controllerutil) := {
  Contains_Add f name : ContainsFinalizer (AddFinalizer f name) name = true;
  Contains_Remove f name : ContainsFinalizer (RemoveFinalizer f name) name = false
}.

Section resource.
Context {Spec : Type}.
Implicit Types (cr obj : CR Spec).

Definition with_status cr (status : CRStatus) : CR Spec :=
  {| CR_Name := CR_Name cr; CR_Namespace := CR_Namespace cr; CR_Annotations := CR_Annotations cr;
     CR_Deleted := CR_Deleted cr; CR_Finalizers := CR_Finalizers cr;
     CR_ResourceVersion := CR_ResourceVersion cr; CR_Spec := CR_Spec cr; CR_Status := status |}.
Definition with_finalizers cr (finalizers : list string) : CR Spec :=
  {| CR_Name := CR_Name cr; CR_Namespace := CR_Namespace cr; CR_Annotations := CR_Annotations cr;
     CR_Deleted := CR_Deleted cr; CR_Finalizers := finalizers;
     CR_ResourceVersion := CR_ResourceVersion cr; CR_Spec := CR_Spec cr; CR_Status := CR_Status cr |}.
Definition with_spec cr (spec : Spec) : CR Spec :=
  {| CR_Name := CR_Name cr; CR_Namespace := CR_Namespace cr; CR_Annotations := CR_Annotations cr;
     CR_Deleted := CR_Deleted cr; CR_Finalizers := CR_Finalizers cr;
     CR_ResourceVersion := CR_ResourceVersion cr; CR_Spec := spec; CR_Status := CR_Status cr |}.
Definition key_of cr : NamespacedName := (CR_Namespace cr, CR_Name cr).

(** ** Calls *)

Definition at_site (s : site) (X : Type) (c : call X) : prog (ccall Spec) X :=
  match c with
  | Ibox i => trigger (Array s i)
  | Kube k => trigger (Cluster s k)
  | Os o => trigger (Process o)
  end.
Definition on {A} (s : site) (p : prog call A) : prog (ccall Spec) A := interp (at_site s) p.
Definition array {X} (s : site) (i : ibox X) : prog (ccall Spec) X := trigger (Array s i).
Definition cluster {X} (s : site) (k : kube X) : prog (ccall Spec) X := trigger (Cluster s k).
Definition sleep (seconds : Z) : prog (ccall Spec) unit := trigger (Process (Sleep seconds)).
Definition array_list {X} (s : site) (i : ibox (slice X)) : prog (ccall Spec) (res (list X)) :=
  r <- array s i ;; Ret (match snd r with Some err => Err err | None => Ok (fst r) end).
(** [r.Get] into the object at hand: what the client has for its key. *)
Definition refresh cr : prog (ccall Spec) (res (CR Spec)) :=
  a <- trigger (GetCR (key_of cr)) ;; Ret (got a).

(** The text of an error becomes the state, the number is reset; that this cannot
    be stored is only logged. *)
Definition report_status cr (err : error) : prog (ccall Spec) (CR Spec) :=
  let cr := with_status cr (MkCRStatus (Error err) 0) in
  updated <- trigger (UpdateStatus cr) ;;
  Ret (match updated with Ok cr' => cr' | Err _ => cr end).
Definition report {A} cr (err : error) : prog (ccall Spec) (res A) :=
  _cr <- report_status cr err ;; Ret (Err err).

(** Of [obj] a copy: the caller's object does not learn of the update. *)
Definition handleFinalizer `{Controllerutil} (name : string) obj : prog (ccall Spec) (option error) :=
  if negb (CR_Deleted obj)
  then if negb (ContainsFinalizer (CR_Finalizers obj) name)
       then trigger (UpdateCR (with_finalizers obj (AddFinalizer (CR_Finalizers obj) name)))
       else Ret None
  else if ContainsFinalizer (CR_Finalizers obj) name
       then trigger (UpdateCR (with_finalizers obj (RemoveFinalizer (CR_Finalizers obj) name)))
       else Ret None.

Section client.
Context (url_Parse : string -> res (string * string)) (url_ParseRequestURI : string -> bool).

Definition getClientService cr : prog (ccall Spec) (res unit) :=
  let secretName := (CR_Annotations cr).[PVCAnnotationSecretName] in
  let secretNamespace := (CR_Annotations cr).[PVCAnnotationSecretNamespace] in
  if String.eqb secretName "" || String.eqb secretNamespace ""
  then Ret (Err (EText "annotations for secret name and namespace are required"))
  else
    client <- cluster Local BuildClient ;;
    match client with
    | Some err => Ret (Err err)
    | None =>
        try secret <- on Local (GetSecret secretName secretNamespace) catch err => Ret (Err err) ;;
        on Local (NewClient url_Parse url_ParseRequestURI secret)
    end.
End client.
End resource.

(** ** Kinds of calls *)

Lemma every_mono {E A} (P Q : forall X, E X -> Prop) (p : prog E A) :
  (forall X (c : E X), P X c -> Q X c) -> every P p -> every Q p.
Proof. intros HPQ. induction p as [a| | |X c k IH]; cbn; try done. intros [Hc Hk]. auto. Qed.

(** Calls that change neither an array nor the resource; the cluster may be
    written to. *)
Definition harmless {Spec X} (c : ccall Spec X) : Prop :=
  match c with
  | Array _ i => changes i = false
  | UpdateCR _ | UpdateStatus _ => False
  | _ => True
  end.
Definition reads {Spec A} (p : prog (ccall Spec) A) : Prop := every (@harmless Spec) p.

Lemma on_reads {Spec A} s (p : prog call A) : quiet p -> reads (Spec := Spec) (on s p).
Proof.
  unfold on, reads. induction p as [a| | |X c k IH]; cbn; try done. intros [Hc Hk].
  apply every_bind; [|auto]. by destruct c.
Qed.

Ltac reads_step :=
  match goal with
  | |- forall _, _ => intros ?
  | |- reads _ => unfold reads
  | |- every _ (Ret _) => exact I
  | |- every _ Panic => exact I
  | |- every _ (array _ _) => split
  | |- every _ (array_list _ _) => unfold array_list
  | |- every _ (cluster _ _) => split
  | |- every _ (sleep _) => split
  | |- every _ (trigger _) => split
  | |- every _ (bind _ _) => apply every_bind
  | |- every _ (match ?x with _ => _ end) => destruct x
  | |- every _ (on _ _) => apply on_reads; solve [auto with csi | unfold NewClient, StorageCommon.getAPIConfig; every_tac]
  | |- every _ ?p => change (reads p); solve [auto with csi]
  | |- harmless _ => first [exact I | reflexivity]
  end.
Ltac reads_tac := repeat reads_step.

Lemma getClientService_reads {Spec} up upr (cr : CR Spec) : reads (getClientService up upr cr).
Proof. unfold getClientService. reads_tac. Qed.
Lemma refresh_reads {Spec} (cr : CR Spec) : reads (refresh cr).
Proof. unfold refresh. reads_tac. Qed.
#[export] Hint Resolve getClientService_reads refresh_reads : csi.

(** ** The changes of an array *)

Section changes.
Context {Spec : Type}.
Local Abbreviation prog' := (prog (ccall Spec)).
Local Abbreviation cr_events := (list (evt (ccall Spec))).
Implicit Types (t u : cr_events) (cr : CR Spec).

(** The events that change an array. *)
Definition changing (e : evt (ccall Spec)) : bool :=
  match e with Evt c _ => match c with Array _ i => changes i | _ => false end end.
Definition array_changes (t : cr_events) : cr_events := List.filter changing t.
Definition changeless {X} (c : ccall Spec X) : Prop := match c with Array _ i => changes i = false | _ => True end.

Lemma array_changes_app t u : array_changes (t ++ u) = array_changes t ++ array_changes u.
Proof. apply List.filter_app. Qed.
Lemma array_changes_cons e t : array_changes (e :: t) = if changing e then e :: array_changes t else array_changes t.
Proof. done. Qed.
Lemma array_changes_here e t : changing e = true -> array_changes (e :: t) = e :: array_changes t.
Proof. intros H. by rewrite array_changes_cons, H. Qed.
Lemma changeless_event (e : evt (ccall Spec)) : match e with Evt c _ => changeless c end -> changing e = false.
Proof. destruct e as [X c x]. by destruct c. Qed.
Lemma changeless_runs {A} (p : prog' A) t o : every (@changeless) p -> runs p t o -> array_changes t = [].
Proof.
  intros Hp Ht. pose proof (every_runs _ _ _ _ Hp Ht) as H. clear Hp Ht.
  induction H as [|e t He _ IH]; [done|]. rewrite array_changes_cons, (changeless_event e He). exact IH.
Qed.
Lemma reads_changeless {A} (p : prog' A) : reads p -> every (@changeless) p.
Proof. apply every_mono. intros X c Hc. destruct c; [exact Hc|exact I..]. Qed.
Lemma report_changeless {A} cr err : every (@changeless) (report cr err : prog' (res A)).
Proof. by repeat first [split|intros ?]. Qed.
Lemma report_status_changeless cr err : every (@changeless) (report_status cr err : prog' (CR Spec)).
Proof. by repeat first [split|intros ?]. Qed.

(** A step that changes nothing of an array, then the rest. *)
Lemma changeless_bind {A B} (p : prog' A) (f : A -> prog' B) t o :
  every (@changeless) p -> runs (bind p f) t o ->
  (array_changes t = [] /\ (o = Panicked /\ runs p t Panicked \/ o = Exhausted)) \/
  (exists a t1 t2, t = t1 ++ t2 /\ array_changes t = array_changes t2 /\ runs p t1 (Done a) /\ runs (f a) t2 o).
Proof.
  intros Hp Ht. destruct (runs_bind_inv _ _ _ _ Ht) as [(a & t1 & t2 & -> & H1 & H2)|[[-> H1]|[-> H1]]].
  - right. exists a, t1, t2. split; [done|]. rewrite array_changes_app, (changeless_runs _ _ _ Hp H1). done.
  - left. split; [by eapply changeless_runs|by left].
  - left. split; [by eapply changeless_runs|by right].
Qed.

(** The changes of a program that is followed by none. *)
Lemma through_inner {A B} (p : prog' A) (f : A -> prog' B) t o :
  (forall a, every (@changeless) (f a)) -> runs (bind p f) t o ->
  exists t1 t2 o1, t = t1 ++ t2 /\ array_changes t = array_changes t1 /\ (o1 = Panicked -> o = Panicked) /\ runs p t1 o1.
Proof.
  intros Hf Ht. destruct (runs_bind_inv _ _ _ _ Ht) as [(a & t1 & t2 & -> & H1 & H2)|[[-> H1]|[-> H1]]].
  - exists t1, t2, (Done a). rewrite array_changes_app, (changeless_runs _ _ _ (Hf a) H2), app_nil_r. by repeat split.
  - exists t, [], Panicked. by rewrite app_nil_r.
  - exists t, [], Exhausted. by rewrite app_nil_r.
Qed.

Lemma handleFinalizer_changeless {CU : Controllerutil} name cr : every (@changeless) (handleFinalizer name cr).
Proof.
  unfold handleFinalizer.
  repeat match goal with |- every _ (if ?b then _ else _) => destruct b end; try exact I; by repeat first [split|intros ?].
Qed.
Lemma refresh_ok cr t cr' : runs (refresh cr) t (Done (Ok cr')) -> exists key, Evt (GetCR key) (Found cr') ∈ t.
Proof. intros ([x|err|err] & t1 & -> & -> & [=]). subst x. eexists. left. Qed.

End changes.
