(* ===== verification/CreatePVC.v ===== *)
(** Volumes and claims for the remote entities of a replica ([createpvc/common.go]). *)
From S2P Require Import Prelude GoLib IboxTypes Traces Csi KubeClient StorageCommon VolumeGroup CustomResource.
From stdpp Require Import base strings list gmap.
From Stdlib Require Import ZArith.

Local Open Scope string_scope.
Local Open Scope list_scope.

Record EntityPair := MkEntityPair {
  LocalPV : PersistentVolume;
  RemoteEntityID : Z;
  RemoteIPAddress : string
}.

(** [localPV.Spec.CSI.VolumeAttributes], which a volume of another kind has not. *)
Definition attributes (pv : PersistentVolume) : option (gmap string string) := PV_VolumeAttributes <$> PV_CSI pv.

Section createpvc.
Context {Spec : Type}.
Local Abbreviation prog' := (prog (ccall Spec)).

(** The client of the cluster, then one request of it. *)
Definition with_client {A} (p : prog' (res A)) : prog' (res A) :=
  client <- cluster Local BuildClient ;;
  match client with Some err => Ret (Err err) | None => p end.

(** A secret that lacks a field is answered all the same: the error of the
    return is the nil one of the request before. *)
Definition GetIboxCredentials (secretName secretNamespace : string) : prog' (res (gmap string string)) :=
  with_client (
    try secret <- on Local (GetSecret secretName secretNamespace) catch err => Ret (Err err) ;;
    Ret (if String.eqb (secret.[CredentialUsername]) "" then Ok secret
         else if String.eqb (secret.[CredentialPassword]) "" then Ok secret
         else if String.eqb (secret.[CredentialHostname]) "" then Ok secret
         else Ok secret)).

Definition GetLocalPV (pvName : string) : prog' (res PersistentVolume) :=
  with_client (cluster Local (PersistentVolumesGet pvName)).

(** [clientgo.BuildClientFromSecret]: the secret is read from the cluster at hand. *)
Definition BuildClientFromSecret (secretName secretNamespace : string) : prog' (option error) :=
  if String.eqb secretName "" then Ret (Some (EText "secret name for building kubeclient is empty"))
  else if String.eqb secretNamespace "" then Ret (Some (EText "secret namespace for building kubeclient is empty"))
  else
    client <- cluster Local BuildClient ;;
    match client with
    | Some err => Ret (Some err)
    | None =>
        secret <- on Local (GetSecret secretName secretNamespace) ;;
        match secret with
        | Err err => Ret (Some err)
        | Ok secret => cluster Local (ClientFromKubeconfig (secret.["config"]))
        end
    end.

(** The quantity [capacity.Storage()]. *)
Definition Storage (capacity : gmap string string) : string := default "0" (capacity !! "storage").

Definition claim (remotePV : PersistentVolume) (namespace pvcNameToUse : string) : PersistentVolumeClaim :=
  {| PVC_Name := pvcNameToUse;
     PVC_Namespace := namespace;
     PVC_AccessModes := PV_AccessModes remotePV;
     PVC_Storage := Storage (PV_Capacity remotePV);
     PVC_StorageClassName := Some (PV_StorageClassName remotePV);
     PVC_VolumeMode := PV_VolumeMode remotePV;
     PVC_VolumeName := PV_Name remotePV |}.
Definition CreateRemotePVC (remotePV : PersistentVolume) (namespace pvcNameToUse : string)
    (alternateKubeconfigSecretName alternateKubeconfigSecretNamespace : string) : prog' (res unit) :=
  with_client (
    if String.eqb alternateKubeconfigSecretName ""
    then
      try _pvc <- cluster Local (PersistentVolumeClaimsCreate (claim remotePV namespace pvcNameToUse)) catch err =>
        Ret (Err err) ;;
      Ret (Ok tt)
    else
      alternate <- BuildClientFromSecret alternateKubeconfigSecretName alternateKubeconfigSecretNamespace ;;
      match alternate with
      | Some err => Ret (Err err)
      | None =>
          try _pvc <- cluster Remote (PersistentVolumeClaimsCreate (claim remotePV namespace pvcNameToUse)) catch err =>
            Ret (Err err) ;;
          Ret (Ok tt)
      end).

Definition GetCGMembers (cgName : string) : prog' (res (list MemberInfo)) :=
  try cg <- array Local (GetConsistencyGroupByName cgName) catch err => Ret (Err err) ;;
  array_list Local (GetMembersByCGID (ConsistencyGroupInfo_ID cg)).

(** The name of the remote volume. *)
Definition remote_pv_name (localName alternateKubeconfigSecretName remotePVCNameSuffix : string) : string :=
  if negb (String.eqb remotePVCNameSuffix "") then localName +:+ remotePVCNameSuffix
  else if negb (String.eqb alternateKubeconfigSecretName "") then localName
  else localName +:+ "-remote".
(** The attributes copied from the local volume; one it has not is copied as the
    empty text. *)
Definition copied_attributes : list string :=
  [StorageClassUNIXPermissions; StorageClassGID; StorageClassUID; StorageClassStorageProtocol;
   PVCAnnotationPoolName; PVCAnnotationNetworkSpace; PVCAnnotationIBOXSecret; PVCAnnotationVolumeMetadata;
   StorageClassNFSExportPermissions; StorageClassSnapDirVisible;
   "storage.kubernetes.io/csiProvisionerIdentity"; "volPathd"].
Definition remote_attributes (attrs : gmap string string) (networkSpaceToUse poolToUse remoteIPAddress : string)
    : gmap string string :=
  let base := <[StorageClassNetworkSpace := networkSpaceToUse]> (<[StorageClassPoolName := poolToUse]>
                (list_to_map (map (fun k => (k, attrs.[k])) copied_attributes))) in
  if String.eqb remoteIPAddress "" then base else <["ipAddress" := remoteIPAddress]> base.
Definition remote_pv (localPV : PersistentVolume) (csi : CSIPersistentVolumeSource) (name : string) (remoteVolumeID : Z)
    (remoteIPAddress networkSpaceToUse poolToUse : string) (credential : secret_ref) : PersistentVolume :=
  let attrs := PV_VolumeAttributes csi in
  {| PV_Name := name;
     PV_Annotations := ∅;
     PV_AccessModes := PV_AccessModes localPV;
     PV_Capacity := PV_Capacity localPV;
     PV_UnscaledCapacity := PV_UnscaledCapacity localPV;
     PV_MountOptions := PV_MountOptions localPV;
     PV_ReclaimPolicy := PV_ReclaimPolicy localPV;
     PV_StorageClassName := PV_StorageClassName localPV;
     PV_VolumeMode := PV_VolumeMode localPV;
     PV_CSI := Some
       {| PV_Driver := PV_Driver csi;
          PV_VolumeHandle := Itoa remoteVolumeID +:+ "$$" +:+ attrs.[StorageClassStorageProtocol];
          PV_VolumeAttributes := remote_attributes attrs networkSpaceToUse poolToUse remoteIPAddress;
          PV_ControllerPublishSecretRef := Some credential;
          PV_ControllerExpandSecretRef := Some credential;
          PV_NodeStageSecretRef := Some credential;
          PV_NodePublishSecretRef := Some credential;
          PV_NodeExpandSecretRef := Some credential |} |}.

(** The secret of the remote array on the alternate cluster: copied there when it
    cannot be read there. *)
Definition alternate_credential (alternate credential : secret_ref) : prog' (res unit) :=
  try _kubeconfig <- cluster Local (SecretsGet (snd alternate) (fst alternate)) catch err => Ret (Err err) ;;
  try secret <- cluster Local (SecretsGet (snd credential) (fst credential)) catch err => Ret (Err err) ;;
  client <- BuildClientFromSecret (fst alternate) (snd alternate) ;;
  match client with
  | Some err => Ret (Err err)
  | None =>
      there <- on Remote (GetSecret (fst credential) (snd credential)) ;;
      match there with
      | Ok _ => Ret (Ok tt)
      | Err _ =>
          try _created <- cluster Remote (SecretsCreate
              (MkSecret (Secret_Name secret) (Secret_Namespace secret) "" (Secret_Data secret) (Secret_StringData secret))) catch err =>
            Ret (Err err) ;;
          Ret (Ok tt)
      end
  end.

Definition CreateRemotePV (localPV : PersistentVolume) (remoteVolumeID : Z)
    (remoteIPAddress remotePoolName remotePVCNameSuffix remoteNetworkSpace : string)
    (credential alternate : secret_ref) : prog' (res PersistentVolume) :=
  match PV_CSI localPV with
  | None =>
      if String.eqb remotePoolName "" then Panic
      else
        try _pool <- array Remote (GetPoolByName remotePoolName) catch err => Ret (Err err) ;;
        Panic
  | Some csi =>
      let attrs := PV_VolumeAttributes csi in
      let poolToUse := if String.eqb remotePoolName "" then attrs.[StorageClassPoolName] else remotePoolName in
      try _pool <- array Remote (GetPoolByName poolToUse) catch err => Ret (Err err) ;;
      let networkSpaceToUse :=
        if String.eqb remoteNetworkSpace "" then attrs.[StorageClassNetworkSpace] else remoteNetworkSpace in
      let remotePV := remote_pv localPV csi (remote_pv_name (PV_Name localPV) (fst alternate) remotePVCNameSuffix)
                        remoteVolumeID remoteIPAddress networkSpaceToUse poolToUse credential in
      with_client (
        if String.eqb (fst alternate) "" then cluster Local (PersistentVolumesCreate remotePV)
        else
          try _ready <- alternate_credential alternate credential catch err => Ret (Err err) ;;
          cluster Remote (PersistentVolumesCreate remotePV))
  end.

(** Of a group the remote ids are those of the local members. *)
Fixpoint member_pairs (cgMembers : list MemberInfo) (remoteEntities : list EntityPair) : prog' (res (list EntityPair)) :=
  match cgMembers with
  | [] => Ret (Ok remoteEntities)
  | m :: rest =>
      try localPV <- GetLocalPV (MemberInfo_Name m) catch err => Ret (Err err) ;;
      member_pairs rest (remoteEntities ++ [MkEntityPair localPV (MemberInfo_ID m) ""])
  end.
(** A remote network space without portals is no error: there are no entities. *)
Definition GetRemoteEntities (entityType localEntityName remoteNetworkSpace remoteEntityName : string)
    : prog' (res (list EntityPair)) :=
  if String.eqb entityType ReplicaEntityCG then
    try cgMembers <- GetCGMembers localEntityName catch err => Ret (Err err) ;;
    member_pairs cgMembers []
  else if String.eqb entityType ReplicaEntityFilesystem then
    try localPV <- GetLocalPV localEntityName catch err => Ret (Err err) ;;
    match (if String.eqb remoteNetworkSpace "" then (fun attrs => attrs.[StorageClassNetworkSpace]) <$> attributes localPV
           else Some remoteNetworkSpace) with
    | None => Panic
    | Some networkSpaceToUse =>
        try netSpace <- array Remote (GetNetworkSpaceByName networkSpaceToUse) catch err => Ret (Err err) ;;
        match NetworkSpace_Portals netSpace with
        | [] => Ret (Ok [])
        | portal :: _ =>
            try fileSystem <- array Remote (GetFileSystemByName remoteEntityName) catch err => Ret (Err err) ;;
            Ret (Ok [MkEntityPair localPV (FileSystem_ID fileSystem) (Portal_IPAddress portal)])
        end
    end
  else if String.eqb entityType ReplicaEntityVolume then
    try localPV <- GetLocalPV localEntityName catch err => Ret (Err err) ;;
    try remoteVolume <- array Remote (GetVolumeByName remoteEntityName) catch err => Ret (Err err) ;;
    Ret (Ok [MkEntityPair localPV (Volume_ID remoteVolume) ""])
  else Ret (Err (EText ("error unknown entity type " +:+ entityType))).
End createpvc.

(** ** Kinds of calls: volumes, claims and secrets of the cluster are made, nothing
    of an array or of the resource. *)

Section reads.
Context {Spec : Type}.
Local Abbreviation reads := (reads (Spec := Spec)).
Lemma with_client_reads {A} (p : prog (ccall Spec) (res A)) : reads p -> reads (with_client p).
Proof. intros H. unfold with_client. reads_tac. Qed.
Lemma GetIboxCredentials_reads name namespace : reads (GetIboxCredentials name namespace).
Proof. apply with_client_reads. reads_tac. Qed.
Lemma GetLocalPV_reads name : reads (GetLocalPV name).
Proof. apply with_client_reads. reads_tac. Qed.
Lemma BuildClientFromSecret_reads name namespace : reads (BuildClientFromSecret name namespace).
Proof. unfold BuildClientFromSecret. reads_tac. Qed.
#[local] Hint Resolve GetLocalPV_reads BuildClientFromSecret_reads : csi.
Lemma CreateRemotePVC_reads pv namespace name a b : reads (CreateRemotePVC pv namespace name a b).
Proof. apply with_client_reads. reads_tac. Qed.
Lemma alternate_credential_reads a b : reads (alternate_credential a b).
Proof. unfold alternate_credential. reads_tac. Qed.
#[local] Hint Resolve alternate_credential_reads : csi.
Lemma CreateRemotePV_reads pv id ip pool suffix space a b : reads (CreateRemotePV pv id ip pool suffix space a b).
Proof.
  unfold CreateRemotePV. destruct (PV_CSI pv); [|reads_tac].
  apply every_bind; [reads_tac|]. intros []; [|exact I]. apply with_client_reads. reads_tac.
Qed.
Lemma member_pairs_reads members l : reads (member_pairs members l).
Proof. revert l. induction members; intros l; cbn [member_pairs]; reads_tac. Qed.
#[local] Hint Resolve member_pairs_reads : csi.
Lemma GetRemoteEntities_reads kind name space remote : reads (GetRemoteEntities kind name space remote).
Proof. unfold GetRemoteEntities, GetCGMembers. reads_tac. Qed.
End reads.
#[export] Hint Resolve GetIboxCredentials_reads GetLocalPV_reads CreateRemotePVC_reads CreateRemotePV_reads
  GetRemoteEntities_reads : csi.
