(* ===== verification/Iboxreplica.v ===== *)
(** The controller of the replica resource
    ([iboxreplica/internal/controller]): a resource without a number is a request
    for a replica; one with a number follows the state of its replica. *)
From S2P Require Import Prelude GoLib IboxTypes Csi KubeClient StorageCommon VolumeGroup CustomResource CreatePVC.
From stdpp Require Import base strings list gmap.
From Stdlib Require Import ZArith.

Local Open Scope string_scope.
Local Open Scope list_scope.

Definition IboxreplicaSyncIntervalDefault : Z := 240000.
Definition IboxreplicaBaseActionNew : string := "NEW".
Definition IboxreplicaRPOValueDefault : Z := 300000.
Definition IboxreplicaLinkStateUp : string := "UP".
Definition IboxreplicaLinkWitnessResiliencyMode : string := "WITNESS".
Definition finalizer : string := "infinidat.com/iboxreplica".

Definition Iboxreplica : Type := CR IboxreplicaSpec.
Local Abbreviation prog' := (prog (ccall IboxreplicaSpec)).

(** ** The specification *)

(** A specification but for the fields that are filled in. *)
Definition fill (spec : IboxreplicaSpec) (isPreferred : option bool) (baseAction : string)
    (syncInterval rpoValue remotePoolID : Z) : IboxreplicaSpec :=
  {| IboxreplicaSpec_IsPreferred := isPreferred;
     IboxreplicaSpec_SyncInterval := syncInterval;
     IboxreplicaSpec_Description := IboxreplicaSpec_Description spec;
     IboxreplicaSpec_EntityType := IboxreplicaSpec_EntityType spec;
     IboxreplicaSpec_LocalEntityName := IboxreplicaSpec_LocalEntityName spec;
     IboxreplicaSpec_RemoteEntityName := IboxreplicaSpec_RemoteEntityName spec;
     IboxreplicaSpec_ReplicationType := IboxreplicaSpec_ReplicationType spec;
     IboxreplicaSpec_BaseAction := baseAction;
     IboxreplicaSpec_LinkRemoteSystemName := IboxreplicaSpec_LinkRemoteSystemName spec;
     IboxreplicaSpec_RpoValue := rpoValue;
     IboxreplicaSpec_RemotePoolID := remotePoolID;
     IboxreplicaSpec_RemoteIboxCredentialName := IboxreplicaSpec_RemoteIboxCredentialName spec;
     IboxreplicaSpec_RemoteIboxCredentialNamespace := IboxreplicaSpec_RemoteIboxCredentialNamespace spec;
     IboxreplicaSpec_RemoteCreatePVC := IboxreplicaSpec_RemoteCreatePVC spec;
     IboxreplicaSpec_RemotePVCNameSuffix := IboxreplicaSpec_RemotePVCNameSuffix spec;
     IboxreplicaSpec_RemotePVCName := IboxreplicaSpec_RemotePVCName spec;
     IboxreplicaSpec_RemotePVCNamespace := IboxreplicaSpec_RemotePVCNamespace spec;
     IboxreplicaSpec_RemoteNetworkSpace := IboxreplicaSpec_RemoteNetworkSpace spec;
     IboxreplicaSpec_RemotePoolName := IboxreplicaSpec_RemotePoolName spec;
     IboxreplicaSpec_RemotePVCKubeconfigSecretName := IboxreplicaSpec_RemotePVCKubeconfigSecretName spec;
     IboxreplicaSpec_RemotePVCKubeconfigSecretNamespace := IboxreplicaSpec_RemotePVCKubeconfigSecretNamespace spec |}.

(** A synchronous replica has no preference. *)
Definition prefer (spec : IboxreplicaSpec) : IboxreplicaSpec :=
  fill spec (if String.eqb (IboxreplicaSpec_ReplicationType spec) IboxreplicaReplicaTypeSYNC then None
             else IboxreplicaSpec_IsPreferred spec)
    (IboxreplicaSpec_BaseAction spec) (IboxreplicaSpec_SyncInterval spec) (IboxreplicaSpec_RpoValue spec)
    (IboxreplicaSpec_RemotePoolID spec).
Definition act (spec : IboxreplicaSpec) : IboxreplicaSpec :=
  fill spec (IboxreplicaSpec_IsPreferred spec)
    (if String.eqb (IboxreplicaSpec_BaseAction spec) "" then IboxreplicaBaseActionNew else IboxreplicaSpec_BaseAction spec)
    (IboxreplicaSpec_SyncInterval spec) (IboxreplicaSpec_RpoValue spec) (IboxreplicaSpec_RemotePoolID spec).
Definition schedule (spec : IboxreplicaSpec) : IboxreplicaSpec :=
  if String.eqb (IboxreplicaSpec_ReplicationType spec) IboxreplicaReplicaTypeASYNC
  then fill spec (IboxreplicaSpec_IsPreferred spec) (IboxreplicaSpec_BaseAction spec)
         (if (IboxreplicaSpec_SyncInterval spec =? 0)%Z then IboxreplicaSyncIntervalDefault else IboxreplicaSpec_SyncInterval spec)
         (if (IboxreplicaSpec_RpoValue spec =? 0)%Z then IboxreplicaRPOValueDefault else IboxreplicaSpec_RpoValue spec)
         (IboxreplicaSpec_RemotePoolID spec)
  else spec.
Definition target (spec : IboxreplicaSpec) (remotePoolID : Z) : IboxreplicaSpec :=
  fill spec (IboxreplicaSpec_IsPreferred spec) (IboxreplicaSpec_BaseAction spec) (IboxreplicaSpec_SyncInterval spec)
    (IboxreplicaSpec_RpoValue spec) remotePoolID.

Definition known_type (replicationType : string) : bool :=
  existsb (String.eqb replicationType)
    [IboxreplicaReplicaTypeACTIVE_ACTIVE; IboxreplicaReplicaTypeASYNC; IboxreplicaReplicaTypeSYNC].

Definition create_request (spec : IboxreplicaSpec) (localEntityID linkID : Z) : CreateReplicaRequest :=
  {| CreateReplicaRequest_IsPreferred := IboxreplicaSpec_IsPreferred spec;
     CreateReplicaRequest_SyncInterval := IboxreplicaSpec_SyncInterval spec;
     CreateReplicaRequest_Description := IboxreplicaSpec_Description spec;
     CreateReplicaRequest_EntityType := IboxreplicaSpec_EntityType spec;
     CreateReplicaRequest_RemoteEntityName := IboxreplicaSpec_RemoteEntityName spec;
     CreateReplicaRequest_LocalEntityID := localEntityID;
     CreateReplicaRequest_ReplicationType := IboxreplicaSpec_ReplicationType spec;
     CreateReplicaRequest_BaseAction := IboxreplicaSpec_BaseAction spec;
     CreateReplicaRequest_LinkID := linkID;
     CreateReplicaRequest_RpoValue := IboxreplicaSpec_RpoValue spec;
     CreateReplicaRequest_RemotePoolID := IboxreplicaSpec_RemotePoolID spec |}.

(** The last link to the remote system; it must be up and have a witness. *)
Definition choose_link (links : list Link) (name : string) : res Link :=
  match last (List.filter (fun l => String.eqb (Link_RemoteSystemName l) name) links) with
  | None => Err (EText ("could not find replication link " +:+ name))
  | Some link =>
      if (Link_ID link =? 0)%Z then Err (EText ("link ID was 0 for replication link " +:+ name))
      else if negb (String.eqb (Link_LinkState link) IboxreplicaLinkStateUp)
      then Err (EText ("replication link state " +:+ Link_LinkState link +:+ " was invalid for replication link " +:+ name))
      else if negb (String.eqb (Link_ResiliencyMode link) IboxreplicaLinkWitnessResiliencyMode)
      then Err (EText ("invalid replication link resiliency mode " +:+ Link_ResiliencyMode link
                       +:+ " for replication link " +:+ name))
      else Ok link
  end.

(** The name of the remote claim: by the remote volume, by the local claim, or as
    the user asked, when there is one entity. *)
Definition pvc_name (spec : IboxreplicaSpec) (remotePVName localPVCName : string) (single : bool) : string :=
  if single && negb (String.eqb (IboxreplicaSpec_RemotePVCName spec) "") then IboxreplicaSpec_RemotePVCName spec
  else if String.eqb localPVCName "" then remotePVName
  else if negb (String.eqb (IboxreplicaSpec_RemotePVCNameSuffix spec) "")
  then localPVCName +:+ IboxreplicaSpec_RemotePVCNameSuffix spec
  else if negb (String.eqb (IboxreplicaSpec_RemotePVCKubeconfigSecretName spec) "") then localPVCName
  else localPVCName +:+ "-remote".

(** ** Steps *)

Section controller.
Context {CU : Controllerutil} (url_Parse : string -> res (string * string)) (url_ParseRequestURI : string -> bool).
Implicit Types (replica : Iboxreplica).

Definition handleFinalizer (obj : Iboxreplica) : prog' (option error) := CustomResource.handleFinalizer finalizer obj.
Definition getClientService replica : prog' (res unit) :=
  CustomResource.getClientService url_Parse url_ParseRequestURI replica.

Definition getLocalEntityID replica : prog' (res Z) :=
  let spec := CR_Spec replica in
  let name := IboxreplicaSpec_LocalEntityName spec in
  if String.eqb (IboxreplicaSpec_EntityType spec) ReplicaEntityCG then
    try consistencyGroup <- array Local (GetConsistencyGroupByName name) catch err => report replica err ;;
    Ret (Ok (ConsistencyGroupInfo_ID consistencyGroup))
  else if String.eqb (IboxreplicaSpec_EntityType spec) ReplicaEntityVolume then
    try volume <- array Local (GetVolumeByName name) catch err => report replica err ;;
    Ret (Ok (Volume_ID volume))
  else if String.eqb (IboxreplicaSpec_EntityType spec) ReplicaEntityFilesystem then
    try fileSystem <- array Local (GetFileSystemByName name) catch err => report replica err ;;
    Ret (Ok (FileSystem_ID fileSystem))
  else report replica (EText ("error getting local entity type, unknown entity type in the CR "
                              +:+ IboxreplicaSpec_EntityType spec)).

Definition remote_client (spec : IboxreplicaSpec) : prog' (res unit) :=
  try remoteIboxCredential <- GetIboxCredentials (IboxreplicaSpec_RemoteIboxCredentialName spec)
      (IboxreplicaSpec_RemoteIboxCredentialNamespace spec) catch err => Ret (Err err) ;;
  on Local (NewClient url_Parse url_ParseRequestURI remoteIboxCredential).
Definition lookupTargetPoolID replica : prog' (res Z) :=
  let spec := CR_Spec replica in
  if String.eqb (IboxreplicaSpec_RemotePoolName spec) "" then Ret (Ok (IboxreplicaSpec_RemotePoolID spec))
  else if String.eqb (IboxreplicaSpec_RemoteIboxCredentialName spec) ""
  then Ret (Err (EText "RemotePoolName is specified, but RemoteIboxCredentialName is empty and is required"))
  else if String.eqb (IboxreplicaSpec_RemoteIboxCredentialNamespace spec) ""
  then Ret (Err (EText "RemotePoolName is specified, but RemoteIboxCredentialNamespace is empty and is required"))
  else
    try _remote <- remote_client spec catch err => Ret (Err err) ;;
    try remotePool <- array Remote (GetPoolByName (IboxreplicaSpec_RemotePoolName spec)) catch err => Ret (Err err) ;;
    Ret (Ok (PoolResult_ID remotePool)).

Definition validateLink replica : prog' (res Link) :=
  try links <- array_list Local GetLinks catch err => report replica err ;;
  match choose_link links (IboxreplicaSpec_LinkRemoteSystemName (CR_Spec replica)) with
  | Err err => report replica err
  | Ok link => Ret (Ok link)
  end.

(** The resource with the number of its target pool; the number is 0 when the
    pool is not found, which does not stop the creation. *)
Definition with_target replica : prog' Iboxreplica :=
  pool <- lookupTargetPoolID replica ;;
  match pool with
  | Ok id => Ret (with_spec replica (target (CR_Spec replica) id))
  | Err err => report_status (with_spec replica (target (CR_Spec replica) 0)) err
  end.

(** The new replica is recorded in the resource as it is now. *)
Definition record_replica replica (response : Replica) : prog' (res Iboxreplica) :=
  try replica' <- refresh replica catch err => report replica err ;;
  updated <- trigger (UpdateStatus (with_status replica' (MkCRStatus "created" (Replica_ID response)))) ;;
  Ret updated.

Definition createReplica replica : prog' (res Iboxreplica) :=
  let spec := CR_Spec replica in
  if negb (known_type (IboxreplicaSpec_ReplicationType spec))
  then report replica (EText ("error invalid ReplicationType in CR " +:+ IboxreplicaSpec_ReplicationType spec))
  else
    let spec := act (prefer spec) in
    let replica := with_spec replica spec in
    if negb (String.eqb (IboxreplicaSpec_BaseAction spec) IboxreplicaBaseActionNew)
    then report replica (EText ("error invalid base action in CR " +:+ IboxreplicaSpec_BaseAction spec))
    else
      let replica := with_spec replica (schedule spec) in
      try _cs <- getClientService replica catch err => report replica err ;;
      try localEntityID <- getLocalEntityID replica catch err => Ret (Err err) ;;
      try link <- validateLink replica catch err => Ret (Err err) ;;
      replica <- with_target replica ;;
      try replicas <- array_list Local GetReplicas catch err => report replica err ;;
      if existsb (fun r => (Replica_LocalEntityID r =? localEntityID)%Z) replicas
      then Ret (Ok replica)
      else
        try response <- array Local (CreateReplica (create_request (CR_Spec replica) localEntityID (Link_ID link))) catch err =>
          report replica err ;;
        record_replica replica response.

Definition deleteReplica replica : prog' (option error) :=
  service <- getClientService replica ;;
  match service with
  | Err err => Ret (Some err)
  | Ok _ => array Local (DeleteReplica (Status_ID (CR_Status replica)))
  end.

Definition updateIboxreplicaState replica : prog' (option error) :=
  service <- getClientService replica ;;
  match service with
  | Err err => Ret (Some err)
  | Ok _ =>
      rep <- array Local (GetReplica (Status_ID (CR_Status replica))) ;;
      match rep with
      | Err err => Ret (Some err)
      | Ok rep =>
          current <- refresh replica ;;
          match current with
          | Err err => Ret (Some err)
          | Ok replica =>
              updated <- trigger (UpdateStatus (with_status replica
                           (MkCRStatus (Replica_State rep) (Status_ID (CR_Status replica))))) ;;
              Ret (match updated with Ok _ => None | Err err => Some err end)
          end
      end
  end.

(** Volumes and claims of the remote entities, in turn. *)
Fixpoint create_claims (spec : IboxreplicaSpec) (single : bool) (remoteEntities : list EntityPair) : prog' (res unit) :=
  match remoteEntities with
  | [] => Ret (Ok tt)
  | remoteEntity :: rest =>
      let credential := (IboxreplicaSpec_RemoteIboxCredentialName spec, IboxreplicaSpec_RemoteIboxCredentialNamespace spec) in
      let alternate := (IboxreplicaSpec_RemotePVCKubeconfigSecretName spec,
                        IboxreplicaSpec_RemotePVCKubeconfigSecretNamespace spec) in
      try remotePV <- CreateRemotePV (LocalPV remoteEntity) (RemoteEntityID remoteEntity) (RemoteIPAddress remoteEntity)
          (IboxreplicaSpec_RemotePoolName spec) (IboxreplicaSpec_RemotePVCNameSuffix spec)
          (IboxreplicaSpec_RemoteNetworkSpace spec) credential alternate catch err => Ret (Err err) ;;
      match attributes (LocalPV remoteEntity) with
      | None => Panic
      | Some attrs =>
          let pvcNameToUse := pvc_name spec (PV_Name remotePV) (attrs.["csi.storage.k8s.io/pvc/name"]) single in
          try _pvc <- CreateRemotePVC remotePV (IboxreplicaSpec_RemotePVCNamespace spec) pvcNameToUse
              (fst alternate) (snd alternate) catch err => Ret (Err err) ;;
          create_claims spec single rest
      end
  end.
Definition createPVC replica : prog' (res unit) :=
  let spec := CR_Spec replica in
  try _cs <- getClientService replica catch err => report replica err ;;
  try _remote <- remote_client spec catch err => Ret (Err err) ;;
  try _localEntityID <- getLocalEntityID replica catch err => Ret (Err err) ;;
  try remoteEntities <- GetRemoteEntities (IboxreplicaSpec_EntityType spec) (IboxreplicaSpec_LocalEntityName spec)
      (IboxreplicaSpec_RemoteNetworkSpace spec) (IboxreplicaSpec_RemoteEntityName spec) catch err => Ret (Err err) ;;
  create_claims spec (Nat.eqb (length remoteEntities) 1) remoteEntities.

(** ** The handler *)

(** A resource without a number: the replica, then the claims, whose failure is
    only logged. *)
Definition handle_new replica : prog' (option error) :=
  created <- createReplica replica ;;
  match created with
  | Err err => Ret (Some err)
  | Ok replica =>
      match IboxreplicaSpec_RemoteCreatePVC (CR_Spec replica) with
      | Some true => sleep 3 ;;; createPVC replica ;;; Ret None
      | _ => Ret None
      end
  end.
Definition Reconcile (req : NamespacedName) : prog' (option error) :=
  answer <- trigger (GetCR req) ;;
  match answer with
  | Missing _ => Ret None
  | Failed err => Ret (Some err)
  | Found replica =>
      finalized <- handleFinalizer replica ;;
      match finalized with
      | Some err => Ret (Some err)
      | None =>
          if CR_Deleted replica then deleteReplica replica
          else if (Status_ID (CR_Status replica) =? 0)%Z then handle_new replica
          else updateIboxreplicaState replica
      end
  end.
End controller.
