(* ===== verification/Iboxcg.v ===== *)
(** The controller of the consistency group resource ([iboxcg/internal/controller]):
    a resource asks to add a volume to a group, or to remove it. Of a group that is
    replicated the replication is suspended meanwhile. *)
From S2P Require Import Prelude GoLib IboxTypes Csi KubeClient StorageCommon VolumeGroup CustomResource CreatePVC.
From stdpp Require Import base strings list gmap.
From Stdlib Require Import ZArith.

Local Open Scope string_scope.
Local Open Scope list_scope.

Definition IboxcgBaseActionAdd : string := "ADD".
Definition IboxcgBaseActionRemove : string := "REMOVE".
Definition finalizer : string := "infinidat.com/iboxcg".

Definition Iboxcg : Type := CR IboxcgSpec.
Local Abbreviation prog' := (prog (ccall IboxcgSpec)).

Definition with_action (spec : IboxcgSpec) (baseAction : string) : IboxcgSpec :=
  {| IboxcgSpec_Description := IboxcgSpec_Description spec;
     IboxcgSpec_LocalCGName := IboxcgSpec_LocalCGName spec;
     IboxcgSpec_LocalVolumeName := IboxcgSpec_LocalVolumeName spec;
     IboxcgSpec_BaseAction := baseAction;
     IboxcgSpec_RemoteIboxCredentialName := IboxcgSpec_RemoteIboxCredentialName spec;
     IboxcgSpec_RemoteIboxCredentialNamespace := IboxcgSpec_RemoteIboxCredentialNamespace spec;
     IboxcgSpec_RemoteCreatePVC := IboxcgSpec_RemoteCreatePVC spec;
     IboxcgSpec_RemotePVCNameSuffix := IboxcgSpec_RemotePVCNameSuffix spec;
     IboxcgSpec_RemotePVCName := IboxcgSpec_RemotePVCName spec;
     IboxcgSpec_RemotePVCNamespace := IboxcgSpec_RemotePVCNamespace spec;
     IboxcgSpec_RemoteNetworkSpace := IboxcgSpec_RemoteNetworkSpace spec;
     IboxcgSpec_RemotePoolName := IboxcgSpec_RemotePoolName spec;
     IboxcgSpec_RemotePVCKubeconfigSecretName := IboxcgSpec_RemotePVCKubeconfigSecretName spec;
     IboxcgSpec_RemotePVCKubeconfigSecretNamespace := IboxcgSpec_RemotePVCKubeconfigSecretNamespace spec |}.

(** The name of the remote claim. *)
Definition pvc_name (spec : IboxcgSpec) (remotePVName localPVCName : string) : string :=
  if negb (String.eqb (IboxcgSpec_RemotePVCName spec) "") then IboxcgSpec_RemotePVCName spec
  else if String.eqb localPVCName "" then remotePVName
  else if negb (String.eqb (IboxcgSpec_RemotePVCNameSuffix spec) "")
  then localPVCName +:+ IboxcgSpec_RemotePVCNameSuffix spec
  else localPVCName +:+ "-remote".

(** The other end of a volume in the pairs of a replica, by name. *)
Definition remote_name (replica : Replica) (localVolumeName : string) : string :=
  match List.find (fun v => String.eqb (Replica_EntityPairs_item_LocalEntity_item_Name (Replica_EntityPairs_item_LocalEntity v)) localVolumeName)
          (Replica_EntityPairs replica) with
  | Some v => Replica_EntityPairs_item_RemoteEntityName v
  | None => localVolumeName
  end.

Section controller.
Context {CU : Controllerutil} (url_Parse : string -> res (string * string)) (url_ParseRequestURI : string -> bool).
Implicit Types (cr : Iboxcg).

Definition handleFinalizer (obj : Iboxcg) : prog' (option error) := CustomResource.handleFinalizer finalizer obj.
Definition getClientService cr : prog' (res unit) := CustomResource.getClientService url_Parse url_ParseRequestURI cr.

(** ** The remote claim *)

Definition getLocalEntityID cr : prog' (Iboxcg * res Z) :=
  r <- array Local (GetVolumeByName (IboxcgSpec_LocalVolumeName (CR_Spec cr))) ;;
  match r with
  | Err err => cr <- report_status cr err ;; Ret (cr, Err err)
  | Ok volume => Ret (cr, Ok (Volume_ID volume))
  end.
Definition getRemoteEntities cr (replicaFound : bool) : prog' (res EntityPair) :=
  let name := IboxcgSpec_LocalVolumeName (CR_Spec cr) in
  try localPV <- GetLocalPV name catch err => Ret (Err err) ;;
  try remoteVolumeName <-
    (if replicaFound
     then try replica <- array Local (GetReplicaForCG (IboxcgSpec_LocalCGName (CR_Spec cr))) catch err => Ret (Err err) ;;
          Ret (Ok (remote_name replica name))
     else Ret (Ok name)) catch err => Ret (Err err) ;;
  try remoteVolume <- array Remote (GetVolumeByName remoteVolumeName) catch err => Ret (Err err) ;;
  Ret (Ok (MkEntityPair localPV (Volume_ID remoteVolume) "")).
Definition remote_client (spec : IboxcgSpec) : prog' (res unit) :=
  try remoteIboxCredential <- GetIboxCredentials (IboxcgSpec_RemoteIboxCredentialName spec)
      (IboxcgSpec_RemoteIboxCredentialNamespace spec) catch err => Ret (Err err) ;;
  on Local (NewClient url_Parse url_ParseRequestURI remoteIboxCredential).
Definition create_claim cr (replicaFound : bool) : prog' (res unit) :=
  let spec := CR_Spec cr in
  let credential := (IboxcgSpec_RemoteIboxCredentialName spec, IboxcgSpec_RemoteIboxCredentialNamespace spec) in
  let alternate := (IboxcgSpec_RemotePVCKubeconfigSecretName spec, IboxcgSpec_RemotePVCKubeconfigSecretNamespace spec) in
  try remoteEntity <- getRemoteEntities cr replicaFound catch err => Ret (Err err) ;;
  try remotePV <- CreateRemotePV (LocalPV remoteEntity) (RemoteEntityID remoteEntity) (RemoteIPAddress remoteEntity)
      (IboxcgSpec_RemotePoolName spec) (IboxcgSpec_RemotePVCNameSuffix spec) (IboxcgSpec_RemoteNetworkSpace spec)
      credential alternate catch err => Ret (Err err) ;;
  match attributes (LocalPV remoteEntity) with
  | None => Panic
  | Some attrs =>
      CreateRemotePVC remotePV (IboxcgSpec_RemotePVCNamespace spec)
        (pvc_name spec (PV_Name remotePV) (attrs.["csi.storage.k8s.io/pvc/name"])) (fst alternate) (snd alternate)
  end.
(** The resource as it is left; the error is the caller's to log. *)
Definition createPVC cr (replicaFound : bool) : prog' (Iboxcg * option error) :=
  service <- getClientService cr ;;
  match service with
  | Err err => cr <- report_status cr err ;; Ret (cr, Some err)
  | Ok _ =>
  remote <- remote_client (CR_Spec cr) ;;
  match remote with
  | Err err => Ret (cr, Some err)
  | Ok _ =>
  looked <- getLocalEntityID cr ;;
  match looked with
  | (cr, Err err) => Ret (cr, Some err)
  | (cr, Ok _) =>
      claimed <- create_claim cr replicaFound ;;
      Ret (cr, match claimed with Ok _ => None | Err err => Some err end)
  end end end.

(** ** Members *)

(** The replica of a group, if it has one. *)
Definition find_replica (name : string) : prog' (res (option Replica)) :=
  r <- array Local (GetReplicaForCG name) ;;
  Ret (match r with
       | Ok replica => Ok (Some replica)
       | Err err => if is_ErrNotFound err then Ok None else Err err
       end).

(** Waiting for the replica to be suspended; a failed check reads the number of
    the replica it has not got. *)
Fixpoint await_suspended (attempts : nat) (name : string) : prog' unit :=
  match attempts with
  | O => Ret tt
  | S attempts =>
      sleep 1 ;;;
      r <- array Local (GetReplicaForCG name) ;;
      match r with
      | Err _ => Panic
      | Ok replica =>
          if String.eqb (Replica_State replica) "SUSPENDED" then Ret tt
          else await_suspended attempts name
      end
  end.
Definition suspend (found : option Replica) (name : string) (cgMembers : list MemberInfo) : prog' (option error) :=
  match found with
  | Some replica =>
      if Nat.eqb (length cgMembers) 0 then Ret None
      else
        err <- array Local (SuspendReplica (Replica_ID replica)) ;;
        match err with
        | Some err => Ret (Some err)
        | None => await_suspended 20 name ;;; Ret None
        end
  | None => Ret None
  end.
(** A failure to resume is only logged. *)
Definition resume (replica : Replica) : prog' unit :=
  _err <- array Local (ResumeReplica (Replica_ID replica)) ;; Ret tt.

Definition has_member (cgMembers : list MemberInfo) (name : string) : bool :=
  existsb (fun m => String.eqb (MemberInfo_Name m) name) cgMembers.

Definition handleAddMember cr (localVolume : Volume) (localCG : ConsistencyGroupInfo) (cgMembers : list MemberInfo)
    : prog' (res Iboxcg) :=
  if has_member cgMembers (IboxcgSpec_LocalVolumeName (CR_Spec cr)) then Ret (Ok cr)
  else
    try found <- find_replica (ConsistencyGroupInfo_Name localCG) catch err => Ret (Err err) ;;
    suspended <- suspend found (ConsistencyGroupInfo_Name localCG) cgMembers ;;
    match suspended with
    | Some err => Ret (Err err)
    | None =>
        added <- array Local (AddMemberToCG (Volume_ID localVolume) (ConsistencyGroupInfo_ID localCG) (Volume_Name localVolume)) ;;
        match added with
        | Some err => Ret (Err err)
        | None =>
            (match found with
             | Some replica => if Nat.eqb (length cgMembers) 0 then Ret tt else resume replica
             | None => Ret tt
             end) ;;;
            match IboxcgSpec_RemoteCreatePVC (CR_Spec cr) with
            | Some true =>
                sleep 3 ;;;
                created <- createPVC cr (match found with Some _ => true | None => false end) ;;
                Ret (Ok (fst created))
            | _ => Ret (Ok cr)
            end
        end
    end.

(** A failure to remove is only logged. *)
Definition handleRemoveMember cr (localVolume : Volume) (localCG : ConsistencyGroupInfo) (cgMembers : list MemberInfo)
    : prog' (res Iboxcg) :=
  if negb (has_member cgMembers (IboxcgSpec_LocalVolumeName (CR_Spec cr))) then Ret (Ok cr)
  else
    try found <- find_replica (ConsistencyGroupInfo_Name localCG) catch err => Ret (Err err) ;;
    suspended <- suspend found (ConsistencyGroupInfo_Name localCG) cgMembers ;;
    match suspended with
    | Some err => Ret (Err err)
    | None =>
        _err <- array Local (RemoveMemberFromCG (ConsistencyGroupInfo_ID localCG) (Volume_ID localVolume)) ;;
        (match found with Some replica => resume replica | None => Ret tt end) ;;;
        Ret (Ok cr)
    end.

(** ** The handler *)

Definition change_member cr (localVolume : Volume) (localCG : ConsistencyGroupInfo) (cgMembers : list MemberInfo)
    : prog' (res Iboxcg) :=
  let action := IboxcgSpec_BaseAction (CR_Spec cr) in
  if String.eqb action IboxcgBaseActionAdd then
    try cr <- handleAddMember cr localVolume localCG cgMembers catch err => report cr err ;; Ret (Ok cr)
  else if String.eqb action IboxcgBaseActionRemove then
    try cr <- handleRemoveMember cr localVolume localCG cgMembers catch err => report cr err ;; Ret (Ok cr)
  else report cr (EText ("error invalid base action in CR " +:+ action)).

(** Every resource that was carried out gets the number 13. *)
Definition record_created cr : prog' (res unit) :=
  try cr <- refresh cr catch err => report cr err ;;
  updated <- trigger (UpdateStatus (with_status cr (MkCRStatus "created" 13))) ;;
  Ret (match updated with Ok _ => Ok tt | Err err => Err err end).

Definition handleNewCR cr : prog' (res unit) :=
  try cr <- refresh cr catch err => report cr err ;;
  if String.eqb (Status_State (CR_Status cr)) "completed" then Ret (Ok tt)
  else
    let spec := CR_Spec cr in
    try _cs <- getClientService cr catch err => report cr err ;;
    try localVolume <- array Local (GetVolumeByName (IboxcgSpec_LocalVolumeName spec)) catch err => report cr err ;;
    try localCG <- array Local (GetConsistencyGroupByName (IboxcgSpec_LocalCGName spec)) catch err => report cr err ;;
    let action := if String.eqb (IboxcgSpec_BaseAction spec) "" then IboxcgBaseActionAdd else IboxcgSpec_BaseAction spec in
    let cr := with_spec cr (with_action spec action) in
    try cgMembers <- array_list Local (GetMembersByCGID (ConsistencyGroupInfo_ID localCG)) catch err => Ret (Err err) ;;
    try cr <- change_member cr localVolume localCG cgMembers catch err => Ret (Err err) ;;
    record_created cr.

Definition updateIboxcgState cr : prog' (res unit) :=
  try cr <- refresh cr catch err => Ret (Err err) ;;
  updated <- trigger (UpdateStatus (with_status cr (MkCRStatus "completed" (Status_ID (CR_Status cr))))) ;;
  Ret (match updated with Ok _ => Ok tt | Err err => Err err end).

Definition Reconcile (req : NamespacedName) : prog' (res unit) :=
  answer <- trigger (GetCR req) ;;
  match answer with
  | Missing _ => Ret (Ok tt)
  | Failed err => Ret (Err err)
  | Found cr =>
      finalized <- handleFinalizer cr ;;
      match finalized with
      | Some err => Ret (Err err)
      | None =>
          if CR_Deleted cr then Ret (Ok tt)
          else if (Status_ID (CR_Status cr) =? 0)%Z then handleNewCR cr
          else updateIboxcgState cr
      end
  end.
End controller.
