(* ===== verification/Iboxpromote.v ===== *)
(** The controller of the promotion resource ([iboxpromote/internal/controller]):
    a resource asks to turn a snapshot into a volume of its own. *)
From S2P Require Import Prelude GoLib IboxTypes Csi KubeClient StorageCommon VolumeGroup CustomResource.
From stdpp Require Import base strings list gmap.
From Stdlib Require Import ZArith.

Local Open Scope string_scope.
Local Open Scope list_scope.

Definition IboxpromoteBaseActionNew : string := "NEW".
Definition finalizer : string := "infinidat.com/iboxpromote".

Record IboxpromoteSpec := MkIboxpromoteSpec {
  IboxpromoteSpec_Description : string;
  IboxpromoteSpec_EntityType : string;
  IboxpromoteSpec_EntityName : string;
  IboxpromoteSpec_EntityNamespace : string;
  IboxpromoteSpec_BaseAction : string
}.
Definition Iboxpromote : Type := CR IboxpromoteSpec.
Local Abbreviation prog' := (prog (ccall IboxpromoteSpec)).

Definition with_action (spec : IboxpromoteSpec) (baseAction : string) : IboxpromoteSpec :=
  {| IboxpromoteSpec_Description := IboxpromoteSpec_Description spec;
     IboxpromoteSpec_EntityType := IboxpromoteSpec_EntityType spec;
     IboxpromoteSpec_EntityName := IboxpromoteSpec_EntityName spec;
     IboxpromoteSpec_EntityNamespace := IboxpromoteSpec_EntityNamespace spec;
     IboxpromoteSpec_BaseAction := baseAction |}.

(** The number in the handle of a snapshot, [number$$protocol]. *)
Definition handle_number (snapshotHandle : string) : res Z :=
  match Split snapshotHandle "$$" with
  | [volumeIDString; _protocol] => Atoi volumeIDString
  | _ => Err (EText "error snapshot Handle is not formatted correctly")
  end.

Section controller.
Context {CU : Controllerutil} (url_Parse : string -> res (string * string)) (url_ParseRequestURI : string -> bool).
Implicit Types (promote : Iboxpromote).

Definition handleFinalizer (obj : Iboxpromote) : prog' (option error) := CustomResource.handleFinalizer finalizer obj.
Definition getClientService promote : prog' (res unit) :=
  CustomResource.getClientService url_Parse url_ParseRequestURI promote.

Definition snapshot_client : prog' (res unit) :=
  config <- cluster Local InClusterConfig ;;
  match config with
  | Some err => Ret (Err (EText ("unable to load in-cluster config: " +:+ Error err)))
  | None =>
      client <- cluster Local SnapshotClient ;;
      Ret (match client with Some err => Err err | None => Ok tt end)
  end.
(** The handle of a volume snapshot, by way of its content; neither has a status
    until it is reconciled, and the status is read without a check. *)
Definition snapshot_handle (namespace name : string) : prog' (res string) :=
  try volumeSnapshot <- cluster Local (VolumeSnapshotsGet namespace name) catch err => Ret (Err err) ;;
  match volumeSnapshot with
  | None => Panic
  | Some None => Ret (Err (EText "error volumeSnapshotContentName is nil"))
  | Some (Some vscName) =>
      try volumeSnapshotContent <- cluster Local (VolumeSnapshotContentsGet vscName) catch err => Ret (Err err) ;;
      match volumeSnapshotContent with
      | None => Panic
      | Some None => Ret (Err (EText "error volumeSnapshotContentName snapshotHandle is nil"))
      | Some (Some snapshotHandle) => Ret (Ok snapshotHandle)
      end
  end.
Definition lookupEntityByVolumeSnapshotName promoteCR : prog' (res Volume) :=
  let spec := CR_Spec promoteCR in
  try _client <- snapshot_client catch err => Ret (Err err) ;;
  try handle <- snapshot_handle (IboxpromoteSpec_EntityNamespace spec) (IboxpromoteSpec_EntityName spec) catch err =>
    Ret (Err err) ;;
  match handle_number handle with
  | Err err => Ret (Err err)
  | Ok volumeID => array Local (GetVolume volumeID)
  end.

Definition find_entity promote : prog' (res Volume) :=
  let spec := CR_Spec promote in
  if String.eqb (IboxpromoteSpec_EntityType spec) "KUBE_SNAPSHOT" then lookupEntityByVolumeSnapshotName promote
  else if String.eqb (IboxpromoteSpec_EntityType spec) "SNAPSHOT"
  then array Local (GetVolumeByName (IboxpromoteSpec_EntityName spec))
  else Ret (Err (EText ("error getting entity type, unknown entity type in the CR " +:+ IboxpromoteSpec_EntityType spec))).

(** The resource as it is now gets the number of the promoted volume. *)
Definition record_promoted promote (response : Volume) : prog' (res unit) :=
  try promote' <- refresh promote catch err => report promote err ;;
  updated <- trigger (UpdateStatus (with_status promote' (MkCRStatus "created" (Volume_ID response)))) ;;
  Ret (match updated with Ok _ => Ok tt | Err err => Err err end).

(** A volume that is no snapshot is left alone, and the resource without a
    number. *)
Definition createPromote promote : prog' (res unit) :=
  let spec := CR_Spec promote in
  let action := if String.eqb (IboxpromoteSpec_BaseAction spec) "" then IboxpromoteBaseActionNew
                else IboxpromoteSpec_BaseAction spec in
  let promote := with_spec promote (with_action spec action) in
  if negb (String.eqb action IboxpromoteBaseActionNew)
  then report promote (EText ("error invalid base action in CR " +:+ action))
  else
    try _cs <- getClientService promote catch err => report promote err ;;
    try volume <- find_entity promote catch err => report promote err ;;
    if String.eqb (Volume_Type volume) "MASTER" then Ret (Ok tt)
    else
      try response <- array Local (PromoteSnapshot (Volume_ID volume)) catch err => report promote err ;;
      record_promoted promote response.

Definition updateIboxpromoteState promote : prog' (res unit) :=
  try promote <- refresh promote catch err => Ret (Err err) ;;
  updated <- trigger (UpdateStatus (with_status promote (MkCRStatus "completed" (Status_ID (CR_Status promote))))) ;;
  Ret (match updated with Ok _ => Ok tt | Err err => Err err end).

Definition Reconcile (req : NamespacedName) : prog' (res unit) :=
  answer <- trigger (GetCR req) ;;
  match answer with
  | Missing _ => Ret (Ok tt)
  | Failed err => Ret (Err err)
  | Found promote =>
      finalized <- handleFinalizer promote ;;
      match finalized with
      | Some err => Ret (Err err)
      | None =>
          if CR_Deleted promote then Ret (Ok tt)
          else if (Status_ID (CR_Status promote) =? 0)%Z then createPromote promote
          else updateIboxpromoteState promote
      end
  end.
End controller.
