(* ===== verification/Worlds.v ===== *)
(** Programs in a world that answers them: histories of a world, what a program
    ensures of it, and repeated runs. The world may fail to serve a call; each
    failure is counted. *)
From stdpp Require Import base list.
From S2P Require Import Prelude Traces.
From Stdlib Require Import ZArith Lia.

Local Open Scope list_scope.

Section worlds.
(** [answers w e n w']: in the world [w] the call and answer [e] are possible, are
    [n] failures and lead to [w']. *)
Context {E : Type -> Type} {W : Type} (answers : W -> evt E -> nat -> W -> Prop).

Inductive history : W -> list (evt E) -> nat -> W -> Prop :=
| history_nil w : history w [] 0 w
| history_cons w e n w1 t m w2 :
    answers w e n w1 -> history w1 t m w2 -> history w (e :: t) (n + m) w2.

Lemma history_step w e n w1 t m k w2 :
  answers w e n w1 -> history w1 t m w2 -> k = n + m -> history w (e :: t) k w2.
Proof. intros He Ht ->. by econstructor. Qed.
Lemma history_nil_inv w n w' : history w [] n w' -> n = 0 /\ w' = w.
Proof. by inversion 1. Qed.
Lemma history_cons_inv w e t n w' :
  history w (e :: t) n w' -> exists k w1 m, answers w e k w1 /\ history w1 t m w' /\ n = k + m.
Proof. inversion 1; subst. by repeat eexists. Qed.
Lemma history_app w t t' n w' :
  history w (t ++ t') n w' <-> exists k w1 m, history w t k w1 /\ history w1 t' m w' /\ n = k + m.
Proof.
  revert w n. induction t as [|e t IH]; intros w n; cbn.
  - split; [|by intros (k & w1 & m & [-> ->]%history_nil_inv & H & ->)].
    intros H. exists 0, w, n. by repeat constructor.
  - split.
    + intros (k & w1 & m & He & H & ->)%history_cons_inv.
      apply IH in H as (k' & w2 & m' & H1 & H2 & ->).
      exists (k + k'), w2, m'. split; [by econstructor|]. split; [done|lia].
    + intros (k & w1 & m & (k' & w2 & m' & He & H1 & ->)%history_cons_inv & H2 & ->).
      replace (k' + m' + m) with (k' + (m' + m)) by lia. econstructor; [done|].
      apply IH. by exists m', w1, m.
Qed.

(** Every run of [p] in the world [w] ends as [Q] says of the failures, the
    outcome and the world. *)
Definition ensures {A} (w : W) (p : prog E A) (Q : nat -> outcome A -> W -> Prop) : Prop :=
  forall t o n w', runs p t o -> history w t n w' -> Q n o w'.

Section rules.
Context {A : Type}.
Implicit Types (Q : nat -> outcome A -> W -> Prop).

Lemma ensures_ret w (a : A) Q : Q 0 (Done a) w -> ensures w (Ret a) Q.
Proof. intros HQ t o n w' [-> ->] [-> ->]%history_nil_inv. done. Qed.
Lemma ensures_panic w Q : Q 0 Panicked w -> ensures w Panic Q.
Proof. intros HQ t o n w' [-> ->] [-> ->]%history_nil_inv. done. Qed.
Lemma ensures_mono w (p : prog E A) Q Q' :
  ensures w p Q -> (forall n o w', Q n o w' -> Q' n o w') -> ensures w p Q'.
Proof. intros Hp HQ t o n w' Ht Hw. eauto. Qed.
Lemma ensures_bind {B} w (p : prog E B) (f : B -> prog E A) Q :
  ensures w p (fun n o w' => match o with
                             | Done b => ensures w' (f b) (fun m => Q (n + m))
                             | Panicked => Q n Panicked w'
                             | Exhausted => Q n Exhausted w'
                             end) ->
  ensures w (bind p f) Q.
Proof.
  intros Hp t o n w' Ht Hw.
  destruct (runs_bind_inv _ _ _ _ Ht) as [(b & t1 & t2 & -> & H1 & H2)|[[-> H1]|[-> H1]]].
  - apply history_app in Hw as (k & w1 & m & Hw1 & Hw2 & ->).
    exact (Hp _ _ _ _ H1 Hw1 _ _ _ _ H2 Hw2).
  - exact (Hp _ _ _ _ H1 Hw).
  - exact (Hp _ _ _ _ H1 Hw).
Qed.
Lemma ensures_vis {X} w (c : E X) (k : X -> prog E A) Q :
  (forall x n w1, answers w (Evt c x) n w1 -> ensures w1 (k x) (fun m => Q (n + m))) ->
  ensures w (Vis c k) Q.
Proof.
  intros Hk t o n w' (x & t' & -> & Ht) (i & w1 & m & Hx & Hw & ->)%history_cons_inv. by eapply Hk.
Qed.
Lemma ensures_call {X} w (c : E X) (f : X -> prog E A) Q :
  (forall x n w1, answers w (Evt c x) n w1 -> ensures w1 (f x) (fun m => Q (n + m))) ->
  ensures w (bind (trigger c) f) Q.
Proof. apply ensures_vis. Qed.
End rules.

(** An invariant of every call a program makes. *)
Lemma ensures_every {A} (P : forall X, E X -> Prop) (I : W -> Prop) (p : prog E A) w :
  (forall X (c : E X) x w n w', P X c -> answers w (Evt c x) n w' -> I w -> I w') ->
  every P p -> I w -> ensures w p (fun _ _ w' => I w').
Proof.
  intros HI. revert w. induction p as [a| | |X c k IH]; cbn; intros w Hp Hw.
  1-3: by intros t o n w' [-> ->] [-> ->]%history_nil_inv.
  destruct Hp as [Hc Hk]. apply ensures_vis. intros x n w1 Hx. eapply ensures_mono; [apply IH; eauto|done].
Qed.

Lemma ensures_bind_every {A B} (P : forall X, E X -> Prop) (I : W -> Prop) w (p : prog E A) (f : A -> prog E B) :
  (forall X (c : E X) x w n w', P X c -> answers w (Evt c x) n w' -> I w -> I w') ->
  I w -> every P p -> (forall a w', I w' -> ensures w' (f a) (fun _ _ v => I v)) ->
  ensures w (bind p f) (fun _ _ v => I v).
Proof.
  intros HI Hw Hp Hf. apply ensures_bind. eapply ensures_mono; [by eapply ensures_every|].
  intros n [a| |] w' Hw'; [by apply Hf|done..].
Qed.

(** [rounds w p k n w']: [k] runs of [p], one after the other, with [n] failures
    in all. *)
Inductive rounds {A} (p : prog E A) : W -> nat -> nat -> W -> Prop :=
| rounds_0 w : rounds p w 0 0 w
| rounds_S w t o n w1 k m w2 :
    runs p t o -> history w t n w1 -> rounds p w1 k m w2 -> rounds p w (S k) (n + m) w2.

Lemma rounds_step {A} (p : prog E A) w t o n w1 k m j w2 :
  runs p t o -> history w t n w1 -> rounds p w1 k m w2 -> j = n + m -> rounds p w (S k) j w2.
Proof. intros Ht Hw Hr ->. by econstructor. Qed.

Lemma rounds_invariant {A} (p : prog E A) (I : W -> Prop) :
  (forall w, I w -> ensures w p (fun _ _ w' => I w')) ->
  forall w k n w', rounds p w k n w' -> I w -> I w'.
Proof.
  intros HI w k n w' H. induction H as [w|w t o n w1 k m w2 Ht Hw _ IH]; [done|].
  intros Hi. exact (IH (HI _ Hi _ _ _ _ Ht Hw)).
Qed.

(** When a run without failures reaches the goal and no run leaves it, the goal is
    reached once there were more runs than failures. *)
Lemma rounds_reach {A} (p : prog E A) (I G : W -> Prop) :
  (forall w, I w -> ensures w p (fun n _ w' => I w' /\ (G w -> G w') /\ (G w' \/ 1 <= n))) ->
  forall w k n w', rounds p w k n w' -> I w -> (G w \/ n < k) -> G w'.
Proof.
  intros HI w k n w' H. induction H as [w|w t o n w1 k m w2 Ht Hw _ IH]; intros Hi [Hg|Hn].
  - done.
  - lia.
  - destruct (HI _ Hi _ _ _ _ Ht Hw) as (Hi1 & Hg1 & _). auto.
  - destruct (HI _ Hi _ _ _ _ Ht Hw) as (Hi1 & _ & [Hg1|Hn1]); [auto|].
    apply IH; [done|]. right. lia.
Qed.
End worlds.
