(* ===== verification/IboxreplicaProofs.v ===== *)
(** The replica resource: what its controller does to the array and to the
    resource, over any sequence of reconciliations. *)
From S2P Require Import Prelude GoLib IboxTypes Traces Csi KubeClient StorageCommon VolumeGroup CustomResource CreatePVC Iboxreplica Worlds.
From stdpp Require Import base strings list gmap.
From Stdlib Require Import ZArith Lia.

Local Open Scope string_scope.
Local Open Scope list_scope.

Abbreviation cr_trace := (list (evt (ccall IboxreplicaSpec))).

(** ** The cluster and the array *)

Record world := MkWorld {
  w_cr : Iboxreplica;
  w_replicas : list Replica
}.

(** An answer: a value as the world has it, or an error, which is a failure. *)
Definition served {X} (n : nat) (a : res X) (P : X -> Prop) : Prop :=
  match a with Ok x => n = 0 /\ P x | Err _ => n = 1 end.
Definition served_list {X} (n : nat) (a : slice X) (P : list X -> Prop) : Prop :=
  match snd a with None => n = 0 /\ P (fst a) | Some _ => n = 1 end.
Definition acked (n : nat) (a : option error) : Prop :=
  match a with None => n = 0 | Some _ => n = 1 end.

(** The version of an object no longer is the one the server has. *)
Definition stale (obj cr : Iboxreplica) : Prop := CR_ResourceVersion obj <> CR_ResourceVersion cr.
(** The server's object but for its version and status. *)
Definition same_request (cr cr' : Iboxreplica) : Prop :=
  CR_Spec cr' = CR_Spec cr /\ CR_Annotations cr' = CR_Annotations cr /\ CR_Deleted cr' = CR_Deleted cr.
Definition made (entity : Z) (w w' : world) : Prop :=
  w_cr w' = w_cr w /\ exists r, w_replicas w' = r :: w_replicas w /\ Replica_LocalEntityID r = entity.
Definition unmade (id : Z) (w w' : world) : Prop :=
  w_cr w' = w_cr w /\ w_replicas w' = List.filter (fun r => negb (Replica_ID r =? id)%Z) (w_replicas w).

Section world.
Context {CU : Controllerutil} (url_Parse : string -> res (string * string)) (url_ParseRequestURI : string -> bool).
(** The request, and the number of the entity it names. *)
Context (spec : IboxreplicaSpec) (annotations : gmap string string) (entity : Z).

(** The array: the entity is found by its name, the link is up; replicas are
    listed as they are. Of a creation or a deletion that fails it is not known
    whether it was carried out. *)
Definition array_answers (w : world) {X} (i : ibox X) : X -> nat -> world -> Prop :=
  match i in ibox X return X -> nat -> world -> Prop with
  | GetConsistencyGroupByName name => fun a n w' => w' = w /\ served n a (fun cg =>
      name = IboxreplicaSpec_LocalEntityName spec -> ConsistencyGroupInfo_ID cg = entity)
  | GetVolumeByName name => fun a n w' => w' = w /\ served n a (fun v =>
      name = IboxreplicaSpec_LocalEntityName spec -> Volume_ID v = entity)
  | GetFileSystemByName name => fun a n w' => w' = w /\ served n a (fun fs =>
      name = IboxreplicaSpec_LocalEntityName spec -> FileSystem_ID fs = entity)
  | GetLinks => fun a n w' => w' = w /\ served_list n a (fun links =>
      is_ok (choose_link links (IboxreplicaSpec_LinkRemoteSystemName spec)) = true)
  | GetReplicas => fun a n w' => w' = w /\ served_list n a (fun l => l = w_replicas w)
  | GetReplica _ => fun a n w' => w' = w /\ served n a (fun _ => True)
  | CreateReplica req => fun a n w' =>
      match a with
      | Ok r => n = 0 /\ made (CreateReplicaRequest_LocalEntityID req) w w'
      | Err _ => n = 1 /\ (w' = w \/ made (CreateReplicaRequest_LocalEntityID req) w w')
      end
  | DeleteReplica id => fun a n w' =>
      match a with
      | None => n = 0 /\ unmade id w w'
      | Some _ => n = 1 /\ (w' = w \/ unmade id w w')
      end
  | _ => fun _ n w' => w' = w /\ n = 0
  end.

(** The cluster: its secrets lead to an array. *)
Definition cluster_answers (w : world) {X} (k : kube X) : X -> nat -> world -> Prop :=
  match k in kube X return X -> nat -> world -> Prop with
  | BuildClient => fun a n w' => w' = w /\ acked n a
  | SecretsGet _ _ => fun a n w' => w' = w /\ served n a (fun s =>
      NewClient url_Parse url_ParseRequestURI (secret_map s) = Ret (Ok tt))
  | _ => fun _ n w' => w' = w /\ n = 0
  end.

(** The resource: an update is refused when the object's version is not the
    current one, which is no failure. *)
Definition answers (w : world) (e : evt (ccall IboxreplicaSpec)) (n : nat) (w' : world) : Prop :=
  match e with
  | Evt c x =>
      match c in ccall _ X return X -> Prop with
      | Array Local i => fun a => array_answers w i a n w'
      | Cluster Local k => fun a => cluster_answers w k a n w'
      | GetCR _ => fun a => w' = w /\ match a with
                                      | Found cr => n = 0 /\ cr = w_cr w
                                      | Missing _ => False
                                      | Failed _ => n = 1
                                      end
      | UpdateCR obj => fun a =>
          match a with
          | None => n = 0 /\ ~ stale obj (w_cr w) /\ same_request (w_cr w) (w_cr w') /\
                    CR_Status (w_cr w') = CR_Status (w_cr w) /\ w_replicas w' = w_replicas w
          | Some _ => w' = w /\ (n = 1 \/ n = 0 /\ stale obj (w_cr w))
          end
      | UpdateStatus obj => fun a =>
          match a with
          | Ok _ => n = 0 /\ ~ stale obj (w_cr w) /\ same_request (w_cr w) (w_cr w') /\
                    CR_Status (w_cr w') = CR_Status obj /\ w_replicas w' = w_replicas w
          | Err _ => w' = w /\ (n = 1 \/ n = 0 /\ stale obj (w_cr w))
          end
      | _ => fun _ => w' = w /\ n = 0
      end x
  end.

Definition replicated (w : world) : Prop :=
  exists r, r ∈ w_replicas w /\ Replica_LocalEntityID r = entity.
Definition requested (w : world) : Prop :=
  CR_Spec (w_cr w) = spec /\ CR_Annotations (w_cr w) = annotations /\ CR_Deleted (w_cr w) = false.
(** A resource with a number has its replica. *)
Definition consistent (w : world) : Prop :=
  requested w /\ (Status_ID (CR_Status (w_cr w)) <> 0%Z -> replicated w).

(** A request that can be served. *)
Record acceptable : Prop := {
  acceptable_type : known_type (IboxreplicaSpec_ReplicationType spec) = true;
  acceptable_action : IboxreplicaSpec_BaseAction spec = "" \/ IboxreplicaSpec_BaseAction spec = IboxreplicaBaseActionNew;
  acceptable_entity : IboxreplicaSpec_EntityType spec ∈ [ReplicaEntityCG; ReplicaEntityVolume; ReplicaEntityFilesystem];
  acceptable_secret : annotations.[PVCAnnotationSecretName] <> "" /\ annotations.[PVCAnnotationSecretNamespace] <> ""
}.
End world.

(** ** What every call keeps *)

Section facts.
Context {CU : Controllerutil} (url_Parse : string -> res (string * string)) (url_ParseRequestURI : string -> bool).
Context (spec : IboxreplicaSpec) (annotations : gmap string string) (entity : Z).
Local Abbreviation answers' := (answers url_Parse url_ParseRequestURI spec entity).
Local Abbreviation requested' := (requested spec annotations).
Local Abbreviation ensures' := (ensures answers').
Implicit Types (w : world) (cr : Iboxreplica).

Lemma answers_requested {X} (c : ccall IboxreplicaSpec X) x w n w' :
  answers' w (Evt c x) n w' -> requested' w -> requested' w'.
Proof.
  unfold requested, same_request. intros H Hr.
  destruct c as [X [] i|X [] k|X o|key|obj|obj]; cbn in H; try (by destruct H as [-> _]).
  - destruct i; cbn in H; try (by destruct H as [-> _]); unfold made, unmade in H.
    all: destruct x; try (by destruct H as (_ & -> & _)); by destruct H as (_ & [->|(-> & _)]).
  - destruct k; cbn in H; by destruct H as [-> _].
  - destruct x as [err|]; [by destruct H as [-> _]|]. by destruct H as (_ & _ & (-> & -> & ->) & _).
  - destruct x as [cr|err]; [|by destruct H as [-> _]]. by destruct H as (_ & _ & (-> & -> & ->) & _).
Qed.

(** No call but a deletion takes a replica away. *)
Definition no_deletion {X} (c : ccall IboxreplicaSpec X) : Prop :=
  match c with Array Local i => match i with DeleteReplica _ => False | _ => True end | _ => True end.
Lemma answers_replicated {X} (c : ccall IboxreplicaSpec X) x w n w' :
  no_deletion c -> answers' w (Evt c x) n w' -> replicated entity w -> replicated entity w'.
Proof.
  unfold replicated. intros Hc H (r & Hr & He).
  assert (Hsub : forall r, r ∈ w_replicas w -> r ∈ w_replicas w'); [|by eauto]. clear r Hr He. intros r Hr.
  destruct c as [X [] i|X [] k|X o|key|obj|obj]; cbn in H; try (by destruct H as [-> _]).
  - destruct i; cbn in H; try done; try (by destruct H as [-> _]). unfold made in H.
    destruct x; destruct H as (_ & H); [|destruct H as [->|H]; [done|]];
      destruct H as (_ & r' & -> & _); by apply elem_of_cons; right.
  - destruct k; cbn in H; by destruct H as [-> _].
  - destruct x as [err|]; [by destruct H as [-> _]|]. by destruct H as (_ & _ & _ & _ & ->).
  - destruct x as [cr|err]; [|by destruct H as [-> _]]. by destruct H as (_ & _ & _ & _ & ->).
Qed.

(** The replica is there, the request is the one of the beginning. *)
Definition settled w : Prop := requested' w /\ replicated entity w.
Lemma settled_every {A} (p : prog (ccall IboxreplicaSpec) A) w :
  every (@no_deletion) p -> settled w -> ensures' w p (fun _ _ w' => settled w').
Proof.
  intros Hp Hw. apply (ensures_every _ (@no_deletion)); [|done..].
  intros X c x v n v' Hc H [Hr Hs]. split; [by eapply answers_requested|by eapply answers_replicated].
Qed.

(** ** One reconciliation of a request without a number *)

(** Still without a number. *)
Definition pending w : Prop := requested' w /\ Status_ID (CR_Status (w_cr w)) = 0%Z.

(** Behind [k] failures: the replica is there, or there was a failure and the
    handler gave up. *)
Definition attempted {A} (k n : nat) (o : outcome (res A)) w : Prop :=
  settled w \/ (pending w /\ 1 <= k + n /\ forall a, o <> Done (Ok a)).


(** A step that may fail: what it answers, or a failure. *)
Definition step_ok {A} (P : A -> Prop) (n : nat) (o : outcome (res A)) w : Prop :=
  pending w /\ match o with Done (Ok a) => P a | Done (Err _) => 1 <= n | _ => False end.

Lemma ensures_attempted {A} k n w (p : prog (ccall IboxreplicaSpec) (res A)) :
  ensures' w p (attempted (k + n)) -> ensures' w p (fun m => attempted k (n + m)).
Proof. intros H. eapply ensures_mono; [exact H|]. intros m o w'. unfold attempted. by rewrite Nat.add_assoc. Qed.

Lemma attempted_call {X A} k w (c : ccall IboxreplicaSpec X) (f : X -> prog (ccall IboxreplicaSpec) (res A)) :
  (forall x n w1, answers' w (Evt c x) n w1 -> ensures' w1 (f x) (attempted (k + n))) ->
  ensures' w (bind (trigger c) f) (attempted k).
Proof. intros H. apply ensures_call. intros x n w1 Hx. by apply ensures_attempted, H. Qed.

Lemma attempted_try {A B} (P : A -> Prop) k w p (f : A -> prog (ccall IboxreplicaSpec) (res B)) h :
  ensures' w p (step_ok P) ->
  (forall a n w1, pending w1 -> P a -> ensures' w1 (f a) (attempted (k + n))) ->
  (forall err n w1, pending w1 -> 1 <= n -> ensures' w1 (h err) (attempted (k + n))) ->
  ensures' w (bind p (fun r => match r with Ok a => f a | Err err => h err end)) (attempted k).
Proof.
  intros Hp Hf Hh. apply ensures_bind. eapply ensures_mono; [exact Hp|].
  intros n o w1 [Hw Ho]. destruct o as [[a|err]| |]; [..|done|done]; apply ensures_attempted; auto.
Qed.

Lemma attempted_err {A} k w err : pending w -> 1 <= k -> ensures' w (Ret (Err err) : prog _ (res A)) (attempted k).
Proof. intros Hw Hk. apply ensures_ret. right. split; [done|]. split; [lia|done]. Qed.

Lemma ensures_report_status w cr err :
  pending w -> ensures' w (report_status cr err) (fun _ o w' => pending w' /\ exists cr', o = Done cr').
Proof.
  intros [Hr Hs]. apply ensures_call. intros a n w1 Ha. apply ensures_ret.
  split; [|by eexists]. split; [by eapply answers_requested|].
  cbn in Ha. destruct a; [by destruct Ha as (_ & _ & _ & -> & _)|by destruct Ha as [-> _]].
Qed.
Lemma ensures_report {A} w cr err (Q : nat -> outcome (res A) -> world -> Prop) :
  pending w -> (forall n w', pending w' -> Q n (Done (Err err)) w') -> ensures' w (report cr err) Q.
Proof.
  intros Hw HQ. apply ensures_bind. eapply ensures_mono; [by apply ensures_report_status|].
  intros n o w1 [Hw1 [cr' ->]]. apply ensures_ret. auto.
Qed.
Lemma attempted_report {A} k w cr err :
  pending w -> 1 <= k -> ensures' w (report cr err : prog _ (res A)) (attempted k).
Proof. intros Hw Hk. apply ensures_report; [done|]. intros n w' Hw'. right. split; [done|]. split; [lia|done]. Qed.

(** Calls of the world that answer as [step_ok]. *)
Lemma step_served {X} (i : ibox (res X)) (P : X -> Prop) w (f : X -> res Z) g Q :
  pending w ->
  (forall a n w1, array_answers spec entity w i a n w1 -> w1 = w /\ served n a P) ->
  (forall x, P x -> exists z, f x = Ok z /\ Q z) ->
  ensures' w (bind (array Local i) (fun r => match r with Ok x => Ret (f x) | Err err => report g err end)) (step_ok Q).
Proof.
  intros Hw Hi Hf. apply ensures_call. intros a n w1 Ha. apply Hi in Ha as [-> Ha].
  destruct a as [x|err]; cbn in Ha.
  - destruct Ha as [-> Hx]. destruct (Hf x Hx) as (z & -> & Hz). by apply ensures_ret.
  - subst n. apply ensures_report; [done|]. intros m w' Hw'. split; [done|lia].
Qed.

Context (Hok : acceptable spec annotations).

Lemma ensures_getLocalEntityID w cr :
  pending w -> IboxreplicaSpec_EntityType (CR_Spec cr) = IboxreplicaSpec_EntityType spec ->
  IboxreplicaSpec_LocalEntityName (CR_Spec cr) = IboxreplicaSpec_LocalEntityName spec ->
  ensures' w (getLocalEntityID cr) (step_ok (fun id => id = entity)).
Proof.
  intros Hw Ht Hn. unfold getLocalEntityID. rewrite Ht, Hn. pose proof (acceptable_entity _ _ Hok) as Hin.
  destruct (String.eqb_spec (IboxreplicaSpec_EntityType spec) ReplicaEntityCG);
    [|destruct (String.eqb_spec (IboxreplicaSpec_EntityType spec) ReplicaEntityVolume);
      [|destruct (String.eqb_spec (IboxreplicaSpec_EntityType spec) ReplicaEntityFilesystem)]].
  1-3: eapply step_served; [done|intros a m w1 Ha; exact Ha|intros x Hx; by eexists; split; [done|apply Hx]].
  exfalso. set_solver.
Qed.

Lemma ensures_getClientService w cr :
  pending w -> CR_Annotations cr = annotations ->
  ensures' w (getClientService url_Parse url_ParseRequestURI cr) (step_ok (fun _ => True)).
Proof.
  intros Hw Ha. unfold getClientService, CustomResource.getClientService. rewrite Ha.
  destruct (acceptable_secret _ _ Hok) as [H1 H2].
  apply String.eqb_neq in H1, H2. rewrite H1, H2. cbn [orb].
  apply ensures_call. intros [err|] n w1 [-> Hn]; cbn in Hn; subst n.
  { apply ensures_ret. split; [done|lia]. }
  apply ensures_bind. apply ensures_call. intros [s|err] n w1 [-> Hn]; cbn in Hn.
  - destruct Hn as [-> Hs]. cbn. apply ensures_ret. unfold on. rewrite Hs. by apply ensures_ret.
  - subst n. apply ensures_ret. apply ensures_ret. split; [done|lia].
Qed.

Lemma ensures_validateLink w cr :
  pending w -> IboxreplicaSpec_LinkRemoteSystemName (CR_Spec cr) = IboxreplicaSpec_LinkRemoteSystemName spec ->
  ensures' w (validateLink cr) (step_ok (fun _ => True)).
Proof.
  intros Hw Hn. unfold validateLink. rewrite Hn. apply ensures_bind. apply ensures_call.
  intros [links [err|]] n w1 [-> Hl]; cbn in Hl.
  - subst n. apply ensures_ret. apply ensures_report; [done|]. intros m v' Hv'. split; [done|cbn; lia].
  - destruct Hl as [-> Hl]. apply ensures_ret. cbn.
    destruct (choose_link links _); [by apply ensures_ret|done].
Qed.

(** The world's answers to a program that changes nothing of the resource. *)
Lemma ensures_remote_client w sp :
  ensures' w (remote_client url_Parse url_ParseRequestURI sp) (fun _ o w' => w' = w /\ exists r, o = Done r).
Proof.
  unfold remote_client, GetIboxCredentials, with_client. apply ensures_bind. apply ensures_call.
  intros [err|] n w1 [-> _]; [apply ensures_ret, ensures_ret; split; [done|by eexists]|].
  apply ensures_bind. apply ensures_bind. apply ensures_call. intros [s|err] m w1 [-> Hs]; cbn in Hs.
  - destruct Hs as [-> Hs]. apply ensures_ret, ensures_ret. cbn.
    repeat match goal with |- context [String.eqb ?a ""] => destruct (String.eqb a "") end;
      apply ensures_ret; unfold on; rewrite Hs; apply ensures_ret; (split; [done|by eexists]).
  - repeat apply ensures_ret. split; [done|by eexists].
Qed.

Lemma ensures_with_target w cr :
  pending w -> ensures' w (with_target url_Parse url_ParseRequestURI cr) (fun _ o w' => pending w' /\ exists cr', o = Done cr').
Proof.
  intros Hw. unfold with_target. apply ensures_bind.
  assert (Hl : ensures' w (lookupTargetPoolID url_Parse url_ParseRequestURI cr) (fun _ o w' => w' = w /\ exists r, o = Done r)).
  { unfold lookupTargetPoolID.
    repeat match goal with |- ensures' _ (if ?b then _ else _) _ => destruct b end;
      try (apply ensures_ret; split; [done|by eexists]).
    apply ensures_bind. eapply ensures_mono; [apply ensures_remote_client|].
    intros n o w1 [-> [[u|err] ->]]; [|apply ensures_ret; split; [done|by eexists]].
    apply ensures_call. intros [p|err] m w1 [-> _]; apply ensures_ret; (split; [done|by eexists]). }
  eapply ensures_mono; [exact Hl|]. intros n o w1 [-> [[id|err] ->]].
  - apply ensures_ret. split; [done|by eexists].
  - eapply ensures_mono; [by apply ensures_report_status|done].
Qed.

(** The entity is replicated: what follows leaves it so. *)
Lemma attempted_settled {A} k w (p : prog (ccall IboxreplicaSpec) (res A)) :
  every (@no_deletion) p -> settled w -> ensures' w p (attempted k).
Proof. intros Hp Hw. eapply ensures_mono; [by apply settled_every|]. intros n o w' H. by left. Qed.

Lemma report_no_deletion {A} cr err : every (@no_deletion) (report cr err : prog (ccall IboxreplicaSpec) (res A)).
Proof. unfold report, report_status. repeat first [split|intros ?]. Qed.
Lemma record_no_deletion cr response : every (@no_deletion) (record_replica cr response).
Proof.
  unfold record_replica, refresh. cbn. split; [exact I|]. intros a. destruct (got a); cbn; repeat first [split|intros ?].
Qed.

Lemma ensures_create w cr linkID :
  pending w ->
  ensures' w (try replicas <- array_list Local GetReplicas catch err => report cr err ;;
              if existsb (fun r => (Replica_LocalEntityID r =? entity)%Z) replicas then Ret (Ok cr)
              else try response <- array Local (CreateReplica (create_request (CR_Spec cr) entity linkID)) catch err =>
                     report cr err ;;
                   record_replica cr response) (attempted 0).
Proof.
  intros Hw. apply ensures_bind. apply ensures_call. intros [replicas [err|]] n w1 [-> Hl]; cbn in Hl.
  - subst n. apply ensures_ret. cbn. apply (ensures_attempted 0 1). by apply attempted_report.
  - destruct Hl as [-> ->]. apply ensures_ret. cbn.
    destruct (existsb _ (w_replicas w)) eqn:Hex.
    + apply ensures_ret. left. split; [apply Hw|].
      apply existsb_exists in Hex as (r & Hr & He%Z.eqb_eq). exists r. by rewrite list_elem_of_In.
    + apply attempted_call. intros x n w1 Ha.
      assert (Hq : requested' w1) by (eapply (answers_requested (Array Local (CreateReplica _))); [exact Ha|apply Hw]).
      assert (Hs : made entity w w1 -> settled w1).
      { intros (_ & r & Hr & He). split; [done|]. exists r. rewrite Hr. split; [left|done]. }
      cbn in Ha. destruct x as [response|err].
      * apply attempted_settled; [apply record_no_deletion|]. apply Hs, Ha.
      * destruct Ha as [-> [->|Hm]]; [by apply attempted_report|].
        apply attempted_settled; [apply report_no_deletion|apply Hs, Hm].
Qed.

Lemma ensures_createReplica w cr :
  pending w -> CR_Spec cr = spec -> CR_Annotations cr = annotations ->
  ensures' w (createReplica url_Parse url_ParseRequestURI cr) (attempted 0).
Proof.
  intros Hw Hcs Hca. unfold createReplica. rewrite Hcs, (acceptable_type _ _ Hok). cbn [negb].
  assert (Hact : IboxreplicaSpec_BaseAction (act (prefer spec)) = IboxreplicaBaseActionNew).
  { cbn. destruct (acceptable_action _ _ Hok) as [->| ->]; done. }
  rewrite Hact, String.eqb_refl. cbn [negb].
  assert (Hcr : forall cr', CR_Spec cr' = schedule (act (prefer spec)) ->
                 IboxreplicaSpec_EntityType (CR_Spec cr') = IboxreplicaSpec_EntityType spec /\
                 IboxreplicaSpec_LocalEntityName (CR_Spec cr') = IboxreplicaSpec_LocalEntityName spec /\
                 IboxreplicaSpec_LinkRemoteSystemName (CR_Spec cr') = IboxreplicaSpec_LinkRemoteSystemName spec).
  { intros cr' ->. unfold schedule. by destruct (String.eqb _ _). }
  match goal with |- context [getClientService _ _ ?c] =>
    destruct (Hcr c eq_refl) as (H1 & H2 & H3); set (cr' := c) in *; assert (Ha' : CR_Annotations cr' = annotations) by done end.
  clearbody cr'.
  eapply attempted_try; [by apply ensures_getClientService|intros _ n w1 Hw1 _|intros; apply attempted_report; [done|lia]].
  eapply attempted_try; [by apply ensures_getLocalEntityID|intros id m w2 Hw2 ->|intros; apply attempted_err; [done|lia]].
  eapply attempted_try; [by apply ensures_validateLink|intros link i w3 Hw3 _|intros; apply attempted_err; [done|lia]].
  apply ensures_bind. eapply ensures_mono; [by apply ensures_with_target|]. intros j o w4 [Hw4 [cr'' ->]].
  apply ensures_attempted. eapply ensures_mono; [by apply ensures_create|].
  intros h o w5 [H|(Hp & Hn & Ho)]; [by left|]. right. split; [done|]. split; [lia|done].
Qed.

(** ** What follows the creation *)

Lemma reads_no_deletion {A} (p : prog (ccall IboxreplicaSpec) A) : reads p -> every (@no_deletion) p.
Proof.
  apply every_mono. intros X c Hc. destruct c as [X [] i| | | | |]; try exact I. by destruct i.
Qed.
Lemma create_claims_reads sp single l : reads (create_claims sp single l).
Proof. induction l as [|e l IH]; cbn [create_claims]; [exact I|]. reads_tac. Qed.
#[local] Hint Resolve create_claims_reads : csi.
Lemma getLocalEntityID_no_deletion cr : every (@no_deletion) (getLocalEntityID cr).
Proof.
  unfold getLocalEntityID. repeat match goal with |- every _ (if ?b then _ else _) => destruct b end;
    try apply report_no_deletion; (apply every_bind; [by split|]; intros []; [exact I|apply report_no_deletion]).
Qed.
Lemma getClientService_no_deletion cr : every (@no_deletion) (getClientService url_Parse url_ParseRequestURI cr).
Proof. apply reads_no_deletion. unfold getClientService. auto with csi. Qed.
Lemma report_status_no_deletion cr err : every (@no_deletion) (report_status cr err : prog (ccall IboxreplicaSpec) _).
Proof. repeat first [split|intros ?]. Qed.

(** Along a handler: the called programs by their lemmas, the rest call by call. *)
Ltac no_deletion_step :=
  match goal with
  | |- forall _, _ => intros ?
  | |- every _ (report _ _) => apply report_no_deletion
  | |- every _ (report_status _ _) => apply report_status_no_deletion
  | |- every _ (record_replica _ _) => apply record_no_deletion
  | |- every _ (getLocalEntityID _) => apply getLocalEntityID_no_deletion
  | |- every _ (getClientService _ _ _) => apply getClientService_no_deletion
  | |- every _ (match ?x with _ => _ end) => destruct x
  | |- every _ (array Local _) => split; [exact I|done]
  | |- every _ ?p => apply reads_no_deletion; solve [reads_tac]
  | |- every _ (bind _ _) => apply every_bind
  | |- every _ (trigger _) => split; [exact I|done]
  end.
Lemma createPVC_no_deletion cr : every (@no_deletion) (createPVC url_Parse url_ParseRequestURI cr).
Proof. unfold createPVC, remote_client. repeat no_deletion_step. Qed.
Lemma createReplica_no_deletion cr : every (@no_deletion) (createReplica url_Parse url_ParseRequestURI cr).
Proof. unfold createReplica, validateLink, with_target, lookupTargetPoolID, remote_client. cbv zeta. repeat no_deletion_step. Qed.
Lemma handle_new_no_deletion cr : every (@no_deletion) (handle_new url_Parse url_ParseRequestURI cr).
Proof.
  unfold handle_new. apply every_bind; [apply createReplica_no_deletion|]. intros [cr'|err]; [|exact I].
  destruct (IboxreplicaSpec_RemoteCreatePVC _) as [[]|]; try exact I.
  apply every_bind; [by split|]. intros _. apply every_bind; [apply createPVC_no_deletion|done].
Qed.
Lemma update_no_deletion cr : every (@no_deletion) (updateIboxreplicaState url_Parse url_ParseRequestURI cr).
Proof. unfold updateIboxreplicaState. repeat no_deletion_step. Qed.

Lemma ensures_handle_new w cr :
  pending w -> CR_Spec cr = spec -> CR_Annotations cr = annotations ->
  ensures' w (handle_new url_Parse url_ParseRequestURI cr) (fun n _ w' => settled w' \/ pending w' /\ 1 <= n).
Proof.
  intros Hw Hcs Hca. apply ensures_bind. eapply ensures_mono; [by apply ensures_createReplica|].
  intros n o w1 [Hs|(Hp & Hn & Ho)].
  - destruct o as [[cr'|err]| |]; [|by apply ensures_ret; left|by left..].
    eapply ensures_mono; [apply settled_every; [|exact Hs]|intros; by left].
    destruct (IboxreplicaSpec_RemoteCreatePVC _) as [[]|]; try exact I.
    apply every_bind; [by split|]. intros _. apply every_bind; [apply createPVC_no_deletion|done].
  - destruct o as [[cr'|err]| |]; [by destruct (Ho cr')|apply ensures_ret| |]; right; (split; [done|lia]).
Qed.

Lemma ensures_handleFinalizer w cr :
  cr = w_cr w -> requested' w ->
  ensures' w (handleFinalizer cr) (fun n o w' =>
    requested' w' /\ CR_Status (w_cr w') = CR_Status (w_cr w) /\ w_replicas w' = w_replicas w /\
    (o = Done None \/ 1 <= n /\ exists err, o = Done (Some err))).
Proof.
  intros -> Hw. unfold handleFinalizer, CustomResource.handleFinalizer.
  assert (Hu : forall obj, CR_ResourceVersion obj = CR_ResourceVersion (w_cr w) -> ensures' w (trigger (UpdateCR obj)) (fun n o w' =>
    requested' w' /\ CR_Status (w_cr w') = CR_Status (w_cr w) /\ w_replicas w' = w_replicas w /\
    (o = Done None \/ 1 <= n /\ exists err, o = Done (Some err)))).
  { intros obj Hv. apply ensures_vis. intros a n w1 Ha. apply ensures_ret.
    split; [by eapply (answers_requested (UpdateCR obj))|]. cbn in Ha. destruct a as [err|].
    - destruct Ha as [-> [-> |[_ Hst]]]; [|done]. split; [done|]. split; [done|]. right. split; [lia|by eexists].
    - destruct Ha as (_ & _ & _ & -> & ->). auto. }
  repeat match goal with |- ensures' _ (if ?b then _ else _) _ => destruct b end; try (by apply Hu); by apply ensures_ret; auto.
Qed.

(** The reconciliation of a resource that is not deleted. *)
Lemma ensures_Reconcile w req :
  consistent spec annotations entity w ->
  ensures' w (Reconcile url_Parse url_ParseRequestURI req) (fun n _ w' =>
    consistent spec annotations entity w' /\ (replicated entity w -> replicated entity w') /\ (replicated entity w' \/ 1 <= n)).
Proof.
  intros [Hw Hid]. unfold Reconcile. apply ensures_call. intros a n w1 [-> Ha]. destruct a as [cr|err|err]; [..|done|].
  2: { subst n. apply ensures_ret. split; [done|]. split; [done|right; lia]. }
  destruct Ha as [-> ->]. apply ensures_bind. eapply ensures_mono; [by apply ensures_handleFinalizer|].
  intros n o w1 (Hw1 & Hst & Hr & Ho).
  assert (Hrep : replicated entity w <-> replicated entity w1) by (unfold replicated; by rewrite Hr).
  rewrite <- Hst in *. rewrite Hrep in Hid. clear Hr.
  destruct Ho as [->|[Hn [err ->]]]; [|apply ensures_ret; split; [by split|]; split; [apply Hrep|right; cbn; lia]].
  destruct Hw as (Hcs & Hca & Hcd). rewrite Hcd.
  destruct (Z.eqb_spec (Status_ID (CR_Status (w_cr w1))) 0) as [Hz|Hz].
  - intros t o m w2 Ht Hh.
    assert (Hd : replicated entity w1 -> settled w2).
    { intros Hg. eapply (settled_every _ w1); [apply handle_new_no_deletion|by split|done..]. }
    destruct (ensures_handle_new w1 (w_cr w) (conj Hw1 Hz) Hcs Hca _ _ _ _ Ht Hh) as [[Hq Hs]|[[Hq Hs] Hm]].
    + split; [by split|]. auto.
    + split; [split; [done|by rewrite Hs]|]. split; [intros Hg; by apply Hd, Hrep|right; lia].
  - eapply ensures_mono; [apply settled_every; [apply update_no_deletion|split; [done|auto]]|].
    intros m o w2 [Hq Hs]. split; [by split|]. auto.
Qed.

(** ** Repeated reconciliations *)

(** C30: A replica that is asked for comes about: reconciling an acceptable request
    again and again, the entity it names has a replica on the array as soon as
    there were more reconciliations than failures of the cluster and the array.
    Between the attempts nothing is assumed of what the failed calls did; an
    update refused because the object's version is old is no failure. *)
Theorem Reconcile_eventually req w k n w' :
  consistent spec annotations entity w ->
  rounds answers' (Reconcile url_Parse url_ParseRequestURI req) w k n w' ->
  n < k -> replicated entity w'.
Proof.
  intros Hw Hr Hn. eapply (rounds_reach _ _ (consistent spec annotations entity)); [|done..|by right].
  intros v Hv. by apply ensures_Reconcile.
Qed.

(** The replica is there, the resource does not say so. *)
Definition unrecorded w : Prop := pending w /\ replicated entity w.

(** Calls that neither make a replica, take one away nor record a number. *)
Definition recordless {X} (c : ccall IboxreplicaSpec X) : Prop :=
  match c with
  | Array Local i => match i with DeleteReplica _ | CreateReplica _ => False | _ => True end
  | UpdateStatus obj => Status_ID (CR_Status obj) = 0%Z
  | _ => True
  end.
Lemma answers_unrecorded {X} (c : ccall IboxreplicaSpec X) x w n w' :
  recordless c -> answers' w (Evt c x) n w' -> unrecorded w -> unrecorded w'.
Proof.
  intros Hc Hx [[Hq Hz] Hs]. repeat split.
  1-3: by eapply answers_requested.
  - destruct c as [X [] i|X [] k|X o|key|obj|obj]; cbn in Hx; try (by destruct Hx as [-> _]).
    + destruct i; cbn in Hx; try (by destruct Hc); by destruct Hx as [-> _].
    + destruct k; cbn in Hx; by destruct Hx as [-> _].
    + destruct x; [by destruct Hx as [-> _]|]. by destruct Hx as (_ & _ & _ & -> & _).
    + destruct x; [|by destruct Hx as [-> _]]. by destruct Hx as (_ & _ & _ & -> & _).
  - eapply answers_replicated; [|done..]. by destruct c as [X [] i| | | | |]; try exact I; destruct i.
Qed.
Lemma unrecorded_every {A} (p : prog (ccall IboxreplicaSpec) A) w :
  every (@recordless) p -> unrecorded w -> ensures' w p (fun _ _ w' => unrecorded w').
Proof. intros Hp Hw. apply (ensures_every _ (@recordless)); [|done..]. intros; by eapply answers_unrecorded. Qed.

Lemma unrecorded_bind {A B} w (p : prog (ccall IboxreplicaSpec) A) (f : A -> prog (ccall IboxreplicaSpec) B) :
  unrecorded w -> every (@recordless) p ->
  (forall a w', unrecorded w' -> ensures' w' (f a) (fun _ _ v => unrecorded v)) ->
  ensures' w (bind p f) (fun _ _ v => unrecorded v).
Proof. intros Hw Hp. apply (ensures_bind_every _ (@recordless)); [|done..]. intros; by eapply answers_unrecorded. Qed.

Lemma reads_recordless {A} (p : prog (ccall IboxreplicaSpec) A) : reads p -> every (@recordless) p.
Proof.
  apply every_mono. intros X c Hc. destruct c as [X [] i| | | | |]; try exact I; [by destruct i|by destruct Hc].
Qed.
Lemma report_recordless {A} cr err : every (@recordless) (report cr err : prog (ccall IboxreplicaSpec) (res A)).
Proof. by repeat first [split|intros ?]. Qed.
Lemma getLocalEntityID_recordless cr : every (@recordless) (getLocalEntityID cr).
Proof.
  unfold getLocalEntityID. repeat match goal with |- every _ (if ?b then _ else _) => destruct b end;
    try apply report_recordless; (apply every_bind; [by split|]; intros []; [exact I|apply report_recordless]).
Qed.
Lemma validateLink_recordless cr : every (@recordless) (validateLink cr).
Proof.
  unfold validateLink. apply every_bind; [apply reads_recordless; reads_tac|]. intros [links|err]; [|apply report_recordless].
  destruct (choose_link _ _); [exact I|apply report_recordless].
Qed.
Lemma with_target_recordless cr : every (@recordless) (with_target url_Parse url_ParseRequestURI cr).
Proof.
  unfold with_target. apply every_bind; [apply reads_recordless; unfold lookupTargetPoolID, remote_client; reads_tac|].
  intros [id|err]; [exact I|by repeat first [split|intros ?]].
Qed.
Lemma handleFinalizer_recordless cr : every (@recordless) (handleFinalizer cr).
Proof.
  unfold handleFinalizer, CustomResource.handleFinalizer.
  repeat match goal with |- every _ (if ?b then _ else _) => destruct b end; try exact I; by repeat first [split|intros ?].
Qed.
Lemma createPVC_recordless cr : every (@recordless) (createPVC url_Parse url_ParseRequestURI cr).
Proof.
  unfold createPVC. apply every_bind; [apply reads_recordless; unfold getClientService; auto with csi|].
  intros [_|err]; [|apply report_recordless].
  apply every_bind; [apply reads_recordless; unfold remote_client; reads_tac|]. intros [_|err]; [|exact I].
  apply every_bind; [apply getLocalEntityID_recordless|]. intros [id|err]; [|exact I].
  apply reads_recordless. reads_tac.
Qed.

Lemma unrecorded_createReplica w cr :
  unrecorded w -> CR_Spec cr = spec -> ensures' w (createReplica url_Parse url_ParseRequestURI cr) (fun _ _ v => unrecorded v).
Proof.
  intros Hw Hcs. unfold createReplica. rewrite Hcs, (acceptable_type _ _ Hok). cbn [negb].
  assert (Hact : IboxreplicaSpec_BaseAction (act (prefer spec)) = IboxreplicaBaseActionNew).
  { cbn. destruct (acceptable_action _ _ Hok) as [->| ->]; done. }
  rewrite Hact, String.eqb_refl. cbn [negb].
  match goal with |- context [getClientService _ _ ?c] => set (cr' := c) end.
  apply unrecorded_bind; [done|apply reads_recordless; unfold getClientService; auto with csi|].
  intros [_|err] w1 Hw1; [|apply unrecorded_every; [apply report_recordless|done]].
  assert (Hid : ensures' w1 (getLocalEntityID cr') (fun _ o w' => unrecorded w' /\ forall id, o = Done (Ok id) -> id = entity)).
  { intros t o n w' Ht Hh. split; [by eapply unrecorded_every; [apply getLocalEntityID_recordless|..]|].
    intros id ->. refine (proj2 (ensures_getLocalEntityID w1 cr' (proj1 Hw1) _ _ _ _ _ _ Ht Hh));
      unfold cr', schedule; by destruct (String.eqb _ _). }
  apply ensures_bind. eapply ensures_mono; [exact Hid|]. intros n [[id|err]| |] w2 [Hw2 He]; [|by apply ensures_ret|done..].
  rewrite (He id eq_refl).
  apply unrecorded_bind; [done|apply validateLink_recordless|]. intros [link|err] w3 Hw3; [|by apply ensures_ret].
  apply unrecorded_bind; [done|apply with_target_recordless|]. intros cr'' w4 Hw4.
  apply ensures_bind. apply ensures_call. intros [replicas [err|]] m w5 [-> Hl]; cbn in Hl.
  - apply ensures_ret. apply unrecorded_every; [apply report_recordless|done].
  - destruct Hl as [_ ->]. apply ensures_ret. cbn.
    replace (existsb _ _) with true; [by apply ensures_ret|]. symmetry. apply existsb_exists.
    destruct Hw4 as [_ (r & Hr & Hre)]. exists r. rewrite <- list_elem_of_In. by rewrite Hre, Z.eqb_refl.
Qed.
Lemma unrecorded_Reconcile w req :
  unrecorded w -> ensures' w (Reconcile url_Parse url_ParseRequestURI req) (fun _ _ v => unrecorded v).
Proof.
  intros Hw. apply ensures_call. intros a n w1 [-> Ha]. destruct a as [cr|err|err]; [..|done|by apply ensures_ret].
  destruct Ha as [-> ->]. pose proof Hw as [[(Hcs & _ & Hcd) Hz] _].
  apply unrecorded_bind; [done|apply handleFinalizer_recordless|]. intros [err|] w1 Hw1; [by apply ensures_ret|].
  rewrite Hcd, Hz. cbn. apply ensures_bind. eapply ensures_mono; [by apply unrecorded_createReplica|].
  intros m [[cr|err]| |] w2 Hw2; [|by apply ensures_ret|done..].
  apply unrecorded_every; [|done].
  destruct (IboxreplicaSpec_RemoteCreatePVC _) as [[]|]; try exact I.
  apply every_bind; [by split|]. intros _. apply every_bind; [apply createPVC_recordless|done].
Qed.

(** A lost answer is never made good: when the replica of the entity exists
    but the resource has no number (the answer to the creation, the re-reading of
    the resource or the update of its status failed), no reconciliation ever
    gives it one. *)
Theorem Reconcile_never_records req w k n w' :
  unrecorded w -> rounds answers' (Reconcile url_Parse url_ParseRequestURI req) w k n w' -> unrecorded w'.
Proof.
  intros Hw Hr. eapply (rounds_invariant _ _ unrecorded); [|done..]. intros v Hv. by apply unrecorded_Reconcile.
Qed.
End facts.

(** ** Any requests, any failures *)

Section many.
Context {CU : Controllerutil} (url_Parse : string -> res (string * string)) (url_ParseRequestURI : string -> bool).

(** The worlds that come about: the controller reconciles, one resource at a time,
    whatever names mean on the array at that time; between reconciliations
    resources are edited or another is taken up, and replicas are taken away. *)
Inductive reachable (w0 : world) : world -> Prop :=
| reachable_start : reachable w0 w0
| reachable_edited w cr : reachable w0 w -> reachable w0 (MkWorld cr (w_replicas w))
| reachable_removed w keep : reachable w0 w -> reachable w0 (MkWorld (w_cr w) (List.filter keep (w_replicas w)))
| reachable_reconciled w spec entity req t o n w' :
    reachable w0 w -> runs (Reconcile url_Parse url_ParseRequestURI req) t o ->
    history (answers url_Parse url_ParseRequestURI spec entity) w t n w' -> reachable w0 w'.

Definition one_replica_each (w : world) : Prop := NoDup (map Replica_LocalEntityID (w_replicas w)).

Lemma NoDup_filter_map {A B} (f : A -> B) (keep : A -> bool) l :
  NoDup (map f l) -> NoDup (map f (List.filter keep l)).
Proof.
  induction l as [|a l IH]; cbn; [done|]. intros [Ha Hl]%NoDup_cons. destruct (keep a); cbn; [|auto].
  apply NoDup_cons. split; [|auto]. rewrite !list_elem_of_In, !in_map_iff in *.
  intros (b & Hb & Hin%List.filter_In). apply Ha. exists b. tauto.
Qed.

(** Every call but a creation. *)
Definition no_creation {X} (c : ccall IboxreplicaSpec X) : Prop :=
  match c with Array Local i => match i with CreateReplica _ => False | _ => True end | _ => True end.

Section one.
Context (spec : IboxreplicaSpec) (entity : Z).
Local Abbreviation answers' := (answers url_Parse url_ParseRequestURI spec entity).
Local Abbreviation ensures' := (ensures answers').
Local Abbreviation kept := (fun _ _ v => one_replica_each v).

Lemma answers_one_each {X} (c : ccall IboxreplicaSpec X) x w n w' :
  no_creation c -> answers' w (Evt c x) n w' -> one_replica_each w -> one_replica_each w'.
Proof.
  unfold one_replica_each. intros Hc Hx.
  destruct c as [X [] i|X [] k|X o|key|obj|obj]; cbn in Hx; try (by destruct Hx as [-> _]).
  - destruct i; cbn in Hx; try (by destruct Hc); try (by destruct Hx as [-> _]).
    unfold unmade in Hx. destruct x; destruct Hx as [_ Hx]; [destruct Hx as [->|Hx]; [done|]|];
      destruct Hx as [_ ->]; apply NoDup_filter_map.
  - destruct k; cbn in Hx; by destruct Hx as [-> _].
  - destruct x; [by destruct Hx as [-> _]|]. by destruct Hx as (_ & _ & _ & _ & ->).
  - destruct x; [|by destruct Hx as [-> _]]. by destruct Hx as (_ & _ & _ & _ & ->).
Qed.
Lemma kept_every {A} (p : prog (ccall IboxreplicaSpec) A) w :
  every (@no_creation) p -> one_replica_each w -> ensures' w p kept.
Proof. intros Hp Hw. apply (ensures_every _ (@no_creation)); [|done..]. intros; by eapply answers_one_each. Qed.
Lemma kept_bind {A B} w (p : prog (ccall IboxreplicaSpec) A) (f : A -> prog (ccall IboxreplicaSpec) B) :
  one_replica_each w -> every (@no_creation) p -> (forall a w', one_replica_each w' -> ensures' w' (f a) kept) ->
  ensures' w (bind p f) kept.
Proof. intros Hw Hp. apply (ensures_bind_every _ (@no_creation)); [|done..]. intros; by eapply answers_one_each. Qed.

(** What records nothing makes nothing. *)
Lemma recordless_no_creation {A} (p : prog (ccall IboxreplicaSpec) A) : every (@recordless) p -> every (@no_creation) p.
Proof. apply every_mono. intros X c Hc. destruct c as [X [] i| | | | |]; try exact I. by destruct i. Qed.
Lemma reads_no_creation {A} (p : prog (ccall IboxreplicaSpec) A) : reads p -> every (@no_creation) p.
Proof. intros H. by apply recordless_no_creation, reads_recordless. Qed.
Lemma record_no_creation cr response : every (@no_creation) (record_replica cr response).
Proof.
  unfold record_replica, refresh. cbn. split; [exact I|]. intros a. destruct (got a); cbn; repeat first [split|intros ?].
Qed.

Lemma kept_createReplica w cr :
  one_replica_each w -> ensures' w (createReplica url_Parse url_ParseRequestURI cr) kept.
Proof.
  intros Hw. unfold createReplica. cbv zeta.
  destruct (negb _); [apply kept_every; [apply recordless_no_creation, report_recordless|done]|].
  destruct (negb _); [apply kept_every; [apply recordless_no_creation, report_recordless|done]|].
  match goal with |- context [getClientService _ _ ?c] => set (cr' := c) end. clearbody cr'.
  apply kept_bind; [done|apply reads_no_creation; unfold getClientService; auto with csi|].
  intros [_|err] w1 Hw1; [|apply kept_every; [apply recordless_no_creation, report_recordless|done]].
  apply kept_bind; [done|apply recordless_no_creation, getLocalEntityID_recordless|].
  intros [id|err] w2 Hw2; [|by apply ensures_ret].
  apply kept_bind; [done|apply recordless_no_creation, validateLink_recordless|].
  intros [link|err] w3 Hw3; [|by apply ensures_ret].
  apply kept_bind; [done|apply recordless_no_creation, with_target_recordless|]. intros cr'' w4 Hw4.
  apply ensures_bind. apply ensures_call. intros [replicas [err|]] m w5 [-> Hl]; cbn in Hl.
  { apply ensures_ret. apply kept_every; [apply recordless_no_creation, report_recordless|done]. }
  destruct Hl as [_ ->]. apply ensures_ret. cbn.
  destruct (existsb _ _) eqn:Hex; [by apply ensures_ret|].
  assert (Hmade : forall w', made id w4 w' -> one_replica_each w').
  { intros w' (_ & r & Hr & He). unfold one_replica_each. rewrite Hr. cbn. apply NoDup_cons. split; [|done].
    rewrite list_elem_of_In, in_map_iff. intros (r' & Hr' & Hin).
    apply not_true_iff_false in Hex. apply Hex, existsb_exists. exists r'. split; [done|]. apply Z.eqb_eq. congruence. }
  apply ensures_call. intros x n w6 Hx. cbn in Hx. destruct x as [response|err].
  - apply kept_every; [apply record_no_creation|]. apply Hmade, Hx.
  - apply kept_every; [apply recordless_no_creation, report_recordless|].
    destruct Hx as [_ [->|Hx]]; [done|by apply Hmade].
Qed.

Lemma kept_Reconcile w req :
  one_replica_each w -> ensures' w (Reconcile url_Parse url_ParseRequestURI req) kept.
Proof.
  intros Hw. apply kept_bind; [done|by split|]. intros [cr|err|err] w1 Hw1; [|by apply ensures_ret..].
  apply kept_bind; [done|apply recordless_no_creation, handleFinalizer_recordless|].
  intros [err|] w2 Hw2; [by apply ensures_ret|].
  destruct (CR_Deleted cr).
  { apply kept_every; [|done]. apply every_bind; [apply reads_no_creation; unfold getClientService; auto with csi|].
    by intros [_|err]. }
  destruct (_ =? 0)%Z.
  - apply ensures_bind. eapply ensures_mono; [by apply kept_createReplica|].
    intros n [[cr'|err]| |] w3 Hw3; [|by apply ensures_ret|done..].
    apply kept_every; [|done]. destruct (IboxreplicaSpec_RemoteCreatePVC _) as [[]|]; try exact I.
    apply every_bind; [by split|]. intros _.
    apply every_bind; [apply recordless_no_creation, createPVC_recordless|done].
  - apply kept_every; [|done].
    apply every_bind; [apply reads_no_creation; unfold getClientService; auto with csi|]. intros [_|err]; [|exact I].
    apply every_bind; [by split|]. intros [rep|err]; [|exact I].
    apply every_bind; [apply reads_no_creation; auto with csi|]. intros [cr'|err]; [|exact I].
    apply every_bind; [by split|]. by intros [].
Qed.
End one.

(** C31: At most one replica per entity: whatever requests are reconciled, in
    whatever order, and whichever calls fail, also when the answer to a creation is
    lost, the array never has two replicas of one local entity, if it has not at
    first and only this controller makes replicas. *)
Theorem one_replica_each_reachable w w' : one_replica_each w -> reachable w w' -> one_replica_each w'.
Proof.
  intros Hw. induction 1 as [|v cr _ IH|v keep _ IH|v spec entity req t o n v' _ IH Ht Hh]; [done|done|..].
  - by apply NoDup_filter_map.
  - by eapply kept_Reconcile.
Qed.
End many.

(** ** What one reconciliation does to the array *)

Section requests.
Context {CU : Controllerutil} (url_Parse : string -> res (string * string)) (url_ParseRequestURI : string -> bool).
Local Abbreviation Reconcile' := (Reconcile url_Parse url_ParseRequestURI).
Implicit Types (t : cr_trace).

Lemma creation_behind {A B} (p : prog (ccall IboxreplicaSpec) A) (f : A -> prog (ccall IboxreplicaSpec) B) t o creq a :
  every (@no_creation) p -> runs (bind p f) t o -> Evt (Array Local (CreateReplica creq)) a ∈ t ->
  exists x t1 t2, t = t1 ++ t2 /\ runs p t1 (Done x) /\ runs (f x) t2 o /\ Evt (Array Local (CreateReplica creq)) a ∈ t2.
Proof.
  intros Hp Ht Hin.
  assert (Hno : forall u o', runs p u o' -> ~ Evt (Array Local (CreateReplica creq)) a ∈ u).
  { intros u o' Hu H. pose proof (every_runs _ _ _ _ Hp Hu) as Hall. by apply (proj1 (List.Forall_forall _ _) Hall _ (proj1 (list_elem_of_In _ _) H)). }
  destruct (runs_bind_inv _ _ _ _ Ht) as [(x & t1 & t2 & -> & H1 & H2)|[[_ H1]|[_ H1]]]; [|by destruct (Hno _ _ H1)..].
  exists x, t1, t2. apply elem_of_app in Hin as [Hin|Hin]; [by destruct (Hno _ _ H1)|done].
Qed.
Lemma creation_behind_call {X B} (c : ccall IboxreplicaSpec X) (f : X -> prog (ccall IboxreplicaSpec) B) t o creq a :
  no_creation c -> runs (bind (trigger c) f) t o -> Evt (Array Local (CreateReplica creq)) a ∈ t ->
  exists x t2, t = Evt c x :: t2 /\ runs (f x) t2 o /\ Evt (Array Local (CreateReplica creq)) a ∈ t2.
Proof.
  intros Hc (x & t2 & -> & H) Hin. exists x, t2. apply elem_of_cons in Hin as [He|Hin]; [|done].
  exfalso. assert (H' : (fun e : evt (ccall IboxreplicaSpec) => match e with Evt c' _ => no_creation c' end) (Evt c x)) by exact Hc.
  by rewrite <- He in H'.
Qed.
Lemma no_creation_in {A} (p : prog (ccall IboxreplicaSpec) A) t o creq a :
  every (@no_creation) p -> runs p t o -> Evt (Array Local (CreateReplica creq)) a ∈ t -> False.
Proof.
  intros Hp Ht Hin. pose proof (every_runs _ _ _ _ Hp Ht) as Hall.
  by apply (proj1 (List.Forall_forall _ _) Hall _ (proj1 (list_elem_of_In _ _) Hin)).
Qed.

(** The number of the entity of a specification, as a trace has it. *)
Definition looked_up (spec : IboxreplicaSpec) (id : Z) t : Prop :=
  let name := IboxreplicaSpec_LocalEntityName spec in
  (IboxreplicaSpec_EntityType spec = ReplicaEntityCG /\
     exists cg, Evt (Array Local (GetConsistencyGroupByName name)) (Ok cg) ∈ t /\ ConsistencyGroupInfo_ID cg = id) \/
  (IboxreplicaSpec_EntityType spec = ReplicaEntityVolume /\
     exists v, Evt (Array Local (GetVolumeByName name)) (Ok v) ∈ t /\ Volume_ID v = id) \/
  (IboxreplicaSpec_EntityType spec = ReplicaEntityFilesystem /\
     exists fs, Evt (Array Local (GetFileSystemByName name)) (Ok fs) ∈ t /\ FileSystem_ID fs = id).
Lemma getLocalEntityID_ok cr t id :
  runs (getLocalEntityID cr) t (Done (Ok id)) -> looked_up (CR_Spec cr) id t.
Proof.
  unfold getLocalEntityID, looked_up.
  destruct (String.eqb_spec (IboxreplicaSpec_EntityType (CR_Spec cr)) ReplicaEntityCG) as [H1|_];
    [|destruct (String.eqb_spec (IboxreplicaSpec_EntityType (CR_Spec cr)) ReplicaEntityVolume) as [H2|_];
      [|destruct (String.eqb_spec (IboxreplicaSpec_EntityType (CR_Spec cr)) ReplicaEntityFilesystem) as [H3|_]]].
  1-3: intros ([x|err] & t' & -> & H); cbn in H; [destruct H as [-> [= ->]]|by destruct H as (? & ? & _ & _ & [=])].
  - left. split; [done|]. exists x. split; [left|done].
  - right; left. split; [done|]. exists x. split; [left|done].
  - right; right. split; [done|]. exists x. split; [left|done].
  - intros (? & ? & _ & _ & [=]).
Qed.
Lemma validateLink_ok cr t link :
  runs (validateLink cr) t (Done (Ok link)) ->
  exists links, Evt (Array Local GetLinks) (links, None) ∈ t /\
    choose_link links (IboxreplicaSpec_LinkRemoteSystemName (CR_Spec cr)) = Ok link.
Proof.
  intros ([links [err|]] & t' & -> & H); cbn in H; [by destruct H as (? & ? & _ & _ & [=])|].
  exists links. split; [left|]. destruct (choose_link links _); [by destruct H as [_ [= ->]]|by destruct H as (? & ? & _ & _ & [=])].
Qed.
Lemma with_target_spec cr t cr' :
  runs (with_target url_Parse url_ParseRequestURI cr) t (Done cr') ->
  (exists pool, CR_Spec cr' = target (CR_Spec cr) pool) \/
  (exists obj, Evt (UpdateStatus obj) (Ok cr') ∈ t).
Proof.
  intros [([id|err] & t1 & t2 & -> & _ & H)|[[[=] _]|[[=] _]]]%runs_bind_inv.
  - destruct H as [-> [= ->]]. left. by exists id.
  - destruct H as ([cr''|err'] & t' & -> & -> & [= ->]).
    + right. eexists. apply elem_of_app. right. left.
    + left. by exists 0%Z.
Qed.

Lemma update_no_creation cr : every (@no_creation) (updateIboxreplicaState url_Parse url_ParseRequestURI cr).
Proof.
  apply every_bind; [apply reads_no_creation; unfold getClientService; auto with csi|]. intros [_|err]; [|exact I].
  apply every_bind; [by split|]. intros [rep|err]; [|exact I].
  apply every_bind; [apply reads_no_creation; auto with csi|]. intros [cr'|err]; [|exact I].
  apply every_bind; [by split|]. by intros [].
Qed.
Lemma creation_behind_handle_new cr t o creq a :
  runs (handle_new url_Parse url_ParseRequestURI cr) t o -> Evt (Array Local (CreateReplica creq)) a ∈ t ->
  exists t1 t2 o', t = t1 ++ t2 /\ runs (createReplica url_Parse url_ParseRequestURI cr) t1 o' /\
    Evt (Array Local (CreateReplica creq)) a ∈ t1.
Proof.
  intros Ht Hin. destruct (runs_bind_inv _ _ _ _ Ht) as [(x & t1 & t2 & -> & H1 & H2)|[[_ H1]|[_ H1]]].
  2-3: exists t, []; eexists; rewrite app_nil_r; by repeat split.
  exists t1, t2, (Done x). split; [done|]. split; [done|]. apply elem_of_app in Hin as [Hin|Hin]; [done|exfalso].
  eapply no_creation_in; [|exact H2|exact Hin]. destruct x as [cr'|err]; [|exact I].
  destruct (IboxreplicaSpec_RemoteCreatePVC _) as [[]|]; try exact I.
  apply every_bind; [by split|]. intros _.
  apply every_bind; [apply recordless_no_creation, createPVC_recordless|done].
Qed.

(** The facts of a creation, found in a passage [t] of the run. *)
Definition creation_of (spec : IboxreplicaSpec) (creq : CreateReplicaRequest) (id : Z) (link : Link)
    (replicas : list Replica) (spec' : IboxreplicaSpec) t : Prop :=
  known_type (IboxreplicaSpec_ReplicationType spec) = true /\
  IboxreplicaSpec_BaseAction (act spec) = IboxreplicaBaseActionNew /\
  creq = create_request spec' id (Link_ID link) /\ looked_up spec id t /\
  (exists links, Evt (Array Local GetLinks) (links, None) ∈ t /\
     choose_link links (IboxreplicaSpec_LinkRemoteSystemName spec) = Ok link) /\
  Evt (Array Local GetReplicas) (replicas, None) ∈ t /\
  Forall (fun r => Replica_LocalEntityID r <> id) replicas /\
  ((exists pool, spec' = target (schedule (act (prefer spec))) pool) \/
   (exists obj cr', Evt (UpdateStatus obj) (Ok cr') ∈ t /\ spec' = CR_Spec cr')).
Lemma creation_of_mono spec creq id link replicas spec' t u :
  (forall e, e ∈ t -> e ∈ u) -> creation_of spec creq id link replicas spec' t -> creation_of spec creq id link replicas spec' u.
Proof.
  intros Hsub. unfold creation_of, looked_up. intros (H1 & H2 & H3 & H4 & H5 & H6 & H7 & H8). repeat split; [done..| | |by apply Hsub|done|].
  - naive_solver.
  - naive_solver.
  - naive_solver.
Qed.
Lemma list_then_create cr id linkID t o creq a :
  runs (try replicas <- array_list Local GetReplicas catch err => report cr err ;;
        if existsb (fun r => (Replica_LocalEntityID r =? id)%Z) replicas then Ret (Ok cr)
        else try response <- array Local (CreateReplica (create_request (CR_Spec cr) id linkID)) catch err =>
               report cr err ;;
             record_replica cr response) t o ->
  Evt (Array Local (CreateReplica creq)) a ∈ t ->
  exists replicas, Evt (Array Local GetReplicas) (replicas, None) ∈ t /\
    Forall (fun r => Replica_LocalEntityID r <> id) replicas /\ creq = create_request (CR_Spec cr) id linkID.
Proof.
  intros Ht Hin.
  destruct (creation_behind_call (Array Local GetReplicas) _ _ _ _ _ I Ht Hin)
    as ([replicas [err|]] & v & -> & Ht' & Hin'); cbn in Ht';
    [by destruct (no_creation_in _ _ _ _ _ (recordless_no_creation _ (report_recordless _ _)) Ht' Hin')|].
  destruct (existsb _ replicas) eqn:Hex; [by destruct Ht' as [-> _]; apply elem_of_nil in Hin'|].
  destruct Ht' as (a' & v' & -> & Ht').
  exists replicas. split; [left|]. split.
  - apply List.Forall_forall. intros r Hr He. apply not_true_iff_false in Hex. apply Hex, existsb_exists.
    exists r. split; [done|by apply Z.eqb_eq].
  - apply elem_of_cons in Hin' as [He|Hin']; [by injection He|exfalso]. destruct a' as [response|err].
    + by eapply no_creation_in; [apply (record_no_creation cr response)|exact Ht'|].
    + by apply (no_creation_in _ _ _ _ _ (recordless_no_creation _ (report_recordless (A := Iboxreplica) cr err)) Ht' Hin').
Qed.
Lemma createReplica_creates cr t o creq a :
  runs (createReplica url_Parse url_ParseRequestURI cr) t o -> Evt (Array Local (CreateReplica creq)) a ∈ t ->
  exists id link replicas spec', creation_of (CR_Spec cr) creq id link replicas spec' t.
Proof.
  intros Ht Hin. unfold createReplica in Ht. cbv zeta in Ht.
  destruct (known_type _) eqn:Hknown; cbn [negb] in Ht;
    [|by destruct (no_creation_in _ _ _ _ _ (recordless_no_creation _ (report_recordless _ _)) Ht Hin)].
  destruct (String.eqb_spec (IboxreplicaSpec_BaseAction (act (prefer (CR_Spec cr)))) IboxreplicaBaseActionNew) as [Hact|_];
    cbn [negb] in Ht; [|by destruct (no_creation_in _ _ _ _ _ (recordless_no_creation _ (report_recordless _ _)) Ht Hin)].
  match type of Ht with context [getClientService _ _ ?c] => set (cr' := c) in Ht end.
  assert (Hspec : CR_Spec cr' = schedule (act (prefer (CR_Spec cr)))) by done. clearbody cr'.
  destruct (creation_behind _ _ _ _ _ _ (reads_no_creation _ (getClientService_reads _ _ cr')) Ht Hin)
    as ([[]|err] & u1 & v1 & -> & _ & Ht1 & Hin1);
    [|by destruct (no_creation_in _ _ _ _ _ (recordless_no_creation _ (report_recordless _ _)) Ht1 Hin1)].
  destruct (creation_behind _ _ _ _ _ _ (recordless_no_creation _ (getLocalEntityID_recordless cr')) Ht1 Hin1)
    as ([id|err] & u2 & v2 & -> & Hid & Ht2 & Hin2);
    [|by destruct Ht2 as [-> _]; apply elem_of_nil in Hin2].
  destruct (creation_behind _ _ _ _ _ _ (recordless_no_creation _ (validateLink_recordless cr')) Ht2 Hin2)
    as ([link|err] & u3 & v3 & -> & Hlink & Ht3 & Hin3);
    [|by destruct Ht3 as [-> _]; apply elem_of_nil in Hin3].
  destruct (creation_behind _ _ _ _ _ _ (recordless_no_creation _ (with_target_recordless _ _ cr')) Ht3 Hin3)
    as (cr'' & u4 & v4 & -> & Hs%with_target_spec & Ht4 & Hin4).
  apply getLocalEntityID_ok in Hid. apply validateLink_ok in Hlink as (links & Hl & Hc).
  destruct (list_then_create _ _ _ _ _ _ _ Ht4 Hin4) as (replicas & Hg & Hnew & ->).
  assert (Hfacts : IboxreplicaSpec_EntityType (CR_Spec cr') = IboxreplicaSpec_EntityType (CR_Spec cr) /\
                   IboxreplicaSpec_LocalEntityName (CR_Spec cr') = IboxreplicaSpec_LocalEntityName (CR_Spec cr) /\
                   IboxreplicaSpec_LinkRemoteSystemName (CR_Spec cr') = IboxreplicaSpec_LinkRemoteSystemName (CR_Spec cr)).
  { rewrite Hspec. unfold schedule. by destruct (String.eqb _ _). }
  destruct Hfacts as (Hf1 & Hf2 & Hf3). unfold looked_up in Hid. rewrite Hf1, Hf2 in Hid. rewrite Hf3 in Hc.
  exists id, link, replicas, (CR_Spec cr''). unfold creation_of, looked_up. repeat split; [done..| | | |done|].
  - clear -Hid. setoid_rewrite elem_of_app. setoid_rewrite elem_of_app. naive_solver.
  - exists links. split; [|done]. rewrite !elem_of_app. auto.
  - rewrite !elem_of_app. auto 6.
  - rewrite <- Hspec. destruct Hs as [[pool ->]|[obj Hobj]]; [left; by exists pool|right].
    exists obj, cr''. split; [|done]. rewrite !elem_of_app. auto.
Qed.

(** C32: What a reconciliation asks the array to replicate: only for a resource
    that is not deleted and has no number, of a known type and with the base action
    NEW; the entity its specification names, over the last link to the remote
    system it names, which is up and has a witness; after the array listed its
    replicas, none of them of that entity. The request carries the specification
    with its defaults and the number of the target pool, or, when that pool was
    not found, the specification the server answered. *)
Theorem Reconcile_creates req t o creq a :
  runs (Reconcile' req) t o -> Evt (Array Local (CreateReplica creq)) a ∈ t ->
  exists cr t' id link replicas spec',
    t = Evt (GetCR req) (Found cr) :: t' /\ CR_Deleted cr = false /\ Status_ID (CR_Status cr) = 0%Z /\
    creation_of (CR_Spec cr) creq id link replicas spec' t.
Proof.
  intros Ht Hin.
  destruct (creation_behind_call (GetCR req) _ _ _ _ _ I Ht Hin) as ([cr|err|err] & t1 & -> & Ht1 & Hin1);
    [|by destruct Ht1 as [-> _]; apply elem_of_nil in Hin1..].
  destruct (creation_behind _ _ _ _ _ _ (recordless_no_creation _ (handleFinalizer_recordless cr)) Ht1 Hin1)
    as ([err|] & u & t2 & -> & _ & Ht2 & Hin2); [by destruct Ht2 as [-> _]; apply elem_of_nil in Hin2|].
  destruct (CR_Deleted cr) eqn:Hd.
  { exfalso. eapply no_creation_in; [|exact Ht2|exact Hin2].
    apply every_bind; [apply reads_no_creation; unfold getClientService; auto with csi|]. by intros [_|err]. }
  destruct (Z.eqb_spec (Status_ID (CR_Status cr)) 0) as [Hz|_];
    [|by destruct (no_creation_in _ _ _ _ _ (update_no_creation cr) Ht2 Hin2)].
  destruct (creation_behind_handle_new _ _ _ _ _ Ht2 Hin2) as (t3 & t4 & o' & -> & Ht3 & Hin3).
  destruct (createReplica_creates _ _ _ _ _ Ht3 Hin3) as (id & link & replicas & spec' & Hc).
  exists cr, (u ++ t3 ++ t4), id, link, replicas, spec'. do 3 (split; [done|]).
  eapply creation_of_mono; [|exact Hc]. intros e He. right. rewrite !elem_of_app. auto.
Qed.

(** The resource a trace begins with. *)
Definition found_first t : option Iboxreplica :=
  match t with
  | Evt c x :: _ => match c in ccall _ X return X -> option Iboxreplica with
                    | GetCR _ => fun a => match a with Found cr => Some cr | _ => None end
                    | _ => fun _ => None
                    end x
  | [] => None
  end.

(** C33: The deletion of a resource: the finalizer is taken off first, and what is
    then asked of the array is to delete the replica whose number the resource
    has, once and last; the reconciliation succeeds when the array did. When the
    resource is freed but the deletion fails, the error is returned although the
    resource, and with it the number, is gone. *)
Theorem Reconcile_deletes req cr t o :
  runs (Reconcile' req) t o -> found_first t = Some cr -> CR_Deleted cr = true ->
  let freed := with_finalizers cr (RemoveFinalizer (CR_Finalizers cr) finalizer) in
  exists freeing u v, t = Evt (GetCR req) (Found cr) :: freeing ++ u ++ v /\
    (if ContainsFinalizer (CR_Finalizers cr) finalizer
     then exists a, freeing = [Evt (UpdateCR freed) a] /\ (a <> None -> u = [] /\ v = [] /\ o = Done a)
     else freeing = []) /\
    Forall (fun e => match e with Evt c _ => harmless c end) u /\
    ((v = [] /\ o <> Done None) \/
     (exists a, v = [Evt (Array Local (DeleteReplica (Status_ID (CR_Status cr)))) a] /\ o = Done a)).
Proof.
  intros Ht Hf Hd freed. unfold Reconcile in Ht. apply runs_call_inv in Ht as (x & t' & -> & Ht). destruct x as [cr'|err|err]; [|done..]. injection Hf as ->. cbn beta iota in Ht. rewrite Hd in Ht. unfold handleFinalizer, CustomResource.handleFinalizer in Ht.
  rewrite Hd in Ht. cbn [negb] in Ht.
  assert (Hdel : forall t o, runs (deleteReplica url_Parse url_ParseRequestURI cr) t o ->
    exists u v, t = u ++ v /\ Forall (fun e => match e with Evt c _ => harmless c end) u /\
      ((v = [] /\ o <> Done None) \/
       (exists a, v = [Evt (Array Local (DeleteReplica (Status_ID (CR_Status cr)))) a] /\ o = Done a))).
  { intros t1 o1 H. assert (Hq : reads (Iboxreplica.getClientService url_Parse url_ParseRequestURI cr))
      by (unfold Iboxreplica.getClientService; auto with csi).
    destruct (runs_bind_inv _ _ _ _ H) as [([u'|err] & t2 & t3 & -> & H1 & H2)|[[-> H1]|[-> H1]]];
      pose proof (every_runs _ _ _ _ Hq H1) as Hall.
    - destruct H2 as (a & t4 & -> & -> & ->). exists t2, [Evt (Array Local (DeleteReplica (Status_ID (CR_Status cr)))) a].
      split; [done|]. split; [done|]. right. by exists a.
    - destruct H2 as [-> ->]. exists t2, []. split; [done|]. split; [done|]. by left.
    - exists t1, []. rewrite app_nil_r. split; [done|]. split; [done|]. by left.
    - exists t1, []. rewrite app_nil_r. split; [done|]. split; [done|]. by left. }
  destruct (ContainsFinalizer (CR_Finalizers cr) finalizer).
  - destruct Ht as ([err|] & t1 & -> & Ht).
    + destruct Ht as [-> ->]. exists [Evt (UpdateCR freed) (Some err)], [], [].
      split; [done|]. split; [by eexists|]. split; [constructor|]. by left.
    + destruct (Hdel _ _ Ht) as (u & v & -> & Hu & Hv). exists [Evt (UpdateCR freed) None], u, v.
      split; [done|]. split; [by eexists|done].
  - destruct (Hdel _ _ Ht) as (u & v & -> & Hu & Hv). by exists [], u, v.
Qed.
End requests.

(** ** Examples *)

#[local] Transparent gmap_empty.

Definition credentials0 : gmap string string :=
  {[ CredentialHostname := "ibox1"; CredentialUsername := "u"; CredentialPassword := "p" ]}.
Definition parse0 (s : string) : res (string * string) := Ok ("", s).
Definition uri0 (_ : string) : bool := true.
(** A finalizer is in a list or it is not. *)
#[local] Instance finalizers0 : Controllerutil := {|
  ContainsFinalizer l name := existsb (String.eqb name) l;
  AddFinalizer l name := l ++ [name];
  RemoveFinalizer l name := List.filter (fun x => negb (String.eqb name x)) l |}.
#[local] Instance finalizers0_laws : ControllerutilLaws finalizers0.
Proof.
  split; intros l name; cbn; [rewrite existsb_app; cbn; by rewrite String.eqb_refl, orb_true_r|].
  apply not_true_iff_false. rewrite existsb_exists. intros (x & [_ Hx]%List.filter_In & He). by rewrite He in Hx.
Qed.

Definition spec0 : IboxreplicaSpec :=
  {| IboxreplicaSpec_IsPreferred := None; IboxreplicaSpec_SyncInterval := 0; IboxreplicaSpec_Description := "";
     IboxreplicaSpec_EntityType := ReplicaEntityVolume; IboxreplicaSpec_LocalEntityName := "pvc";
     IboxreplicaSpec_RemoteEntityName := "pvc-remote"; IboxreplicaSpec_ReplicationType := IboxreplicaReplicaTypeASYNC;
     IboxreplicaSpec_BaseAction := ""; IboxreplicaSpec_LinkRemoteSystemName := "ibox2"; IboxreplicaSpec_RpoValue := 0;
     IboxreplicaSpec_RemotePoolID := 10; IboxreplicaSpec_RemoteIboxCredentialName := "";
     IboxreplicaSpec_RemoteIboxCredentialNamespace := ""; IboxreplicaSpec_RemoteCreatePVC := None;
     IboxreplicaSpec_RemotePVCNameSuffix := ""; IboxreplicaSpec_RemotePVCName := "";
     IboxreplicaSpec_RemotePVCNamespace := ""; IboxreplicaSpec_RemoteNetworkSpace := "";
     IboxreplicaSpec_RemotePoolName := ""; IboxreplicaSpec_RemotePVCKubeconfigSecretName := "";
     IboxreplicaSpec_RemotePVCKubeconfigSecretNamespace := "" |}.
Definition annotations0 : gmap string string :=
  {[ PVCAnnotationSecretName := "ibox1-creds"; PVCAnnotationSecretNamespace := "ns" ]}.
Definition resource0 (finalizers : list string) (version state : string) (id : Z) : Iboxreplica :=
  MkCR "r" "" annotations0 false finalizers version spec0 (MkCRStatus state id).
Definition volume0 : Volume := Volume_of 7 "pvc" 1073741824 0 1 "pool" "UNLOCKED" false.
Definition link0 : Link :=
  Link_set_ResiliencyMode "WITNESS" (Link_of 4 "ibox2" "ibox2" 5 "UP").
Definition replica0 : Replica := Replica_for 3 "INITIALIZING" 7.
Definition secret0 : Secret := MkSecret "ibox1-creds" "ns" "1" credentials0 ∅.
Definition full0 : IboxreplicaSpec := schedule (act (prefer spec0)).
Definition request0 : CreateReplicaRequest := create_request (target full0 10) 7 4.

(** The world's answers up to the entity, and from there. *)
Definition begun0 (cr : Iboxreplica) : cr_trace :=
  [Evt (GetCR ("", "r")) (Found cr); Evt (Cluster Local BuildClient) None;
   Evt (Cluster Local (SecretsGet "ns" "ibox1-creds")) (Ok secret0)].
Definition known0 : cr_trace :=
  [Evt (Array Local (GetVolumeByName "pvc")) (Ok volume0); Evt (Array Local GetLinks) ([link0], None)].
Definition fresh0 : Iboxreplica := resource0 [finalizer] "1" "" 0.
Definition failed0 : Iboxreplica := resource0 [finalizer] "2" "timeout" 0.
Definition created0 (version : string) : Iboxreplica := resource0 [finalizer] version "created" 3.
(** One call fails: the entity cannot be looked up; the next run makes the
    replica. *)
Definition failing0 : cr_trace :=
  begun0 fresh0 ++
  [Evt (Array Local (GetVolumeByName "pvc")) (Err (EText "timeout"));
   Evt (UpdateStatus (with_status (with_spec fresh0 full0) (MkCRStatus "timeout" 0))) (Ok failed0)].
Definition creating0 (cr : Iboxreplica) (answer : res Replica) (rest : cr_trace) : cr_trace :=
  begun0 cr ++ known0 ++
  [Evt (Array Local GetReplicas) ([], None); Evt (Array Local (CreateReplica request0)) answer] ++ rest.
Definition recording0 (cr : Iboxreplica) : cr_trace :=
  [Evt (GetCR ("", "r")) (Found cr);
   Evt (UpdateStatus (with_status cr (MkCRStatus "created" 3))) (Ok (created0 "3"))].

Lemma acceptable0 : acceptable spec0 annotations0.
Proof. split; [reflexivity|by left|cbn; right; left|split; by vm_compute]. Qed.

(** One event of a history, the world after it given. *)
Ltac happens v :=
  eapply (history_step _ _ _ _ v);
    [cbn; unfold served, served_list, acked, stale, same_request, made; cbn; repeat split; eauto; fail| |reflexivity].

Lemma failing0_runs : runs (Reconcile parse0 uri0 ("", "r")) failing0 (Done (Some (EText "timeout"))).
Proof. unfold failing0, begun0, fresh0, resource0, spec0, annotations0, finalizer. cbn [app]. rerun. Qed.
Lemma creating0_runs : runs (Reconcile parse0 uri0 ("", "r"))
  (creating0 failed0 (Ok replica0) (recording0 failed0)) (Done None).
Proof.
  unfold creating0, recording0, begun0, known0, failed0, resource0, spec0, annotations0, finalizer. cbn [app]. rerun.
Qed.

Local Abbreviation answers0 := (answers parse0 uri0 spec0 7).
Lemma begun0_history cr replicas :
  history answers0 (MkWorld cr replicas) (begun0 cr) 0 (MkWorld cr replicas).
Proof. unfold begun0. do 3 happens (MkWorld cr replicas). constructor. Qed.
Lemma known0_history w : history answers0 w known0 0 w.
Proof. unfold known0. do 2 happens w. constructor. Qed.
Lemma failing0_history : history answers0 (MkWorld fresh0 []) failing0 1 (MkWorld failed0 []).
Proof.
  apply history_app. exists 0, (MkWorld fresh0 []), 1. split; [apply begun0_history|]. split; [|done].
  happens (MkWorld fresh0 []). happens (MkWorld failed0 []). constructor.
Qed.
Lemma creating0_history : history answers0 (MkWorld failed0 []) (creating0 failed0 (Ok replica0) (recording0 failed0)) 0
  (MkWorld (created0 "3") [replica0]).
Proof.
  apply history_app. exists 0, (MkWorld failed0 []), 0. split; [apply begun0_history|]. split; [|done].
  apply history_app. exists 0, (MkWorld failed0 []), 0. split; [apply known0_history|]. split; [|done].
  happens (MkWorld failed0 []). happens (MkWorld failed0 [replica0]).
  happens (MkWorld failed0 [replica0]). happens (MkWorld (created0 "3") [replica0]). constructor.
Qed.
Lemma Reconcile_eventually_witness :
  exists w, rounds answers0 (Reconcile parse0 uri0 ("", "r")) (MkWorld fresh0 []) 2 1 w /\ replicated 7 w.
Proof.
  assert (Hr : rounds answers0 (Reconcile parse0 uri0 ("", "r")) (MkWorld fresh0 []) 2 1 (MkWorld (created0 "3") [replica0])).
  { eapply rounds_step; [apply failing0_runs|apply failing0_history| |reflexivity].
    eapply rounds_step; [apply creating0_runs|apply creating0_history|constructor|reflexivity]. }
  exists (MkWorld (created0 "3") [replica0]). split; [exact Hr|].
  refine (Reconcile_eventually parse0 uri0 spec0 annotations0 7 acceptable0 _ _ _ _ _ _ Hr _); [|lia].
  split; [done|]. cbn. done.
Defined.

(** The answer to the creation is lost. *)
Definition losing0 : cr_trace :=
  creating0 fresh0 (Err (EText "timeout"))
    [Evt (UpdateStatus (with_status (with_spec fresh0 (target full0 10)) (MkCRStatus "timeout" 0))) (Ok failed0)].
Definition already0 : cr_trace := begun0 failed0 ++ known0 ++ [Evt (Array Local GetReplicas) ([replica0], None)].
Lemma losing0_runs : runs (Reconcile parse0 uri0 ("", "r")) losing0 (Done (Some (EText "timeout"))).
Proof.
  unfold losing0, creating0, begun0, known0, fresh0, resource0, spec0, annotations0, finalizer. cbn [app]. rerun.
Qed.
Lemma losing0_history : history answers0 (MkWorld fresh0 []) losing0 1 (MkWorld failed0 [replica0]).
Proof.
  apply history_app. exists 0, (MkWorld fresh0 []), 1. split; [apply begun0_history|]. split; [|done].
  apply history_app. exists 0, (MkWorld fresh0 []), 1. split; [apply known0_history|]. split; [|done].
  happens (MkWorld fresh0 []).
  eapply (history_step _ _ _ 1 (MkWorld fresh0 [replica0])); [|  |reflexivity].
  { cbn. split; [done|]. right. unfold made. cbn. split; [done|]. by exists replica0. }
  happens (MkWorld failed0 [replica0]). constructor.
Qed.
Lemma already0_runs : runs (Reconcile parse0 uri0 ("", "r")) already0 (Done None).
Proof.
  unfold already0, begun0, known0, failed0, resource0, spec0, annotations0, finalizer. cbn [app]. rerun.
Qed.
Lemma already0_history : history answers0 (MkWorld failed0 [replica0]) already0 0 (MkWorld failed0 [replica0]).
Proof.
  apply history_app. exists 0, (MkWorld failed0 [replica0]), 0. split; [apply begun0_history|]. split; [|done].
  apply history_app. exists 0, (MkWorld failed0 [replica0]), 0. split; [apply known0_history|]. split; [|done].
  happens (MkWorld failed0 [replica0]). constructor.
Qed.

(** One lost answer makes the state that is never left. *)
Lemma Reconcile_never_records_witness :
  rounds answers0 (Reconcile parse0 uri0 ("", "r")) (MkWorld fresh0 []) 1 1 (MkWorld failed0 [replica0]) /\
  exists w, rounds answers0 (Reconcile parse0 uri0 ("", "r")) (MkWorld failed0 [replica0]) 1 0 w /\
    unrecorded spec0 annotations0 7 w.
Proof.
  split.
  { eapply rounds_step; [apply losing0_runs|apply losing0_history|constructor|reflexivity]. }
  assert (Hr : rounds answers0 (Reconcile parse0 uri0 ("", "r")) (MkWorld failed0 [replica0]) 1 0 (MkWorld failed0 [replica0])).
  { eapply rounds_step; [apply already0_runs|apply already0_history|constructor|reflexivity]. }
  eexists. split; [exact Hr|].
  refine (Reconcile_never_records parse0 uri0 spec0 annotations0 7 acceptable0 _ _ _ _ _ _ Hr).
  split; [done|]. exists replica0. split; [left|done].
Defined.

Lemma one_replica_each_reachable_witness :
  reachable parse0 uri0 (MkWorld fresh0 []) (MkWorld failed0 [replica0]) /\ one_replica_each (MkWorld failed0 [replica0]).
Proof.
  assert (Hr : reachable parse0 uri0 (MkWorld fresh0 []) (MkWorld failed0 [replica0])).
  { eapply reachable_reconciled; [|apply already0_runs|apply already0_history].
    eapply reachable_reconciled; [apply reachable_start|apply losing0_runs|apply losing0_history]. }
  split; [exact Hr|].
  refine (one_replica_each_reachable parse0 uri0 _ _ _ Hr). constructor.
Defined.

Lemma Reconcile_creates_witness :
  runs (Reconcile parse0 uri0 ("", "r")) losing0 (Done (Some (EText "timeout"))) /\
  exists cr id link replicas spec', creation_of (CR_Spec cr) request0 id link replicas spec' losing0.
Proof.
  split; [exact losing0_runs|].
  destruct (Reconcile_creates parse0 uri0 ("", "r") losing0 _ request0 (Err (EText "timeout")) losing0_runs)
    as (cr & t' & id & link & replicas & spec' & _ & _ & _ & H).
  { unfold losing0, creating0, begun0, known0. cbn [app]. in_trace. }
  by exists cr, id, link, replicas, spec'.
Defined.

Definition deleted0 : Iboxreplica := MkCR "r" "" annotations0 true [finalizer] "7" spec0 (MkCRStatus "ACTIVE" 3).
Definition deleting0 : cr_trace :=
  [Evt (GetCR ("", "r")) (Found deleted0); Evt (UpdateCR (with_finalizers deleted0 [])) None;
   Evt (Cluster Local BuildClient) None; Evt (Cluster Local (SecretsGet "ns" "ibox1-creds")) (Ok secret0);
   Evt (Array Local (DeleteReplica 3)) (Some (EText "timeout"))].
Lemma Reconcile_deletes_witness :
  runs (Reconcile parse0 uri0 ("", "r")) deleting0 (Done (Some (EText "timeout"))) /\
  exists freeing u v, deleting0 = Evt (GetCR ("", "r")) (Found deleted0) :: freeing ++ u ++ v /\
    ((v = [] /\ Done (Some (EText "timeout")) <> Done None) \/
     (exists a, v = [Evt (Array Local (DeleteReplica 3)) a] /\ Done (Some (EText "timeout")) = Done a)).
Proof.
  assert (H : runs (Reconcile parse0 uri0 ("", "r")) deleting0 (Done (Some (EText "timeout"))))
    by (unfold deleting0, deleted0, spec0, annotations0, finalizer; rerun).
  split; [exact H|].
  destruct (Reconcile_deletes parse0 uri0 ("", "r") deleted0 deleting0 _ H eq_refl eq_refl)
    as (freeing & u & v & H1 & _ & _ & H4).
  exists freeing, u, v. split; [exact H1|exact H4].
Defined.
