(* ===== verification/IboxcgProofs.v ===== *)
(** The consistency group resource: which changes of a group a reconciliation
    makes, and when the replication that was suspended is resumed. *)
From S2P Require Import Prelude GoLib IboxTypes Traces Csi KubeClient StorageCommon VolumeGroup CustomResource CreatePVC Iboxcg.
From stdpp Require Import base strings list gmap.
From Stdlib Require Import ZArith Lia.

Local Open Scope string_scope.
Local Open Scope list_scope.

Abbreviation cg_trace := (list (evt (ccall IboxcgSpec))).
Local Abbreviation prog' := (prog (ccall IboxcgSpec)).

(** ** The changes of a group *)

Definition suspending (r : Replica) (a : option error) : evt (ccall IboxcgSpec) := Evt (Array Local (SuspendReplica (Replica_ID r))) a.
Definition resuming (r : Replica) (a : option error) : evt (ccall IboxcgSpec) := Evt (Array Local (ResumeReplica (Replica_ID r))) a.
Definition adding (v : Volume) (cg : ConsistencyGroupInfo) (a : option error) : evt (ccall IboxcgSpec) :=
  Evt (Array Local (AddMemberToCG (Volume_ID v) (ConsistencyGroupInfo_ID cg) (Volume_Name v))) a.
Definition removing (v : Volume) (cg : ConsistencyGroupInfo) (a : option error) : evt (ccall IboxcgSpec) :=
  Evt (Array Local (RemoveMemberFromCG (ConsistencyGroupInfo_ID cg) (Volume_ID v))) a.

(** The replica that must be suspended: the one of a group with members. *)
Definition to_suspend (found : option Replica) (cgMembers : list MemberInfo) : option Replica :=
  if Nat.eqb (length cgMembers) 0 then None else found.

(** The suspension at the beginning of a change: it fails, the wait for it
    panics, or the change goes on. *)
Inductive suspension (replica : option Replica) (rest : cg_trace -> Prop) (panics : Prop) : cg_trace -> Prop :=
| not_suspended u : replica = None -> rest u -> suspension replica rest panics u
| suspend_refused r err : replica = Some r -> suspension replica rest panics [suspending r (Some err)]
| suspend_panics r : replica = Some r -> panics -> suspension replica rest panics [suspending r None]
| suspended r u : replica = Some r -> rest u -> suspension replica rest panics (suspending r None :: u).

Lemma suspension_mono replica rest (P Q : Prop) u : (P -> Q) -> suspension replica rest P u -> suspension replica rest Q u.
Proof. intros HPQ []; [by apply not_suspended|by econstructor|by eapply suspend_panics; eauto|by eapply suspended]. Qed.
(** Adding: a refused addition leaves the replica suspended. *)
Definition addition (v : Volume) (cg : ConsistencyGroupInfo) (replica : option Replica) (u : cg_trace) : Prop :=
  (exists err, u = [adding v cg (Some err)]) \/
  match replica with
  | None => u = [adding v cg None]
  | Some r => exists b, u = [adding v cg None; resuming r b]
  end.
(** Removing: whatever the array answers, the replica is resumed. *)
Definition removal (v : Volume) (cg : ConsistencyGroupInfo) (replica : option Replica) (u : cg_trace) : Prop :=
  exists a, match replica with
            | None => u = [removing v cg a]
            | Some r => exists b, u = [removing v cg a; resuming r b]
            end.
(** The replica the array answered for the group; none if it answered that
    there is none. *)
Definition replica_found (cg : ConsistencyGroupInfo) (found : option Replica) (t : cg_trace) : Prop :=
  match found with
  | Some r => Evt (Array Local (GetReplicaForCG (ConsistencyGroupInfo_Name cg))) (Ok r) ∈ t
  | None => exists err, Evt (Array Local (GetReplicaForCG (ConsistencyGroupInfo_Name cg))) (Err err) ∈ t /\
                        is_ErrNotFound err = true
  end.
Lemma replica_found_mono cg found t t' : t ⊆ t' -> replica_found cg found t -> replica_found cg found t'.
Proof. intros Hin. destruct found; cbn; [apply Hin|]. intros (err & H & He). exists err. split; [by apply Hin|done]. Qed.

(** What a resource asks, of the volume, the group and the members that were
    read in the run [t]: [panics] says that the handler panicked. *)
Definition change_asked (action : string) (spec : IboxcgSpec) (v : Volume) (cg : ConsistencyGroupInfo)
    (members : list MemberInfo) (panics : Prop) (t cs : cg_trace) : Prop :=
  let is_member := has_member members (IboxcgSpec_LocalVolumeName spec) in
  exists found, replica_found cg found t /\
   ((action = IboxcgBaseActionAdd /\ is_member = false /\
       suspension (to_suspend found members) (addition v cg (to_suspend found members)) panics cs) \/
    (action = IboxcgBaseActionRemove /\ is_member = true /\
       suspension (to_suspend found members) (removal v cg (to_suspend found members)) panics cs)).
Lemma change_asked_mono action spec v cg members (panics panics' : Prop) t t' cs :
  (panics -> panics') -> t ⊆ t' -> change_asked action spec v cg members panics t cs ->
  change_asked action spec v cg members panics' t' cs.
Proof.
  intros HPQ Hin (found & Hf & H). exists found. split; [by eapply replica_found_mono|].
  destruct H as [(H1 & H2 & H3)|(H1 & H2 & H3)]; [left|right];
    (split; [exact H1|]; split; [exact H2|]; by eapply suspension_mono).
Qed.

Section facts.
Context {CU : Controllerutil} (url_Parse : string -> res (string * string)) (url_ParseRequestURI : string -> bool).
Implicit Types (t : cg_trace) (cr : Iboxcg).

Lemma await_changeless n name : every (@changeless IboxcgSpec) (await_suspended n name).
Proof.
  induction n as [|n IH]; cbn; [exact I|]. split; [exact I|]. intros _. split; [done|]. intros [r|err]; [|exact I].
  by destruct (String.eqb _ _).
Qed.
Lemma await_ends n name t o : runs (await_suspended n name) t o -> o = Done tt \/ o = Panicked.
Proof.
  revert t. induction n as [|n IH]; cbn; intros t; [intros [_ ->]; by left|].
  intros (_ & t1 & _ & [r|err] & t2 & _ & H); [|destruct H as [_ ->]; by right].
  destruct (String.eqb _ _); [destruct H as [_ ->]; by left|by eapply IH].
Qed.
Lemma suspend_changes found name cgMembers t o :
  runs (suspend found name cgMembers) t o ->
  match to_suspend found cgMembers with
  | None => array_changes t = [] /\ o = Done None
  | Some r => (exists err, array_changes t = [suspending r (Some err)] /\ o = Done (Some err)) \/
              (array_changes t = [suspending r None] /\ (o = Done None \/ o = Panicked))
  end.
Proof.
  unfold suspend, to_suspend. destruct found as [r|]; [|by intros [-> ->]; destruct (Nat.eqb _ _)].
  destruct (Nat.eqb _ _); [by intros [-> ->]|].
  intros ([err|] & t1 & -> & H); cbn in H; [destruct H as [-> ->]; left; by exists err|right].
  destruct (runs_bind_inv (await_suspended 20 name) (fun _ => Ret None) _ _ H) as [(a & u1 & u2 & -> & H1 & [-> ->])|[[-> H1]|[-> H1]]].
  - rewrite array_changes_here, array_changes_app, (changeless_runs _ _ _ (await_changeless _ _) H1) by done. split; [done|by left].
  - rewrite array_changes_here, (changeless_runs _ _ _ (await_changeless _ _) H1) by done. split; [done|by right].
  - by destruct (await_ends _ _ _ _ H1).
Qed.
Lemma createPVC_changeless cr found : every (@changeless IboxcgSpec) (createPVC url_Parse url_ParseRequestURI cr found).
Proof.
  unfold createPVC. apply every_bind; [apply reads_changeless; unfold getClientService; auto with csi|]. intros [_|err].
  2: { apply every_bind; [apply report_status_changeless|done]. }
  apply every_bind; [apply reads_changeless; unfold remote_client; reads_tac|]. intros [_|err]; [|exact I].
  apply every_bind.
  { apply every_bind; [by split|]. intros [v|err]; [exact I|]. apply every_bind; [apply report_status_changeless|done]. }
  intros [cr' [id|err]]; [|exact I]. apply reads_changeless. unfold create_claim, getRemoteEntities. reads_tac.
Qed.

Lemma resume_changes r t o :
  runs (resume r) t o -> exists b, array_changes t = [resuming r b] /\ o = Done tt.
Proof. intros (b & t1 & -> & -> & ->). by exists b. Qed.

(** The program behind a suspension. *)
Lemma suspension_bind {A} found name cgMembers (f : option error -> prog' (res A)) rest t o :
  (forall err, f (Some err) = Ret (Err err)) ->
  (forall u o, runs (f None) u o -> rest (array_changes u)) ->
  runs (bind (suspend found name cgMembers) f) t o ->
  suspension (to_suspend found cgMembers) rest (o = Panicked) (array_changes t).
Proof.
  intros Herr Hrest Ht.
  destruct (runs_bind_inv _ _ _ _ Ht) as [(a & t1 & t2 & -> & H1%suspend_changes & H2)|[[-> H1%suspend_changes]|[-> H1%suspend_changes]]];
    destruct (to_suspend found cgMembers) as [r|] eqn:Hr.
  - rewrite array_changes_app. destruct H1 as [(err & -> & [= ->])|[-> [[= ->]|[=]]]].
    + rewrite Herr in H2. destruct H2 as [-> ->]. by econstructor.
    + eapply suspended; [done|by eapply Hrest].
  - rewrite array_changes_app. destruct H1 as [-> [= ->]]. apply not_suspended; [done|by eapply Hrest].
  - destruct H1 as [(err & _ & [=])|[-> _]]. by econstructor.
  - by destruct H1 as [_ [=]].
  - by destruct H1 as [(err & _ & [=])|[_ [[=]|[=]]]].
  - by destruct H1 as [_ [=]].
Qed.

Lemma find_replica_found cg t found :
  runs (find_replica (ConsistencyGroupInfo_Name cg)) t (Done (Ok found)) -> replica_found cg found t.
Proof.
  intros (a & t1 & -> & -> & Ha). unfold replica_found. destruct a as [r|err].
  - injection Ha as ->. by left.
  - destruct (is_ErrNotFound err) eqn:He; [injection Ha as ->|discriminate]. exists err. by split; [left|].
Qed.
Lemma handleAddMember_changes cr v cg members t o :
  runs (handleAddMember url_Parse url_ParseRequestURI cr v cg members) t o ->
  array_changes t = [] \/
  has_member members (IboxcgSpec_LocalVolumeName (CR_Spec cr)) = false /\
  exists found, replica_found cg found t /\
    suspension (to_suspend found members) (addition v cg (to_suspend found members)) (o = Panicked) (array_changes t).
Proof.
  unfold handleAddMember. destruct (has_member _ _); [intros [-> _]; by left|]. intros Ht.
  apply changeless_bind in Ht as [[H _]|([found|err] & t1 & t2 & -> & -> & Hf & H)]; [by left| |destruct H as [-> _]; by left|].
  2: { split; [done|]. intros r. by destruct r. }
  right. split; [done|]. exists found.
  split; [eapply replica_found_mono, find_replica_found, Hf; set_solver|]. eapply suspension_bind; [| |exact H]; [done|].
  intros u o' ([err|] & u1 & -> & Hu); cbn in Hu.
  { destruct Hu as [-> ->]. left. by exists err. }
  rewrite array_changes_here by done. right.
  assert (Hrest : forall w o'', runs (match IboxcgSpec_RemoteCreatePVC (CR_Spec cr) with
            | Some true => sleep 3 ;;; created <- createPVC url_Parse url_ParseRequestURI cr
                             (match found with Some _ => true | None => false end) ;; Ret (Ok (fst created))
            | _ => Ret (Ok cr) end : prog' (res Iboxcg)) w o'' -> array_changes w = []).
  { intros w o''. apply changeless_runs. destruct (IboxcgSpec_RemoteCreatePVC _) as [[]|]; try exact I.
    apply every_bind; [by split|]. intros _. apply every_bind; [apply createPVC_changeless|done]. }
  unfold to_suspend. destruct found as [r|]; [|by destruct (Nat.eqb _ _); rewrite (Hrest _ _ Hu)].
  destruct (Nat.eqb _ _); [by rewrite (Hrest _ _ Hu)|].
  destruct Hu as (b & u2 & -> & Hu). cbn in Hu. exists b. by rewrite array_changes_here, (Hrest _ _ Hu).
Qed.

Lemma handleRemoveMember_changes cr v cg members t o :
  runs (handleRemoveMember cr v cg members) t o ->
  array_changes t = [] \/
  has_member members (IboxcgSpec_LocalVolumeName (CR_Spec cr)) = true /\
  exists found, replica_found cg found t /\
    suspension (to_suspend found members) (removal v cg (to_suspend found members)) (o = Panicked) (array_changes t).
Proof.
  unfold handleRemoveMember. destruct (has_member _ _) eqn:Hm; [|intros [-> _]; by left]. cbn [negb]. intros Ht.
  apply changeless_bind in Ht as [[H _]|([found|err] & t1 & t2 & -> & -> & Hf & H)]; [by left| |destruct H as [-> _]; by left|].
  2: { split; [done|]. intros r. by destruct r. }
  right. split; [done|]. exists found.
  split; [eapply replica_found_mono, find_replica_found, Hf; set_solver|]. eapply suspension_bind; [| |exact H]; [done|].
  assert (Hne : Nat.eqb (length members) 0 = false) by (destruct members; [discriminate Hm|done]).
  intros u o' (a & u1 & -> & Hu). rewrite array_changes_here by done. exists a. unfold to_suspend. rewrite Hne.
  destruct found as [r|].
  - destruct Hu as (b & u2 & -> & [-> ->]). exists b. by rewrite array_changes_here.
  - by destruct Hu as [-> ->].
Qed.

(** ** A new resource *)

Lemma change_member_changes cr v cg members t o :
  runs (change_member url_Parse url_ParseRequestURI cr v cg members) t o ->
  array_changes t = [] \/
  change_asked (IboxcgSpec_BaseAction (CR_Spec cr)) (CR_Spec cr) v cg members (o = Panicked) t (array_changes t).
Proof.
  assert (Hrest : forall r : res Iboxcg, every (@changeless IboxcgSpec) (match r with Ok cr => Ret (Ok cr) | Err err => report cr err end)).
  { intros [?|err]; [exact I|apply report_changeless]. }
  unfold change_member. destruct (String.eqb_spec (IboxcgSpec_BaseAction (CR_Spec cr)) IboxcgBaseActionAdd) as [Ha|_];
    [|destruct (String.eqb_spec (IboxcgSpec_BaseAction (CR_Spec cr)) IboxcgBaseActionRemove) as [Hr|_]].
  - intros Ht. destruct (through_inner _ _ _ _ Hrest Ht) as (t1 & t2 & o1 & -> & -> & Ho & H).
    destruct (handleAddMember_changes _ _ _ _ _ _ H) as [H'|(Hm & found & Hf & Hs)]; [by left|right].
    exists found. split; [eapply replica_found_mono, Hf; set_solver|].
    left. split; [done|]. split; [done|]. by eapply suspension_mono.
  - intros Ht. destruct (through_inner _ _ _ _ Hrest Ht) as (t1 & t2 & o1 & -> & -> & Ho & H).
    destruct (handleRemoveMember_changes _ _ _ _ _ _ H) as [H'|(Hm & found & Hf & Hs)]; [by left|right].
    exists found. split; [eapply replica_found_mono, Hf; set_solver|].
    right. split; [done|]. split; [done|]. by eapply suspension_mono.
  - intros Ht. left. eapply changeless_runs; [apply (report_changeless (A := Iboxcg))|exact Ht].
Qed.

(** What was read for a change. *)
Definition change_read (spec : IboxcgSpec) (v : Volume) (cg : ConsistencyGroupInfo) (members : list MemberInfo) t : Prop :=
  Evt (Array Local (GetVolumeByName (IboxcgSpec_LocalVolumeName spec))) (Ok v) ∈ t /\
  Evt (Array Local (GetConsistencyGroupByName (IboxcgSpec_LocalCGName spec))) (Ok cg) ∈ t /\
  Evt (Array Local (GetMembersByCGID (ConsistencyGroupInfo_ID cg))) (members, None) ∈ t.
Definition action_of (spec : IboxcgSpec) : string :=
  if String.eqb (IboxcgSpec_BaseAction spec) "" then IboxcgBaseActionAdd else IboxcgSpec_BaseAction spec.

Lemma record_changeless (r : res Iboxcg) :
  every (@changeless IboxcgSpec) (match r with Ok cr => record_created cr | Err err => Ret (Err err) end).
Proof.
  destruct r as [cr|err]; [|exact I]. apply every_bind; [apply reads_changeless; auto with csi|].
  intros [cr'|err]; [|apply report_changeless]. apply every_bind; [by split|done].
Qed.

(** The rest of the run reports an error. *)
Ltac reported H :=
  rewrite ?array_changes_cons; cbn [changing changes]; eapply changeless_runs; [apply (report_changeless (A := unit))|exact H].

Lemma handleNewCR_changes cr0 t o :
  runs (handleNewCR url_Parse url_ParseRequestURI cr0) t o ->
  array_changes t = [] \/
  exists key cr v cg members, Evt (GetCR key) (Found cr) ∈ t /\ change_read (CR_Spec cr) v cg members t /\
    change_asked (action_of (CR_Spec cr)) (CR_Spec cr) v cg members (o = Panicked) t (array_changes t).
Proof.
  intros Ht. unfold handleNewCR in Ht.
  apply changeless_bind in Ht as [[H _]|([cr|err] & t1 & u1 & -> & -> & Hcr & Ht)];
    [by left| |left; reported Ht|apply reads_changeless; auto with csi].
  apply refresh_ok in Hcr as [key Hcr].
  destruct (String.eqb _ "completed"); [destruct Ht as [-> _]; by left|].
  apply changeless_bind in Ht as [[H _]|([_|err] & t2 & u2 & -> & -> & _ & Ht)];
    [by left| |left; reported Ht
    |apply reads_changeless; unfold getClientService; auto with csi].
  destruct Ht as ([v|err] & u3 & -> & Ht); [|left; reported Ht].
  destruct Ht as ([cg|err] & u4 & -> & Ht); [|left; reported Ht].
  destruct Ht as ([members [err|]] & u5 & -> & Ht); [destruct Ht as [-> _]; by left|].
  rewrite !array_changes_cons. cbn [changing changes].
  destruct (through_inner _ _ _ _ (fun r => record_changeless r) Ht) as (t6 & t7 & o6 & -> & -> & Ho & H).
  destruct (change_member_changes _ _ _ _ _ _ H) as [H'|H']; [by left|right].
  exists key, cr, v, cg, members. split; [apply elem_of_app; by left|]. split.
  - unfold change_read. rewrite !elem_of_app, !elem_of_cons. auto 10.
  - eapply change_asked_mono, H'; [exact Ho|set_solver].
Qed.

(** C34: A reconciliation changes the array only as the resource asks, and only
    once: a volume that is not a member of the group is added, or one that is a
    member is removed. A group that has members and for which the array answered
    a replica has that replica suspended before and resumed after, with two
    exceptions: it stays suspended when the addition is refused, and when the wait
    for the suspension panics; a removal that is refused is followed by the
    resumption like one that is not. The change goes without a suspension only
    when the group has no member or the array answered that it has no replica, and
    nothing is resumed that was not suspended. *)
Theorem Reconcile_members req t o :
  runs (Reconcile url_Parse url_ParseRequestURI req) t o ->
  array_changes t = [] \/
  exists key cr v cg members, Evt (GetCR key) (Found cr) ∈ t /\ change_read (CR_Spec cr) v cg members t /\
    change_asked (action_of (CR_Spec cr)) (CR_Spec cr) v cg members (o = Panicked) t (array_changes t).
Proof.
  intros Ht. unfold Reconcile in Ht. apply runs_call_inv in Ht as (a & t1 & -> & Ht). destruct a as [cr|err|err]; [|destruct Ht as [-> _]; by left..].
  rewrite array_changes_cons. cbn [changing].
  apply changeless_bind in Ht as [[H _]|([err|] & u1 & t2 & -> & -> & _ & Ht)];
    [by left|destruct Ht as [-> _]; by left| |apply handleFinalizer_changeless].
  destruct (CR_Deleted cr); [destruct Ht as [-> _]; by left|].
  destruct (_ =? 0)%Z.
  - apply handleNewCR_changes in Ht as [H|(key & cr' & v & cg & members & Hcr & (H1 & H2 & H3) & Ha)]; [by left|right].
    exists key, cr', v, cg, members. split; [rewrite !elem_of_cons, !elem_of_app; auto|].
    split; [unfold change_read; rewrite !elem_of_cons, !elem_of_app; auto 10|].
    eapply change_asked_mono, Ha; [done|set_solver].
  - left. eapply changeless_runs; [|exact Ht]. apply every_bind; [apply reads_changeless; auto with csi|].
    intros [cr'|err]; [|exact I]. apply every_bind; [by split|done].
Qed.

(** The checks of the wait: at most twenty, a second apart. *)
Lemma await_bounded n name t o : runs (await_suspended n name) t o -> length t <= 2 * n.
Proof.
  revert t. induction n as [|n IH]; cbn; intros t; [intros [-> _]; done|].
  intros ([] & t1 & -> & [r|err] & t2 & -> & H); cbn; [|destruct H as [-> _]; cbn; lia].
  destruct (String.eqb _ _); [destruct H as [-> _]; cbn; lia|]. apply IH in H. lia.
Qed.
End facts.

(** ** Examples *)

#[local] Transparent gmap_empty.

#[local] Instance no_finalizers : Controllerutil := {|
  ContainsFinalizer _ _ := true; AddFinalizer l _ := l; RemoveFinalizer l _ := l |}.
Definition cg_credentials : gmap string string :=
  {[ CredentialHostname := "ibox1"; CredentialUsername := "u"; CredentialPassword := "p" ]}.
Definition cg_annotations : gmap string string :=
  {[ PVCAnnotationSecretName := "ibox1-creds"; PVCAnnotationSecretNamespace := "ns" ]}.
Definition cg_spec (action : string) : IboxcgSpec := MkIboxcgSpec "" "group" "pvc" action "" "" None "" "" "" "" "" "" "".
Definition cg_resource (action : string) : Iboxcg :=
  MkCR "c" "" cg_annotations false [] "1" (cg_spec action) (MkCRStatus "" 0).
Definition cg_volume : Volume := Volume_of 7 "pvc" 1073741824 0 1 "pool" "UNLOCKED" false.
Definition cg_replica (state : string) : Replica := Replica_for 3 state 9.
(** The group has a member and a replica; the array refuses the addition. *)
Definition cg_trace0 : cg_trace :=
  let cr := cg_resource "" in
  [Evt (GetCR ("", "c")) (Found cr); Evt (GetCR ("", "c")) (Found cr); Evt (Cluster Local BuildClient) None;
   Evt (Cluster Local (SecretsGet "ns" "ibox1-creds")) (Ok (MkSecret "ibox1-creds" "ns" "1" cg_credentials ∅));
   Evt (Array Local (GetVolumeByName "pvc")) (Ok cg_volume);
   Evt (Array Local (GetConsistencyGroupByName "group")) (Ok (ConsistencyGroupInfo_of 9 "group"));
   Evt (Array Local (GetMembersByCGID 9)) ([MemberInfo_of 8 8 "other" 1], None);
   Evt (Array Local (GetReplicaForCG "group")) (Ok (cg_replica "ACTIVE"));
   Evt (Array Local (SuspendReplica 3)) None; Evt (Process (Sleep 1)) tt;
   Evt (Array Local (GetReplicaForCG "group")) (Ok (cg_replica "SUSPENDED"));
   Evt (Array Local (AddMemberToCG 7 9 "pvc")) (Some (EText "refused"));
   Evt (UpdateStatus (with_status (with_spec cr (with_action (CR_Spec cr) "ADD")) (MkCRStatus "refused" 0))) (Ok cr)].

Lemma Reconcile_members_witness :
  runs (Reconcile (fun s => Ok ("", s)) (fun _ => true) ("", "c")) cg_trace0 (Done (Err (EText "refused"))) /\
  array_changes cg_trace0 = [suspending (cg_replica "") None;
                             adding cg_volume (ConsistencyGroupInfo_of 9 "group") (Some (EText "refused"))] /\
  exists cr v cg members,
    change_asked (action_of (CR_Spec cr)) (CR_Spec cr) v cg members False cg_trace0 (array_changes cg_trace0).
Proof.
  assert (H : runs (Reconcile (fun s => Ok ("", s)) (fun _ => true) ("", "c")) cg_trace0 (Done (Err (EText "refused"))))
    by (unfold cg_trace0, cg_resource, cg_spec, cg_annotations; cbv zeta; rerun).
  split; [exact H|]. split; [reflexivity|].
  destruct (Reconcile_members (fun s => Ok ("", s)) (fun _ => true) ("", "c") _ _ H)
    as [H'|(key & cr & v & cg & members & _ & _ & H')]; [discriminate H'|].
  exists cr, v, cg, members. eapply change_asked_mono, H'; [discriminate|done].
Defined.
