(* ===== verification/IboxpromoteProofs.v ===== *)
(** The promotion resource and the volumes made for remote entities: what a
    reconciliation promotes, and that the volume objects made are well formed. *)
From S2P Require Import Prelude GoLib IboxTypes Traces Csi KubeClient StorageCommon VolumeGroup StorageCommonProofs CustomResource CreatePVC Iboxpromote.
From stdpp Require Import base strings list gmap.
From Stdlib Require Import ZArith Lia Ascii.

Local Open Scope string_scope.
Local Open Scope list_scope.

Abbreviation promote_trace := (list (evt (ccall IboxpromoteSpec))).

Section promotion.
Context {CU : Controllerutil} (url_Parse : string -> res (string * string)) (url_ParseRequestURI : string -> bool).
Implicit Types (t : promote_trace) (cr : Iboxpromote).

(** The volume a specification names, as a trace has it. *)
Definition names_volume (spec : IboxpromoteSpec) (v : Volume) t : Prop :=
  (IboxpromoteSpec_EntityType spec = "SNAPSHOT" /\
     Evt (Array Local (GetVolumeByName (IboxpromoteSpec_EntityName spec))) (Ok v) ∈ t) \/
  (IboxpromoteSpec_EntityType spec = "KUBE_SNAPSHOT" /\
     exists content handle id,
       Evt (Cluster Local (VolumeSnapshotsGet (IboxpromoteSpec_EntityNamespace spec) (IboxpromoteSpec_EntityName spec)))
         (Ok (Some (Some content))) ∈ t /\
       Evt (Cluster Local (VolumeSnapshotContentsGet content)) (Ok (Some (Some handle))) ∈ t /\
       handle_number handle = Ok id /\ Evt (Array Local (GetVolume id)) (Ok v) ∈ t).

Lemma lookup_ok cr t v :
  runs (lookupEntityByVolumeSnapshotName cr) t (Done (Ok v)) ->
  exists content handle id,
    Evt (Cluster Local (VolumeSnapshotsGet (IboxpromoteSpec_EntityNamespace (CR_Spec cr)) (IboxpromoteSpec_EntityName (CR_Spec cr))))
      (Ok (Some (Some content))) ∈ t /\
    Evt (Cluster Local (VolumeSnapshotContentsGet content)) (Ok (Some (Some handle))) ∈ t /\
    handle_number handle = Ok id /\ Evt (Array Local (GetVolume id)) (Ok v) ∈ t.
Proof.
  intros ([] & u1 & u2 & -> & _ & H)%runs_try_ok.
  apply runs_try_ok in H as (handle & u3 & u4 & -> & H & Hv).
  apply runs_try_call_ok in H as ([[content|]|] & u5 & -> & H); [|by destruct H as [_ [=]]|by destruct H as [_ [=]]].
  apply runs_try_call_ok in H as ([[handle'|]|] & u6 & -> & H); [|by destruct H as [_ [=]]|by destruct H as [_ [=]]].
  destruct H as [-> [= ->]]. destruct (handle_number handle') as [id|err] eqn:Hid; [|by destruct Hv as [_ [=]]].
  destruct Hv as (r & u7 & -> & -> & [= ->]). exists content, handle', id.
  rewrite !elem_of_app, !elem_of_cons. auto 10.
Qed.
Lemma find_entity_ok cr t v : runs (find_entity cr) t (Done (Ok v)) -> names_volume (CR_Spec cr) v t.
Proof.
  unfold find_entity, names_volume. destruct (String.eqb_spec (IboxpromoteSpec_EntityType (CR_Spec cr)) "KUBE_SNAPSHOT") as [H1|_].
  - intros H%lookup_ok. by right.
  - destruct (String.eqb_spec (IboxpromoteSpec_EntityType (CR_Spec cr)) "SNAPSHOT") as [H2|_].
    + intros (r & t1 & -> & -> & [= ->]). left. split; [done|left].
    + intros [_ [=]].
Qed.
Lemma find_entity_reads cr : reads (find_entity cr).
Proof. unfold find_entity, lookupEntityByVolumeSnapshotName, snapshot_client, snapshot_handle. reads_tac. Qed.

Definition promoting (v : Volume) (a : res Volume) : evt (ccall IboxpromoteSpec) := Evt (Array Local (PromoteSnapshot (Volume_ID v))) a.
(** The number of the promoted volume is stored. *)
Definition recorded (a : res Volume) t : Prop :=
  exists response obj cr', a = Ok response /\ Evt (UpdateStatus obj) (Ok cr') ∈ t /\
    CR_Status obj = MkCRStatus "created" (Volume_ID response).

Lemma createPromote_promotes cr t o :
  runs (createPromote url_Parse url_ParseRequestURI cr) t o ->
  array_changes t = [] \/
  exists v a, (IboxpromoteSpec_BaseAction (CR_Spec cr) = "" \/ IboxpromoteSpec_BaseAction (CR_Spec cr) = IboxpromoteBaseActionNew) /\
    names_volume (CR_Spec cr) v t /\ Volume_Type v <> "MASTER" /\ array_changes t = [promoting v a] /\
    (o = Done (Ok tt) -> recorded a t).
Proof.
  unfold createPromote. intros Ht.
  set (action := if String.eqb _ "" then _ else _) in Ht.
  destruct (String.eqb_spec action IboxpromoteBaseActionNew) as [Hact|_]; cbn [negb] in Ht;
    [|left; eapply changeless_runs; [apply (report_changeless (A := unit))|exact Ht]].
  apply changeless_bind in Ht as [[H _]|([_|err] & t1 & u1 & -> & -> & _ & Ht)];
    [by left| |left; eapply changeless_runs; [apply (report_changeless (A := unit))|exact Ht]
    |apply reads_changeless; unfold getClientService; auto with csi].
  apply changeless_bind in Ht as [[H _]|([v|err] & t2 & u2 & -> & -> & Hv & Ht)];
    [by left| |left; eapply changeless_runs; [apply (report_changeless (A := unit))|exact Ht]
    |apply reads_changeless, find_entity_reads].
  apply find_entity_ok in Hv.
  destruct (String.eqb_spec (Volume_Type v) "MASTER") as [_|Hm]; [destruct Ht as [-> _]; by left|right].
  destruct Ht as (a & u3 & -> & Ht). exists v, a. rewrite array_changes_here by done.
  split; [subst action; by destruct (String.eqb_spec (IboxpromoteSpec_BaseAction (CR_Spec cr)) "") as [->|_]; [left|right]|].
  split; [|split; [done|]].
  - unfold names_volume in *. cbn [CR_Spec with_spec IboxpromoteSpec_EntityType IboxpromoteSpec_EntityName
      IboxpromoteSpec_EntityNamespace with_action] in Hv. setoid_rewrite elem_of_app. setoid_rewrite elem_of_app. clear -Hv. naive_solver.
  - destruct a as [response|err].
    + change (runs (record_promoted (with_spec cr (with_action (CR_Spec cr) action)) response) u3 o) in Ht.
      unfold record_promoted in Ht.
      apply changeless_bind in Ht as [[H Ho]|([cr'|err] & t4 & u4 & -> & Hu & _ & Ht)]; [| | |apply reads_changeless; auto with csi].
      * rewrite H. split; [done|]. intros ->. by destruct Ho as [[[=] _]|[=]].
      * destruct Ht as (upd & u5 & -> & -> & ->). rewrite Hu. split; [done|].
        intros [= Ho]. destruct upd as [cr''|]; [|discriminate Ho]. exists response, (with_status cr' (MkCRStatus "created" (Volume_ID response))), cr''.
        split; [done|]. split; [|done]. rewrite !elem_of_app, elem_of_cons, elem_of_app, elem_of_cons. auto 10.
      * rewrite Hu. destruct Ht as (upd & u5 & -> & -> & ->). split; [done|]. discriminate.
    + destruct Ht as (upd & u5 & -> & -> & ->). split; [done|]. discriminate.
Qed.

(** C35: What a reconciliation promotes: at most one snapshot, and only for a
    resource that is not deleted, has no number and asks for a new promotion: the
    volume of the name given, or the one the handle of the named volume snapshot
    leads to, when it is not a volume of its own already. A reconciliation that
    promotes and succeeds has stored the number of the promoted volume. *)
Theorem Reconcile_promotes req t o :
  runs (Reconcile url_Parse url_ParseRequestURI req) t o ->
  array_changes t = [] \/
  exists cr v a, Evt (GetCR req) (Found cr) ∈ t /\ CR_Deleted cr = false /\ Status_ID (CR_Status cr) = 0%Z /\
    (IboxpromoteSpec_BaseAction (CR_Spec cr) = "" \/ IboxpromoteSpec_BaseAction (CR_Spec cr) = IboxpromoteBaseActionNew) /\
    names_volume (CR_Spec cr) v t /\ Volume_Type v <> "MASTER" /\ array_changes t = [promoting v a] /\
    (o = Done (Ok tt) -> recorded a t).
Proof.
  intros Ht. unfold Reconcile in Ht. apply runs_call_inv in Ht as (x & t1 & -> & Ht).
  destruct x as [cr|err|err]; [|destruct Ht as [-> _]; by left..].
  rewrite array_changes_cons. cbn [changing].
  apply changeless_bind in Ht as [[H _]|([err|] & u1 & t2 & -> & -> & _ & Ht)];
    [by left|destruct Ht as [-> _]; by left| |apply (handleFinalizer_changeless finalizer)].
  destruct (CR_Deleted cr) eqn:Hd; [destruct Ht as [-> _]; by left|].
  destruct (Z.eqb_spec (Status_ID (CR_Status cr)) 0) as [Hz|_].
  - apply createPromote_promotes in Ht as [H|(v & a & H1 & H2 & H3 & H4 & H5)]; [by left|right].
    exists cr, v, a. split; [left|]. do 3 (split; [done|]). split; [|split; [done|split; [done|]]].
    + clear -H2. unfold names_volume in *. setoid_rewrite elem_of_cons. setoid_rewrite elem_of_app. naive_solver.
    + intros Ho. destruct (H5 Ho) as (response & obj & cr' & -> & Hin & Hst). exists response, obj, cr'.
      split; [done|]. split; [|done]. rewrite elem_of_cons, elem_of_app. auto.
  - left. eapply changeless_runs; [|exact Ht]. apply every_bind; [apply reads_changeless; auto with csi|].
    intros [cr'|err]; [|exact I]. apply every_bind; [by split|done].
Qed.
End promotion.

(** ** Volumes for remote entities *)

(** The volume object a local one is turned into names the remote volume by a
    handle the driver reads back, the credential of the remote array in every
    reference, and the pool that was looked up there. *)
Record well_formed (localPV : PersistentVolume) (id : Z) (proto : string) (credential : secret_ref) (pool : string)
    (pv : PersistentVolume) : Prop := {
  wf_source : exists csi, PV_CSI pv = Some csi /\
    (ValidateVolumeID (PV_VolumeHandle csi) = Ok (MkVolumeProtocolConfig id proto "" None "" 0)) /\
    Forall (fun ref => ref = Some credential)
      [PV_ControllerPublishSecretRef csi; PV_ControllerExpandSecretRef csi; PV_NodeStageSecretRef csi;
       PV_NodePublishSecretRef csi; PV_NodeExpandSecretRef csi] /\
    PV_VolumeAttributes csi !! StorageClassPoolName = Some pool /\
    PV_VolumeAttributes csi !! StorageClassStorageProtocol = Some proto;
  wf_claimable : PV_AccessModes pv = PV_AccessModes localPV /\ PV_Capacity pv = PV_Capacity localPV /\
    PV_StorageClassName pv = PV_StorageClassName localPV
}.

(** Where the events of a program put volumes. *)
Definition makes_volume {Spec} (s : site) (pv : PersistentVolume) (t : list (evt (ccall Spec))) : Prop :=
  exists a, Evt (Cluster s (PersistentVolumesCreate pv)) a ∈ t.
Definition no_volume {Spec X} (c : ccall Spec X) : Prop :=
  match c with Cluster _ k => match k with PersistentVolumesCreate _ => False | _ => True end | _ => True end.
Lemma no_volume_in {Spec A} (p : prog (ccall Spec) A) t o s pv :
  every (@no_volume Spec) p -> runs p t o -> makes_volume s pv t -> False.
Proof.
  intros Hp Ht [a Hin]. pose proof (every_runs _ _ _ _ Hp Ht) as Hall.
  by apply (proj1 (List.Forall_forall _ _) Hall _ (proj1 (list_elem_of_In _ _) Hin)).
Qed.
Lemma makes_app {Spec} s pv (t u : list (evt (ccall Spec))) : makes_volume s pv (t ++ u) <-> makes_volume s pv t \/ makes_volume s pv u.
Proof. unfold makes_volume. setoid_rewrite elem_of_app. naive_solver. Qed.

Lemma alternate_no_volume {Spec} a b : every (@no_volume Spec) (alternate_credential a b).
Proof.
  unfold alternate_credential, BuildClientFromSecret, GetSecret, on.
  repeat match goal with
    | |- forall _, _ => intros ?
    | |- every _ (bind _ _) => apply every_bind
    | |- every _ (match ?x with _ => _ end) => destruct x
    | |- every _ (interp _ (match ?x with _ => _ end)) => destruct x
    | |- every _ (cluster _ _) => split
    | |- _ => progress cbn
    | |- _ /\ _ => split
    | |- True => exact I
    end.
Qed.

Lemma append_longer a b : b <> "" -> a +:+ b <> a.
Proof.
  intros Hb. induction a as [|c a IH]; cbn; [done|]. intros [= H]. by apply IH.
Qed.
Lemma remote_attributes_pool attrs space pool ip : remote_attributes attrs space pool ip !! StorageClassPoolName = Some pool.
Proof.
  unfold remote_attributes. destruct (String.eqb ip ""); rewrite ?(lookup_insert_ne _ "ipAddress") by done;
    rewrite (lookup_insert_ne _ StorageClassNetworkSpace) by done; by rewrite lookup_insert.
Qed.
Lemma remote_attributes_proto attrs space pool ip :
  remote_attributes attrs space pool ip !! StorageClassStorageProtocol = Some (attrs.[StorageClassStorageProtocol]).
Proof.
  unfold remote_attributes. destruct (String.eqb ip ""); rewrite ?(lookup_insert_ne _ "ipAddress") by done;
    rewrite (lookup_insert_ne _ StorageClassNetworkSpace), (lookup_insert_ne _ StorageClassPoolName) by done;
    unfold copied_attributes; cbn [map list_to_map foldr fst snd]; by repeat (rewrite lookup_insert_ne by done) ; rewrite lookup_insert.
Qed.

Section volumes.
Context {Spec : Type}.

(** C36: A volume object made for a remote entity is well formed, whatever local
    volume it is made from: its handle is read back to the number of the remote
    entity and the local protocol, every reference is the credential of the remote
    array, its pool exists there; it claims what the local one claims. It is made
    on the alternate cluster exactly when a kubeconfig for it is named, and on the
    same cluster under another name than the local volume's. *)
Theorem CreateRemotePV_well_formed localPV csi id ip pool suffix space credential alternate t o s pv :
  runs (CreateRemotePV (Spec := Spec) localPV id ip pool suffix space credential alternate) t o ->
  makes_volume s pv t -> PV_CSI localPV = Some csi ->
  let proto := (PV_VolumeAttributes csi).[StorageClassStorageProtocol] in
  in_i64 id -> proto <> "" -> mentions "$"%char proto = false -> proto <> ProtocolTreeq ->
  exists poolToUse, well_formed localPV id proto credential poolToUse pv /\
    (exists p, Evt (Array Remote (GetPoolByName poolToUse)) (Ok p) ∈ t) /\
    s = (if String.eqb (fst alternate) "" then Local else Remote) /\
    (s = Local -> PV_Name pv <> PV_Name localPV).
Proof.
  intros Ht Hmake Hcsi proto Hid Hne Hd Hq. unfold CreateRemotePV in Ht. rewrite Hcsi in Ht. cbv zeta in Ht.
  set (poolToUse := if String.eqb pool "" then _ else _) in Ht.
  set (remotePV := remote_pv _ _ _ _ _ _ _ _) in Ht.
  destruct Ht as ([p|err] & u1 & -> & Ht).
  2: { destruct Ht as [-> _]. destruct Hmake as [a Ha]. rewrite elem_of_cons, elem_of_nil in Ha. by destruct Ha as [[=]|[]]. }
  destruct Ht as ([err|] & u2 & -> & Ht).
  { destruct Ht as [-> _]. destruct Hmake as [a Ha]. rewrite !elem_of_cons, elem_of_nil in Ha. by destruct Ha as [[=]|[[=]|[]]]. }
  assert (Hm : makes_volume s pv u2).
  { destruct Hmake as [a Ha]. rewrite !elem_of_cons in Ha. destruct Ha as [[=]|[[=]|Ha]]. by exists a. }
  assert (Hone : forall site (v : list (evt (ccall Spec))) o', runs (cluster site (PersistentVolumesCreate remotePV)) v o' -> makes_volume s pv v -> s = site /\ pv = remotePV).
  { intros site v o' (a & v' & -> & -> & _) [a' Hin].
    apply elem_of_cons in Hin as [He|Hin]; [by injection He|by apply elem_of_nil in Hin]. }
  assert (Hs : s = (if String.eqb (fst alternate) "" then Local else Remote) /\ pv = remotePV).
  { destruct (String.eqb (fst alternate) ""); [by eapply Hone|].
    cbn [bind] in Ht. destruct (runs_bind_inv _ _ _ _ Ht) as [([[]|err] & v1 & v2 & -> & H1 & H2)|[[_ H1]|[_ H1]]].
    - apply makes_app in Hm as [Hm|Hm]; [by destruct (no_volume_in _ _ _ _ _ (alternate_no_volume _ _) H1 Hm)|by eapply Hone].
    - destruct H2 as [-> _]. rewrite app_nil_r in Hm. by destruct (no_volume_in _ _ _ _ _ (alternate_no_volume _ _) H1 Hm).
    - by destruct (no_volume_in _ _ _ _ _ (alternate_no_volume _ _) H1 Hm).
    - by destruct (no_volume_in _ _ _ _ _ (alternate_no_volume _ _) H1 Hm). }
  destruct Hs as [-> ->]. exists poolToUse. split; [|split; [exists p; left|split; [done|]]].
  - split; [|done]. eexists. split; [done|]. split; [by apply volume_id_read|]. split; [by repeat constructor|].
    split; [by apply remote_attributes_pool|by apply remote_attributes_proto].
  - destruct (String.eqb_spec (fst alternate) "") as [Ha|_]; [intros _|done]. cbn. rewrite Ha. unfold remote_pv_name.
    destruct (String.eqb_spec suffix "") as [_|Hsuf]; cbn; by apply append_longer.
Qed.
End volumes.

(** ** Examples *)

#[local] Transparent gmap_empty.

#[local] Instance promote_finalizers : Controllerutil := {|
  ContainsFinalizer _ _ := true; AddFinalizer l _ := l; RemoveFinalizer l _ := l |}.
Definition promote_annotations : gmap string string :=
  {[ PVCAnnotationSecretName := "ibox1-creds"; PVCAnnotationSecretNamespace := "ns" ]}.
Definition promote_credentials : gmap string string :=
  {[ CredentialHostname := "ibox1"; CredentialUsername := "u"; CredentialPassword := "p" ]}.
Definition promote_resource : Iboxpromote :=
  MkCR "p" "" promote_annotations false [] "1" (MkIboxpromoteSpec "" "KUBE_SNAPSHOT" "snap" "default" "NEW") (MkCRStatus "" 0).
Definition promoted_volume : Volume := Volume_of 7 "snap" 1073741824 3 1 "pool" "UNLOCKED" false.
Definition promote_trace0 : promote_trace :=
  [Evt (GetCR ("", "p")) (Found promote_resource); Evt (Cluster Local BuildClient) None;
   Evt (Cluster Local (SecretsGet "ns" "ibox1-creds")) (Ok (MkSecret "ibox1-creds" "ns" "1" promote_credentials ∅));
   Evt (Cluster Local InClusterConfig) None; Evt (Cluster Local SnapshotClient) None;
   Evt (Cluster Local (VolumeSnapshotsGet "default" "snap")) (Ok (Some (Some "content")));
   Evt (Cluster Local (VolumeSnapshotContentsGet "content")) (Ok (Some (Some "7$$fc")));
   Evt (Array Local (GetVolume 7)) (Ok promoted_volume); Evt (Array Local (PromoteSnapshot 7)) (Ok promoted_volume);
   Evt (GetCR ("", "p")) (Found promote_resource);
   Evt (UpdateStatus (with_status promote_resource (MkCRStatus "created" 7))) (Ok promote_resource)].
Lemma Reconcile_promotes_witness :
  runs (Reconcile (fun s => Ok ("", s)) (fun _ => true) ("", "p")) promote_trace0 (Done (Ok tt)) /\
  exists cr v a, names_volume (CR_Spec cr) v promote_trace0 /\ array_changes promote_trace0 = [promoting v a] /\ recorded a promote_trace0.
Proof.
  assert (H : runs (Reconcile (fun s => Ok ("", s)) (fun _ => true) ("", "p")) promote_trace0 (Done (Ok tt)))
    by (unfold promote_trace0, promote_resource, promote_annotations; rerun).
  split; [exact H|].
  destruct (Reconcile_promotes (fun s => Ok ("", s)) (fun _ => true) ("", "p") _ _ H)
    as [H'|(cr & v & a & _ & _ & _ & _ & H1 & _ & H2 & H3)]; [discriminate H'|].
  exists cr, v, a. split; [exact H1|]. split; [exact H2|exact (H3 eq_refl)].
Defined.

Definition local_source : CSIPersistentVolumeSource :=
  MkCSIPersistentVolumeSource "infinibox-csi-driver" "7$$fc"
    {[ StorageClassStorageProtocol := "fc"; StorageClassPoolName := "pool" ]} None None None None None.
Definition local_volume : PersistentVolume :=
  MkPersistentVolume "csi-7" ∅ ["ReadWriteOnce"] {[ "storage" := "1Gi" ]} 1 [] "Delete" "ibox" None (Some local_source).
Definition made_volume : PersistentVolume :=
  remote_pv local_volume local_source "csi-7-remote" 70 "" "" "pool" ("ibox2-creds", "ns").
Definition volume_trace0 : promote_trace :=
  [Evt (Array Remote (GetPoolByName "pool")) (Ok (PoolResult_of 10 "pool" false)); Evt (Cluster Local BuildClient) None;
   Evt (Cluster Local (PersistentVolumesCreate made_volume)) (Ok made_volume)].
Lemma CreateRemotePV_well_formed_witness :
  runs (CreateRemotePV local_volume 70 "" "" "" "" ("ibox2-creds", "ns") ("", "")) volume_trace0 (Done (Ok made_volume)) /\
  exists pool, well_formed local_volume 70 "fc" ("ibox2-creds", "ns") pool made_volume.
Proof.
  assert (H : runs (CreateRemotePV local_volume 70 "" "" "" "" ("ibox2-creds", "ns") ("", "")) volume_trace0 (Done (Ok made_volume)))
    by (unfold volume_trace0, local_volume, local_source; rerun).
  split; [exact H|].
  destruct (CreateRemotePV_well_formed local_volume local_source 70 "" "" "" "" ("ibox2-creds", "ns") ("", "")
              volume_trace0 _ Local made_volume H) as (pool & Hwf & _).
  - exists (Ok made_volume). unfold volume_trace0. in_trace.
  - reflexivity.
  - split; vm_compute; discriminate.
  - discriminate.
  - reflexivity.
  - discriminate.
  - exists pool. exact Hwf.
Defined.
