(* ===== verification/Events.v ===== *)
(** The events the driver sends to the array every day ([helper/customevent.go]):
    what it counted since the last time, and how full the pools of its volumes
    are. The counters, which the handlers increment, are a state passed in and
    out. *)
From S2P Require Import Prelude GoLib IboxTypes Fmt Csi KubeClient StorageCommon VolumeGroup.
From stdpp Require Import base strings list gmap.
From Stdlib Require Import ZArith.

Local Open Scope string_scope.
Local Open Scope list_scope.

(** The globals. *)
Record counters := MkCounters {
  EventCreatedVolumes : Z;
  EventCreatedSnapshots : Z;
  EventPublishedVolumes : gmap string Z;
  EventNFSVersions : gmap string Z
}.
(** The protocols, in the order their counts are printed. *)
Definition event_protocols : list string := [ProtocolNFS; ProtocolTreeq; ProtocolISCSI; ProtocolFC; ProtocolNVME].
Definition no_publications : gmap string Z := list_to_map (map (fun p => (p, 0%Z)) event_protocols).
(** What [init] sets. *)
Definition initial_counters : counters := MkCounters 0 0 no_publications ∅.

Definition count (m : gmap string Z) (key : string) : Z := default 0%Z (m !! key).
(** [%v] of a map of counts, in the order of the keys. *)
Definition fmt_counts (m : gmap string Z) : string :=
  let pairs := foldr (fun kv l => insert_key (fst kv) (Itoa (snd kv)) l) [] (map_to_list m) in
  "map" +:+ brackets (map (fun kv => fst kv +:+ ":" +:+ snd kv) pairs).

Definition event_data (name value : string) : EventRequestData := MkEventRequestData name "String" value.

(** [CREATE_EVENTS]: on when it is not set. *)
Definition events_enabled (setting : string) : res bool := if String.eqb setting "" then Ok true else ParseBool setting.

Definition CreateEvent (desc : string) (eventData : list EventRequestData) : prog call (option error) :=
  setting <- osAPI (Getenv EnvVarCreateEvents) ;;
  match events_enabled setting with
  | Err err => Ret (Some err)
  | Ok false => Ret None
  | Ok true =>
      version <- osAPI (Getenv EnvVarCSIDriverVersion) ;;
      osVersion <- osAPI (Getenv EnvVarOSVersion) ;;
      kubeVersion <- osAPI (Getenv EnvVarKubeVersion) ;;
      kubeNodeCount <- osAPI (Getenv EnvVarNodeCount) ;;
      nodeName <- osAPI (Getenv EnvVarKubeNodeName) ;;
      systemDetails <- iboxAPI GetSystem ;;
      let serial := match systemDetails with Ok n => [event_data "serial_number" (Itoa n)] | Err _ => [] end in
      iboxAPI (IboxTypes.CreateEvent (MkEventRequest
        (eventData ++
         [event_data "csi_driver_version" version; event_data "os_version" osVersion;
          event_data "kube_version" kubeVersion; event_data "kube_node_name" nodeName;
          event_data "kube_node_count" kubeNodeCount; event_data "event_desc" desc] ++ serial)
        "ECOSYSTEM_TOOLS_HEARTBEAT"))
  end.
(** An event of one action; its error is only logged. *)
Definition report (action desc : string) : prog call unit :=
  CreateEvent desc [event_data CustomEventAction action] ;;; Ret tt.

Definition published_desc (published : gmap string Z) : string :=
  "CSI - Published [" +:+ String.concat "," event_protocols +:+ "] ["
  +:+ String.concat "," (map (fun p => Itoa (count published p)) event_protocols) +:+ "] Volumes".
Definition pub_count (published : gmap string Z) : Z :=
  fold_left (fun sum p => i64 (sum + count published p)) event_protocols 0%Z.

(** What is reported of the counters: action and description. *)
Definition reports (c : counters) : list (string * string) :=
  (if (0 <? EventCreatedVolumes c)%Z
   then [("Created Volume", "CSI - Created Volumes: " +:+ Itoa (EventCreatedVolumes c))] else []) ++
  (if (0 <? EventCreatedSnapshots c)%Z
   then [("Created Snapshot", "CSI - Created Snapshots: " +:+ Itoa (EventCreatedSnapshots c))] else []) ++
  (if (0 <? pub_count (EventPublishedVolumes c))%Z
   then [("Published Volumes", published_desc (EventPublishedVolumes c))] else []) ++
  (if (0 <? size (EventNFSVersions c))%nat
   then [("NFS Versions", "CSI - NFS Versions [" +:+ fmt_counts (EventNFSVersions c) +:+ "]")] else []).
Fixpoint report_all (l : list (string * string)) : prog call unit :=
  match l with
  | [] => Ret tt
  | (action, desc) :: rest => report action desc ;;; report_all rest
  end.
(** The counts of the five protocols are set to zero, others stay. *)
Definition reset (c : counters) : counters :=
  MkCounters 0 0 (no_publications ∪ EventPublishedVolumes c) ∅.

Section client.
Context (url_Parse : string -> res (string * string)) (url_ParseRequestURI : string -> bool).

(** The counters afterwards; they are kept when there is no array to report to. *)
Definition processEventCountersImpl (c : counters) : prog call counters :=
  namespace <- osAPI (Getenv EnvVarPodNamespace) ;;
  credName <- osAPI (Getenv EnvVarPrimaryIboxCredential) ;;
  if String.eqb credName "" then Ret c
  else
    client <- kubeAPI BuildClient ;;
    match client with
    | Some _ => Ret c
    | None =>
        try secretMap <- GetSecret credName namespace catch _err => Ret c ;;
        try _cs <- NewClient url_Parse url_ParseRequestURI secretMap catch _err => Ret c ;;
        report_all (reports c) ;;;
        Ret (reset c)
    end.

(** The names of the pools of the driver's volumes; [None] where a volume has no
    [Spec.CSI]. *)
Fixpoint used_pools (items : list PersistentVolume) : option (list string) :=
  match items with
  | [] => Some []
  | pv :: rest =>
      if String.eqb (provisioned_by pv) "infinibox-csi-driver" then
        match PV_CSI pv with
        | None => None
        | Some csi =>
            let poolName := (PV_VolumeAttributes csi).[StorageClassPoolName] in
            names ← used_pools rest;
            Some (if String.eqb poolName "" then names else poolName :: names)
        end
      else used_pools rest
  end.
(** Percentages of the physical capacity, in whole numbers; [None] is the panic of
    a division by zero. *)
Definition pool_usage (pool : PoolResult) : option (Z * Z) :=
  if (PoolResult_PhysicalCapacity pool =? 0)%Z then None
  else
    let pctUsed := i64 (Z.quot (i64 (PoolResult_TotalDiskUsage pool * 100)) (PoolResult_PhysicalCapacity pool)) in
    Some (pctUsed, i64 (100 - pctUsed)).
Definition pool_desc (poolName : string) (usage : Z * Z) : string :=
  "Pool [" +:+ poolName +:+ "] Used [" +:+ Itoa (fst usage) +:+ "] Avail [" +:+ Itoa (snd usage) +:+ "]".
Fixpoint report_pools (names : list string) : prog call unit :=
  match names with
  | [] => Ret tt
  | poolName :: rest =>
      pool <- iboxAPI (GetPoolByName poolName) ;;
      match pool with
      | Err _ => Ret tt
      | Ok pool =>
          match pool_usage pool with
          | None => Panic
          | Some usage => report "Pool Usage" (pool_desc poolName usage) ;;; report_pools rest
          end
      end
  end.

Definition updatePoolMetricsImpl : prog call unit :=
  client <- kubeAPI BuildClient ;;
  match client with
  | Some _ => Ret tt
  | None =>
      try pvList <- kubeAPI PersistentVolumesList catch _err => Ret tt ;;
      match used_pools pvList with
      | None => Panic
      | Some names =>
          namespace <- osAPI (Getenv EnvVarPodNamespace) ;;
          credName <- osAPI (Getenv EnvVarPrimaryIboxCredential) ;;
          if String.eqb credName "" then Ret tt
          else
            try secretMap <- GetSecret credName namespace catch _err => Ret tt ;;
            try _cs <- NewClient url_Parse url_ParseRequestURI secretMap catch _err => Ret tt ;;
            order <- osAPI (MapOrder (remove_dups names)) ;;
            report_pools order
      end
  end.
End client.

Example published_desc_example :
  published_desc (<[ProtocolISCSI := 3%Z]> no_publications)
  = "CSI - Published [nfs,nfs_treeq,iscsi,fc,nvme] [0,0,3,0,0] Volumes".
Proof. vm_compute. reflexivity. Qed.
Example fmt_counts_example :
  fmt_counts {[ "4.1" := 2%Z; "3" := 10%Z ]} = "map[3:10 4.1:2]".
Proof. vm_compute. reflexivity. Qed.
