(* ===== verification/EventsProofs.v ===== *)
(** Properties of the daily events: which counts are reported, and what becomes of
    the counters. *)
From stdpp Require Import base strings list gmap.
From S2P Require Import Prelude GoLib IboxTypes Traces Csi KubeClient StorageCommon VolumeGroup Events.
From Stdlib Require Import ZArith Lia.

Local Open Scope string_scope.
Local Open Scope list_scope.

(** ** What is sent *)

(** The action and the description of an event. *)
Definition datum (name : string) (r : EventRequest) : string :=
  match List.find (fun d => String.eqb (EventRequestData_Name d) name) (EventRequest_Data r) with
  | Some d => EventRequestData_Value d
  | None => ""
  end.
Definition sending {X} (c : call X) : option (string * string) :=
  match c with
  | Ibox (IboxTypes.CreateEvent r) => Some (datum CustomEventAction r, datum "event_desc" r)
  | _ => None
  end.
Definition sent (t : trace) : list (string * string) := omap (fun e => match e with Evt c _ => sending c end) t.
Lemma reported_app t t' : sent (t ++ t') = sent t ++ sent t'.
Proof. apply omap_app. Qed.

(** [CREATE_EVENTS] is read to be on, at every time. *)
Definition switched_on {X} (c : call X) : X -> Prop :=
  match c in call X return X -> Prop with
  | Os o => match o in os X return X -> Prop with
            | Getenv key => fun v => key = EnvVarCreateEvents -> events_enabled v = Ok true
            | _ => fun _ => True
            end
  | _ => fun _ => True
  end.
Definition always_on (t : trace) : Prop := Forall (fun e => match e with Evt c x => switched_on c x end) t.

Lemma report_runs action desc t o :
  runs (report action desc) t o ->
  o = Done tt /\ (sent t = [] \/ sent t = [(action, desc)]) /\ (always_on t -> sent t = [(action, desc)]).
Proof.
  unfold report, CreateEvent. intros (setting & t1 & -> & H). cbn [bind] in H.
  destruct (events_enabled setting) as [[]|err] eqn:Hs.
  - do 6 (destruct H as (? & ? & -> & H); cbn [bind] in H). destruct H as (e & ? & -> & -> & ->).
    split; [done|]. destruct x4; (split; [by right|done]).
  - destruct H as [-> ->]. split; [done|]. split; [by left|]. intros Hon. inversion_clear Hon as [|?? Hx _].
    cbn in Hx. specialize (Hx eq_refl). congruence.
  - destruct H as [-> ->]. split; [done|]. split; [by left|]. intros Hon. inversion_clear Hon as [|?? Hx _].
    cbn in Hx. specialize (Hx eq_refl). congruence.
Qed.
Lemma report_all_runs l t o :
  runs (report_all l) t o -> o = Done tt /\ sublist (sent t) l /\ (always_on t -> sent t = l).
Proof.
  revert t. induction l as [|[action desc] l IH]; intros t; cbn [report_all].
  { intros [-> ->]. done. }
  intros H. apply runs_bind_inv in H as [(u & t1 & t2 & -> & H1 & H2)|[[-> H1]|[-> H1]]].
  2-3: by apply report_runs in H1 as [? _].
  apply report_runs in H1 as (_ & Hs & Hon). apply IH in H2 as (-> & Hs2 & Hon2). rewrite reported_app.
  split; [done|]. split.
  - destruct Hs as [-> | ->]; [by apply sublist_cons|by apply sublist_skip].
  - intros [H1 H2]%Forall_app. by rewrite Hon, Hon2.
Qed.

Lemma readonly_unsent t : readonly t -> sent t = [].
Proof.
  induction 1 as [|[X c x] t Hc _ IH]; [done|]. unfold sent in *. cbn. rewrite IH. destruct c as [Y i|Y k|Y y]; [|done..]. by destruct i.
Qed.

Section client.
Context (url_Parse : string -> res (string * string)) (url_ParseRequestURI : string -> bool).

(** What the daily report does: without a client for the array nothing is sent and
    the counters stay; otherwise the counts that are not zero are sent, each once,
    in their order (all of them when events are on, and some may be dropped by the
    array), and the counters start again from zero. *)
Lemma processEventCountersImpl_spec c t o :
  runs (processEventCountersImpl url_Parse url_ParseRequestURI c) t o ->
  (o = Done c /\ sent t = []) \/ (o = Panicked /\ sent t = []) \/
  (o = Done (reset c) /\ sublist (sent t) (reports c) /\ (always_on t -> sent t = reports c)).
Proof.
  unfold processEventCountersImpl. intros (ns & t1 & -> & cred & t2 & -> & H). cbn [bind] in H.
  destruct (String.eqb cred ""); [destruct H as [-> ->]; by left|].
  destruct H as (client & t3 & -> & H). cbn [bind] in H. destruct client as [err|]; [destruct H as [-> ->]; by left|].
  set (rest := fun t => (o = Done c /\ sent t = []) \/ (o = Panicked /\ sent t = []) \/
     (o = Done (reset c) /\ sublist (sent t) (reports c) /\ (always_on t -> sent t = reports c))).
  assert (Hskip : rest t3 -> rest (Evt (Os (Getenv EnvVarPodNamespace)) ns :: Evt (Os (Getenv EnvVarPrimaryIboxCredential)) cred
                                    :: Evt (Kube BuildClient) None :: t3)).
  { intros [H'|[H'|(Ho & Hs & Hall)]]; [by left|by right; left|]. right; right. split; [done|]. split; [done|].
    intros (_ & (_ & (_ & H')%Forall_cons)%Forall_cons)%Forall_cons. by apply Hall. }
  apply Hskip. clear Hskip.
  assert (Hquiet : forall A (p : prog call (res A)) (f : A -> prog call counters) t,
            quiet p -> fuelled p -> runs (try x <- p catch _err => Ret c ;; f x) t o ->
            (forall a t', runs (f a) t' o -> rest t') -> rest t).
  { intros A p f t Hq Hfl Ht Hrest. apply runs_bind_inv in Ht as [(r & u1 & u2 & -> & H1 & H2)|[[-> H1]|[-> H1]]].
    - pose proof (readonly_unsent _ (proj1 (quiet_runs _ _ _ Hq H1))) as Hsent. unfold rest. rewrite reported_app, Hsent. cbn [app].
      destruct r as [a|err]; [|destruct H2 as [-> ->]; by left].
      destruct (Hrest _ _ H2) as [H'|[H'|(Ho & Hs & Hall)]]; [by left|by right; left|]. right; right.
      split; [done|]. split; [done|]. intros [_ H']%Forall_app. by apply Hall.
    - right; left. split; [done|]. by apply readonly_unsent, (quiet_runs _ _ _ Hq H1).
    - by destruct (fuelled_runs _ _ Hfl H1). }
  eapply Hquiet in H; [exact H|apply GetSecret_quiet|unfold GetSecret; ends_tac|]. clear H. intros secretMap t4 H.
  eapply Hquiet in H; [exact H|unfold NewClient, getAPIConfig; every_tac|unfold NewClient, getAPIConfig; ends_tac|]. clear H. intros _ t5 H.
  apply runs_bind_inv in H as [(u & t6 & t7 & -> & H1 & H2)|[[-> H1]|[-> H1]]].
  2-3: by apply report_all_runs in H1 as [? _].
  apply report_all_runs in H1 as (_ & Hs & Hall). destruct H2 as [-> ->]. rewrite app_nil_r. right; right. done.
Qed.
End client.

(** ** The usage of a pool *)

(** Of a pool that is not over-filled the two percentages are whole numbers between
    0 and 100 that make 100. *)
Lemma pool_usage_bounds pool used avail :
  (0 <= PoolResult_TotalDiskUsage pool <= PoolResult_PhysicalCapacity pool)%Z ->
  (PoolResult_PhysicalCapacity pool <= 92233720368547758)%Z ->
  pool_usage pool = Some (used, avail) -> (0 <= used <= 100 /\ used + avail = 100)%Z.
Proof.
  intros Hu Hc. unfold pool_usage. destruct (Z.eqb_spec (PoolResult_PhysicalCapacity pool) 0); [done|].
  intros [= <- <-].
  assert (Hm : in_i64 (PoolResult_TotalDiskUsage pool * 100)) by (unfold in_i64, int64_min, int64_max; lia).
  rewrite (i64_id _ Hm), Z.quot_div_nonneg by lia.
  set (q := (PoolResult_TotalDiskUsage pool * 100 / PoolResult_PhysicalCapacity pool)%Z).
  assert (Hq : (0 <= q <= 100)%Z).
  { subst q. split; [apply Z.div_pos; lia|]. apply Z.div_le_upper_bound; lia. }
  rewrite !i64_id by (rewrite ?i64_id; unfold in_i64, int64_min, int64_max; lia). lia.
Qed.
