(* ===== verification/Duration.v ===== *)
(** Package time, as far as the metrics exporter uses it: [ParseDuration]. Sums are
    uint64; the fraction of a number is computed in float64, by the executable
    arithmetic of [SpecFloat]. The text of an error is only logged, so an error
    is [None]. *)
From S2P Require Import Prelude GoLib.
From stdpp Require Import base strings list.
From Stdlib Require Import ZArith Lia Ascii SpecFloat.

Local Open Scope string_scope.
Local Open Scope list_scope.

(** ** float64 *)

Abbreviation float := spec_float.
Definition fmul : float -> float -> float := SFmul 53 1024.
Definition fdiv : float -> float -> float := SFdiv 53 1024.
Definition float_of (z : Z) : float := binary_normalize 53 1024 z 0 false.
(** [uint64(f)] for [f] between 0 and 2^63. *)
Definition truncate (f : float) : Z :=
  match f with
  | S754_finite false m e => if (0 <=? e)%Z then (Zpos m * 2 ^ e)%Z else (Zpos m / 2 ^ (- e))%Z
  | _ => 0%Z
  end.

(** ** ParseDuration *)

Definition two63 : Z := 9223372036854775808.
Definition digit (c : ascii) : bool := (48 <=? code c)%Z && (code c <=? 57)%Z.

Fixpoint leadingInt (s : string) (x : Z) : option (Z * string) :=
  match s with
  | String c rest =>
      if digit c then
        if (two63 / 10 <? x)%Z then None
        else let x := (x * 10 + (code c - 48))%Z in if (two63 <? x)%Z then None else leadingInt rest x
      else Some (x, s)
  | "" => Some (x, "")
  end.
Fixpoint leadingFraction (s : string) (x : Z) (scale : float) (overflow : bool) : Z * float * string :=
  match s with
  | String c rest =>
      if digit c then
        if overflow || ((two63 - 1) / 10 <? x)%Z then leadingFraction rest x scale true
        else let y := (x * 10 + (code c - 48))%Z in
             if (two63 <? y)%Z then leadingFraction rest x scale true
             else leadingFraction rest y (fmul scale (float_of 10)) false
      else (x, scale, s)
  | "" => (x, scale, "")
  end.

(** The unit is everything up to the next digit or point. *)
Fixpoint unit_text (s : string) : string * string :=
  match s with
  | String c rest =>
      if Ascii.eqb c "." || digit c then ("", s) else let '(u, rest') := unit_text rest in (String c u, rest')
  | "" => ("", "")
  end.
Definition micro : list string :=
  ["us"; String "194" (String "181" "s"); String "206" (String "188" "s")].
Definition unitMap (u : string) : option Z :=
  if String.eqb u "ns" then Some 1%Z
  else if existsb (String.eqb u) micro then Some 1000%Z
  else if String.eqb u "ms" then Some 1000000%Z
  else if String.eqb u "s" then Some 1000000000%Z
  else if String.eqb u "m" then Some 60000000000%Z
  else if String.eqb u "h" then Some 3600000000000%Z
  else None.

(** One number with its unit: its nanoseconds and the text behind it. *)
Definition component (s : string) : option (Z * string) :=
  match s with
  | "" => None
  | String c _ =>
      if Ascii.eqb c "." || digit c then
        '(v, s1) ← leadingInt s 0;
        let pre := negb (String.length s1 =? String.length s)%nat in
        let '(f, scale, s2, post) :=
          match s1 with
          | String "." s' => let '(f, scale, s2) := leadingFraction s' 0 (float_of 1) false in
                             (f, scale, s2, negb (String.length s2 =? String.length s')%nat)
          | _ => (0%Z, float_of 1, s1, false)
          end in
        if negb pre && negb post then None
        else
          let '(u, s3) := unit_text s2 in
          unit ← unitMap u;
          if (two63 / unit <? v)%Z then None
          else
            let v := (v * unit)%Z in
            let v := if (0 <? f)%Z then (v + truncate (fmul (float_of f) (fdiv (float_of unit) scale)))%Z else v in
            if (two63 <? v)%Z then None else Some (v, s3)
      else None
  end.
Fixpoint components (fuel : nat) (s : string) (d : Z) : option Z :=
  match fuel, s with
  | _, "" => Some d
  | O, _ => None
  | S fuel, _ =>
      '(v, rest) ← component s;
      let d := ((d + v) mod (2 * two63))%Z in
      if (two63 <? d)%Z then None else components fuel rest d
  end.

(** In nanoseconds. *)
Definition ParseDuration (s : string) : option Z :=
  let '(neg, s) := match s with
                   | String "-" s => (true, s)
                   | String "+" s => (false, s)
                   | _ => (false, s)
                   end in
  if String.eqb s "0" then Some 0%Z
  else if String.eqb s "" then None
  else
    d ← components (String.length s) s 0;
    if neg : bool then Some (- d)%Z else if (two63 - 1 <? d)%Z then None else Some d.

Example ParseDuration_example :
  map ParseDuration ["30s"; "1h15m30.918s"; "-1.5h"; "0"; ".5ms"; "5"; "1x"; "s"; "9223372036854775808ns"; "-9223372036854775808ns"]
  = [Some 30000000000; Some 4530918000000; Some (-5400000000000); Some 0; Some 500000; None; None; None; None;
     Some (-9223372036854775808)]%Z.
Proof. vm_compute. reflexivity. Qed.

(** ** The fuel is enough, and the answer is an int64 *)

Lemma leadingInt_shorter s x y rest : leadingInt s x = Some (y, rest) -> String.length rest <= String.length s.
Proof.
  revert x. induction s as [|c s IH]; intros x; cbn; [by intros [= <- <-]|].
  destruct (digit c); [|by intros [= <- <-]]. destruct (_ <? x)%Z; [done|]. destruct (two63 <? _)%Z; [done|].
  intros H%IH. lia.
Qed.
Lemma leadingFraction_shorter s x scale o y scale' rest :
  leadingFraction s x scale o = (y, scale', rest) -> String.length rest <= String.length s.
Proof.
  revert x scale o. induction s as [|c s IH]; intros x scale o; cbn; [by intros [= <- <- <-]|].
  destruct (digit c); [|by intros [= <- <- <-]].
  destruct (o || _); [|destruct (two63 <? _)%Z]; intros Hl%IH; lia.
Qed.
Lemma unit_text_shorter s u rest : unit_text s = (u, rest) -> String.length s = String.length u + String.length rest.
Proof.
  revert u. induction s as [|c s IH]; cbn; intros u; [by intros [= <- <-]|].
  destruct (_ || _); [by intros [= <- <-]|]. destruct (unit_text s) as [u' r'].
  intros [= <- <-]. cbn. by rewrite (IH u').
Qed.

Lemma component_shorter s v rest : component s = Some (v, rest) -> String.length rest < String.length s.
Proof.
  unfold component. destruct s as [|c s]; [done|]. set (s0 := String c s). destruct (_ || digit c); [|done].
  destruct (leadingInt s0 0) as [[x s1]|] eqn:Hi; [|done]. apply leadingInt_shorter in Hi. cbn [mbind option_bind].
  set (t := match s1 with String "." s' => _ | _ => _ end).
  assert (Ht : String.length (snd (fst t)) <= String.length s1).
  { subst t. destruct s1 as [|a s']; [done|].
    assert (Hf : String.length (snd (fst (let '(f, scale, s2) := leadingFraction s' 0 (float_of 1) false in
                      (f, scale, s2, negb (String.length s2 =? String.length s')%nat)))) <= String.length (String a s')).
    { destruct (leadingFraction s' 0 _ false) as [[f sc] s2] eqn:Hf. apply leadingFraction_shorter in Hf. cbn. lia. }
    destruct a as [[] [] [] [] [] [] [] []]; first [exact Hf|done]. }
  destruct t as [[[f scale] s2] post]. cbn in Ht. destruct (_ && _); [done|].
  destruct (unit_text s2) as [u s3] eqn:Hu. apply unit_text_shorter in Hu.
  destruct (unitMap u) as [unit|] eqn:Hunit; [|done]. cbn [mbind option_bind].
  destruct (_ <? x)%Z; [done|]. destruct (two63 <? _)%Z; [done|]. intros [= _ <-].
  destruct u as [|]; [done|]. cbn in Hu. lia.
Qed.
(** More fuel than characters changes nothing. *)
Lemma components_fuel n m s d : String.length s <= n -> String.length s <= m -> components n s d = components m s d.
Proof.
  revert m s d. induction n as [|n IH]; intros m s d Hn Hm.
  { destruct s; [by destruct m|cbn in Hn; lia]. }
  destruct s as [|c s]; [by destruct m|]. destruct m as [|m]; [cbn in Hm; lia|].
  cbn [components]. destruct (component (String c s)) as [[v rest]|] eqn:Hc; [|done].
  apply component_shorter in Hc. cbn [mbind option_bind]. destruct (two63 <? _)%Z; [done|]. cbn in *. apply IH; lia.
Qed.
Lemma components_range n s d r : (0 <= d <= two63)%Z -> components n s d = Some r -> (0 <= r <= two63)%Z.
Proof.
  revert s d. induction n as [|n IH]; intros s d Hd; destruct s as [|c s]; cbn [components]; try (intros [= <-]; done).
  destruct (component (String c s)) as [[v rest]|]; [|done]. cbn [mbind option_bind].
  destruct (two63 <? _)%Z eqn:Hlt; [done|]. apply IH. apply Z.ltb_ge in Hlt.
  pose proof (Z.mod_pos_bound (d + v) (2 * two63) ltac:(done)). lia.
Qed.
Lemma ParseDuration_range s d : ParseDuration s = Some d -> in_i64 d.
Proof.
  unfold ParseDuration.
  set (t := match s with String "-" s => _ | _ => _ end). destruct t as [neg s'].
  destruct (String.eqb s' "0"); [intros [= <-]; done|]. destruct (String.eqb s' ""); [done|].
  destruct (components _ s' 0) as [r|] eqn:Hc; [|done]. cbn [mbind option_bind].
  apply components_range in Hc; [|done]. unfold two63, in_i64, int64_min, int64_max in *.
  destruct neg; [intros [= <-]; lia|]. destruct (_ <? r)%Z eqn:Hlt; [done|]. apply Z.ltb_ge in Hlt. intros [= <-]. lia.
Qed.
