(* ===== verification/MetricsTypes.v ===== *)
(** Data of the metrics exporter ([metrics/poolmetrics.go],
    [metrics/systemhealthmetrics.go]): what the array answers about its pools and
    itself, field by field. A field of type [any] or [float64] is a [json] value;
    [Struct_zero] is Go's zero value. *)
From S2P Require Import Prelude IboxTypes.
From stdpp Require Import base strings list gmap.
From Stdlib Require Import ZArith.

Local Open Scope string_scope.
Local Open Scope list_scope.

Record Pool := MkPool {
  Pool_ID : Z;
  Pool_Name : string;
  Pool_CreatedAt : Z;
  Pool_UpdatedAt : Z;
  Pool_PhysicalCapacity : Z;
  Pool_VirtualCapacity : Z;
  Pool_PhysicalCapacityWarning : Z;
  Pool_PhysicalCapacityCritical : Z;
  Pool_State : string;
  Pool_FreePhysicalSpace : Z;
  Pool_ReservedCapacity : Z;
  Pool_MaxExtend : Z;
  Pool_SsdEnabled : bool;
  Pool_CompressionEnabled : bool;
  Pool_Type : string;
  Pool_AllocatedPhysicalSpace : Z;
  Pool_CapacitySavings : Z;
  Pool_TenantID : Z;
  Pool_EntitiesCount : Z;
  Pool_FreeVirtualSpace : Z;
  Pool_StandardFilesystemSnapshotsCount : Z;
  Pool_VolumesCount : Z;
  Pool_FilesystemsCount : Z;
  Pool_SnapshotsCount : Z;
  Pool_FilesystemSnapshotsCount : Z;
  Pool_StandardVolumesCount : Z;
  Pool_StandardFilesystemsCount : Z;
  Pool_StandardSnapshotsCount : Z;
  Pool_StandardEntitiesCount : Z;
  Pool_VvolVolumesCount : Z;
  Pool_VvolSnapshotsCount : Z;
  Pool_VvolEntitiesCount : Z;
  Pool_Owners : list json;
  Pool_QosPolicies : list json
}.
Definition Pool_zero : Pool := {|
  Pool_ID := 0%Z;
  Pool_Name := "";
  Pool_CreatedAt := 0%Z;
  Pool_UpdatedAt := 0%Z;
  Pool_PhysicalCapacity := 0%Z;
  Pool_VirtualCapacity := 0%Z;
  Pool_PhysicalCapacityWarning := 0%Z;
  Pool_PhysicalCapacityCritical := 0%Z;
  Pool_State := "";
  Pool_FreePhysicalSpace := 0%Z;
  Pool_ReservedCapacity := 0%Z;
  Pool_MaxExtend := 0%Z;
  Pool_SsdEnabled := false;
  Pool_CompressionEnabled := false;
  Pool_Type := "";
  Pool_AllocatedPhysicalSpace := 0%Z;
  Pool_CapacitySavings := 0%Z;
  Pool_TenantID := 0%Z;
  Pool_EntitiesCount := 0%Z;
  Pool_FreeVirtualSpace := 0%Z;
  Pool_StandardFilesystemSnapshotsCount := 0%Z;
  Pool_VolumesCount := 0%Z;
  Pool_FilesystemsCount := 0%Z;
  Pool_SnapshotsCount := 0%Z;
  Pool_FilesystemSnapshotsCount := 0%Z;
  Pool_StandardVolumesCount := 0%Z;
  Pool_StandardFilesystemsCount := 0%Z;
  Pool_StandardSnapshotsCount := 0%Z;
  Pool_StandardEntitiesCount := 0%Z;
  Pool_VvolVolumesCount := 0%Z;
  Pool_VvolSnapshotsCount := 0%Z;
  Pool_VvolEntitiesCount := 0%Z;
  Pool_Owners := [];
  Pool_QosPolicies := []
|}.

Record PoolMetadata := MkPoolMetadata {
  PoolMetadata_Ready : bool;
  PoolMetadata_NumberOfObjects : Z;
  PoolMetadata_PageSize : Z;
  PoolMetadata_PagesTotal : Z;
  PoolMetadata_Page : Z
}.
Definition PoolMetadata_zero : PoolMetadata := {|
  PoolMetadata_Ready := false;
  PoolMetadata_NumberOfObjects := 0%Z;
  PoolMetadata_PageSize := 0%Z;
  PoolMetadata_PagesTotal := 0%Z;
  PoolMetadata_Page := 0%Z
|}.

Record Pools := MkPools {
  Pools_Result : list Pool;
  Pools_Error : json;
  Pools_Metadata : PoolMetadata
}.
Definition Pools_zero : Pools := {|
  Pools_Result := [];
  Pools_Error := JNull;
  Pools_Metadata := PoolMetadata_zero
|}.

Record HealthState := MkHealthState {
  HealthState_ActiveCacheSsdDevices : Z;
  HealthState_ActiveDrives : Z;
  HealthState_ActiveEncryptedCacheSsdDevices : Z;
  HealthState_ActiveEncryptedDrives : Z;
  HealthState_BbuAggregateChargePercent : Z;
  HealthState_BbuChargeLevel : gmap string json;
  HealthState_BbuProtectedNodes : Z;
  HealthState_EnclosureFailureSafeDistribution : bool;
  HealthState_EncryptionEnabled : bool;
  HealthState_FailedDrives : Z;
  HealthState_InactiveNodes : Z;
  HealthState_MissingDrives : Z;
  HealthState_NodeBbuProtection : gmap string json;
  HealthState_PhasingOutDrives : Z;
  HealthState_RaidGroupsPendingRebuild1 : Z;
  HealthState_RaidGroupsPendingRebuild2 : Z;
  HealthState_ReadyDrives : Z;
  HealthState_Rebuild1Inprogress : bool;
  HealthState_Rebuild2Inprogress : bool;
  HealthState_TestingDrives : Z;
  HealthState_UnknownDrives : Z
}.
Definition HealthState_zero : HealthState := {|
  HealthState_ActiveCacheSsdDevices := 0%Z;
  HealthState_ActiveDrives := 0%Z;
  HealthState_ActiveEncryptedCacheSsdDevices := 0%Z;
  HealthState_ActiveEncryptedDrives := 0%Z;
  HealthState_BbuAggregateChargePercent := 0%Z;
  HealthState_BbuChargeLevel := ∅;
  HealthState_BbuProtectedNodes := 0%Z;
  HealthState_EnclosureFailureSafeDistribution := false;
  HealthState_EncryptionEnabled := false;
  HealthState_FailedDrives := 0%Z;
  HealthState_InactiveNodes := 0%Z;
  HealthState_MissingDrives := 0%Z;
  HealthState_NodeBbuProtection := ∅;
  HealthState_PhasingOutDrives := 0%Z;
  HealthState_RaidGroupsPendingRebuild1 := 0%Z;
  HealthState_RaidGroupsPendingRebuild2 := 0%Z;
  HealthState_ReadyDrives := 0%Z;
  HealthState_Rebuild1Inprogress := false;
  HealthState_Rebuild2Inprogress := false;
  HealthState_TestingDrives := 0%Z;
  HealthState_UnknownDrives := 0%Z
|}.

Record Capacity := MkCapacity {
  Capacity_AllocatedPhysicalSpaceWithinPools : Z;
  Capacity_AllocatedVirtualSpaceWithinPools : Z;
  Capacity_DataReductionRatio : json;
  Capacity_DynamicSpareDriveCost : Z;
  Capacity_FreePhysicalSpace : Z;
  Capacity_FreeVirtualSpace : Z;
  Capacity_TotalAllocatedPhysicalSpace : Z;
  Capacity_TotalPhysicalCapacity : Z;
  Capacity_TotalSpareBytes : Z;
  Capacity_TotalSparePartitions : Z;
  Capacity_TotalVirtualCapacity : Z;
  Capacity_UsedDynamicSpareBytes : Z;
  Capacity_UsedDynamicSparePartitions : Z;
  Capacity_UsedSpareBytes : Z;
  Capacity_UsedSparePartitions : Z
}.
Definition Capacity_zero : Capacity := {|
  Capacity_AllocatedPhysicalSpaceWithinPools := 0%Z;
  Capacity_AllocatedVirtualSpaceWithinPools := 0%Z;
  Capacity_DataReductionRatio := JNull;
  Capacity_DynamicSpareDriveCost := 0%Z;
  Capacity_FreePhysicalSpace := 0%Z;
  Capacity_FreeVirtualSpace := 0%Z;
  Capacity_TotalAllocatedPhysicalSpace := 0%Z;
  Capacity_TotalPhysicalCapacity := 0%Z;
  Capacity_TotalSpareBytes := 0%Z;
  Capacity_TotalSparePartitions := 0%Z;
  Capacity_TotalVirtualCapacity := 0%Z;
  Capacity_UsedDynamicSpareBytes := 0%Z;
  Capacity_UsedDynamicSparePartitions := 0%Z;
  Capacity_UsedSpareBytes := 0%Z;
  Capacity_UsedSparePartitions := 0%Z
|}.

Record EntityCounts := MkEntityCounts {
  EntityCounts_Clusters : Z;
  EntityCounts_ConsistencyGroups : Z;
  EntityCounts_FilesystemSnapshots : Z;
  EntityCounts_Filesystems : Z;
  EntityCounts_Hosts : Z;
  EntityCounts_MappedVolumes : Z;
  EntityCounts_Pools : Z;
  EntityCounts_Replicas : Z;
  EntityCounts_ReplicationGroups : Z;
  EntityCounts_RgReplicas : Z;
  EntityCounts_SnapshotGroups : Z;
  EntityCounts_StandardPools : Z;
  EntityCounts_VolumeSnapshots : Z;
  EntityCounts_Volumes : Z;
  EntityCounts_VvolPools : Z
}.
Definition EntityCounts_zero : EntityCounts := {|
  EntityCounts_Clusters := 0%Z;
  EntityCounts_ConsistencyGroups := 0%Z;
  EntityCounts_FilesystemSnapshots := 0%Z;
  EntityCounts_Filesystems := 0%Z;
  EntityCounts_Hosts := 0%Z;
  EntityCounts_MappedVolumes := 0%Z;
  EntityCounts_Pools := 0%Z;
  EntityCounts_Replicas := 0%Z;
  EntityCounts_ReplicationGroups := 0%Z;
  EntityCounts_RgReplicas := 0%Z;
  EntityCounts_SnapshotGroups := 0%Z;
  EntityCounts_StandardPools := 0%Z;
  EntityCounts_VolumeSnapshots := 0%Z;
  EntityCounts_Volumes := 0%Z;
  EntityCounts_VvolPools := 0%Z
|}.

Record Localtime := MkLocaltime {
  Localtime_UtcTime : Z
}.
Definition Localtime_zero : Localtime := {|
  Localtime_UtcTime := 0%Z
|}.

Record OperationalState := MkOperationalState {
  OperationalState_Description : string;
  OperationalState_InitState : json;
  OperationalState_Mode : string;
  OperationalState_ReadOnlySystem : bool;
  OperationalState_State : string
}.
Definition OperationalState_zero : OperationalState := {|
  OperationalState_Description := "";
  OperationalState_InitState := JNull;
  OperationalState_Mode := "";
  OperationalState_ReadOnlySystem := false;
  OperationalState_State := ""
|}.

Record Gui := MkGui {
  Gui_BuildMode : json;
  Gui_Revision : string;
  Gui_Version : string
}.
Definition Gui_zero : Gui := {|
  Gui_BuildMode := JNull;
  Gui_Revision := "";
  Gui_Version := ""
|}.

Record Infinishell := MkInfinishell {
  Infinishell_BuildMode : json;
  Infinishell_Revision : string;
  Infinishell_Version : string
}.
Definition Infinishell_zero : Infinishell := {|
  Infinishell_BuildMode := JNull;
  Infinishell_Revision := "";
  Infinishell_Version := ""
|}.

Record System := MkSystem {
  System_BuildMode : string;
  System_Revision : string;
  System_Version : string
}.
Definition System_zero : System := {|
  System_BuildMode := "";
  System_Revision := "";
  System_Version := ""
|}.

Record Release := MkRelease {
  Release_Gui : Gui;
  Release_Infinishell : Infinishell;
  Release_System : System
}.
Definition Release_zero : Release := {|
  Release_Gui := Gui_zero;
  Release_Infinishell := Infinishell_zero;
  Release_System := System_zero
|}.

Record FipsBestPractice := MkFipsBestPractice {
  FipsBestPractice_CertificateStrength : Z;
  FipsBestPractice_IsCertificateStrengthSufficient : bool;
  FipsBestPractice_IsHTTPRedirection : bool;
  FipsBestPractice_IsLdapConnectionsSecured : bool;
  FipsBestPractice_IsLocalUsersDisabled : bool;
  FipsBestPractice_LocalUsersPasswordHash : string;
  FipsBestPractice_NumUsersPasswordHashNotSecured : Z
}.
Definition FipsBestPractice_zero : FipsBestPractice := {|
  FipsBestPractice_CertificateStrength := 0%Z;
  FipsBestPractice_IsCertificateStrengthSufficient := false;
  FipsBestPractice_IsHTTPRedirection := false;
  FipsBestPractice_IsLdapConnectionsSecured := false;
  FipsBestPractice_IsLocalUsersDisabled := false;
  FipsBestPractice_LocalUsersPasswordHash := "";
  FipsBestPractice_NumUsersPasswordHashNotSecured := 0%Z
|}.

Record Security := MkSecurity {
  Security_EncryptionEnabled : bool;
  Security_FipsBestPractice : FipsBestPractice;
  Security_KmipConnectivityState : string;
  Security_SystemSecurityState : string
}.
Definition Security_zero : Security := {|
  Security_EncryptionEnabled := false;
  Security_FipsBestPractice := FipsBestPractice_zero;
  Security_KmipConnectivityState := "";
  Security_SystemSecurityState := ""
|}.

Record Result := MkResult {
  Result_Capacity : Capacity;
  Result_DeploymentID : string;
  Result_EntityCounts : EntityCounts;
  Result_FullModel : string;
  Result_HealthState : HealthState;
  Result_InstallTimestamp : Z;
  Result_Localtime : Localtime;
  Result_Model : string;
  Result_Name : string;
  Result_OperationalState : OperationalState;
  Result_ProductID : string;
  Result_Release : Release;
  Result_Security : Security;
  Result_SerialNumber : Z;
  Result_SystemPowerConsumption : json;
  Result_UpgradeTimestamp : Z;
  Result_Uptime : Z;
  Result_Version : string;
  Result_Wwnn : string
}.
Definition Result_zero : Result := {|
  Result_Capacity := Capacity_zero;
  Result_DeploymentID := "";
  Result_EntityCounts := EntityCounts_zero;
  Result_FullModel := "";
  Result_HealthState := HealthState_zero;
  Result_InstallTimestamp := 0%Z;
  Result_Localtime := Localtime_zero;
  Result_Model := "";
  Result_Name := "";
  Result_OperationalState := OperationalState_zero;
  Result_ProductID := "";
  Result_Release := Release_zero;
  Result_Security := Security_zero;
  Result_SerialNumber := 0%Z;
  Result_SystemPowerConsumption := JNull;
  Result_UpgradeTimestamp := 0%Z;
  Result_Uptime := 0%Z;
  Result_Version := "";
  Result_Wwnn := ""
|}.

Record Metadata := MkMetadata {
  Metadata_Ready : bool
}.
Definition Metadata_zero : Metadata := {|
  Metadata_Ready := false
|}.

Record SystemStatus := MkSystemStatus {
  SystemStatus_Error : json;
  SystemStatus_Metadata : Metadata;
  SystemStatus_Result : Result
}.
Definition SystemStatus_zero : SystemStatus := {|
  SystemStatus_Error := JNull;
  SystemStatus_Metadata := Metadata_zero;
  SystemStatus_Result := Result_zero
|}.
