(* ===== verification/Metrics.v ===== *)
(** The metrics exporter ([metrics/]): a second program that asks the arrays and the
    cluster for numbers, again and again, and publishes them as gauges. Each
    [Record...Metrics] starts a goroutine that sleeps and then makes a pass; a
    pass is a program here, and [passes] repeats it. *)
From S2P Require Import Prelude GoLib IboxTypes Csi KubeClient Duration MetricsTypes.
From stdpp Require Import base strings list gmap.
From Stdlib Require Import ZArith.

Local Open Scope string_scope.
Local Open Scope list_scope.

(** ** Data *)

Record IboxCredentials := MkIboxCredentials {
  IboxHostname : string;
  IboxIPAddress : string;
  IboxPassword : string;
  IboxUsername : string
}.
(** An entry of [Spec.Metrics]. *)
Record MetricSpec := MkMetricSpec {
  MS_Duration : string;
  MS_Name : string
}.
Record MetricsConfig := MkMetricsConfig {
  Config_Ibox : list IboxCredentials;
  Config_Metrics : list MetricSpec
}.
(** Of a storage class. *)
Record StorageClass := MkStorageClass {
  SC_Name : string;
  SC_Provisioner : string;
  SC_Parameters : gmap string string
}.
(** An element of [CollectorResponse.Result.Collectors]. *)
Record Collector := MkCollector {
  Collector_ID : Z;
  Collector_Fields : list string;
  Collector_Data : list (list Z);
  Collector_CollectorType : string;
  Collector_IntervalMilliseconds : Z;
  Collector_EndTimestampMilliseconds : Z
}.
Abbreviation labels := (gmap string string).
(** The value of a gauge: [float64] of an integer, or of a JSON number. *)
Inductive gauge_value :=
| OfInt (z : Z)
| OfNumber (literal : string).
Definition of_bool (b : bool) : gauge_value := OfInt (if b then 1 else 0).

(** ** What the exporter does *)

(** What a response is decoded into; of the creation of a collector only its
    number is looked at, of a deletion nothing. *)
Inductive into : Type -> Type :=
| IntoPools : into Pools
| IntoSystemStatus : into SystemStatus
| IntoCollectorID : into Z
| IntoCollectors : into (list Collector)
| IntoNothing : into unit.
(** A request is answered, cannot be made, sent or read, or the answer cannot be
    decoded. *)
Inductive fetched (A : Type) :=
| Fetched (a : A)
| Unread (err : error)
| Undecoded (err : error).
Arguments Fetched {A}.
Arguments Unread {A}.
Arguments Undecoded {A}.

(** [Do] is a request to an array with basic authentication; [Clientset] is
    [rest.InClusterConfig] and [kubernetes.NewForConfig]. *)
Inductive mcall : Type -> Type :=
| ReadFile (path : string) : mcall (res string)
| LookupIP (host : string) : mcall (res (list string))
| Clientset : mcall (option error)
| ListPersistentVolumes : mcall (res (list PersistentVolume))
| ListStorageClasses : mcall (res (list StorageClass))
| GetStorageClass (name : string) : mcall (res StorageClass)
| Do {A} (method url user password : string) (body : option json) (decode : into A) : mcall (fetched A)
| SetGauge (gauge : string) (ls : labels) (value : gauge_value) : mcall unit
| RangeOrder (keys : list string) : mcall (list string)
| SleepFor (nanoseconds : Z) : mcall unit.

(** What is published after [t]: the last value set of each gauge and labels. *)
Abbreviation mtrace := (list (evt mcall)).
Definition publish (e : evt mcall) (g : gmap (string * labels) gauge_value) : gmap (string * labels) gauge_value :=
  match e with
  | Evt (SetGauge gauge ls value) _ => <[(gauge, ls) := value]> g
  | _ => g
  end.
Definition published (t : mtrace) : gmap (string * labels) gauge_value := fold_left (fun g e => publish e g) t ∅.

(** ** config.go *)

Definition PoolMetrics : string := "pool_metrics".
Definition PVMetrics : string := "pv_metrics".
Definition MetricIboxPerfMetrics : string := "ibox_performance_metrics".
Definition MetricIboxSystemMetrics : string := "ibox_system_metrics".
Definition DefaultInterval : Z := 30000000000.

Fixpoint GetDuration_in (metrics : list MetricSpec) (name : string) : Z :=
  match metrics with
  | [] => DefaultInterval
  | m :: rest =>
      if String.eqb (MS_Name m) name then default DefaultInterval (ParseDuration (MS_Duration m))
      else GetDuration_in rest name
  end.
Definition GetDuration (c : MetricsConfig) (name : string) : Z := GetDuration_in (Config_Metrics c) name.

(** Whether there is an error. *)
Definition Validate (c : MetricsConfig) : bool :=
  existsb (fun metric =>
             negb (bool_decide (is_Some (ParseDuration (MS_Duration metric)))) ||
             negb (existsb (String.eqb (MS_Name metric))
                     [PoolMetrics; PVMetrics; MetricIboxPerfMetrics; MetricIboxSystemMetrics])) (Config_Metrics c).

Fixpoint lookup_credentials (secrets : list (gmap string string)) : prog mcall (list IboxCredentials) :=
  match secrets with
  | [] => Ret []
  | sMap :: rest =>
      let host := sMap.[CredentialHostname] in
      ips <- trigger (LookupIP host) ;;
      let address := match ips with Err _ => "unknown" | Ok ips => default "" (last ips) end in
      others <- lookup_credentials rest ;;
      Ret (MkIboxCredentials host address sMap.[CredentialPassword] sMap.[CredentialUsername] :: others)
  end.
Definition NewConfig (yaml_Unmarshal : string -> res (list MetricSpec)) (secrets : list (gmap string string))
    : prog mcall (res MetricsConfig) :=
  try configFileData <- trigger (ReadFile "/tmp/infinidat-csi-metrics-config/config.yaml") catch err => Ret (Err err) ;;
  match yaml_Unmarshal configFileData with
  | Err err => Ret (Err err)
  | Ok metrics =>
      if Validate (MkMetricsConfig [] metrics) then Ret (Err (EText "validation of the metrics config file failed"))
      else
        ibox <- lookup_credentials secrets ;;
        Ret (Ok (MkMetricsConfig ibox metrics))
  end.

(** The loops: a pass after every sleep. *)
Fixpoint passes (n : nat) (duration : Z) (pass : prog mcall unit) : prog mcall unit :=
  match n with
  | O => Ret tt
  | S n => trigger (SleepFor duration) ;;; pass ;;; passes n duration pass
  end.
Fixpoint for_each {A} (body : A -> prog mcall unit) (l : list A) : prog mcall unit :=
  match l with
  | [] => Ret tt
  | a :: rest => body a ;;; for_each body rest
  end.
Definition request {A} (ibox : IboxCredentials) (method path : string) (body : option json) (decode : into A)
    : prog mcall (fetched A) :=
  trigger (Do method ("https://" +:+ IboxHostname ibox +:+ path) (IboxUsername ibox) (IboxPassword ibox) body decode).
(** Where an error of reading and one of decoding are treated alike. *)
Definition result {A} (f : fetched A) : res A :=
  match f with Fetched a => Ok a | Unread err | Undecoded err => Err err end.

(** ** poolmetrics.go *)

(** The gauges as they are registered: the name and the names of the labels.
    [With] panics when it is given others. *)
Abbreviation gauge_vecs := (list (string * list string)).
Definition pool_vecs : gauge_vecs :=
  map (fun g => (g, ["pool_name"; "pool_provision_type"; "pool_ssd_enabled"; "pool_network_space"; "pool_storage_protocol"]))
    ["ibox_pool_available_cap"; "ibox_pool_used_cap"; "ibox_pool_pct_utilized"].

Definition driver_class (sc : StorageClass) : bool := String.eqb (SC_Provisioner sc) "infinibox-csi-driver".
Definition getStorageClasses : prog mcall (res (list StorageClass)) :=
  client <- trigger Clientset ;;
  match client with
  | Some err => Ret (Err err)
  | None =>
      try storageClasses <- trigger ListStorageClasses catch err => Ret (Err err) ;;
      Ret (Ok (List.filter driver_class storageClasses))
  end.
(** An answer that cannot be decoded ends the process ([log.Fatal]). *)
Definition getPools (ibox : IboxCredentials) : prog mcall (res Pools) :=
  r <- request ibox "GET" "/api/rest/pools" None IntoPools ;;
  match r with
  | Fetched pools => Ret (Ok pools)
  | Unread err => Ret (Err err)
  | Undecoded _ => Panic
  end.
Definition lookupPool (allPools : Pools) (poolName : string) : option Pool :=
  List.find (fun p => String.eqb (Pool_Name p) poolName) (Pools_Result allPools).
(** The classes whose pool is on the array, with it. *)
Definition pool_infos (allPools : Pools) (classes : list StorageClass) : list (StorageClass * Pool) :=
  omap (fun sc => pair sc <$> lookupPool allPools (SC_Parameters sc).[StorageClassPoolName]) classes.
Definition getPoolInfo (ibox : IboxCredentials) : prog mcall (res (list (StorageClass * Pool))) :=
  try storageClasses <- getStorageClasses catch err => Ret (Err err) ;;
  try allPools <- getPools ibox catch err => Ret (Err err) ;;
  Ret (Ok (pool_infos allPools storageClasses)).

Definition class_labels (prefix name : string) (params : gmap string string) : labels :=
  list_to_map [(prefix +:+ "_name", name);
               (prefix +:+ "_provision_type", params.[StorageClassProvisionType]);
               (prefix +:+ "_ssd_enabled", params.[StorageClassSSDEnabled]);
               (prefix +:+ "_network_space", params.[StorageClassNetworkSpace]);
               (prefix +:+ "_storage_protocol", params.[StorageClassStorageProtocol])].
Definition pool_labels (sc : StorageClass) : labels :=
  class_labels "pool" (SC_Parameters sc).[StorageClassPoolName] (SC_Parameters sc).
(** [(AllocatedPhysicalSpace / PhysicalCapacity) * 100.00], in int64; [None] is the
    panic of a division by zero. *)
Definition pct_utilized (pool : Pool) : option Z :=
  if (Pool_PhysicalCapacity pool =? 0)%Z then None
  else Some (i64 (i64 (Z.quot (Pool_AllocatedPhysicalSpace pool) (Pool_PhysicalCapacity pool)) * 100)).
Definition record_pool (info : StorageClass * Pool) : prog mcall unit :=
  let '(sc, pool) := info in
  let ls := pool_labels sc in
  trigger (SetGauge "ibox_pool_available_cap" ls (OfInt (Pool_PhysicalCapacity pool))) ;;;
  trigger (SetGauge "ibox_pool_used_cap" ls (OfInt (Pool_AllocatedPhysicalSpace pool))) ;;;
  match pct_utilized pool with
  | None => Panic
  | Some pct => trigger (SetGauge "ibox_pool_pct_utilized" ls (OfInt pct))
  end.
Definition record_pools (ibox : IboxCredentials) : prog mcall unit :=
  try infos <- getPoolInfo ibox catch _err => Ret tt ;;
  for_each record_pool infos.
Definition RecordPoolMetrics (n : nat) (config : MetricsConfig) : prog mcall unit :=
  passes n (GetDuration config PoolMetrics) (for_each record_pools (Config_Ibox config)).

(** ** pvmetrics.go *)

Definition pv_vecs : gauge_vecs :=
  [("ibox_pv_total_size", ["pv_name"; "pv_storage_class"; "pv_provision_type"; "pv_ssd_enabled"; "pv_network_space";
                           "pv_storage_protocol"])].

Section pv.
(** [Quantity.Value()], of apimachinery. *)
Context (Quantity_Value : string -> Z).

(** The volumes of the driver whose storage class can be read, with it. *)
Fixpoint pv_infos (items : list PersistentVolume) : prog mcall (list (PersistentVolume * StorageClass)) :=
  match items with
  | [] => Ret []
  | pv :: rest =>
      if String.eqb (provisioned_by pv) "infinibox-csi-driver" then
        sc <- trigger (GetStorageClass (PV_StorageClassName pv)) ;;
        infos <- pv_infos rest ;;
        Ret (match sc with Ok sc => (pv, sc) :: infos | Err _ => infos end)
      else pv_infos rest
  end.
Definition getPVInfo : prog mcall (res (list (PersistentVolume * StorageClass))) :=
  client <- trigger Clientset ;;
  match client with
  | Some err => Ret (Err err)
  | None =>
      try items <- trigger ListPersistentVolumes catch err => Ret (Err err) ;;
      infos <- pv_infos items ;;
      Ret (Ok infos)
  end.
Definition pv_labels (info : PersistentVolume * StorageClass) : labels :=
  <["pv_storage_class" := SC_Name (snd info)]> (class_labels "pv" (PV_Name (fst info)) (SC_Parameters (snd info))).
(** [Spec.Capacity.Storage()] is the zero quantity when it is not set. *)
Definition storage_value (pv : PersistentVolume) : Z :=
  match PV_Capacity pv !! "storage" with Some q => Quantity_Value q | None => 0%Z end.
Definition record_pv (info : PersistentVolume * StorageClass) : prog mcall unit :=
  trigger (SetGauge "ibox_pv_total_size" (pv_labels info) (OfInt (storage_value (fst info)))).
Definition record_pvs : prog mcall unit :=
  try infos <- getPVInfo catch _err => Ret tt ;;
  for_each record_pv infos.
Definition RecordPVMetrics (n : nat) (config : MetricsConfig) : prog mcall unit :=
  passes n (GetDuration config PVMetrics) record_pvs.
End pv.

(** ** performancemetrics.go *)

Definition perf_vecs : gauge_vecs :=
  map (fun g => (g, ["ibox_ip_address"; "ibox_ip_hostname"; "ibox_protocol"]))
    ["ibox_perf_iops"; "ibox_perf_throughput"; "ibox_perf_latency"].

Definition FieldOps : string := "ops".
Definition FieldLatencyNAS : string := "latency".
Definition FieldLatencySAN : string := "external_latency_wout_err".
Definition FieldThroughput : string := "throughput".

(** The body of the creation of a collector. *)
Definition collector_request (fields : list string) (protocol : string) : json :=
  JObj [("collected_fields", JArr (map JStr fields)); ("type", JStr "COUNTER");
        ("filters", JObj [("protocol_type", JStr protocol)])].
Definition post_collector (ibox : IboxCredentials) (fields : list string) (protocol : string) : prog mcall (res Z) :=
  r <- request ibox "POST" "/api/rest/metrics/collectors" (Some (collector_request fields protocol)) IntoCollectorID ;;
  Ret (result r).
Definition createCollectors (ibox : IboxCredentials) : prog mcall (res (Z * Z)) :=
  try san <- post_collector ibox [FieldOps; FieldThroughput; FieldLatencySAN] "SAN" catch err => Ret (Err err) ;;
  try nas <- post_collector ibox [FieldOps; FieldThroughput; FieldLatencyNAS] "NAS" catch err => Ret (Err err) ;;
  if (nas =? 0)%Z then Ret (Err (EText "nas collector not found"))
  else if (san =? 0)%Z then Ret (Err (EText "san collector not found"))
  else Ret (Ok (nas, san)).
Definition getCollectorData (ibox : IboxCredentials) (collectorID : Z) : prog mcall (res (list Collector)) :=
  r <- request ibox "GET" ("/api/rest/metrics/collectors/data?collector_id=" +:+ Itoa collectorID) None IntoCollectors ;;
  Ret (result r).
(** The error object of the response is not looked at. *)
Definition deleteCollector (ibox : IboxCredentials) (collectorID : Z) : prog mcall (option error) :=
  r <- request ibox "DELETE" ("/api/rest/metrics/collectors/" +:+ Itoa collectorID) None IntoNothing ;;
  Ret (match result r with Ok _ => None | Err err => Some err end).

(** The columns of the three fields; the first one when a field is missing. *)
Record columns := MkColumns { opsIndex : nat; throughputIndex : nat; latencyIndex : nat }.
Definition set_column (c : columns) (index : nat) (field : string) : columns :=
  if String.eqb field FieldOps then MkColumns index (throughputIndex c) (latencyIndex c)
  else if String.eqb field FieldLatencyNAS || String.eqb field FieldLatencySAN then
    MkColumns (opsIndex c) (throughputIndex c) index
  else if String.eqb field FieldThroughput then MkColumns (opsIndex c) index (latencyIndex c)
  else c.
Fixpoint find_columns (fields : list string) (index : nat) (c : columns) : columns :=
  match fields with
  | [] => c
  | field :: rest => find_columns rest (S index) (set_column c index field)
  end.
(** The totals of the samples; [None] where a sample is too short. *)
Fixpoint totals (c : columns) (data : list (list Z)) (ops throughput latency : Z) : option (Z * Z * Z) :=
  match data with
  | [] => Some (ops, throughput, latency)
  | sample :: rest =>
      o ← sample !! opsIndex c;
      l ← sample !! latencyIndex c;
      th ← sample !! throughputIndex c;
      totals c rest (i64 (ops + o)) (i64 (throughput + th)) (i64 (latency + l))
  end.
(** Ops, throughput, latency. *)
Definition getCounterAverages (fields : list string) (data : list (list Z)) : option (Z * Z * Z) :=
  '(ops, throughput, latency) ← totals (find_columns fields 0 (MkColumns 0 0 0)) data 0 0 0;
  let n := Z.of_nat (length data) in
  Some (if (0 <? n)%Z then (Z.quot ops n, Z.quot throughput n, Z.quot latency n) else (0, 0, 0)%Z).
(** Of the first collector, if there is one. *)
Definition averages (collectors : list Collector) : option (Z * Z * Z) :=
  c ← head collectors; getCounterAverages (Collector_Fields c) (Collector_Data c).

Definition perf_labels (ibox : IboxCredentials) (protocol : string) : labels :=
  list_to_map [("ibox_ip_address", IboxIPAddress ibox); ("ibox_ip_hostname", IboxHostname ibox); ("ibox_protocol", protocol)].
Definition set_perf (ls : labels) (avg : Z * Z * Z) : prog mcall unit :=
  let '(ops, throughput, latency) := avg in
  trigger (SetGauge "ibox_perf_iops" ls (OfInt ops)) ;;;
  trigger (SetGauge "ibox_perf_throughput" ls (OfInt throughput)) ;;;
  trigger (SetGauge "ibox_perf_latency" ls (OfInt latency)).
Definition record_performance (ibox : IboxCredentials) : prog mcall unit :=
  try ids <- createCollectors ibox catch _err => Ret tt ;;
  let '(nasID, sanID) := ids in
  trigger (SleepFor 5000000000) ;;;
  try nas <- getCollectorData ibox nasID catch _err => Ret tt ;;
  match averages nas with
  | None => Panic
  | Some avg =>
      set_perf (perf_labels ibox "NAS") avg ;;;
      try san <- getCollectorData ibox sanID catch _err => Ret tt ;;
      match averages san with
      | None => Panic
      | Some avg =>
          deleted <- deleteCollector ibox nasID ;;
          match deleted with
          | Some _ => Ret tt
          | None =>
              deleted <- deleteCollector ibox sanID ;;
              match deleted with
              | Some _ => Ret tt
              | None => set_perf (perf_labels ibox "SAN") avg
              end
          end
      end
  end.
Definition RecordPerformanceMetrics (n : nat) (config : MetricsConfig) : prog mcall unit :=
  passes n (GetDuration config MetricIboxPerfMetrics) (for_each record_performance (Config_Ibox config)).

(** ** systemhealthmetrics.go *)

Definition health_vecs : gauge_vecs :=
  map (fun g => (g, ["ibox_name"; "ibox_ip_address"; "ibox_ip_hostname"; "node"]))
    ["ibox_bbu_charge_level"; "ibox_node_bbu_protection"] ++
  map (fun g => (g, ["ibox_name"; "ibox_ip_address"; "ibox_ip_hostname"]))
    ["ibox_error_rates"; "ibox_active_cache_ssd_devices"; "ibox_active_drives"; "ibox_active_encrypted_cache_ssd_devices";
     "ibox_active_encrypted_drives"; "ibox_bbu_aggregate_charge_percent"; "ibox_bbu_protected_nodes";
     "ibox_enclosure_failure_safe_distribution"; "ibox_encryption_enabled"; "ibox_failed_drives"; "ibox_inactive_nodes";
     "ibox_missing_drives"; "ibox_phasing_out_drives"; "ibox_raid_groups_pending_rebuild_1";
     "ibox_raid_groups_pending_rebuild_2"; "ibox_ready_drives"; "ibox_rebuild_1_inprogress"; "ibox_rebuild_2_inprogress";
     "ibox_testing_drives"; "ibox_unknown_drives"].

Definition getResult (ibox : IboxCredentials) : prog mcall (res Result) :=
  r <- request ibox "GET" "/api/rest/system" None IntoSystemStatus ;;
  Ret (match result r with Ok status => Ok (SystemStatus_Result status) | Err err => Err err end).

Definition health_labels (r : Result) (credential : IboxCredentials) : labels :=
  list_to_map [("ibox_name", Result_Name r); ("ibox_ip_address", IboxIPAddress credential);
               ("ibox_ip_hostname", IboxHostname credential)].
Definition node_labels (r : Result) (credential : IboxCredentials) (node : string) : labels :=
  <["node" := node]> (health_labels r credential).
(** [v.(float64)] and [v == "protected"], of a value of type [any]. *)
Definition charge_level (v : json) : option gauge_value :=
  match v with JNum literal => Some (OfNumber literal) | _ => None end.
Definition protected_value (v : json) : gauge_value :=
  of_bool (match v with JStr s => String.eqb s "protected" | _ => false end).
(** The gauges of the entries of a map, in the order the runtime ranges over it. *)
Definition set_nodes (gauge : string) (ls : string -> labels) (value : json -> option gauge_value) (m : gmap string json)
    : prog mcall unit :=
  order <- trigger (RangeOrder (map fst (map_to_list m))) ;;
  for_each (fun index =>
              match m !! index with
              | None => Ret tt
              | Some v => match value v with
                          | None => Panic
                          | Some g => trigger (SetGauge gauge (ls index) g)
                          end
              end) order.

Definition record_health (credential : IboxCredentials) : prog mcall unit :=
  try results <- getResult credential catch _err => Ret tt ;;
  let h := Result_HealthState results in
  let ls := health_labels results credential in
  let set (gauge : string) (value : gauge_value) := trigger (SetGauge gauge ls value) in
  set "ibox_active_cache_ssd_devices" (OfInt (HealthState_ActiveCacheSsdDevices h)) ;;;
  set "ibox_active_drives" (OfInt (HealthState_ActiveDrives h)) ;;;
  set "ibox_active_encrypted_cache_ssd_devices" (OfInt (HealthState_ActiveEncryptedCacheSsdDevices h)) ;;;
  set "ibox_active_encrypted_drives" (OfInt (HealthState_ActiveEncryptedDrives h)) ;;;
  set "ibox_bbu_aggregate_charge_percent" (OfInt (HealthState_BbuAggregateChargePercent h)) ;;;
  set_nodes "ibox_bbu_charge_level" (node_labels results credential) charge_level (HealthState_BbuChargeLevel h) ;;;
  set "ibox_bbu_protected_nodes" (OfInt (HealthState_BbuProtectedNodes h)) ;;;
  set "ibox_enclosure_failure_safe_distribution" (of_bool (HealthState_EnclosureFailureSafeDistribution h)) ;;;
  set "ibox_encryption_enabled" (of_bool (HealthState_EnclosureFailureSafeDistribution h)) ;;;
  set "ibox_failed_drives" (OfInt (HealthState_FailedDrives h)) ;;;
  set "ibox_inactive_nodes" (OfInt (HealthState_InactiveNodes h)) ;;;
  set "ibox_missing_drives" (OfInt (HealthState_MissingDrives h)) ;;;
  set_nodes "ibox_node_bbu_protection" (node_labels results credential) (fun v => Some (protected_value v))
    (HealthState_NodeBbuProtection h) ;;;
  set "ibox_phasing_out_drives" (OfInt (HealthState_PhasingOutDrives h)) ;;;
  set "ibox_raid_groups_pending_rebuild_1" (OfInt (HealthState_RaidGroupsPendingRebuild1 h)) ;;;
  set "ibox_raid_groups_pending_rebuild_2" (OfInt (HealthState_RaidGroupsPendingRebuild2 h)) ;;;
  set "ibox_ready_drives" (OfInt (HealthState_ReadyDrives h)) ;;;
  set "ibox_rebuild_1_inprogress" (of_bool (HealthState_Rebuild1Inprogress h)) ;;;
  set "ibox_rebuild_2_inprogress" (of_bool (HealthState_Rebuild2Inprogress h)) ;;;
  set "ibox_testing_drives" (OfInt (HealthState_TestingDrives h)) ;;;
  set "ibox_unknown_drives" (OfInt (HealthState_UnknownDrives h)).
Definition RecordSystemHealthMetrics (n : nat) (config : MetricsConfig) : prog mcall unit :=
  passes n (GetDuration config MetricIboxSystemMetrics) (for_each record_health (Config_Ibox config)).

Example getCounterAverages_example :
  getCounterAverages ["ops"; "throughput"; "latency"] [[10; 4096; 7]; [15; 0; 8]]%Z = Some (12, 2048, 7)%Z /\
  getCounterAverages ["throughput"] [[10]]%Z = Some (10, 10, 10)%Z /\ getCounterAverages ["x"; "ops"] [[10]]%Z = None.
Proof. vm_compute. done. Qed.
