(* ===== verification/MetricsProofs.v ===== *)
(** Properties of the metrics exporter: what a pass publishes of an array's health,
    how the averages of a collector are computed, which collectors a pass leaves
    behind, and what the utilization of a pool is. *)
From stdpp Require Import base strings list gmap.
From S2P Require Import Prelude GoLib IboxTypes Traces Csi KubeClient Duration MetricsTypes Metrics.
From Stdlib Require Import ZArith Lia.

Local Open Scope string_scope.
Local Open Scope list_scope.

Ltac wp_reduce ::= cbn [wp bind defer trigger fst snd request result].

(** ** Gauges *)

(** The settings of gauges in a trace. *)
Definition setting {X} (c : mcall X) : option (string * labels * gauge_value) :=
  match c with SetGauge gauge ls value => Some (gauge, ls, value) | _ => None end.
Definition settings (t : mtrace) : list (string * labels * gauge_value) :=
  omap (fun e => match e with Evt c _ => setting c end) t.
Lemma settings_app t t' : settings (t ++ t') = settings t ++ settings t'.
Proof. apply omap_app. Qed.

Definition functional {K V} (l : list (K * V)) : Prop := forall k v v', (k, v) ∈ l -> (k, v') ∈ l -> v = v'.

Lemma published_settings t : published t = fold_left (fun g s => <[fst s := snd s]> g) (settings t) ∅.
Proof.
  unfold published. generalize (∅ : gmap (string * labels) gauge_value).
  induction t as [|[X c x] t IH]; intros g; [done|]. cbn. rewrite IH. by destruct c.
Qed.
Lemma fold_insert_lookup {K V} `{Countable K} (l : list (K * V)) (m : gmap K V) k v :
  functional l -> (k, v) ∈ l -> fold_left (fun g s => <[fst s := snd s]> g) l m !! k = Some v.
Proof.
  revert m. induction l as [|[k' v'] l IH] using rev_ind; intros m Hf Hin; [by apply not_elem_of_nil in Hin|].
  rewrite fold_left_app. cbn. apply elem_of_app in Hin as [Hin|Hin].
  - destruct (decide (k' = k)) as [->|Hne].
    + rewrite lookup_insert_eq. f_equal. eapply Hf; apply elem_of_app; [right; by left|by left].
    + rewrite lookup_insert_ne by done. apply IH; [|done]. intros ? ? ? H1 H2. eapply Hf; apply elem_of_app; eauto.
  - apply list_elem_of_singleton in Hin. injection Hin as <- <-. by rewrite lookup_insert_eq.
Qed.
Lemma fold_insert_none {K V} `{Countable K} (l : list (K * V)) (m : gmap K V) k :
  (forall v, (k, v) ∉ l) -> fold_left (fun g s => <[fst s := snd s]> g) l m !! k = m !! k.
Proof.
  revert m. induction l as [|[k' v'] l IH]; intros m Hn; [done|]. cbn. rewrite IH.
  - apply lookup_insert_ne. intros ->. apply (Hn v'). by left.
  - intros v Hin. apply (Hn v). by right.
Qed.
(** Settings that agree on every gauge are published whatever their order. *)
Lemma published_perm t l : settings t ≡ₚ l -> functional l -> published t = list_to_map l.
Proof.
  intros Hp Hf. apply map_eq. intros k. rewrite published_settings.
  assert (Hf' : functional (settings t)) by (intros ? ? ?; rewrite !Hp; apply Hf).
  destruct (list_to_map l !! k) as [v|] eqn:Hl.
  - apply elem_of_list_to_map_2 in Hl. apply fold_insert_lookup; [done|by rewrite Hp].
  - rewrite fold_insert_none; [done|]. intros v. rewrite Hp. intros Hin.
    apply not_elem_of_list_to_map_2 in Hl. apply Hl, list_elem_of_fmap. by exists (k, v).
Qed.

(** ** Passes over lists *)

(** The runtime ranges over the keys of a map in some order. *)
Definition order_ok {X} (c : mcall X) : X -> Prop :=
  match c with RangeOrder keys => fun order => order ≡ₚ keys | _ => fun _ => True end.
Definition ranges_fairly (t : mtrace) : Prop := Forall (fun e => match e with Evt c x => order_ok c x end) t.

Lemma runs_trigger_bind {X A} (c : mcall X) (f : X -> prog mcall A) t o :
  runs (bind (trigger c) f) t o -> exists x t', t = Evt c x :: t' /\ runs (f x) t' o.
Proof. intros (x & t' & -> & H). by exists x, t'. Qed.

(** The settings of the nodes, as the entries of the map give them. *)
Definition node_settings (gauge : string) (ls : string -> labels) (value : json -> option gauge_value) (m : gmap string json)
    : list (string * labels * gauge_value) :=
  omap (fun kv => pair (gauge, ls (fst kv)) <$> value (snd kv)) (map_to_list m).

Definition entry_setting (gauge : string) (ls : string -> labels) (value : json -> option gauge_value) (m : gmap string json)
    (node : string) : option (string * labels * gauge_value) :=
  v ← m !! node; g ← value v; Some ((gauge, ls node), g).
Lemma for_entries_runs gauge ls value m order t o :
  (forall node, node ∈ order -> is_Some (m !! node)) ->
  runs (for_each (fun index =>
                    match m !! index with
                    | None => Ret tt
                    | Some v => match value v with
                                | None => Panic
                                | Some g => trigger (SetGauge gauge (ls index) g)
                                end
                    end) order) t o ->
  (o = Done tt /\ settings t = omap (entry_setting gauge ls value m) order) \/
  (o = Panicked /\ exists node v, m !! node = Some v /\ value v = None).
Proof.
  revert t. induction order as [|node rest IH]; intros t Hm; cbn [for_each].
  - intros [-> ->]. by left.
  - destruct (Hm node) as [v Hv]; [by left|]. rewrite Hv. destruct (value v) as [g|] eqn:Hg.
    + intros ([] & t' & -> & H). apply IH in H as [[-> Ht]|(-> & Hex)].
      * left. split; [done|]. cbn. unfold entry_setting at 1. rewrite Hv. cbn. rewrite Hg. cbn. by rewrite <- Ht.
      * by right.
      * intros n Hn. apply Hm. by right.
    + intros [-> ->]. right. eauto.
Qed.
Lemma set_nodes_runs gauge ls value m t o :
  ranges_fairly t -> runs (set_nodes gauge ls value m) t o ->
  (o = Done tt /\ settings t ≡ₚ node_settings gauge ls value m) \/
  (o = Panicked /\ exists node v, m !! node = Some v /\ value v = None).
Proof.
  intros Hf (order & t' & -> & H). inversion_clear Hf as [|?? Ho Hf']. cbn in Ho.
  assert (Hin : forall node, node ∈ order -> is_Some (m !! node)).
  { intros node. rewrite Ho. intros ([k v] & -> & Hkv)%list_elem_of_fmap. exists v. by apply elem_of_map_to_list in Hkv. }
  apply for_entries_runs in H as [[-> Ht]|H]; [|by right|done]. left. split; [done|].
  unfold settings in *. cbn. rewrite Ht, Ho. clear Ht Ho Hin. unfold node_settings.
  match goal with |- ?a ≡ₚ ?b => assert (a = b) as ->; [|done] end.
  assert (Hall : Forall (fun kv => m !! kv.1 = Some kv.2) (map_to_list m)).
  { apply Forall_forall. intros [k v]. by rewrite elem_of_map_to_list. }
  induction Hall as [|[k v] l Hkv _ IH]; [done|]. cbn in *. unfold entry_setting at 1. rewrite Hkv. cbn.
  destruct (value v); cbn; by rewrite IH.
Qed.

(** ** The health of an array *)

(** What is published of a [HealthState]: every gauge with the field it shows. The
    gauge of the encryption shows the distribution over the enclosures. *)
Definition health_table (h : HealthState) : list (string * gauge_value) :=
  [("ibox_active_cache_ssd_devices", OfInt (HealthState_ActiveCacheSsdDevices h));
   ("ibox_active_drives", OfInt (HealthState_ActiveDrives h));
   ("ibox_active_encrypted_cache_ssd_devices", OfInt (HealthState_ActiveEncryptedCacheSsdDevices h));
   ("ibox_active_encrypted_drives", OfInt (HealthState_ActiveEncryptedDrives h));
   ("ibox_bbu_aggregate_charge_percent", OfInt (HealthState_BbuAggregateChargePercent h));
   ("ibox_bbu_protected_nodes", OfInt (HealthState_BbuProtectedNodes h));
   ("ibox_enclosure_failure_safe_distribution", of_bool (HealthState_EnclosureFailureSafeDistribution h));
   ("ibox_encryption_enabled", of_bool (HealthState_EnclosureFailureSafeDistribution h));
   ("ibox_failed_drives", OfInt (HealthState_FailedDrives h));
   ("ibox_inactive_nodes", OfInt (HealthState_InactiveNodes h));
   ("ibox_missing_drives", OfInt (HealthState_MissingDrives h));
   ("ibox_phasing_out_drives", OfInt (HealthState_PhasingOutDrives h));
   ("ibox_raid_groups_pending_rebuild_1", OfInt (HealthState_RaidGroupsPendingRebuild1 h));
   ("ibox_raid_groups_pending_rebuild_2", OfInt (HealthState_RaidGroupsPendingRebuild2 h));
   ("ibox_ready_drives", OfInt (HealthState_ReadyDrives h));
   ("ibox_rebuild_1_inprogress", of_bool (HealthState_Rebuild1Inprogress h));
   ("ibox_rebuild_2_inprogress", of_bool (HealthState_Rebuild2Inprogress h));
   ("ibox_testing_drives", OfInt (HealthState_TestingDrives h));
   ("ibox_unknown_drives", OfInt (HealthState_UnknownDrives h))].
Definition health_settings (r : Result) (credential : IboxCredentials) : list (string * labels * gauge_value) :=
  map (fun gv => (fst gv, health_labels r credential, snd gv)) (health_table (Result_HealthState r)) ++
  node_settings "ibox_bbu_charge_level" (node_labels r credential) charge_level (HealthState_BbuChargeLevel (Result_HealthState r)) ++
  node_settings "ibox_node_bbu_protection" (node_labels r credential) (fun v => Some (protected_value v))
    (HealthState_NodeBbuProtection (Result_HealthState r)).

Lemma node_settings_elem gauge ls value m k v :
  (k, v) ∈ node_settings gauge ls value m ->
  exists node j, k = (gauge, ls node) /\ m !! node = Some j /\ value j = Some v.
Proof.
  intros ([node j] & Hin & Hs)%list_elem_of_omap. apply elem_of_map_to_list in Hin. cbn in Hs.
  destruct (value j) as [v'|] eqn:Hj; [|done]. injection Hs as <- <-. eauto.
Qed.
Lemma node_labels_inj r credential n n' : node_labels r credential n = node_labels r credential n' -> n = n'.
Proof.
  intros H. assert (Hl : forall m, (node_labels r credential m : gmap string string) !! "node" = Some m)
    by (intros m; apply lookup_insert_eq).
  pose proof (Hl n) as H1. rewrite H, Hl in H1. by injection H1.
Qed.
Lemma node_settings_functional gauge r credential value m :
  functional (node_settings gauge (node_labels r credential) value m).
Proof.
  intros k v v' (n & j & -> & Hm & Hv)%node_settings_elem (n' & j' & He & Hm' & Hv')%node_settings_elem.
  apply (f_equal snd), node_labels_inj in He as <-. congruence.
Qed.
Lemma nodup_functional {K V} `{Countable K} (l : list (K * V)) : NoDup l.*1 -> functional l.
Proof.
  intros Hn k v v' Hv Hv'. apply (elem_of_list_to_map (M := gmap K)) in Hv, Hv'; [|done..]. congruence.
Qed.
Definition health_gauges : list string := map fst (health_table HealthState_zero).
Lemma health_table_functional h : functional (health_table h).
Proof. apply nodup_functional. apply (bool_decide_unpack (NoDup health_gauges)). by vm_compute. Qed.
Lemma health_table_gauge h g v : (g, v) ∈ health_table h -> g ∈ health_gauges.
Proof. intros H. apply (list_elem_of_fmap_2 fst) in H. exact H. Qed.
Lemma health_functional r credential : functional (health_settings r credential).
Proof.
  unfold health_settings. set (table := map _ (health_table _)).
  assert (Ht : forall k v, (k, v) ∈ table -> fst k ∈ health_gauges /\ (fst k, v) ∈ health_table (Result_HealthState r) /\
                             snd k = health_labels r credential).
  { intros k v ([g w] & [= -> ->] & H)%list_elem_of_fmap. split; [by eapply health_table_gauge|done]. }
  intros k v v' Hv Hv'. rewrite !elem_of_app in Hv, Hv'.
  assert (Hout : forall gauge value m w, gauge ∉ health_gauges ->
            (k, w) ∈ node_settings gauge (node_labels r credential) value m -> (fst k ∉ health_gauges) /\ fst k = gauge).
  { intros gauge value m w Hg (n & j & -> & _)%node_settings_elem. done. }
  assert (Hb : "ibox_bbu_charge_level" ∉ health_gauges) by (apply (bool_decide_unpack (_ ∉ _)); by vm_compute).
  assert (Hp : "ibox_node_bbu_protection" ∉ health_gauges) by (apply (bool_decide_unpack (_ ∉ _)); by vm_compute).
  destruct Hv as [Hv|[Hv|Hv]], Hv' as [Hv'|[Hv'|Hv']].
  - apply Ht in Hv as (_ & Hv & _), Hv' as (_ & Hv' & _). by eapply health_table_functional.
  - apply Ht in Hv as (Hv & _). by apply Hout in Hv' as [].
  - apply Ht in Hv as (Hv & _). by apply Hout in Hv' as [].
  - apply Ht in Hv' as (Hv' & _). by apply Hout in Hv as [].
  - by eapply node_settings_functional.
  - apply Hout in Hv as [_ Hv], Hv' as [_ Hv']; congruence.
  - apply Ht in Hv' as (Hv' & _). by apply Hout in Hv as [].
  - apply Hout in Hv as [_ Hv], Hv' as [_ Hv']; congruence.
  - by eapply node_settings_functional.
Qed.

(** A step of a pass that sets gauges: the settings it makes, up to their order, and
    what is left to run. *)
Lemma runs_setgauge {A} gauge ls value (k : unit -> prog mcall A) t o :
  ranges_fairly t -> runs (Vis (SetGauge gauge ls value) k) t o ->
  exists t', settings t = (gauge, ls, value) :: settings t' /\ ranges_fairly t' /\ runs (k tt) t' o.
Proof. intros Hf ([] & t' & -> & H). exists t'. split; [done|]. split; [by inversion Hf|done]. Qed.
Lemma runs_setnodes {A} gauge ls value m (f : prog mcall A) t o :
  ranges_fairly t -> runs (set_nodes gauge ls value m ;;; f) t o ->
  (exists t', settings t ≡ₚ node_settings gauge ls value m ++ settings t' /\ ranges_fairly t' /\ runs f t' o) \/
  (o = Panicked /\ exists node v, m !! node = Some v /\ value v = None).
Proof.
  intros Hf H. apply runs_bind_inv in H as [(u & t1 & t2 & -> & H1 & H2)|[[-> H1]|[-> H1]]].
  - apply Forall_app in Hf as [Hf1 Hf2]. apply set_nodes_runs in H1 as [[_ Ht]|[? _]]; [|done..]. left. exists t2.
    rewrite settings_app, Ht. done.
  - apply set_nodes_runs in H1 as [[? _]|[_ H1]]; [done|right; by split|done].
  - apply set_nodes_runs in H1 as [[? _]|[? _]]; done.
Qed.
Ltac next_gauge :=
  let t' := fresh "t" in let Ht := fresh "Ht" in let Hf := fresh "Hfair" in
  match goal with
  | Hfair : ranges_fairly ?t, H : runs (Vis (SetGauge _ _ _) _) ?t _ |- _ =>
      apply (runs_setgauge _ _ _ _ _ _ Hfair) in H as (t' & Ht & Hf & H); rewrite Ht; clear Hfair Ht; cbn beta in H
  end.

Lemma interleaved {A} (a m b n c : list A) : a ++ m ++ b ++ n ++ c ≡ₚ (a ++ b ++ c) ++ m ++ n.
Proof.
  rewrite <- !app_assoc. apply Permutation_app_head.
  transitivity (m ++ b ++ c ++ n); [by rewrite (Permutation_app_comm n)|].
  rewrite (Permutation_app_comm m), <- !app_assoc. by rewrite (Permutation_app_comm n).
Qed.

(** A pass over the health of an array asks it once. A failing array leaves all
    gauges as they were; of an answer the gauges published are, whatever the order
    of the nodes, exactly those of its table: each with the field it is named
    after (but the encryption, which shows the distribution over the enclosures),
    under the name and address of the array, and one per node for its charge and
    its protection. A charge that is no number ends the exporter. *)
Theorem record_health_spec credential t o :
  ranges_fairly t -> runs (record_health credential) t o ->
  exists answer t',
    t = Evt (Do "GET" ("https://" +:+ IboxHostname credential +:+ "/api/rest/system") (IboxUsername credential)
               (IboxPassword credential) None IntoSystemStatus) answer :: t' /\
    match answer with
    | Fetched status =>
        let r := SystemStatus_Result status in
        (o = Done tt /\ published t = list_to_map (health_settings r credential)) \/
        (o = Panicked /\ exists node v, HealthState_BbuChargeLevel (Result_HealthState r) !! node = Some v /\ charge_level v = None)
    | _ => o = Done tt /\ t' = []
    end.
Proof.
  intros Hf (answer & t' & -> & H). exists answer, t'. split; [done|].
  assert (Hfair : ranges_fairly t') by (by inversion Hf). clear Hf.
  destruct answer as [status|err|err]; [|cbn in H; destruct H as [-> ->]; split; reflexivity..].
  cbn zeta. set (r := SystemStatus_Result status).
  assert (Hs : (o = Done tt /\ settings t' ≡ₚ health_settings r credential) \/
        (o = Panicked /\ exists node v, HealthState_BbuChargeLevel (Result_HealthState r) !! node = Some v /\ charge_level v = None)).
  { cbn [request trigger bind result] in H. fold r in H. cbn zeta in H.
    do 5 next_gauge. apply runs_setnodes in H as [(u & Hu & Hfair & H)|H]; [rewrite Hu; clear Hu|by right|done].
    do 6 next_gauge. apply runs_setnodes in H as [(v & Hv & Hfair' & H)|(_ & ? & ? & _ & ?)]; [rewrite Hv; clear Hv|done..].
    do 7 next_gauge. destruct H as ([] & ? & -> & -> & ->). left. split; [done|].
    unfold health_settings. fold (health_table (Result_HealthState r)).
    set (table := map _ (health_table _)).
    exact (interleaved (take 5 table) _ (take 6 (drop 5 table)) _ (drop 11 table)). }
  destruct Hs as [[-> Hs]|Hs]; [left|by right]. split; [done|].
  change (published t' = list_to_map (health_settings r credential)).
  apply published_perm; [done|apply health_functional].
Qed.

Definition health_7 : HealthState := {|
  HealthState_ActiveCacheSsdDevices := 7; HealthState_ActiveDrives := 480; HealthState_ActiveEncryptedCacheSsdDevices := 0;
  HealthState_ActiveEncryptedDrives := 0; HealthState_BbuAggregateChargePercent := 98;
  HealthState_BbuChargeLevel := {[ "bbu-1" := JNum "98.5" ]}; HealthState_BbuProtectedNodes := 3;
  HealthState_EnclosureFailureSafeDistribution := true; HealthState_EncryptionEnabled := false;
  HealthState_FailedDrives := 0; HealthState_InactiveNodes := 0; HealthState_MissingDrives := 0;
  HealthState_NodeBbuProtection := {[ "node-1" := JStr "protected" ]}; HealthState_PhasingOutDrives := 0;
  HealthState_RaidGroupsPendingRebuild1 := 0; HealthState_RaidGroupsPendingRebuild2 := 0; HealthState_ReadyDrives := 0;
  HealthState_Rebuild1Inprogress := false; HealthState_Rebuild2Inprogress := false; HealthState_TestingDrives := 0;
  HealthState_UnknownDrives := 0 |}%Z.
Definition result_7 : Result :=
  MkResult Capacity_zero "" EntityCounts_zero "" health_7 0 Localtime_zero "" "box7" OperationalState_zero "" Release_zero
    Security_zero 0 JNull 0 0 "" "".
Definition ibox_7 : IboxCredentials := MkIboxCredentials "ibox7" "10.0.0.7" "p" "u".
(** An array that answers, and maps ranged over in the order of their keys. *)
Definition answering {A} (d : into A) : fetched A :=
  match d with
  | IntoPools => Fetched Pools_zero
  | IntoSystemStatus => Fetched (MkSystemStatus JNull Metadata_zero result_7)
  | IntoCollectorID => Fetched 4%Z
  | IntoCollectors => Fetched [MkCollector 4 ["ops"; "throughput"; "latency"] [[10; 4096; 7]; [15; 0; 8]] "COUNTER" 1000 0]%Z
  | IntoNothing => Fetched tt
  end.
Definition world_7 : handler mcall unit := fun X c w =>
  (match c in mcall X return X with
   | ReadFile _ => Ok ""
   | LookupIP _ => Ok []
   | Clientset => None
   | ListPersistentVolumes => Ok []
   | ListStorageClasses => Ok []
   | GetStorageClass name => Ok (MkStorageClass name "" ∅)
   | Do _ _ _ _ _ d => answering d
   | SetGauge _ _ _ => tt
   | RangeOrder keys => keys
   | SleepFor _ => tt
   end, w).
Lemma world_7_order {X} (c : mcall X) : order_ok c (fst (world_7 X c tt)).
Proof. destruct c; first [exact I|cbn; reflexivity]. Qed.
Lemma world_7_fair {A} (p : prog mcall A) t o : exec world_7 p tt = (t, o, tt) -> ranges_fairly t.
Proof.
  revert t. induction p as [a| | |X c k IH]; intros t; cbn [exec]; [by intros [= <- _]; constructor..|].
  pose proof (world_7_order c) as Hc. destruct (world_7 X c tt) as [x []]. cbn in Hc.
  destruct (exec world_7 (k x) tt) as [[t' o'] []] eqn:He. intros [= <- ->]. constructor; [done|by eapply IH].
Qed.
Lemma record_health_spec_witness :
  exists t o, ranges_fairly t /\ runs (record_health ibox_7) t o /\
    exists answer t',
      t = Evt (Do "GET" "https://ibox7/api/rest/system" "u" "p" None IntoSystemStatus) answer :: t' /\
      match answer with
      | Fetched status =>
          let r := SystemStatus_Result status in
          (o = Done tt /\ published t = list_to_map (health_settings r ibox_7)) \/
          (o = Panicked /\ exists node v, HealthState_BbuChargeLevel (Result_HealthState r) !! node = Some v /\ charge_level v = None)
      | _ => o = Done tt /\ t' = []
      end.
Proof.
  destruct (exec world_7 (record_health ibox_7) tt) as [[t o] []] eqn:He. exists t, o.
  assert (Hf : ranges_fairly t) by (by eapply world_7_fair).
  assert (Hr : runs (record_health ibox_7) t o) by (by eapply exec_runs).
  split; [exact Hf|]. split; [exact Hr|]. exact (record_health_spec ibox_7 t o Hf Hr).
Defined.
Example health_7_published :
  let '(t, _, _) := exec world_7 (record_health ibox_7) tt in
  let ls : labels := health_labels result_7 ibox_7 in
  published t !! ("ibox_encryption_enabled", ls) = Some (OfInt 1) /\
  published t !! ("ibox_bbu_charge_level", node_labels result_7 ibox_7 "bbu-1") = Some (OfNumber "98.5") /\
  size (published t) = 21.
Proof. vm_compute. done. Qed.

(** ** Collectors *)

(** The numbers of the collectors made, and the addresses of those deleted. *)
Definition created_id {X} (c : mcall X) : X -> option Z :=
  match c in mcall X return X -> option Z with
  | Do _ _ _ _ _ d =>
      match d in into A return fetched A -> option Z with
      | IntoCollectorID => fun f => match f with Fetched id => Some id | _ => None end
      | _ => fun _ => None
      end
  | _ => fun _ => None
  end.
Definition deleted_url {X} (c : mcall X) : X -> option string :=
  match c in mcall X return X -> option string with
  | Do "DELETE" url _ _ _ _ => fun f => match f with Fetched _ => Some url | _ => None end
  | _ => fun _ => None
  end.
Definition created (t : mtrace) : list Z := omap (fun e => match e with Evt c x => created_id c x end) t.
Definition deleted (t : mtrace) : list string := omap (fun e => match e with Evt c x => deleted_url c x end) t.
Definition collector_url (ibox : IboxCredentials) (id : Z) : string :=
  "https://" +:+ IboxHostname ibox +:+ "/api/rest/metrics/collectors/" +:+ Itoa id.
Definition gauges_of (ls : labels) (t : mtrace) : list (string * gauge_value) :=
  omap (fun s => if bool_decide (snd (fst s) = ls) then Some (fst (fst s), snd s) else None) (settings t).
Definition perf_gauges (avg : Z * Z * Z) : list (string * gauge_value) :=
  [("ibox_perf_iops", OfInt (fst (fst avg))); ("ibox_perf_throughput", OfInt (snd (fst avg)));
   ("ibox_perf_latency", OfInt (snd avg))].
Lemma perf_labels_differ ibox : bool_decide (perf_labels ibox "NAS" = perf_labels ibox "SAN") = false /\
  bool_decide (perf_labels ibox "SAN" = perf_labels ibox "NAS") = false.
Proof.
  assert (H : perf_labels ibox "NAS" <> perf_labels ibox "SAN"); [|split; apply bool_decide_eq_false; congruence].
  intros He. assert (Hl : forall p, (perf_labels ibox p : gmap string string) !! "ibox_protocol" = Some p) by done.
  pose proof (Hl "NAS") as H1. rewrite He, Hl in H1. discriminate.
Qed.

Definition data_read (ibox : IboxCredentials) (id : Z) (data : list Collector) (t : mtrace) : Prop :=
  Evt (Do "GET" ("https://" +:+ IboxHostname ibox +:+ "/api/rest/metrics/collectors/data?collector_id=" +:+ Itoa id)
         (IboxUsername ibox) (IboxPassword ibox) None IntoCollectors) (Fetched data) ∈ t.
Lemma result_ok {A} (f : fetched A) a : result f = Ok a -> f = Fetched a.
Proof. destruct f; [by intros [= ->]|done..]. Qed.

(** C39: A pass over the performance of an array deletes only collectors it made, and
    publishes the figures of the SAN collector exactly when it deleted both: then
    the gauges of both protocols show the averages of the data read from the
    collector of that protocol. Every pass that fails after it made the
    collectors, and every panic, leaves at least one on the array. It never runs
    for ever. *)
Theorem record_performance_collectors ibox t o :
  runs (record_performance ibox) t o ->
  o <> Exhausted /\
  (forall url, url ∈ deleted t -> exists id, id ∈ created t /\ url = collector_url ibox id) /\
  ((gauges_of (perf_labels ibox "SAN") t = [] /\ length (deleted t) < 2) \/
   exists san nas nas_data san_data nas_avg san_avg,
     created t = [san; nas] /\ deleted t = [collector_url ibox nas; collector_url ibox san] /\
     data_read ibox nas nas_data t /\ data_read ibox san san_data t /\
     averages nas_data = Some nas_avg /\ averages san_data = Some san_avg /\
     gauges_of (perf_labels ibox "NAS") t = perf_gauges nas_avg /\
     gauges_of (perf_labels ibox "SAN") t = perf_gauges san_avg).
Proof.
  destruct (perf_labels_differ ibox) as [H1 H2].
  unfold record_performance, createCollectors, post_collector, getCollectorData, deleteCollector, set_perf.
  revert t o. wp_start. wp_run. all: wp_leaf.
  all: repeat match goal with
              | H : result _ = Ok _ |- _ => apply result_ok in H; subst
              | H : match result ?f with _ => _ end = _ |- _ => destruct f; try discriminate H; clear H
              | H : result ?f = Err _ |- _ => destruct f; [discriminate H|..]; clear H
              end.
  all: split; [done|]; split;
    [cbn; intros url Hurl; repeat (apply elem_of_cons in Hurl as [->|Hurl]; [eexists; split; [|reflexivity]; set_solver|]);
     by apply not_elem_of_nil in Hurl|].
  all: unfold gauges_of, settings; cbn [omap list_omap setting fst snd];
       rewrite ?H1, ?H2, ?(bool_decide_eq_true_2 (perf_labels _ _ = _)) by done.
  all: first [by left; split; [|cbn; lia]|right].
  exists a, a0, a1, a2, (z0, z1, z), (z3, z4, z2). do 2 (split; [reflexivity|]). do 2 (split; [in_trace|]). done.
Qed.

Lemma record_performance_collectors_witness :
  exists t o, runs (record_performance ibox_7) t o /\
    ((gauges_of (perf_labels ibox_7 "SAN") t = [] /\ length (deleted t) < 2) \/
     exists san nas, created t = [san; nas] /\ deleted t = [collector_url ibox_7 nas; collector_url ibox_7 san]).
Proof.
  destruct (exec world_7 (record_performance ibox_7) tt) as [[t o] []] eqn:He. exists t, o.
  assert (Hr : runs (record_performance ibox_7) t o) by (by eapply exec_runs). split; [exact Hr|].
  destruct (record_performance_collectors ibox_7 t o Hr) as (_ & _ & [H|(san & nas & _ & _ & _ & _ & Hc & Hd & _)]).
  - left. exact H.
  - right. exists san, nas. split; [exact Hc|exact Hd].
Defined.

(** ** Averages *)

(** The column of a field: the last place it has, the first column without one. *)
Definition column_of (names fields : list string) : nat :=
  snd (fold_left (fun '(i, found) field => (S i, if bool_decide (field ∈ names) then i else found)) fields (0, 0)).
Definition mean (column : nat) (data : list (list Z)) : Z :=
  match data with
  | [] => 0%Z
  | _ => Z.quot (i64 (foldr Z.add 0%Z (map (fun sample => nth column sample 0%Z) data))) (Z.of_nat (length data))
  end.
Definition ops_column : list string -> nat := column_of [FieldOps].
Definition latency_column : list string -> nat := column_of [FieldLatencyNAS; FieldLatencySAN].
Definition throughput_column : list string -> nat := column_of [FieldThroughput].

Lemma find_columns_spec fields i c :
  let place names found :=
    snd (fold_left (fun '(i, found) field => (S i, if bool_decide (field ∈ names) then i else found)) fields (i, found)) in
  find_columns fields i c
  = MkColumns (place [FieldOps] (opsIndex c)) (place [FieldThroughput] (throughputIndex c))
      (place [FieldLatencyNAS; FieldLatencySAN] (latencyIndex c)).
Proof.
  revert i c. induction fields as [|field fields IH]; intros i [o th l]; [done|]. cbn [find_columns fold_left] in *.
  rewrite IH. unfold set_column. cbn [opsIndex throughputIndex latencyIndex].
  assert (Hb : forall names, bool_decide (field ∈ names) = existsb (String.eqb field) names).
  { intros names. apply eq_bool_prop_intro. rewrite bool_decide_spec.
    split; [intros H; apply Is_true_eq_left, existsb_exists; exists field; by rewrite list_elem_of_In, String.eqb_refl in *|].
    intros (x & Hx & ->%String.eqb_eq)%Is_true_eq_true%existsb_exists. by apply list_elem_of_In. }
  rewrite !Hb. cbn [existsb]. rewrite !orb_false_r.
  destruct (String.eqb_spec field FieldOps) as [->|]; [done|].
  destruct (String.eqb_spec field FieldLatencyNAS) as [->|]; [done|].
  destruct (String.eqb_spec field FieldLatencySAN) as [->|]; [done|].
  by destruct (String.eqb field FieldThroughput).
Qed.

Definition fits_columns (c : columns) (sample : list Z) : Prop :=
  opsIndex c < length sample /\ throughputIndex c < length sample /\ latencyIndex c < length sample.
Definition column_sum (column : nat) (data : list (list Z)) : Z :=
  foldr Z.add 0%Z (map (fun sample => nth column sample 0%Z) data).
Lemma totals_spec c data o th l :
  (Forall (fits_columns c) data ->
   totals c data (i64 o) (i64 th) (i64 l)
   = Some (i64 (o + column_sum (opsIndex c) data), i64 (th + column_sum (throughputIndex c) data),
           i64 (l + column_sum (latencyIndex c) data))) /\
  (~ Forall (fits_columns c) data -> totals c data (i64 o) (i64 th) (i64 l) = None).
Proof.
  revert o th l. induction data as [|sample data IH]; intros o th l.
  { split; [intros _|intros H; by destruct H]. unfold column_sum. cbn. by rewrite !Z.add_0_r. }
  assert (Hl : forall k, sample !! k = if decide (k < length sample) then Some (nth k sample 0%Z) else None).
  { intros k. case_decide as Hk; [|apply lookup_ge_None; lia].
    apply lookup_lt_is_Some in Hk as [x Hx]. rewrite Hx. f_equal. symmetry. by apply nth_lookup_Some. }
  cbn [totals]. rewrite !Hl. unfold column_sum in *. cbn [map foldr]. split.
  - intros [(H1 & H2 & H3) Hd]%Forall_cons. rewrite !decide_True by done. cbn [mbind option_bind].
    rewrite !i64_add_l. rewrite (proj1 (IH _ _ _)) by done. by rewrite !Z.add_assoc.
  - intros Hn. destruct (decide (opsIndex c < length sample)); [cbn [mbind option_bind]|done].
    destruct (decide (latencyIndex c < length sample)); [cbn [mbind option_bind]|done].
    destruct (decide (throughputIndex c < length sample)); [cbn [mbind option_bind]|done]. rewrite !i64_add_l. apply IH. intros Hd. apply Hn. by constructor.
Qed.

(** The averages of a collector: of each field the truncated quotient of the sum of
    its column (wrapped to int64) and the number of samples, all zero without
    samples; a sample that is too short for a column is a panic. *)
Lemma getCounterAverages_spec fields data :
  let c := MkColumns (ops_column fields) (throughput_column fields) (latency_column fields) in
  (Forall (fits_columns c) data ->
   getCounterAverages fields data = Some (mean (opsIndex c) data, mean (throughputIndex c) data, mean (latencyIndex c) data)) /\
  (~ Forall (fits_columns c) data -> getCounterAverages fields data = None).
Proof.
  intros c. unfold getCounterAverages.
  assert (find_columns fields 0 (MkColumns 0 0 0) = c) as -> by apply find_columns_spec.
  destruct (totals_spec c data 0 0 0) as [H1 H2]. change (i64 0) with 0%Z in *. split; intros Hf.
  - rewrite H1 by done. cbn [mbind option_bind]. rewrite !Z.add_0_l. by destruct data.
  - by rewrite H2.
Qed.

(** ** Pools *)

(** The utilization is computed in whole numbers: below the full capacity it is 0. *)
Lemma pct_utilized_whole pool :
  (0 <= Pool_AllocatedPhysicalSpace pool <= Pool_PhysicalCapacity pool)%Z -> Pool_PhysicalCapacity pool <> 0%Z ->
  pct_utilized pool = Some (if (Pool_AllocatedPhysicalSpace pool =? Pool_PhysicalCapacity pool)%Z then 100 else 0)%Z.
Proof.
  unfold pct_utilized. intros Ha Hp. rewrite (proj2 (Z.eqb_neq _ _) Hp).
  destruct (Z.eqb_spec (Pool_AllocatedPhysicalSpace pool) (Pool_PhysicalCapacity pool)) as [->|Hne].
  - by rewrite Z.quot_same.
  - by rewrite Z.quot_small by lia.
Qed.

Definition pool_settings (info : StorageClass * Pool) : list (string * labels * gauge_value) :=
  let ls := pool_labels (fst info) in
  [("ibox_pool_available_cap", ls, OfInt (Pool_PhysicalCapacity (snd info)));
   ("ibox_pool_used_cap", ls, OfInt (Pool_AllocatedPhysicalSpace (snd info)));
   ("ibox_pool_pct_utilized", ls, OfInt (default 0%Z (pct_utilized (snd info))))].
Lemma for_each_pools infos t o :
  runs (for_each record_pool infos) t o ->
  (o = Done tt /\ settings t = flat_map pool_settings infos) \/
  (o = Panicked /\ Exists (fun info => Pool_PhysicalCapacity (snd info) = 0%Z) infos).
Proof.
  revert t. induction infos as [|[sc pool] infos IH]; intros t; cbn [for_each]; [intros [-> ->]; by left|].
  unfold record_pool. intros ([] & t1 & -> & [] & t2 & -> & H).
  destruct (pct_utilized pool) as [pct|] eqn:Hp.
  - destruct H as ([] & t3 & -> & H). apply IH in H as [[-> Ht]|[-> Hex]].
    + left. split; [done|]. cbn [flat_map]. rewrite <- Ht. unfold pool_settings. cbn [fst snd]. by rewrite Hp.
    + right. split; [done|]. by apply Exists_cons_tl.
  - destruct H as [-> ->]. right. split; [done|]. apply Exists_cons_hd. unfold pct_utilized in Hp. cbn.
    by destruct (Z.eqb_spec (Pool_PhysicalCapacity pool) 0).
Qed.

(** The classes of the driver whose pool the array has, with the first pool of that
    name: for each the capacity, the allocated space and their quotient in per
    cent are published. *)
Lemma record_pools_spec ibox t o :
  runs (record_pools ibox) t o ->
  (settings t = [] /\ (o = Done tt \/ exists err, o = Panicked /\
     Evt (Do "GET" ("https://" +:+ IboxHostname ibox +:+ "/api/rest/pools") (IboxUsername ibox) (IboxPassword ibox) None IntoPools)
       (Undecoded err) ∈ t)) \/
  exists classes pools,
    Evt ListStorageClasses (Ok classes) ∈ t /\
    Evt (Do "GET" ("https://" +:+ IboxHostname ibox +:+ "/api/rest/pools") (IboxUsername ibox) (IboxPassword ibox) None IntoPools)
      (Fetched pools) ∈ t /\
    let infos := pool_infos pools (List.filter driver_class classes) in
    (o = Done tt /\ settings t = flat_map pool_settings infos) \/
    (o = Panicked /\ Exists (fun info => Pool_PhysicalCapacity (snd info) = 0%Z) infos).
Proof.
  unfold record_pools, getPoolInfo, getStorageClasses, getPools. intros (client & t1 & -> & H).
  destruct client as [err|]; [destruct H as [-> ->]; left; split; [done|by left]|].
  destruct H as (classes & t2 & -> & H). destruct classes as [classes|err]; [|destruct H as [-> ->]; left; split; [done|by left]].
  destruct H as (pools & t3 & -> & H). destruct pools as [pools|err|err].
  - right. exists classes, pools. split; [in_trace|]. split; [in_trace|]. cbn zeta.
    apply for_each_pools in H as [[-> Ht]|[-> Hex]]; [left|by right]. split; [done|]. exact Ht.
  - destruct H as [-> ->]. left. split; [done|by left].
  - destruct H as [-> ->]. left. split; [done|]. right. exists err. split; [done|]. in_trace.
Qed.

(** ** The configuration *)

(** Of a valid configuration the duration of a metric is the one of its first entry,
    or 30 s; in nanoseconds, not necessarily positive. *)
Lemma GetDuration_valid config name :
  Validate config = false ->
  Some (GetDuration config name) =
    match List.find (fun m => String.eqb (MS_Name m) name) (Config_Metrics config) with
    | Some m => ParseDuration (MS_Duration m)
    | None => Some 30000000000%Z
    end.
Proof.
  unfold Validate, GetDuration. induction (Config_Metrics config) as [|m l IH]; [done|]. cbn [existsb GetDuration_in List.find].
  intros [Hm Hl]%orb_false_iff. destruct (String.eqb (MS_Name m) name); [|by apply IH].
  apply orb_false_iff in Hm as [Hm _]. apply negb_false_iff, bool_decide_eq_true in Hm as [d Hd]. by rewrite Hd.
Qed.

(** ** Labels *)

Definition registered : gauge_vecs := pool_vecs ++ pv_vecs ++ perf_vecs ++ health_vecs.
(** A gauge is set with the labels it was registered with, and is not the one of the
    error rates. *)
Definition labelled {X} (c : mcall X) : Prop :=
  match c with
  | SetGauge gauge ls _ => gauge <> "ibox_error_rates" /\ exists names, (gauge, names) ∈ registered /\ dom ls = list_to_set names
  | _ => True
  end.
Abbreviation all_labelled := (every (fun X c => labelled c)).

Lemma labelled_at gauge names (ls : labels) :
  existsb (fun v => String.eqb (fst v) gauge && bool_decide (snd v = names)) registered = true ->
  String.eqb gauge "ibox_error_rates" = false -> dom ls = list_to_set names ->
  gauge <> "ibox_error_rates" /\ exists names, (gauge, names) ∈ registered /\ dom ls = list_to_set names.
Proof.
  intros ([g n] & Hin & H)%existsb_exists Hg%String.eqb_neq Hd.
  apply andb_prop in H as [Heq Hn]. apply String.eqb_eq in Heq. apply bool_decide_eq_true in Hn. cbn [fst snd] in *. subst.
  split; [done|]. exists names. split; [by apply list_elem_of_In|done].
Qed.
Ltac labelled Hd := eapply labelled_at; [|reflexivity|exact Hd]; vm_compute; reflexivity.
Lemma for_each_labelled {A} (body : A -> prog mcall unit) l : (forall a, all_labelled (body a)) -> all_labelled (for_each body l).
Proof. intros Hb. induction l as [|a l IH]; [done|]. cbn [for_each]. by apply every_bind. Qed.
Lemma pool_labelled info : all_labelled (record_pool info).
Proof.
  destruct info as [sc pool]. unfold record_pool.
  assert (Hd : dom (pool_labels sc) = list_to_set (C := gset string)
                 ["pool_name"; "pool_provision_type"; "pool_ssd_enabled"; "pool_network_space"; "pool_storage_protocol"]).
  { unfold pool_labels, class_labels. by rewrite dom_list_to_map_L. }
  do 2 (split; [by labelled Hd|]; intros ?). destruct (pct_utilized pool); [|done].
  split; [by labelled Hd|done].
Qed.
Lemma pv_labelled Quantity_Value info : all_labelled (record_pv Quantity_Value info).
Proof.
  split; [|done].
  assert (Hd : dom (pv_labels info) = list_to_set (C := gset string)
                 ["pv_name"; "pv_storage_class"; "pv_provision_type"; "pv_ssd_enabled"; "pv_network_space"; "pv_storage_protocol"]).
  { unfold pv_labels, class_labels. rewrite dom_insert_L, dom_list_to_map_L. apply (bool_decide_unpack (_ = _)). by vm_compute. }
  by labelled Hd.
Qed.
Lemma perf_labelled ibox protocol avg : all_labelled (set_perf (perf_labels ibox protocol) avg).
Proof.
  destruct avg as [[o th] l].
  assert (Hd : dom (perf_labels ibox protocol) = list_to_set (C := gset string)
                 ["ibox_ip_address"; "ibox_ip_hostname"; "ibox_protocol"]) by (unfold perf_labels; by rewrite dom_list_to_map_L).
  do 2 (split; [by labelled Hd|]; intros ?). split; [by labelled Hd|done].
Qed.
Lemma nodes_labelled gauge r credential value m :
  gauge = "ibox_bbu_charge_level" \/ gauge = "ibox_node_bbu_protection" ->
  all_labelled (set_nodes gauge (node_labels r credential) value m).
Proof.
  intros Hg. split; [done|]. intros order. apply for_each_labelled. intros node.
  destruct (m !! node) as [v|]; [|done]. destruct (value v); [|done]. split; [|done].
  assert (Hd : dom (node_labels r credential node) = list_to_set (C := gset string)
                 ["ibox_name"; "ibox_ip_address"; "ibox_ip_hostname"; "node"]).
  { unfold node_labels, health_labels. rewrite dom_insert_L, dom_list_to_map_L. apply (bool_decide_unpack (_ = _)). by vm_compute. }
  destruct Hg as [->| ->]; by labelled Hd.
Qed.
Lemma health_labelled credential : all_labelled (record_health credential).
Proof.
  unfold record_health. apply every_bind; [split; done|]. intros [r|]; [|done]. cbv zeta.
  assert (Hd : dom (health_labels r credential) = list_to_set (C := gset string)
                 ["ibox_name"; "ibox_ip_address"; "ibox_ip_hostname"]) by (unfold health_labels; by rewrite dom_list_to_map_L).
  repeat (apply every_bind; [first [apply nodes_labelled; tauto|split; [by labelled Hd|done]]|intros ?]).
  split; [by labelled Hd|done].
Qed.

Inductive recorder := Pools_recorder | PV_recorder | Performance_recorder | Health_recorder.
Definition records (Quantity_Value : string -> Z) (r : recorder) (n : nat) (config : MetricsConfig) : prog mcall unit :=
  match r with
  | Pools_recorder => RecordPoolMetrics n config
  | PV_recorder => RecordPVMetrics Quantity_Value n config
  | Performance_recorder => RecordPerformanceMetrics n config
  | Health_recorder => RecordSystemHealthMetrics n config
  end.
Lemma pool_pass_labelled ibox : all_labelled (record_pools ibox).
Proof.
  unfold record_pools, getPoolInfo, getStorageClasses, getPools. split; [done|]. intros [err|]; [done|].
  split; [done|]. intros [classes|err]; [|done]. split; [done|]. intros [pools|err|err]; [|done..].
  apply for_each_labelled, pool_labelled.
Qed.
Lemma pv_infos_labelled items : all_labelled (pv_infos items).
Proof.
  induction items as [|pv items IH]; [done|]. cbn [pv_infos]. destruct (String.eqb _ _); [|done]. split; [done|].
  intros sc. cbn [bind]. apply every_bind; [done|]. intros infos. exact I.
Qed.
Lemma pv_pass_labelled Quantity_Value : all_labelled (record_pvs Quantity_Value).
Proof.
  unfold record_pvs, getPVInfo. split; [done|]. intros [err|]; [done|]. split; [done|]. intros [items|err]; [|done].
  cbn [bind]. apply every_bind; [apply every_bind; [apply pv_infos_labelled|done]|]. intros [infos|]; [|done].
  apply for_each_labelled, pv_labelled.
Qed.
Lemma performance_pass_labelled ibox : all_labelled (record_performance ibox).
Proof.
  unfold record_performance, createCollectors, post_collector, getCollectorData, deleteCollector.
  apply every_bind; [split; [done|]; intros [san|err|err]; [|done..]; split; [done|]; intros [nas|err|err]; [|done..]; cbn;
                     by repeat case_match|].
  intros [[nas san]|err]; [|done]. split; [done|]. intros ?. split; [done|]. intros data.
  cbn [bind]. destruct (result data) as [d|]; [|done]. cbn. destruct (averages d) as [avg|]; [|done].
  apply every_bind; [apply perf_labelled|]. intros ?. split; [done|]. intros data'. cbn [bind].
  destruct (result data') as [d'|]; [|done]. cbn. destruct (averages d') as [avg'|]; [|done].
  split; [done|]. intros r. cbn. destruct (result r) as [[]|]; [|done].
  split; [done|]. intros r'. cbn. destruct (result r') as [[]|]; [|done]. apply perf_labelled.
Qed.
Lemma passes_labelled n duration pass : all_labelled pass -> all_labelled (passes n duration pass).
Proof. intros Hp. induction n as [|n IH]; [done|]. split; [done|]. intros ?. cbn [bind]. by apply every_bind. Qed.

(** Whatever the arrays and the cluster answer, every gauge an exporter sets in
    any number of passes is set with exactly the labels it was registered with, so
    setting it never panics; and the gauge of the error rates is never set. *)
Theorem gauges_registered Quantity_Value r n config t o :
  runs (records Quantity_Value r n config) t o ->
  forall gauge ls value, (gauge, ls, value) ∈ settings t ->
    gauge <> "ibox_error_rates" /\ exists names, (gauge, names) ∈ registered /\ dom ls = list_to_set names.
Proof.
  intros Ht gauge ls value Hin.
  assert (Hall : all_labelled (records Quantity_Value r n config)).
  { destruct r; apply passes_labelled; try apply for_each_labelled;
      auto using pool_pass_labelled, pv_pass_labelled, performance_pass_labelled, health_labelled. }
  pose proof (every_runs _ _ _ _ Hall Ht) as Hf. unfold settings in Hin.
  apply list_elem_of_omap in Hin as ([X c x] & Hc & Hs).
  rewrite Forall_forall in Hf. specialize (Hf _ Hc). cbn in Hf. destruct c; try discriminate Hs.
  injection Hs as -> -> ->. exact Hf.
Qed.
Definition config_7 : MetricsConfig := MkMetricsConfig [ibox_7] [MkMetricSpec "1m" MetricIboxSystemMetrics].
Lemma gauges_registered_witness :
  exists t o, runs (records (fun _ => 0%Z) Health_recorder 1 config_7) t o /\
    forall gauge ls value, (gauge, ls, value) ∈ settings t ->
      gauge <> "ibox_error_rates" /\ exists names, (gauge, names) ∈ registered /\ dom ls = list_to_set names.
Proof.
  destruct (exec world_7 (records (fun _ => 0%Z) Health_recorder 1 config_7) tt) as [[t o] []] eqn:He. exists t, o.
  assert (Hr : runs (records (fun _ => 0%Z) Health_recorder 1 config_7) t o) by (by eapply exec_runs).
  split; [exact Hr|]. exact (gauges_registered (fun _ => 0%Z) Health_recorder 1 config_7 t o Hr).
Defined.
