(* ===== verification/Cosi.v ===== *)
(** The object storage driver ([cosi/]): a third program. The provisioner
    ([pkg/driver/provisioner.go]) works over the interface [DynamicClient] of an S3
    service; [internal/s3/s3.go] implements it with the AWS SDK, and
    [internal/s3/stub/s3.go] in memory. *)
From S2P Require Import Prelude GoLib IboxTypes Csi.
From stdpp Require Import base strings list gmap.
From Stdlib Require Import ZArith.

Local Open Scope string_scope.
Local Open Scope list_scope.

(** ** The interface *)

Record BucketInfo := MkBucketInfo {
  BucketName : string;
  Endpoint : string;
  Region : string
}.
Record AccessInfo := MkAccessInfo {
  AccountID : string;
  AccessKeyID : string;
  SecretKey : string;
  AccessBuckets : list BucketInfo
}.
(** The errors the provisioner tells apart ([errors.go]); no other error wraps one
    of them. *)
Inductive s3_error :=
| MissingParameterError (parameter : string)
| BucketNotFoundError (bucket : string)
| OtherError (err : error).

Abbreviation params := (gmap string string).
Record DynamicClient (E : Type -> Type) := MkDynamicClient {
  client_BucketInfo : string -> prog E (BucketInfo + s3_error);
  client_CreateBucket : string -> params -> prog E (BucketInfo + s3_error);
  client_DeleteBucket : string -> params -> prog E (option s3_error);
  client_CreateBucketAccess : string -> list string -> params -> prog E (AccessInfo + s3_error);
  client_DeleteBucketAccess : string -> list string -> params -> prog E (option s3_error)
}.
Arguments MkDynamicClient {E}.
Arguments client_BucketInfo {E}.
Arguments client_CreateBucket {E}.
Arguments client_DeleteBucket {E}.
Arguments client_CreateBucketAccess {E}.
Arguments client_DeleteBucketAccess {E}.

(** ** provisioner.go *)

Record DriverCreateBucketRequest := MkDriverCreateBucketRequest { CB_Name : string; CB_Parameters : params }.
Record DriverGrantBucketAccessRequest := MkDriverGrantBucketAccessRequest {
  GA_BucketId : string;
  GA_Name : string;
  GA_Parameters : params
}.
(** The response to a grant: the account and its credentials by name, each with its
    secrets. *)
Record DriverGrantBucketAccessResponse := MkDriverGrantBucketAccessResponse {
  GA_AccountId : string;
  GA_Credentials : gmap string (gmap string string)
}.

Section provisioner.
Context {E : Type -> Type}.
(** [ProvisionerServer]: how to make a client, and the credentials used where a
    request brings no parameters. *)
Context (connect : params -> prog E (DynamicClient E + s3_error)) (S3Credentials : params).

Definition missing_status (what parameter : string) : error :=
  EStatus InvalidArgument (what +:+ " due to missing parameter: " +:+ String dquote (parameter +:+ String dquote "")).
(** The status for an error of the step [what]. *)
Definition step_error (what : string) (err : s3_error) : error :=
  match err with
  | MissingParameterError parameter => missing_status what parameter
  | _ => EStatus Internal what
  end.
Definition init_failed : string := "Failed to initialize S3 client".
Definition check_failed : string := "Failed to check bucket existence".

(** The bucket and its region. *)
Definition DriverCreateBucket (req : DriverCreateBucketRequest) : prog E (res (string * string)) :=
  let bucketName := CB_Name req in
  s3cli <- connect (CB_Parameters req) ;;
  match s3cli with
  | inr err => Ret (Err (step_error init_failed err))
  | inl s3cli =>
      info <- client_BucketInfo s3cli bucketName ;;
      match info with
      | inl info => Ret (Ok (BucketName info, Region info))
      | inr (BucketNotFoundError _) =>
          created <- client_CreateBucket s3cli bucketName (CB_Parameters req) ;;
          Ret (match created with
               | inl info => Ok (BucketName info, Region info)
               | inr err => Err (step_error "Failed to create bucket" err)
               end)
      | inr _ => Ret (Err (EStatus Internal check_failed))
      end
  end.

Definition DriverDeleteBucket (bucketId : string) : prog E (res unit) :=
  if bool_decide (S3Credentials = ∅) then Ret (Err (EStatus InvalidArgument "missing S3Credentials"))
  else
    s3cli <- connect S3Credentials ;;
    match s3cli with
    | inr err => Ret (Err (step_error init_failed err))
    | inl s3cli =>
        deleted <- client_DeleteBucket s3cli bucketId S3Credentials ;;
        Ret (match deleted with
             | Some err => Err (step_error "Failed to delete bucket" err)
             | None => Ok tt
             end)
    end.

(** The credentials of the response have no secrets. *)
Definition DriverGrantBucketAccess (req : DriverGrantBucketAccessRequest) : prog E (res DriverGrantBucketAccessResponse) :=
  s3cli <- connect (GA_Parameters req) ;;
  match s3cli with
  | inr err => Ret (Err (step_error init_failed err))
  | inl s3cli =>
      info <- client_BucketInfo s3cli (GA_BucketId req) ;;
      match info with
      | inr _ => Ret (Err (EStatus Internal check_failed))
      | inl _ =>
          access <- client_CreateBucketAccess s3cli (GA_Name req) [GA_BucketId req] (GA_Parameters req) ;;
          Ret (match access with
               | inr err => Err (step_error "Failed to create bucket access" err)
               | inl access => Ok (MkDriverGrantBucketAccessResponse (AccountID access) {[ "somecredential" := ∅ ]})
               end)
      end
  end.

Definition DriverRevokeBucketAccess (bucketId accountId : string) : prog E (res unit) :=
  if bool_decide (S3Credentials = ∅) then Ret (Err (EStatus InvalidArgument "missing S3Credentials"))
  else
    s3cli <- connect S3Credentials ;;
    match s3cli with
    | inr err => Ret (Err (step_error init_failed err))
    | inl s3cli =>
        revoked <- client_DeleteBucketAccess s3cli accountId [bucketId] S3Credentials ;;
        Ret (match revoked with
             | Some err => Err (step_error "Failed to revoke bucket access" err)
             | None => Ok tt
             end)
    end.
End provisioner.

(** ** identity.go *)

Definition DriverGetInfo (DriverName : string) : res string :=
  if String.eqb DriverName "" then Err (EStatus Internal "empty driver name") else Ok DriverName.

(** ** s3.go *)

Definition AWS_ACCESS_KEY_ID : string := "AWS_ACCESS_KEY_ID".
Definition AWS_SECRET_ACCESS_KEY : string := "AWS_SECRET_ACCESS_KEY".
Definition AWS_ENDPOINT_URL : string := "AWS_ENDPOINT_URL".
Definition ParamAdminSecretName : string := "cosi-driver.infinidat.com/adminSecretName".
Definition ParamAdminSecretNamespace : string := "cosi-driver.infinidat.com/adminSecretNamespace".
Definition ParamAccessSecretName : string := "cosi-driver.infinidat.com/accessSecretName".
Definition ParamAccessSecretNamespace : string := "cosi-driver.infinidat.com/accessSecretNamespace".

(** What an SDK client was made with. *)
Record Client := MkClient {
  client_accessKey : string;
  client_secretKey : string;
  client_endpoint : string;
  client_skipVerify : bool
}.
(** An error of the SDK by the types the code looks for. *)
Inductive aws_error :=
| AwsNotFound (err : error)
| AwsAlreadyExists (err : error)
| AwsAlreadyOwnedByYou (err : error)
| AwsOther (err : error).
Definition aws_err (e : aws_error) : error :=
  match e with AwsNotFound err | AwsAlreadyExists err | AwsAlreadyOwnedByYou err | AwsOther err => err end.

(** The S3 service and the cluster. A head has the region, if the service reports
    one; the cluster is configured from inside, or from a file. *)
Inductive s3call : Type -> Type :=
| Env (key : string) : s3call string
| GetSecret (namespace name : string) : s3call (res Secret)
| LoadDefaultConfig (region accessKey secretKey : string) (skipVerify : bool) : s3call (option error)
| HeadBucket (c : Client) (bucket : string) : s3call (option string + aws_error)
| CreateBucket (c : Client) (bucket : string) : s3call (option aws_error)
| DeleteBucket (c : Client) (bucket : string) : s3call (option aws_error)
| InCluster : s3call (option error)
| HomeDir : s3call string
| FromKubeconfig (path : string) : s3call (option error)
| NewForConfig : s3call (option error).

Definition wrapped (pre : string) (err : error) : s3_error := OtherError (EWrap pre err "").
Definition missing_key (key : string) (secret : Secret) : error :=
  EText ("missing " +:+ key +:+ " in secret " +:+ Secret_Namespace secret +:+ "/" +:+ Secret_Name secret).

Definition LoadAWSConfigFromSecret (secret : Secret) : prog s3call (res Client) :=
  match Secret_Data secret !! AWS_ACCESS_KEY_ID with
  | None => Ret (Err (missing_key AWS_ACCESS_KEY_ID secret))
  | Some accessKeyID =>
  match Secret_Data secret !! AWS_SECRET_ACCESS_KEY with
  | None => Ret (Err (missing_key AWS_SECRET_ACCESS_KEY secret))
  | Some secretAccessKey =>
  match Secret_Data secret !! AWS_ENDPOINT_URL with
  | None => Ret (Err (missing_key AWS_ENDPOINT_URL secret))
  | Some endpoint =>
      tmp <- trigger (Env "S3_INSECURE_SKIP_VERIFY") ;;
      let insecureSkipVerify := match ParseBool tmp with Ok b => b | Err _ => true end in
      loaded <- trigger (LoadDefaultConfig (Secret_Data secret).["AWS_REGION"] accessKeyID secretAccessKey insecureSkipVerify) ;;
      Ret (match loaded with
           | Some err => Err err
           | None => Ok (MkClient accessKeyID secretAccessKey endpoint insecureSkipVerify)
           end)
  end end end.

Definition resolveRegion (headRegion : option string) : string :=
  match headRegion with
  | Some r => if String.eqb r "" then "us-east-1" else r
  | None => "us-east-1"
  end.
Definition bucket_info (c : Client) (bucket : string) (region : option string) : BucketInfo :=
  MkBucketInfo bucket (client_endpoint c) (resolveRegion region).

Definition s3_BucketInfo (c : Client) (bucket : string) : prog s3call (BucketInfo + s3_error) :=
  head <- trigger (HeadBucket c bucket) ;;
  Ret (match head with
       | inl region => inl (bucket_info c bucket region)
       | inr (AwsNotFound _) => inr (BucketNotFoundError bucket)
       | inr err => inr (wrapped "failed to check bucket existence: " (aws_err err))
       end).
(** A bucket that exists is taken for one made in a race. *)
Definition s3_CreateBucket (c : Client) (bucket : string) (_ : params) : prog s3call (BucketInfo + s3_error) :=
  created <- trigger (CreateBucket c bucket) ;;
  match created with
  | Some (AwsNotFound err) | Some (AwsOther err) => Ret (inr (wrapped "failed to create bucket: " err))
  | _ =>
      head <- trigger (HeadBucket c bucket) ;;
      Ret (match head with
           | inl region => inl (bucket_info c bucket region)
           | inr err => inr (wrapped "failed to retrieve bucket info after creation: " (aws_err err))
           end)
  end.
Definition s3_DeleteBucket (c : Client) (bucket : string) (_ : params) : prog s3call (option s3_error) :=
  deleted <- trigger (DeleteBucket c bucket) ;;
  Ret (match deleted with Some err => Some (OtherError (aws_err err)) | None => None end).

(** The buckets that can be read; the errors of the others are dropped. *)
Fixpoint readable_buckets (c : Client) (buckets : list string) : prog s3call (list BucketInfo) :=
  match buckets with
  | [] => Ret []
  | bucket :: rest =>
      head <- trigger (HeadBucket c bucket) ;;
      infos <- readable_buckets c rest ;;
      Ret (match head with inl region => bucket_info c bucket region :: infos | inr _ => infos end)
  end.
Definition s3_CreateBucketAccess (c : Client) (userID : string) (buckets : list string) (ps : params)
    : prog s3call (AccessInfo + s3_error) :=
  match ps !! ParamAccessSecretName with
  | None => Ret (inr (MissingParameterError ParamAccessSecretName))
  | Some name =>
  match ps !! ParamAccessSecretNamespace with
  | None => Ret (inr (MissingParameterError ParamAccessSecretNamespace))
  | Some namespace =>
      bucketInfos <- readable_buckets c buckets ;;
      secret <- trigger (GetSecret namespace name) ;;
      Ret (match secret with
           | Err err => inr (OtherError err)
           | Ok secret => inl (MkAccessInfo userID (Secret_Data secret).[AWS_ACCESS_KEY_ID]
                                 (Secret_Data secret).[AWS_SECRET_ACCESS_KEY] bucketInfos)
           end)
  end end.
Definition s3_DeleteBucketAccess (_ : string) (_ : list string) (_ : params) : prog s3call (option s3_error) := Ret None.

Definition s3_client (c : Client) : DynamicClient s3call :=
  MkDynamicClient (s3_BucketInfo c) (s3_CreateBucket c) (s3_DeleteBucket c) (s3_CreateBucketAccess c) s3_DeleteBucketAccess.
(** [Factory.NewClient]. *)
Definition NewClient (ps : params) : prog s3call (DynamicClient s3call + s3_error) :=
  match ps !! ParamAdminSecretName with
  | None => Ret (inr (MissingParameterError ParamAdminSecretName))
  | Some adminSecretName =>
  match ps !! ParamAdminSecretNamespace with
  | None => Ret (inr (MissingParameterError ParamAdminSecretNamespace))
  | Some adminSecretNamespace =>
      secret <- trigger (GetSecret adminSecretNamespace adminSecretName) ;;
      match secret with
      | Err err => Ret (inr (wrapped "failed to retrieve admin secret: " err))
      | Ok secret =>
          cfg <- LoadAWSConfigFromSecret secret ;;
          Ret (match cfg with
               | Err err => inr (wrapped "failed to load AWS config from secret: " err)
               | Ok c => inl (s3_client c)
               end)
      end
  end end.

Definition secret_value (key : string) (secret : Secret) : res string :=
  let value := (Secret_Data secret).[key] in
  if String.eqb value "" then Err (EText (key +:+ " missing in S3 secret")) else Ok value.
(** The configuration of the cluster: inside it, or the file of [KUBECONFIG] or of the
    home directory. *)
Definition cluster_config : prog s3call (option error) :=
  config <- trigger InCluster ;;
  match config with
  | None => Ret None
  | Some _ =>
      kubeconfigPath <- trigger (Env "KUBECONFIG") ;;
      kubeconfigPath <- (if String.eqb kubeconfigPath ""
                         then homeDir <- trigger HomeDir ;; Ret (PathJoin [homeDir; ".kube"; "config"])
                         else Ret kubeconfigPath) ;;
      trigger (FromKubeconfig kubeconfigPath)
  end.
Definition GetS3Credentials : prog s3call (res params) :=
  ns <- trigger (Env "POD_NAMESPACE") ;;
  if String.eqb ns "" then Ret (Err (EText "POD_NAMESPACE not set"))
  else
    secretName <- trigger (Env "S3_CREDENTIALS_SECRET_NAME") ;;
    if String.eqb secretName "" then Ret (Err (EText "S3_CREDENTIALS_SECRET_NAME not set"))
    else
      config <- cluster_config ;;
      match config with
      | Some err => Ret (Err err)
      | None =>
          clientset <- trigger NewForConfig ;;
          match clientset with
          | Some err => Ret (Err err)
          | None =>
              try secret <- trigger (GetSecret ns secretName) catch err => Ret (Err err) ;;
              Ret (res_bind (secret_value AWS_ACCESS_KEY_ID secret) (fun accessKey =>
                   res_bind (secret_value AWS_SECRET_ACCESS_KEY secret) (fun secretAccessKey =>
                   res_bind (secret_value AWS_ENDPOINT_URL secret) (fun endpoint =>
                   Ok (list_to_map
                         [(AWS_ACCESS_KEY_ID, accessKey); (AWS_SECRET_ACCESS_KEY, secretAccessKey);
                          (AWS_ENDPOINT_URL, endpoint);
                          (ParamAccessSecretName, secretName); (ParamAccessSecretNamespace, ns);
                          (ParamAdminSecretName, secretName); (ParamAdminSecretNamespace, ns)])))))
          end
      end.

(** ** stub/s3.go *)

(** The service in memory; a method that is to fail has its error. *)
Record StubClient := MkStubClient {
  Buckets : gmap string BucketInfo;
  Accesses : gmap string AccessInfo;
  BucketInfoErr : option s3_error;
  CreateBucketErr : option s3_error;
  DeleteBucketErr : option s3_error;
  CreateBucketAccErr : option s3_error;
  DeleteBucketAccErr : option s3_error
}.
Definition set_Buckets (b : gmap string BucketInfo) (m : StubClient) : StubClient :=
  MkStubClient b (Accesses m) (BucketInfoErr m) (CreateBucketErr m) (DeleteBucketErr m) (CreateBucketAccErr m) (DeleteBucketAccErr m).
Definition set_Accesses (a : gmap string AccessInfo) (m : StubClient) : StubClient :=
  MkStubClient (Buckets m) a (BucketInfoErr m) (CreateBucketErr m) (DeleteBucketErr m) (CreateBucketAccErr m) (DeleteBucketAccErr m).
Inductive memory : Type -> Type :=
| Read : memory StubClient
| Write (m : StubClient) : memory unit.

Definition stub_BucketInfo (bucket : string) : prog memory (BucketInfo + s3_error) :=
  m <- trigger Read ;;
  Ret (match BucketInfoErr m, Buckets m !! bucket with
       | Some err, _ => inr err
       | None, Some b => inl b
       | None, None => inr (BucketNotFoundError bucket)
       end).
Definition stub_CreateBucket (bucket : string) (_ : params) : prog memory (BucketInfo + s3_error) :=
  m <- trigger Read ;;
  match CreateBucketErr m, Buckets m !! bucket with
  | Some err, _ => Ret (inr err)
  | None, Some b => Ret (inl b)
  | None, None =>
      let b := MkBucketInfo bucket "" "" in
      trigger (Write (set_Buckets (<[bucket := b]> (Buckets m)) m)) ;;;
      Ret (inl b)
  end.
Definition stub_DeleteBucket (bucket : string) (_ : params) : prog memory (option s3_error) :=
  m <- trigger Read ;;
  match DeleteBucketErr m with
  | Some err => Ret (Some err)
  | None => trigger (Write (set_Buckets (delete bucket (Buckets m)) m)) ;;; Ret None
  end.
Fixpoint known_buckets (m : StubClient) (buckets : list string) : list BucketInfo + s3_error :=
  match buckets with
  | [] => inl []
  | bucket :: rest =>
      match Buckets m !! bucket with
      | None => inr (BucketNotFoundError bucket)
      | Some b => match known_buckets m rest with inl infos => inl (b :: infos) | inr err => inr err end
      end
  end.
Definition stub_CreateBucketAccess (userID : string) (buckets : list string) (_ : params) : prog memory (AccessInfo + s3_error) :=
  m <- trigger Read ;;
  match CreateBucketAccErr m, known_buckets m buckets with
  | Some err, _ | None, inr err => Ret (inr err)
  | None, inl infos =>
      let access := MkAccessInfo userID "" "" infos in
      trigger (Write (set_Accesses (<[userID := access]> (Accesses m)) m)) ;;;
      Ret (inl access)
  end.
Definition stub_DeleteBucketAccess (accessID : string) (_ : list string) (_ : params) : prog memory (option s3_error) :=
  m <- trigger Read ;;
  match DeleteBucketAccErr m with
  | Some err => Ret (Some err)
  | None => trigger (Write (set_Accesses (delete accessID (Accesses m)) m)) ;;; Ret None
  end.
Definition stub_client : DynamicClient memory :=
  MkDynamicClient stub_BucketInfo stub_CreateBucket stub_DeleteBucket stub_CreateBucketAccess stub_DeleteBucketAccess.
