(* ===== verification/CosiProofs.v ===== *)
(** Properties of the object storage driver: when a bucket is created, and that the
    service in memory stands for the real one. *)
From stdpp Require Import base strings list gmap.
From S2P Require Import Prelude GoLib IboxTypes Csi Cosi.
From Stdlib Require Import ZArith Lia.

Local Open Scope string_scope.
Local Open Scope list_scope.

Abbreviation s3trace := (list (evt s3call)).

(** ** Creation over the real service *)

(** A bucket is created only under the requested name and right after the service
    said, to the same client, that it does not exist; no bucket is deleted. *)
Definition create_guard (name : string) (pre : s3trace) (e : evt s3call) : Prop :=
  match e with
  | Evt (CreateBucket c bucket) _ =>
      bucket = name /\ exists err before, pre = before ++ [Evt (HeadBucket c bucket) (inr (AwsNotFound err))]
  | Evt (HeadBucket _ bucket) _ => bucket = name
  | Evt (DeleteBucket _ _) _ => False
  | _ => True
  end.
Definition creates (e : evt s3call) : bool := match e with Evt (CreateBucket _ _) _ => true | _ => false end.
Definition creations (t : s3trace) : nat := length (List.filter creates t).

(** The service reported that the bucket exists, to a head or to a creation. *)
Definition reports (e : evt s3call) : bool :=
  match e with
  | Evt c x => match c in s3call X return X -> bool with
               | HeadBucket _ _ => fun r => match r with inl _ => true | inr _ => false end
               | CreateBucket _ _ => fun r =>
                   match r with Some (AwsAlreadyExists _) | Some (AwsAlreadyOwnedByYou _) => true | _ => false end
               | _ => fun _ => false
               end x
  end.
Definition reported (t : s3trace) : bool := existsb reports t.

(** What an answer says of the run: success is the name and the region of the last
    head of the bucket; unless the service reported an existing bucket, a failure is
    internal or the one parameter error, before any call. *)
Definition create_answer (req : DriverCreateBucketRequest) (t : s3trace) (r : res (string * string)) : Prop :=
  match r with
  | Ok (id, region) =>
      id = CB_Name req /\ region <> "" /\
      exists c head before, t = before ++ [Evt (HeadBucket c id) (inl head)] /\ region = resolveRegion head
  | Err err =>
      reported t = false ->
      (exists what, err = EStatus Internal what) \/
      (t = [] /\ exists p, p ∈ [ParamAdminSecretName; ParamAdminSecretNamespace] /\
         CB_Parameters req !! p = None /\ err = missing_status init_failed p)
  end.

Lemma resolveRegion_nonempty head : resolveRegion head <> "".
Proof. unfold resolveRegion. destruct head as [r|]; [|done]. by destruct (String.eqb_spec r ""). Qed.

(** The connections of a request: the calls [pre] and the client they lead to. *)
Definition connecting (e : evt s3call) : Prop :=
  match e with Evt (GetSecret _ _) _ | Evt (Env _) _ | Evt (LoadDefaultConfig _ _ _ _) _ => True | _ => False end.

Definition connected (ps : params) (t : s3trace) (o : outcome (DynamicClient s3call + s3_error)) : Prop :=
  Forall connecting t /\
  ((exists c, o = Done (inl (s3_client c))) \/ (exists err, o = Done (inr (OtherError err))) \/
   (t = [] /\ exists p, p ∈ [ParamAdminSecretName; ParamAdminSecretNamespace] /\ ps !! p = None /\
      o = Done (inr (MissingParameterError p)))).
Lemma LoadAWSConfigFromSecret_runs secret t o :
  runs (LoadAWSConfigFromSecret secret) t o -> Forall connecting t /\ exists r, o = Done r.
Proof.
  revert t o. wp_start. unfold LoadAWSConfigFromSecret.
  wp_run; wp_leaf; (split; [repeat constructor|by eexists]).
Qed.
Lemma NewClient_runs ps t o : runs (NewClient ps) t o -> connected ps t o.
Proof.
  unfold NewClient. destruct (ps !! ParamAdminSecretName) as [name|] eqn:Hn.
  2:{ intros [-> ->]. split; [constructor|]. right; right. split; [done|]. exists ParamAdminSecretName. split; [by left|done]. }
  destruct (ps !! ParamAdminSecretNamespace) as [namespace|] eqn:Hns.
  2:{ intros [-> ->]. split; [constructor|]. right; right. split; [done|]. exists ParamAdminSecretNamespace.
      split; [by right; left|done]. }
  intros ([secret|err] & t' & -> & H).
  - cbn [bind] in H. destruct (runs_bind_inv _ _ _ _ H) as [(cfg & t1 & t2 & -> & H1 & [-> ->])|[[-> H1]|[-> H1]]];
      destruct (LoadAWSConfigFromSecret_runs _ _ _ H1) as [Hf [? ?]]; [|done..].
    rewrite app_nil_r. split; [by constructor|]. destruct cfg; eauto.
  - destruct H as [-> ->]. split; [by repeat constructor|]. right; left. by eexists.
Qed.
Lemma connecting_guarded name pre t : Forall connecting t -> guarded (fun t1 => create_guard name (pre ++ t1)) t.
Proof.
  intros Hf t1 e t2 ->. apply Forall_app in Hf as [_ [He _]%Forall_cons]. destruct e as [X c x]. by destruct c.
Qed.
Lemma connecting_creations t : Forall connecting t -> List.filter creates t = [].
Proof. induction 1 as [|[X c x] t He _ IH]; [done|]. cbn. by destruct c. Qed.

(** What happens behind the connection. *)
Definition create_rest (req : DriverCreateBucketRequest) (s3cli : DynamicClient s3call) : prog s3call (res (string * string)) :=
  let bucketName := CB_Name req in
  info <- client_BucketInfo s3cli bucketName ;;
  match info with
  | inl info => Ret (Ok (BucketName info, Region info))
  | inr (BucketNotFoundError _) =>
      created <- client_CreateBucket s3cli bucketName (CB_Parameters req) ;;
      Ret (match created with
           | inl info => Ok (BucketName info, Region info)
           | inr err => Err (step_error "Failed to create bucket" err)
           end)
  | inr _ => Ret (Err (EStatus Internal check_failed))
  end.
Lemma create_rest_runs req c pre t o :
  runs (create_rest req (s3_client c)) t o ->
  guarded (fun t1 => create_guard (CB_Name req) (pre ++ t1)) t /\ (creations t <= 1)%nat /\
  exists r, o = Done r /\
    match r with
    | Ok (id, region) => id = CB_Name req /\ region <> "" /\
        exists c' head before, t = before ++ [Evt (HeadBucket c' id) (inl head)] /\ region = resolveRegion head
    | Err err => exists what, err = EStatus Internal what
    end.
Proof.
  revert t o. wp_start. unfold create_rest, s3_client, s3_BucketInfo, s3_CreateBucket; cbn.
  wp_run; wp_leaf; try discriminate; (split; [|split; [cbn; lia|eexists; split; [reflexivity|]]]).
  all: try (guard_event; cbn; eauto; fail).
  all: try (by eexists).
  all: repeat match goal with x : (option string + aws_error)%type |- _ => destruct x end; try (by eexists).
  all: cbn; try (by eexists); refine (conj eq_refl (conj (resolveRegion_nonempty _) _)).
  all: first [eexists c, _, []; split; reflexivity | eexists c, _, [_; _]; split; reflexivity].
Qed.

(** C38: A bucket is created at most once, only under the requested name and right
    after the service said that it does not exist; no bucket is deleted, and the
    handler always answers. Success carries the name and the region of the bucket as
    the service last reported it, never an empty one. When the service did not report
    the bucket as existing, a missing parameter is noticed before any call and is the
    only failure that is not internal. (How a bucket that exists with other parameters
    is refused is left open here: see the findings on its comment.) *)
Theorem DriverCreateBucket_guarded req t o :
  runs (DriverCreateBucket NewClient req) t o ->
  guarded (create_guard (CB_Name req)) t /\ (creations t <= 1)%nat /\
  exists r, o = Done r /\ create_answer req t r.
Proof.
  unfold DriverCreateBucket. intros Ht.
  destruct (runs_bind_inv _ _ _ _ Ht) as [([s3cli|err] & t1 & t2 & -> & H1 & H2)|[[-> H1]|[-> H1]]];
    destruct (NewClient_runs _ _ _ H1) as [Hf Hc];
    pose proof (connecting_guarded (CB_Name req) [] _ Hf) as Hg; cbn [app] in Hg.
  - assert (exists c, s3cli = s3_client c) as [c ->] by naive_solver.
    destruct (create_rest_runs req c t1 _ _ H2) as (Hg' & Hn & r & -> & Hr).
    split; [by apply guarded_app|]. split; [unfold creations in *; rewrite List.filter_app, (connecting_creations _ Hf); exact Hn|].
    exists r. split; [done|]. unfold create_answer. destruct r as [[id region]|err]; [|intros _; by left].
    destruct Hr as (-> & Hne & c' & head & before & -> & ->). split; [done|]. split; [done|].
    exists c', head, (t1 ++ before). by rewrite app_assoc.
  - destruct H2 as [-> ->]. rewrite app_nil_r. split; [done|].
    split; [unfold creations; rewrite (connecting_creations _ Hf); cbn; lia|]. eexists. split; [done|]. intros _.
    destruct Hc as [[c [=]]|[[err' [= ->]]|(-> & p & Hin & Hp & [= ->])]]; [left; by eexists|].
    right. split; [done|]. by exists p.
  - naive_solver.
  - naive_solver.
Qed.

(** ** A service, and the service in memory *)

(** [p] returns [a] and leaves the world [w']. *)
Definition does {E A W} (h : handler E W) (p : prog E A) (w : W) (a : A) (w' : W) : Prop :=
  exists t, exec h p w = (t, Done a, w').
Lemma does_ret {E A W} (h : handler E W) (a : A) w : does h (Ret a) w a w.
Proof. by eexists. Qed.
Lemma does_vis {E A W X} (h : handler E W) (c : E X) (k : X -> prog E A) w x w1 a w' :
  h X c w = (x, w1) -> does h (k x) w1 a w' -> does h (Vis c k) w a w'.
Proof. intros Hc [t Ht]. eexists. cbn. by rewrite Hc, Ht. Qed.
Lemma does_bind {E A B W} (h : handler E W) (p : prog E A) (f : A -> prog E B) w a w1 b w' :
  does h p w a w1 -> does h (f a) w1 b w' -> does h (bind p f) w b w'.
Proof.
  intros [t Ht] Hf. revert w t Ht. induction p as [a'| | |X e k IH]; cbn; intros w t Ht; try discriminate.
  - by injection Ht as <- <- <-.
  - destruct (h X e w) as [x w2] eqn:Hh. destruct (exec h (k x) w2) as [[t2 o2] w3] eqn:Hk.
    injection Ht as <- -> ->. by apply (does_vis _ _ _ _ _ _ _ _ Hh), (IH _ _ _ Hk).
Qed.
Lemma does_call {E A W X} (h : handler E W) (c : E X) (f : X -> prog E A) w x w1 a w' :
  h X c w = (x, w1) -> does h (f x) w1 a w' -> does h (bind (trigger c) f) w a w'.
Proof. apply does_vis. Qed.

(** A service that keeps its buckets, and the secrets of a cluster, as both are
    documented: a head tells which buckets there are, a creation adds one, and the
    deletion of a bucket that is not there is an error. *)
Section service.
Context (gone : error) (region : option string) (secrets : gmap (string * string) Secret).
Definition s3_service : handler s3call (gset string) := fun X c buckets =>
  match c with
  | Env _ | HomeDir => ("", buckets)
  | GetSecret namespace name => (from_option Ok (Err gone) (secrets !! (namespace, name)), buckets)
  | LoadDefaultConfig _ _ _ _ | FromKubeconfig _ | InCluster | NewForConfig => (None, buckets)
  | HeadBucket _ bucket => (if decide (bucket ∈ buckets) then inl region else inr (AwsNotFound gone), buckets)
  | CreateBucket _ bucket =>
      if decide (bucket ∈ buckets) then (Some (AwsAlreadyOwnedByYou gone), buckets) else (None, {[bucket]} ∪ buckets)
  | DeleteBucket _ bucket =>
      if decide (bucket ∈ buckets) then (None, buckets ∖ {[bucket]}) else (Some (AwsOther gone), buckets)
  end.
Definition stub_service : handler memory StubClient := fun X c m =>
  match c with Read => (m, m) | Write m' => (tt, m') end.

(** ** Requests to a provisioner *)

Inductive request :=
| CreateOf (req : DriverCreateBucketRequest)
| DeleteOf (bucketId : string)
| GrantOf (req : DriverGrantBucketAccessRequest)
| RevokeOf (bucketId accountId : string).
Inductive answer :=
| Created (bucket region : string)
| Deleted
| Granted (response : DriverGrantBucketAccessResponse)
| Revoked
| Refused (err : error).
Definition answered {A} (f : A -> answer) (r : res A) : answer := match r with Ok a => f a | Err err => Refused err end.

Definition serve {E} (connect : params -> prog E (DynamicClient E + s3_error)) (creds : params) (r : request) : prog E answer :=
  match r with
  | CreateOf req => a <- DriverCreateBucket connect req ;; Ret (answered (fun b => Created (fst b) (snd b)) a)
  | DeleteOf id => a <- DriverDeleteBucket connect creds id ;; Ret (answered (fun _ => Deleted) a)
  | GrantOf req => a <- DriverGrantBucketAccess connect req ;; Ret (answered Granted a)
  | RevokeOf id account => a <- DriverRevokeBucketAccess connect creds id account ;; Ret (answered (fun _ => Revoked) a)
  end.
Fixpoint serve_all {E} (connect : params -> prog E (DynamicClient E + s3_error)) (creds : params) (rs : list request)
    : prog E (list answer) :=
  match rs with
  | [] => Ret []
  | r :: rest => a <- serve connect creds r ;; answers <- serve_all connect creds rest ;; Ret (a :: answers)
  end.
Definition connect_stub (_ : params) : prog memory (DynamicClient memory + s3_error) := Ret (inl stub_client).

(** ** What both promise *)

(** The requests a provisioner is given make sense for the buckets made so far, kept
    with the parameters they were made with: a bucket is created anew, or again with the
    same parameters, and only a bucket that is there is deleted. *)
Definition made_after (made : gmap string params) (r : request) : gmap string params :=
  match r with
  | CreateOf req => <[CB_Name req := CB_Parameters req]> made
  | DeleteOf id => delete id made
  | _ => made
  end.
Definition asked (made : gmap string params) (r : request) : Prop :=
  match r with
  | CreateOf req => made !! CB_Name req = None \/ made !! CB_Name req = Some (CB_Parameters req)
  | DeleteOf id => is_Some (made !! id)
  | _ => True
  end.
Fixpoint all_asked (made : gmap string params) (rs : list request) : Prop :=
  match rs with
  | [] => True
  | r :: rs => asked made r /\ all_asked (made_after made r) rs
  end.

(** What a request is answered with over the service. *)
Definition real_answer (buckets : gset string) (r : request) : answer :=
  match r with
  | CreateOf req => Created (CB_Name req) (resolveRegion region)
  | DeleteOf _ => Deleted
  | GrantOf req =>
      if decide (GA_BucketId req ∈ buckets)
      then Granted (MkDriverGrantBucketAccessResponse (GA_Name req) {[ "somecredential" := ∅ ]})
      else Refused (EStatus Internal check_failed)
  | RevokeOf _ _ => Revoked
  end.
(** Two answers are alike: they are the same up to the region of a created bucket. *)
Definition alike (a b : answer) : Prop :=
  match a, b with
  | Created bucket _, Created bucket' _ => bucket = bucket'
  | _, _ => a = b
  end.
Fixpoint promises (made : gmap string params) (rs : list request) (reals stubs : list answer) : Prop :=
  match rs, reals, stubs with
  | [], [], [] => True
  | r :: rs, a :: reals, b :: stubs =>
      a = real_answer (dom made) r /\ alike a b /\ promises (made_after made r) rs reals stubs
  | _, _, _ => False
  end.

(** Parameters that name the secrets of the cluster. *)
Definition secret_at (ps : params) (name namespace : string) (secret : Secret) : Prop :=
  exists n ns, ps !! name = Some n /\ ps !! namespace = Some ns /\ secrets !! (ns, n) = Some secret.
Definition admin (ps : params) : Prop :=
  exists secret, secret_at ps ParamAdminSecretName ParamAdminSecretNamespace secret /\
    is_Some (Secret_Data secret !! AWS_ACCESS_KEY_ID) /\ is_Some (Secret_Data secret !! AWS_SECRET_ACCESS_KEY) /\
    is_Some (Secret_Data secret !! AWS_ENDPOINT_URL).
Definition access (ps : params) : Prop :=
  exists secret, secret_at ps ParamAccessSecretName ParamAccessSecretNamespace secret.
Definition configured (creds : params) (r : request) : Prop :=
  match r with
  | CreateOf req => admin (CB_Parameters req)
  | GrantOf req => admin (GA_Parameters req) /\ access (GA_Parameters req)
  | DeleteOf _ | RevokeOf _ _ => creds <> ∅ /\ admin creds
  end.

(** The stub without errors to give, holding the buckets of the service. *)
Definition stands (m : StubClient) (buckets : gset string) : Prop :=
  dom (Buckets m) = buckets /\ (forall b info, Buckets m !! b = Some info -> BucketName info = b) /\
  BucketInfoErr m = None /\ CreateBucketErr m = None /\ DeleteBucketErr m = None /\
  CreateBucketAccErr m = None /\ DeleteBucketAccErr m = None.

Lemma NewClient_does ps buckets :
  admin ps -> exists c, does s3_service (NewClient ps) buckets (inl (s3_client c)) buckets.
Proof.
  intros (secret & (n & ns & Hn & Hns & Hs) & [k1 H1] & [k2 H2] & [k3 H3]).
  unfold NewClient. rewrite Hn, Hns. exists (MkClient k1 k2 k3 true).
  eapply does_call; [cbn; rewrite Hs; reflexivity|]. cbn [from_option].
  apply (does_bind _ _ _ _ (Ok (MkClient k1 k2 k3 true)) buckets); [|apply does_ret].
  unfold LoadAWSConfigFromSecret. rewrite H1, H2, H3.
  eapply does_call; [reflexivity|]. eapply does_call; [reflexivity|]. apply does_ret.
Qed.

(** The client of the service does what the buckets say. *)
Lemma s3_BucketInfo_does c b buckets :
  does s3_service (s3_BucketInfo c b) buckets
    (if decide (b ∈ buckets) then inl (bucket_info c b region) else inr (BucketNotFoundError b)) buckets.
Proof. eapply does_call; [reflexivity|]. destruct (decide (b ∈ buckets)); apply does_ret. Qed.
Lemma s3_CreateBucket_does c b ps buckets :
  does s3_service (s3_CreateBucket c b ps) buckets (inl (bucket_info c b region)) ({[b]} ∪ buckets).
Proof.
  unfold s3_CreateBucket, does. cbn. destruct (decide (b ∈ buckets)) as [Hb|Hb]; cbn.
  - rewrite decide_True by done. eexists. cbn. do 3 f_equal. set_solver.
  - rewrite decide_True by set_solver. by eexists.
Qed.

(** The same, of the buckets alone. *)
Definition buckets_after (buckets : gset string) (r : request) : gset string :=
  match r with
  | CreateOf req => {[CB_Name req]} ∪ buckets
  | DeleteOf id => buckets ∖ {[id]}
  | _ => buckets
  end.
Definition buckets_of (buckets : gset string) (r : request) : Prop :=
  match r with DeleteOf id => id ∈ buckets | _ => True end.
Lemma dom_made_after made r : dom (made_after made r) = buckets_after (dom made) r.
Proof. destruct r; cbn; by rewrite ?dom_insert_L, ?dom_delete_L. Qed.
Lemma asked_buckets made r : asked made r -> buckets_of (dom made) r.
Proof. destruct r; cbn; [done|apply elem_of_dom|done..]. Qed.

Lemma serve_real creds r buckets :
  configured creds r -> buckets_of buckets r ->
  does s3_service (serve NewClient creds r) buckets (real_answer buckets r) (buckets_after buckets r).
Proof.
  destruct r as [req|id|req|id account]; cbn [configured serve real_answer buckets_after buckets_of]; intros Hconf Hin; revert Hconf.
  - intros [c Hc]%(fun H => NewClient_does _ buckets H).
    apply (does_bind _ _ _ _ (Ok (CB_Name req, resolveRegion region)) ({[CB_Name req]} ∪ buckets)); [|apply does_ret].
    apply (does_bind _ _ _ _ _ _ _ _ Hc). apply (does_bind _ _ _ _ _ _ _ _ (s3_BucketInfo_does c _ buckets)).
    destruct (decide (CB_Name req ∈ buckets)) as [Hb|Hb].
    + replace ({[CB_Name req]} ∪ buckets) with buckets by set_solver. apply does_ret.
    + apply (does_bind _ _ _ _ _ _ _ _ (s3_CreateBucket_does c _ _ buckets)). apply does_ret.
  - intros [Hne [c Hc]%(fun H => NewClient_does _ buckets H)].
    apply (does_bind _ _ _ _ (Ok tt) (buckets ∖ {[id]})); [|apply does_ret].
    unfold DriverDeleteBucket. rewrite bool_decide_false by done. apply (does_bind _ _ _ _ _ _ _ _ Hc).
    unfold does. cbn. rewrite decide_True by done. by eexists.
  - intros [[c Hc]%(fun H => NewClient_does _ buckets H) (secret & n & ns & Hn & Hns & Hs)].
    apply (does_bind _ _ _ _ (if decide (GA_BucketId req ∈ buckets)
             then Ok (MkDriverGrantBucketAccessResponse (GA_Name req) {[ "somecredential" := ∅ ]})
             else Err (EStatus Internal check_failed)) buckets);
      [|destruct (decide (GA_BucketId req ∈ buckets)); apply does_ret].
    apply (does_bind _ _ _ _ _ _ _ _ Hc). apply (does_bind _ _ _ _ _ _ _ _ (s3_BucketInfo_does c _ buckets)).
    destruct (decide (GA_BucketId req ∈ buckets)) as [Hb|Hb]; [|apply does_ret].
    eexists. cbn. unfold s3_CreateBucketAccess. rewrite Hn, Hns. cbn. rewrite decide_True by done. cbn. by rewrite Hs.
  - intros [Hne [c Hc]%(fun H => NewClient_does _ buckets H)].
    apply (does_bind _ _ _ _ (Ok tt) buckets); [|apply does_ret].
    unfold DriverRevokeBucketAccess. rewrite bool_decide_false by done. apply (does_bind _ _ _ _ _ _ _ _ Hc). by eexists.
Qed.

(** Over the stub, up to the region. *)
Lemma serve_stub creds r buckets m :
  configured creds r -> stands m buckets ->
  exists a m', does stub_service (serve connect_stub creds r) m a m' /\
    alike (real_answer buckets r) a /\ stands m' (buckets_after buckets r).
Proof.
  intros Hc (Hd & Hn & He1 & He2 & He3 & He4 & He5). unfold does.
  destruct r as [req|id|req|id account]; cbn [configured serve real_answer buckets_after] in *.
  - destruct (Buckets m !! CB_Name req) as [info|] eqn:Hb; cbn.
    + do 2 eexists. split; [eexists; cbn; rewrite He1, Hb; cbn; reflexivity|]. cbn. rewrite (Hn _ _ Hb).
      split; [done|]. split_and!; try done. apply elem_of_dom_2 in Hb. set_solver.
    + do 2 eexists. split; [eexists; cbn; rewrite He1, Hb; cbn; rewrite He2, Hb; cbn; reflexivity|]. cbn.
      split; [done|]. split_and!; try done; [cbn; by rewrite dom_insert_L, Hd|].
      intros b info. cbn. rewrite lookup_insert_Some. intros [[<- <-]|[_ Hi]]; [done|by apply Hn].
  - destruct Hc as [Hne _]. unfold DriverDeleteBucket. rewrite bool_decide_false by done.
    do 2 eexists. split; [eexists; cbn; rewrite He3; cbn; reflexivity|]. split; [done|].
    split_and!; try done; [cbn; by rewrite dom_delete_L, Hd|]. intros b info. cbn. rewrite lookup_delete_Some.
    intros [_ Hi]. by apply Hn.
  - destruct (decide (GA_BucketId req ∈ buckets)) as [Hb|Hb].
    + assert (exists info, Buckets m !! GA_BucketId req = Some info) as [info Hi] by (apply elem_of_dom; by rewrite Hd).
      do 2 eexists. split; [eexists; cbn; rewrite He1, Hi; cbn; rewrite He4, Hi; cbn; reflexivity|]. split; [done|by split_and!].
    + assert (Buckets m !! GA_BucketId req = None) as Hi by (apply not_elem_of_dom; by rewrite Hd).
      do 2 eexists. split; [eexists; cbn; rewrite He1, Hi; cbn; reflexivity|]. split; [done|by split_and!].
  - destruct Hc as [Hne _]. unfold DriverRevokeBucketAccess. rewrite bool_decide_false by done.
    do 2 eexists. split; [eexists; cbn; rewrite He5; cbn; reflexivity|]. by split_and!.
Qed.

(** C37: A provisioner is given requests one after the other, over a service that keeps
    its buckets and over the service in memory that stands for it. The parameters name
    secrets of the cluster with the keys; a bucket is only created anew or again with
    the same parameters, and only deleted while it is there (what happens otherwise is
    the subject of findings). Then every request is answered on both sides, and alike up
    to the region of a created bucket: creating a bucket again is answered like creating
    it, a grant succeeds exactly for a bucket that is there, deletions and revocations
    succeed; and afterwards both hold exactly the buckets created and not deleted
    since. *)
Theorem stub_stands_for_service creds rs made m :
  Forall (configured creds) rs -> all_asked made rs -> stands m (dom made) ->
  exists reals stubs m',
    does s3_service (serve_all NewClient creds rs) (dom made) reals (dom (fold_left made_after rs made)) /\
    does stub_service (serve_all connect_stub creds rs) m stubs m' /\
    promises made rs reals stubs /\ stands m' (dom (fold_left made_after rs made)).
Proof.
  intros Hc. revert made m. induction Hc as [|r rs Hr _ IH]; intros made m Ha Hs.
  - exists [], [], m. split_and!; [apply does_ret..|done|done].
  - destruct Ha as [Ha Has].
    destruct (serve_stub _ _ _ _ Hr Hs) as (a & m1 & Hd & Hp & Hs1). rewrite <- dom_made_after in Hs1.
    destruct (IH _ _ Has Hs1) as (reals & stubs & m' & H1 & H2 & H3 & H4).
    pose proof (serve_real _ _ _ Hr (asked_buckets _ _ Ha)) as Hreal. rewrite <- dom_made_after in Hreal.
    exists (real_answer (dom made) r :: reals), (a :: stubs), m'. split_and!; [..|done].
    + apply (does_bind _ _ _ _ _ _ _ _ Hreal). apply (does_bind _ _ _ _ _ _ _ _ H1), does_ret.
    + apply (does_bind _ _ _ _ _ _ _ _ Hd). apply (does_bind _ _ _ _ _ _ _ _ H2), does_ret.
    + done.
Qed.
End service.

(** ** Witnesses *)

Definition secret_7 : Secret :=
  MkSecret "s3" "cosi" "1"
    {[ AWS_ACCESS_KEY_ID := "AK"; AWS_SECRET_ACCESS_KEY := "SK"; AWS_ENDPOINT_URL := "https://ibox" ]} ∅.
Definition secrets_7 : gmap (string * string) Secret := {[ ("cosi", "s3") := secret_7 ]}.
Definition params_7 : params :=
  {[ ParamAdminSecretName := "s3"; ParamAdminSecretNamespace := "cosi";
     ParamAccessSecretName := "s3"; ParamAccessSecretNamespace := "cosi" ]}.
Definition stub_7 : StubClient := MkStubClient ∅ ∅ None None None None None.
Definition requests_7 : list request :=
  [CreateOf (MkDriverCreateBucketRequest "logs" params_7); CreateOf (MkDriverCreateBucketRequest "logs" params_7);
   GrantOf (MkDriverGrantBucketAccessRequest "logs" "reader" params_7); RevokeOf "logs" "reader";
   DeleteOf "logs"; GrantOf (MkDriverGrantBucketAccessRequest "logs" "reader" params_7)].

Lemma DriverCreateBucket_guarded_witness :
  exists t o, runs (DriverCreateBucket NewClient (MkDriverCreateBucketRequest "logs" params_7)) t o /\
    creations t = 1%nat /\ guarded (create_guard "logs") t /\ o = Done (Ok ("logs", "us-east-1")).
Proof.
  set (run := exec (s3_service (EText "gone") None secrets_7) (DriverCreateBucket NewClient (MkDriverCreateBucketRequest "logs" params_7)) ∅).
  assert (Ho : snd (fst run) = Done (Ok ("logs", "us-east-1"))) by (vm_compute; reflexivity).
  assert (Hn : creations (fst (fst run)) = 1%nat) by (vm_compute; reflexivity).
  destruct run as [[t o] w] eqn:He. cbn in Ho, Hn. subst o. pose proof (exec_runs _ _ _ _ _ _ He) as Hr.
  exists t, (Done (Ok ("logs", "us-east-1"))). split; [exact Hr|]. split; [exact Hn|]. split; [|reflexivity].
  exact (proj1 (DriverCreateBucket_guarded _ _ _ Hr)).
Defined.

(** Findings: what the comments of the provisioner promise otherwise. *)
Example DriverDeleteBucket_missing :
  snd (fst (exec (s3_service (EText "gone") None secrets_7) (DriverDeleteBucket NewClient params_7 "logs") ∅))
  = Done (Err (EStatus Internal "Failed to delete bucket")).
Proof. vm_compute. reflexivity. Qed.
Example DriverCreateBucket_other_parameters :
  let more := <["quota" := "1"]> params_7 in
  snd (fst (exec (s3_service (EText "gone") None secrets_7)
    (DriverCreateBucket NewClient (MkDriverCreateBucketRequest "logs" params_7) ;;;
     DriverCreateBucket NewClient (MkDriverCreateBucketRequest "logs" more)) ∅))
  = Done (Ok ("logs", "us-east-1")).
Proof. vm_compute. reflexivity. Qed.

Lemma stub_stands_for_service_witness :
  let (gone, region) := (EText "gone", Some "eu-1") in
  exists stubs m',
    does (s3_service gone region secrets_7) (serve_all NewClient params_7 requests_7) ∅
      [Created "logs" "eu-1"; Created "logs" "eu-1";
       Granted (MkDriverGrantBucketAccessResponse "reader" {[ "somecredential" := ∅ ]}); Revoked; Deleted;
       Refused (EStatus Internal check_failed)] ∅ /\
    does stub_service (serve_all connect_stub params_7 requests_7) stub_7 stubs m' /\ stands m' ∅.
Proof.
  cbn zeta beta match.
  assert (Hadmin : admin secrets_7 params_7).
  { exists secret_7. split; [|split_and!; eexists; by vm_compute]. exists "s3", "cosi". split_and!; by vm_compute. }
  assert (Haccess : access secrets_7 params_7) by (exists secret_7, "s3", "cosi"; split_and!; by vm_compute).
  assert (Hne : params_7 <> ∅) by (intros H; apply (f_equal (lookup ParamAdminSecretName)) in H; vm_compute in H; discriminate H).
  assert (Hconf : Forall (configured secrets_7 params_7) requests_7) by (repeat constructor; done).
  assert (Hasked : all_asked ∅ requests_7).
  { split; [by left|]. split; [right; apply lookup_insert_eq|]. split; [done|]. split; [done|].
    split; [eexists; apply lookup_insert_eq|]. by split. }
  destruct (stub_stands_for_service (EText "gone") (Some "eu-1") secrets_7 params_7 requests_7 ∅ stub_7 Hconf Hasked)
    as (reals & stubs & m' & [t1 H1] & H2 & _ & H4); [by split_and!|].
  assert (Hf : dom (fold_left made_after requests_7 ∅) = ∅) by (apply (bool_decide_unpack (_ = _)); by vm_compute).
  assert (Hd : dom (∅ : gmap string params) = ∅) by apply dom_empty_L.
  rewrite Hf in H1, H4. rewrite Hd in H1. exists stubs, m'. split_and!; [|done..].
  apply (f_equal (fun x => snd (fst x))) in H1 as Ho. vm_compute in Ho. injection Ho as <-. by exists t1.
Defined.
