(* ===== verification/Driver.v ===== *)
(** The start of the driver process: [main.go], [service/driver.go],
    [service/server.go] and [service/identityserver.go], and the server of the CSI
    add-ons, [service/csiaddons/server.go] and [identity.go]. *)
From S2P Require Import Prelude GoLib IboxTypes Csi.
From stdpp Require Import base strings list gmap.
From Stdlib Require Import ZArith.

Local Open Scope string_scope.
Local Open Scope list_scope.

(** ** Capabilities *)

(** The capabilities the driver declares, of those CSI has. *)
Inductive ControllerServiceCapability :=
| CREATE_DELETE_VOLUME | LIST_VOLUMES | CREATE_DELETE_SNAPSHOT | PUBLISH_UNPUBLISH_VOLUME
| CLONE_VOLUME | LIST_SNAPSHOTS | EXPAND_VOLUME.
Inductive GroupControllerServiceCapability := CREATE_DELETE_GET_VOLUME_GROUP_SNAPSHOT.
Inductive NodeServiceCapability :=
| NODE_STAGE_UNSTAGE_VOLUME | NODE_UNKNOWN | NODE_EXPAND_VOLUME | NODE_GET_VOLUME_STATS.
Inductive PluginCapability := CONTROLLER_SERVICE | GROUP_CONTROLLER_SERVICE | VOLUME_ACCESSIBILITY_CONSTRAINTS.
(** Of those the CSI add-ons have. *)
Inductive AddonsCapability :=
| Service_CONTROLLER | Service_NODE | VOLUME_REPLICATION | VOLUME_GROUP
| DO_NOT_ALLOW_VG_TO_DELETE_VOLUMES | LIMIT_VOLUME_TO_ONE_VOLUME_GROUP | MODIFY_VOLUME_GROUP | GET_VOLUME_GROUP.

(** ** driver.go: the driver *)

Record DriverOptions := MkDriverOptions {
  opt_NodeID : string;
  opt_DriverName : string;
  opt_Endpoint : string;
  opt_AddonsEndpoint : string;
  opt_Version : string
}.
Record Driver := MkDriver {
  name : string;
  nodeID : string;
  version : string;
  endpoint : string;
  addonsEndpoint : string;
  cscap : list ControllerServiceCapability;
  nscap : list NodeServiceCapability;
  groupcap : list GroupControllerServiceCapability
}.
Definition NewDriver (options : DriverOptions) : Driver := {|
  name := opt_DriverName options;
  nodeID := opt_NodeID options;
  version := opt_Version options;
  endpoint := opt_Endpoint options;
  addonsEndpoint := opt_AddonsEndpoint options;
  cscap := [CREATE_DELETE_VOLUME; LIST_VOLUMES; CREATE_DELETE_SNAPSHOT; PUBLISH_UNPUBLISH_VOLUME; CLONE_VOLUME;
            LIST_SNAPSHOTS; EXPAND_VOLUME];
  nscap := [NODE_STAGE_UNSTAGE_VOLUME; NODE_UNKNOWN; NODE_EXPAND_VOLUME; NODE_GET_VOLUME_STATS];
  groupcap := [CREATE_DELETE_GET_VOLUME_GROUP_SNAPSHOT]
|}.

(** ** identityserver.go *)

Definition GetPluginInfo (driver : Driver) : res (string * string) :=
  if String.eqb (name driver) "" then Err (EStatus Unavailable "Driver name not configured")
  else if String.eqb (version driver) "" then Err (EStatus Unavailable "Driver is missing version")
  else Ok (name driver, version driver).
Definition Probe : res bool := Ok true.
Definition GetPluginCapabilities : list PluginCapability :=
  [CONTROLLER_SERVICE; GROUP_CONTROLLER_SERVICE; VOLUME_ACCESSIBILITY_CONSTRAINTS].

(** ** The process and its surroundings *)

Inductive addons_service := AddonsIdentity | AddonsReplication | AddonsVolumeGroup.
Inductive csi_service := CsiIdentity | CsiGroupController | CsiController | CsiNode.
(** A node as [main] looks at it. *)
Record NodeInfo := MkNodeInfo { OSImage : string; KubeletVersion : string }.
Inductive removal := Removed | NotThere | NotRemoved (err : error).

(** The serving of a server ends with an error, or without one when it was stopped. *)
Inductive dcall : Type -> Type :=
| Getenv (key : string) : dcall string
| Setenv (key value : string) : dcall (option error)
| BuildClient : dcall (option error)
| GetNodes : dcall (res (list NodeInfo))
| NewMounter : dcall unit
| Remove (path : string) : dcall removal
| Listen (network address : string) : dcall (option error)
| RegisterAddons (s : addons_service) : dcall unit
| GoServeAddons : dcall unit
| Register (s : csi_service) : dcall unit
| Serve : dcall (option error)
| Exit (status : Z) : dcall unit.
(** [os.Exit(1)]: nothing follows. *)
Definition exit1 : prog dcall unit := trigger (Exit 1).

(** ** csiaddons/identity.go and server.go *)

Record Config := MkConfig {
  AddonsEndpoint : string;
  DriverName : string;
  DriverVersion : string;
  IsControllerServer : bool;
  IsNodeServer : bool
}.
Definition GetIdentity (config : Config) : res (string * string) := Ok (DriverName config, DriverVersion config).
Definition GetCapabilities (config : Config) : list AddonsCapability :=
  (if IsControllerServer config
   then [Service_CONTROLLER; VOLUME_REPLICATION; VOLUME_GROUP; DO_NOT_ALLOW_VG_TO_DELETE_VOLUMES;
         LIMIT_VOLUME_TO_ONE_VOLUME_GROUP; MODIFY_VOLUME_GROUP; GET_VOLUME_GROUP]
   else []) ++
  (if IsNodeServer config then [Service_NODE] else []).
Definition AddonsProbe : res bool := Ok true.

Section process.
(** [url.Parse]: the scheme and the path. *)
Context (url_Parse : string -> res (string * string)).

Record CSIAddonsServer := MkCSIAddonsServer {
  scheme : string;
  path : string;
  services : list addons_service
}.
Definition NewCSIAddonsServer (endpoint : string) : res CSIAddonsServer :=
  match url_Parse endpoint with
  | Err err => Err err
  | Ok (scheme, path) =>
      if String.eqb scheme "unix" then Ok (MkCSIAddonsServer scheme path [])
      else Err (EText ("no UNIX domain socket: " +:+ endpoint))
  end.
Definition RegisterService (cas : CSIAddonsServer) (svc : addons_service) : CSIAddonsServer :=
  MkCSIAddonsServer (scheme cas) (path cas) (services cas ++ [svc]).
Fixpoint register_all (svcs : list addons_service) : prog dcall unit :=
  match svcs with
  | [] => Ret tt
  | svc :: rest => trigger (RegisterAddons svc) ;;; register_all rest
  end.
Definition Start (cas : CSIAddonsServer) : prog dcall (option error) :=
  register_all (services cas) ;;;
  removed <- trigger (Remove (path cas)) ;;
  match removed with
  | NotRemoved err => Ret (Some (EWrap ("failed to remove " +:+ Quote (path cas) +:+ ": ") err ""))
  | _ =>
      listening <- trigger (Listen (scheme cas) (path cas)) ;;
      match listening with
      | Some err => Ret (Some (EWrap ("failed to listen on " +:+ Quote (path cas) +:+ ": ") err ""))
      | None => trigger GoServeAddons ;;; Ret None
      end
  end.

(** The server of the add-ons of a process in a role. When it cannot be made the error
    is logged, and the services are registered with nothing. *)
Definition addons_config (driver : Driver) (role : string) : Config := {|
  AddonsEndpoint := addonsEndpoint driver;
  DriverName := name driver;
  DriverVersion := version driver;
  IsControllerServer := String.eqb role "controller";
  IsNodeServer := negb (String.eqb role "controller")
|}.
Definition start_addons (driver : Driver) (role : string) : prog dcall unit :=
  if String.eqb (addonsEndpoint driver) "" then Ret tt
  else
    let conf := addons_config driver role in
    match NewCSIAddonsServer (addonsEndpoint driver) with
    | Err _ => Panic
    | Ok addonsServer =>
        let addonsServer := RegisterService addonsServer AddonsIdentity in
        let addonsServer :=
          if IsControllerServer conf
          then RegisterService (RegisterService addonsServer AddonsReplication) AddonsVolumeGroup
          else addonsServer in
        Start addonsServer ;;; Ret tt
    end.

(** ** server.go *)

(** [strings.SplitN(s, sep, 2)] around the first [sep]. *)
Fixpoint split_first (sep s : string) : string * option string :=
  match s with
  | "" => ("", None)
  | String c rest =>
      if String.prefix sep s then ("", Some (String.substring (String.length sep) (String.length s) s))
      else let (before, after) := split_first sep rest in (String c before, after)
  end.
Definition ParseEndpoint (endpoint : string) : res (string * string) :=
  let invalid := Err (EText ("invalid endpoint: " +:+ endpoint)) in
  if String.prefix "unix://" (ToLower endpoint) || String.prefix "tcp://" (ToLower endpoint) then
    match split_first "://" endpoint with
    | (proto, Some addr) => if String.eqb addr "" then invalid else Ok (proto, addr)
    | (_, None) => invalid
    end
  else invalid.

(** [serve] and [Start]: the four services are registered and served. A socket that
    cannot be listened on is logged; its address is asked for all the same. *)
Definition serve (endpoint : string) : prog dcall unit :=
  match ParseEndpoint endpoint with
  | Err _ => exit1
  | Ok (proto, addr) =>
      let addr := if String.eqb proto "unix" then "/" +:+ addr else addr in
      removed <- (if String.eqb proto "unix" then trigger (Remove addr) else Ret Removed) ;;
      match removed with
      | NotRemoved _ => exit1
      | _ =>
          listening <- trigger (Listen proto addr) ;;
          trigger (Register CsiIdentity) ;;;
          trigger (Register CsiGroupController) ;;;
          trigger (Register CsiController) ;;;
          trigger (Register CsiNode) ;;;
          match listening with
          | Some _ => Panic
          | None =>
              ended <- trigger Serve ;;
              match ended with Some _ => exit1 | None => Ret tt end
          end
      end
  end.

(** ** driver.go: the run, and main.go *)

Definition Run (driver : Driver) : prog dcall unit :=
  role <- trigger (Getenv "CSI_DRIVER_ROLE") ;;
  (if String.eqb role "controller" then Ret tt else trigger NewMounter) ;;;
  start_addons driver role ;;;
  serve (endpoint driver).

Definition getKubeNode : prog dcall (res (NodeInfo * string)) :=
  kc <- trigger BuildClient ;;
  match kc with
  | Some err => Ret (Err err)
  | None =>
      nodes <- trigger GetNodes ;;
      Ret (match nodes with
           | Ok (node :: rest) => Ok (node, Itoa (Z.of_nat (length (node :: rest))))
           | _ => Err (EText "zero nodes found, problem getting a node")
           end)
  end.
(** The variables other parts of the driver make events of. *)
Fixpoint set_all (vars : list (string * string)) : prog dcall bool :=
  match vars with
  | [] => Ret true
  | (key, value) :: rest =>
      err <- trigger (Setenv key value) ;;
      match err with Some _ => Ret false | None => set_all rest end
  end.
Definition main (version : string) : prog dcall unit :=
  nodeIP <- trigger (Getenv "NODE_IP") ;;
  if String.eqb nodeIP "" then exit1 else
  driverName <- trigger (Getenv "CSI_DRIVER_NAME") ;;
  if String.eqb driverName "" then exit1 else
  csiEndpoint <- trigger (Getenv "CSI_ENDPOINT") ;;
  if String.eqb csiEndpoint "" then exit1 else
  csiAddonsEndpoint <- trigger (Getenv "CSI_ADDONS_ENDPOINT") ;;
  if String.eqb version "" then exit1 else
  node <- getKubeNode ;;
  match node with
  | Err _ => exit1
  | Ok (node, nodeCount) =>
      done <- set_all [(EnvVarCSIDriverVersion, version); (EnvVarOSVersion, OSImage node);
                       (EnvVarKubeVersion, KubeletVersion node); (EnvVarNodeCount, nodeCount)] ;;
      if negb done then exit1 else
      Run (NewDriver (MkDriverOptions nodeIP driverName csiEndpoint csiAddonsEndpoint version))
  end.
End process.
