(* ===== verification/DriverProofs.v ===== *)
(** Properties of the start of the driver process: what is served, after what, and
    that what is declared is registered. *)
From stdpp Require Import base strings list gmap.
From S2P Require Import Prelude GoLib IboxTypes Csi Driver.
From Stdlib Require Import ZArith Lia.

Local Open Scope string_scope.
Local Open Scope list_scope.

Abbreviation dtrace := (list (evt dcall)).





Section main.
Context (url_Parse : string -> res (string * string)).







End main.

